(* ===== verification/_CoqProject ===== *)
-Q . S2P
Prelude.v
Effects.v
Types.v
Ledger.v
Sample.v
Utils.v
Storage.v
Remote.v
Engine.v
EngineRules.v
EngineOrder.v
EngineInv.v
EngineSpec.v
EngineFrame.v
SyncProps.v
Views.v
Lifecycle.v
Stale.v
Await.v
Rely.v
EngineAsync.v
EngineRely.v
EngineTurns.v
Schedule.v
Elements.v
Items.v
ScreenHome.v
ScreenHistory.v
ScreenCharts.v
ScreenAdd.v
Layout.v
Submit.v
