(* ===== verification/Prelude.v ===== *)
(** * Verification of the Splikaro finance tracker: offline-first ledger sync

    The program is a React Native application whose core is the
    [TransactionProvider] of [src/context/TransactionContext.tsx]: an
    in-memory list of transactions (React state), persisted as a whole into
    AsyncStorage, uploaded one document per transaction to a Firestore
    collection with a bounded retry loop, and completed by a pull of the
    remote documents newer than a stored cursor.  The provider is entered by
    its effect, by the listener the effect registers with NetInfo, by the
    form of [src/app/add.tsx] (through [addTransaction]) and by the screens
    under [src/app], which read the list; [src/data/sampleTransactions.ts]
    generates the list of a first start, and [src/utils] holds two modules
    nothing else imports.

    ** Files of the development, in dependency order

    - [Prelude] (this file): what every component shares.  The notation
      scope [ledger_scope], the tactic [case_branch], the hint database
      [ledger], oracle scripts ([pop]), and lemmas on filters, on keyed
      lists, on sums over lists and on JavaScript array primitives
      ([js_push], [js_slice0]).
    - [Effects]: the state-and-exception monad [M] in which every [async]
      function of the source is written ([ret], [bind], [throw],
      [try_catch], [try_finally], [for_each]), program equivalence with its
      [Proper] instances and the monad laws, the proof rules [hoare],
      [preserves] (invariants), [advances] (preorders on the state),
      [no_throw] and [always] (handled rejections), the calculus [wp] for
      symbolic runs, and the tactics [preserves_walk] and [advances_walk]
      that follow the structure of a program.
    - [Types]: [src/types/index.ts].  [Transaction] is the record of the
      source with its seven fields; [NewTransaction] is
      [Omit<Transaction, 'id' | 'synced'>].  [with_synced], [ids],
      [unique_ids], and the order [tx_le] (the same record, [synced] only
      from [false] to [true]).
    - [Ledger]: the pure list computations of the provider
      ([initializedTransactions], [transactionWithId],
      [updatedTransactions], [getUnsyncedTransactions], [mark_synced],
      [merge] with its map of known identifiers), their algebra, the order
      [ledger_le], and the refinement of [merge] to the existence-based
      [merge_spec].
    - [Sample]: [src/data/sampleTransactions.ts]: the generator of one
      hundred random transactions over a source of random numbers, its
      [do ... while] loop on fuel, the well-formedness of a result, the
      fuel that is enough, and a source on which the loop never ends.
    - [Utils]: [src/utils/database.ts] (module [Database]: the SQLite table
      with its primary key) and [src/utils/notification.ts] (module
      [NotificationService]: the emitter and [notify]).
    - [Storage]: the two AsyncStorage items the provider uses,
      ['transactions'] and ['lastSyncTime'], as a record of two options
      ([None] is an item never written), with [cursor] and [stored].
    - [Remote]: the Firestore collection: [setDoc] (overwrite by
      identifier) and the query [where('timestamp', '>', t)].  The class
      [RemoteLedger] is what the engine relies on; [firestore_ledger] is
      its instance for the collection as a finite map.
    - [Engine]: the provider itself.  [World] is the whole state (JavaScript
      heap of arrays, React hooks, AsyncStorage, remote ledger, the
      environment's scripts and the trace of events); [Closure] is what the
      functions of one render captured.  One definition per function of
      [TransactionContext.tsx], in the monad, with the source's guards,
      [try]/[catch]/[finally] blocks and early returns; the engine is
      parametric in the [RemoteLedger].
    - [EngineRules]: the [wp] equation of every primitive effect, and the
      tactics of symbolic runs ([wp_go], [wp_start], [concrete], [by_run]).
    - [EngineOrder]: the preorder [extends] (the trace grows at its end,
      arrays are only pushed to, identifiers are only drawn) and the proof
      that every handler climbs it.
    - [EngineInv]: the well-formedness [inv] of a world (the hook refers to
      an array, identifiers are unique in every array and in the store, no
      identifier in use is drawn again) and its preservation by every
      handler.
    - [EngineSpec]: that no handler rejects, and the exact summary of every
      handler: [wp h Q w = Q (Ok ()) (f w)] for a function [f] on worlds
      built from a few updates ([toasted], [uploaded], [saved], [marked],
      [retry], [pulled], [guarded], ...).
    - [EngineFrame]: the frame rule of the engine.  The bookkeeping of a
      handler is [silent] on the [core] of the world; the class [Stable]
      lists what a property has to satisfy at the five updates of the core,
      and every handler keeps a stable property.
    - [SyncProps]: the theorems about the handlers: the retry loop (backoff
      sequence, bound, first success, fuel), the single-flight guard, the
      offline and error paths, [addTransaction], the pull and the cursor,
      well-formedness, monotonicity of the ledger, the start of the
      application, and the scenarios of the specification on concrete
      worlds.
    - [Views]: what the screens compute ([src/app/index.tsx],
      [history.tsx], [charts.tsx], [add.tsx], [_layout.tsx], the two list
      items): totals, the in-place sort of the dashboard, the filter of the
      history, the expenses by category, the submit handler, the icons.
    - [Lifecycle]: the provider between its entry points as a transition
      system ([App], [Task], [step], computed by [run]): the effect with
      its dependency [[loading]], the listener and its closure, the form
      and the dashboard.  The invariants of the reachable states, by
      induction on the run.
    - [Stale]: what the listener's closure does not see: a transaction
      added offline is never uploaded by the running application, and the
      listener uploads the same entries at every change of connectivity.
    - [Await]: an [async] function between its [await]s.  [Prog] is the
      finite tree of the pieces a function runs without interruption;
      [sync] and [await] mark its statements, [interp] forgets the marks,
      [settle] and [resume] run one piece, and a pool of suspended
      functions is advanced by [spawn] and [wake].
    - [Rely]: a rely-guarantee logic for such programs.  A [Protocol]
      says what holds between two pieces and what a piece may change;
      [triple] and [keeps] are proved along the text of a program with
      [keeps_walk]; [spawn_ok] and [wake_ok] carry the proof of each
      function to the pool ([pool_ok]), whatever function is resumed next.
    - [EngineAsync]: module [Async], the functions of
      [TransactionContext.tsx] once more, with the operations of the
      platform they await marked; [refines_*] and [programs_refine]: with
      the marks forgotten they are the functions of [Engine].
    - [EngineRely]: the protocol of the provider.  Between two pieces the
      world is well formed ([sound]) except that the identifier a call of
      [addTransaction] has drawn is not yet in the list; a piece only
      extends the world ([allowed]).
    - [EngineTurns]: every function of [Async] keeps the protocol, piece by
      piece, and the three entry points are [callable] at any time.
    - [Schedule]: the event loop.  [Sys] is the provider with its suspended
      functions; a [Move] calls into the provider or lets an awaited
      operation settle; [play] runs a schedule.  The run-to-completion
      model is one schedule ([run_is_schedule]); every schedule keeps the
      world well formed ([every_schedule_wellformed]); the single-flight
      guard never holds a cycle back ([guard_never_holds],
      [cycles_overlap]).
    - [Elements]: the values of a tree of React elements ([JSX]), the
      handlers of a tree as messages ([handlers], [inputs], [sends]), the
      states a screen reaches by them ([reachable]), and [toFixed].
    - [Items]: [src/components/TransactionItem.tsx] and [HistoryItem.tsx]:
      the trees of the two list items and their style sheets.
    - [ScreenHome], [ScreenHistory], [ScreenCharts], [ScreenAdd]: the four
      screens of [src/app], one module each ([Home], [History], [Charts],
      [Add]): the state variables of the screen, what its handlers do, the
      tree it returns, its style sheet, and the component as a function of
      the provider's world.  [ScreenAdd] holds the form: the rules of its
      fields, [handleSubmit], [onSubmit], [reset].
    - [Layout]: [src/app/_layout.tsx]: the theme, the options of the tabs,
      the four screens, and that every call of the router leads to one.
    - [Submit]: the press of the button of the form with its awaits.
      Module [Pressed] holds [onSubmit] and [handleSubmit] as programs of
      [Await] over [Ui], the form, the path and the world of the provider
      together; the functions of the provider are those of [Async],
      lifted.  [handleSubmit_refines]: with the awaits forgotten a press
      is the press of [ScreenAdd].  [double_press_stored]: two presses in
      a row, over every order in which the awaited operations settle
      ([Await.outcomes], with fuel 4 for the two awaits of each press).

    ** Modelling decisions

    - Instants.  [date] fields and the sync cursor are ISO-8601 strings in
      the source and are only ever produced by [toISOString] and consumed by
      [new Date(..)]; they are modelled by the instant they denote, a [Z] of
      milliseconds since the epoch.  Firestore's [Timestamp.fromDate] is the
      identity on that representation.
    - Amounts.  [amount] is a JavaScript number; it is modelled as an exact
      [Z] of minor currency units.  Floating-point rounding is outside the
      model; [parseFloat] is a parameter of the form's submit handler.
    - Arrays are heap objects.  [transactions.push] in [mergeTransactions]
      and [transactions.sort] in the dashboard mutate the array a closure
      captured; [setTransactions] installs a new array.  [World] therefore
      holds a heap of arrays and the hook holds a reference.
    - Closures.  Every function of the provider reads the [transactions],
      [isSyncing] and [loading] of the render that created it.  Handlers
      take that [Closure] explicitly; [render] builds the closure of the
      current state.  State updates are applied at once, and the updater
      form [setTransactions(prev => ..)] reads the current list.
    - The environment.  Connectivity, the outcomes of uploads, queries and
      storage accesses are scripts in [Env], consumed in call order; an
      exhausted script answers "success".  Identifiers come from a function
      [uuid] read at a counter; the clock is a field that [sleep] moves.
    - Run to completion and interleaving.  In [Engine] and [Lifecycle]
      each [async] function runs to completion: a handler is one function
      of the world, and a task is one handler.  In [EngineAsync] and
      [Schedule] the functions are interleaved at the operations of the
      platform they await ([AsyncStorage.getItem] and [setItem], [setDoc],
      [getDocs], [NetInfo.fetch], the timer of [sleep]): a function runs
      until it awaits one, other functions run meanwhile, and the effect of
      the operation takes place when the function is resumed.  An [await]
      of a function of the provider itself is no point of interleaving: no
      other function of the provider is ready to run then.  The write that
      [markTransactionAsSynced] starts without awaiting it is complete when
      the updater returns.  The order in which operations settle is
      arbitrary: a schedule is any list of moves.
    - Screens.  A component is a function from the state it reads to the
      tree of elements it returns; an element of a component of the
      repository is the tree that component returns.  Event handlers are
      messages to the state machine of the screen.  The components of
      react-native, react-native-paper, react-native-chart-kit and
      expo-router are names of elements; of their behaviour the model has
      what the screens rely on: [FlatList] renders its data under their
      keys, [SegmentedButtons] hands over the value of the button pressed,
      react-hook-form validates [required] rules at [handleSubmit], and
      expo-router serves [index.tsx] at [/].  [toLocaleDateString], the
      width of the window and the base theme are parameters.
    - Fuel.  The retry loop of [attemptSyncTransaction] is a [Fixpoint] on
      fuel started with [MAX_RETRIES] units; every turn that does not
      succeed increments [attempt], and [EngineSpec.attempt_loop_fuel]
      proves that the fuel is never exhausted.  The loop of the sample
      generator has no bound in the source: [Sample.generate_enough_fuel]
      gives the fuel that is enough for a source, and
      [Sample.generate_diverges] a source for which none is.
    - Strings.  [toLowerCase] is modelled on ASCII letters; the keys of the
      object of the charts are in insertion order, as for every key that is
      not an integer.

    ** Not modelled

    The layout of the elements on the screen and their animations (the
    trees carry the styles and the animations as data), the window of
    [FlatList], what the chart widgets draw, console output, the Firebase
    configuration, the rounding of amounts to doubles, and the awaits
    inside react-hook-form ([handleSubmit] validates at once; of the
    awaits of a press the model has those of [addTransaction]). *)

From stdpp Require Export base tactics strings numbers option list gmap.

Declare Scope ledger_scope.
Delimit Scope ledger_scope with ledger.
#[global] Open Scope Z_scope.
#[export] Set Warnings "-clear-no-such-hyp".

(** ** Tactics *)

(** Case analysis on the guard of the first conditional or match of the goal. *)
Ltac case_branch :=
  match goal with
  | |- context [if decide ?P then _ else _] => destruct (decide P)
  | |- context [if ?b then _ else _] => let E := fresh "Hguard" in destruct b eqn:E
  | |- context [match ?x with _ => _ end] => let E := fresh "Hcase" in destruct x eqn:E
  end.

Create HintDb ledger discriminated.
Create Rewrite HintDb ledger.

(** ** Scripts: the answers of the environment, in call order *)

(** [pop d l] is the next answer of script [l] and the rest of the script; an
    exhausted script answers [d]. *)
Definition pop {A} (d : A) (l : list A) : A * list A :=
  match l with
  | [] => (d, [])
  | x :: l' => (x, l')
  end.

(** ** JavaScript array primitives *)

(** [arr.push(x)]. *)
Definition js_push {A} (x : A) (arr : list A) : list A := arr ++ [x].

(** [arr.slice(0, n)]. *)
Definition js_slice0 {A} (n : nat) (arr : list A) : list A := take n arr.

(** [arr.reduce((sum, x) => sum + f(x), 0)]. *)
Definition sum_with {A} (f : A → Z) (arr : list A) : Z :=
  foldl (λ sum x, sum + f x) 0 arr.

(** ** Lemmas on scripts *)

Lemma pop_nil {A} (d : A) : pop d [] = (d, []).
Proof. done. Qed.

Lemma pop_cons {A} (d x : A) l : pop d (x :: l) = (x, l).
Proof. done. Qed.

Lemma pop_length {A} (d : A) l : length (pop d l).2 = pred (length l).
Proof. by destruct l. Qed.

(** ** Lemmas on filters *)

Lemma filter_none {A} (P : A → Prop) `{!∀ x, Decision (P x)} (l : list A) :
  Forall (λ x, ¬ P x) l → filter P l = [].
Proof.
  induction 1 as [|x l Hx _ IH]; [done|]. by rewrite filter_cons_False.
Qed.

(** ** Lemmas on keyed lists *)

Section keyed.
Context {A K : Type} `{EqDecision K} (key : A → K).

Lemma elem_of_keys x (l : list A) : x ∈ l → key x ∈ key <$> l.
Proof. intros. by apply list_elem_of_fmap_2. Qed.

Lemma NoDup_keys_snoc (l : list A) x :
  NoDup (key <$> (l ++ [x])) ↔ NoDup (key <$> l) ∧ key x ∉ key <$> l.
Proof.
  rewrite fmap_app, NoDup_app. simpl. split.
  - intros (? & Hd & _). split; [done|]. intros Hin. apply (Hd _ Hin). by left.
  - intros [? Hx]. split_and!; [done| |apply NoDup_singleton].
    intros k Hk ->%list_elem_of_singleton. done.
Qed.

Lemma NoDup_keys_inj (l : list A) x y :
  NoDup (key <$> l) → x ∈ l → y ∈ l → key x = key y → x = y.
Proof.
  induction l as [|a l IH]; [by intros _ ?%elem_of_nil|].
  rewrite fmap_cons, NoDup_cons. intros [Ha Hl] Hx Hy Hk.
  apply elem_of_cons in Hx as [->|Hx]; apply elem_of_cons in Hy as [->|Hy];
    [done| | |by apply IH].
  - exfalso. apply Ha. rewrite Hk. by apply elem_of_keys.
  - exfalso. apply Ha. rewrite <- Hk. by apply elem_of_keys.
Qed.

(** Rewriting the elements of a list without touching their keys. *)
Lemma keys_fmap_id (g : A → A) (l : list A) :
  (∀ x, key (g x) = key x) → key <$> (g <$> l) = key <$> l.
Proof. intros Hg. induction l; simpl; [done|]. by f_equal. Qed.
End keyed.

(** ** Lemmas on sums *)

Section sums.
Context {A : Type} (f : A → Z).

Lemma foldl_add_shift (l : list A) (z : Z) :
  foldl (λ sum x, sum + f x) z l = z + foldl (λ sum x, sum + f x) 0 l.
Proof.
  revert z. induction l as [|x l IH]; intros z; simpl; [lia|].
  rewrite (IH (z + f x)), (IH (0 + f x)). lia.
Qed.

Lemma sum_with_nil : sum_with f [] = 0.
Proof. done. Qed.

Lemma sum_with_cons x l : sum_with f (x :: l) = f x + sum_with f l.
Proof. unfold sum_with. simpl. rewrite foldl_add_shift. lia. Qed.

Lemma sum_with_app l1 l2 : sum_with f (l1 ++ l2) = sum_with f l1 + sum_with f l2.
Proof.
  induction l1 as [|x l1 IH]; simpl; [by rewrite sum_with_nil|].
  rewrite !sum_with_cons, IH. lia.
Qed.

Lemma sum_with_perm l1 l2 : l1 ≡ₚ l2 → sum_with f l1 = sum_with f l2.
Proof.
  induction 1; rewrite ?sum_with_cons; lia.
Qed.

Lemma sum_with_nonneg l : Forall (λ x, 0 ≤ f x) l → 0 ≤ sum_with f l.
Proof.
  induction 1; [by rewrite sum_with_nil|]. rewrite sum_with_cons. lia.
Qed.
End sums.

#[export] Hint Rewrite @pop_nil @pop_cons : ledger.
#[export] Hint Rewrite @sum_with_nil @sum_with_cons @sum_with_app : ledger.

#[global] Instance sum_with_Permutation {A} (f : A → Z) :
  Proper ((≡ₚ) ==> (=)) (sum_with f).
Proof. intros ???. by apply sum_with_perm. Qed.
