(* ===== verification/Effects.v ===== *)
(** * Effects: the monad of [async] functions

    An [async] function of the source reads and writes the state of the
    application and either resolves to a value or rejects with an error.
    [M S E A] is the type of such computations over a state [S] with errors
    [E]: state passing with an [Outcome].  A rejection keeps the state
    reached so far, as JavaScript does: nothing is rolled back by a [throw].

    The file gives the operations ([ret], [bind], [throw], [try_catch],
    [try_finally], [for_each]), program equivalence [≡] with the monad laws,
    and the proof rules shared by the component files: [hoare] triples,
    [preserves] (invariants), [advances] (preorders on states) and
    [no_throw] (every rejection is handled). *)

From S2P Require Import Prelude.

Declare Scope eff_scope.
Delimit Scope eff_scope with eff.

Inductive Outcome (E A : Type) : Type :=
  | Ok (a : A)
  | Throw (e : E).
Arguments Ok {E A} a.
Arguments Throw {E A} e.

Definition M (S E A : Type) : Type := S → Outcome E A * S.

Definition is_ok {E A} (o : Outcome E A) : bool :=
  match o with Ok _ => true | Throw _ => false end.

Section operations.
Context {S E : Type}.
Implicit Types s : S.

(** [return a] *)
Definition ret {A} (a : A) : M S E A := λ s, (Ok a, s).

(** [const x = await m; k x] *)
Definition bind {A B} (m : M S E A) (k : A → M S E B) : M S E B :=
  λ s, match m s with
       | (Ok a, s') => k a s'
       | (Throw e, s') => (Throw e, s')
       end.

(** [throw e] *)
Definition throw {A} (e : E) : M S E A := λ s, (Throw e, s).

(** [try { m } catch (e) { h e }] *)
Definition try_catch {A} (m : M S E A) (h : E → M S E A) : M S E A :=
  λ s, match m s with
       | (Ok a, s') => (Ok a, s')
       | (Throw e, s') => h e s'
       end.

(** [try { m } finally { f }]: [f] runs whatever the outcome of [m]; the
    outcome of [m] stands unless [f] itself throws. *)
Definition try_finally {A} (m : M S E A) (f : M S E unit) : M S E A :=
  λ s, match m s with
       | (r, s') =>
           match f s' with
           | (Ok _, s'') => (r, s'')
           | (Throw e, s'') => (Throw e, s'')
           end
       end.

Definition get : M S E S := λ s, (Ok s, s).
Definition gets {A} (f : S → A) : M S E A := λ s, (Ok (f s), s).
Definition modify (f : S → S) : M S E unit := λ s, (Ok (), f s).

(** [for (const x of l) { await f(x) }] *)
Fixpoint for_each {A} (f : A → M S E unit) (l : list A) : M S E unit :=
  match l with
  | [] => ret ()
  | x :: l' => bind (f x) (λ _, for_each f l')
  end.

(** The state a computation ends in, and its outcome. *)
Definition exec {A} (m : M S E A) s : S := (m s).2.
Definition outcome {A} (m : M S E A) s : Outcome E A := (m s).1.
End operations.

Notation "x <- m ;; k" := (bind m (λ x, k))
  (at level 100, m at next level, right associativity) : eff_scope.
Notation "m ;; k" := (bind m (λ _, k))
  (at level 100, right associativity) : eff_scope.
Open Scope eff_scope.

(** ** Program equivalence and the monad laws *)

Section equivalence.
Context {S E : Type}.

#[global] Instance M_equiv {A} : Equiv (M S E A) := λ m1 m2, ∀ s, m1 s = m2 s.

#[global] Instance M_equivalence {A} : Equivalence (≡@{M S E A}).
Proof.
  split; [by intros m s|by intros m1 m2 H s|].
  intros m1 m2 m3 H12 H23 s. by rewrite H12.
Qed.

#[global] Instance bind_proper {A B} :
  Proper ((≡) ==> pointwise_relation A (≡) ==> (≡)) (@bind S E A B).
Proof.
  intros m1 m2 Hm k1 k2 Hk s. unfold bind. rewrite Hm.
  destruct (m2 s) as [[a|e] s']; [apply Hk|done].
Qed.

#[global] Instance try_catch_proper {A} :
  Proper ((≡) ==> pointwise_relation E (≡) ==> (≡)) (@try_catch S E A).
Proof.
  intros m1 m2 Hm h1 h2 Hh s. unfold try_catch. rewrite Hm.
  destruct (m2 s) as [[a|e] s']; [done|apply Hh].
Qed.

#[global] Instance try_finally_proper {A} :
  Proper ((≡) ==> (≡) ==> (≡)) (@try_finally S E A).
Proof.
  intros m1 m2 Hm f1 f2 Hf s. unfold try_finally. rewrite Hm.
  destruct (m2 s) as [r s']. by rewrite Hf.
Qed.

#[global] Instance exec_proper {A} : Proper ((≡) ==> (=) ==> (=)) (@exec S E A).
Proof. intros m1 m2 Hm s ? <-. unfold exec. by rewrite Hm. Qed.

#[global] Instance outcome_proper {A} :
  Proper ((≡) ==> (=) ==> (=)) (@outcome S E A).
Proof. intros m1 m2 Hm s ? <-. unfold outcome. by rewrite Hm. Qed.

Lemma bind_ret_l {A B} (a : A) (k : A → M S E B) : (x <- ret a ;; k x) ≡ k a.
Proof. by intros s. Qed.

Lemma bind_ret_r {A} (m : M S E A) : (x <- m ;; ret x) ≡ m.
Proof. intros s. unfold bind, ret. by destruct (m s) as [[a|e] s']. Qed.

Lemma bind_assoc {A B C} (m : M S E A) (k : A → M S E B) (h : B → M S E C) :
  (y <- (x <- m ;; k x) ;; h y) ≡ (x <- m ;; y <- k x ;; h y).
Proof. intros s. unfold bind. by destruct (m s) as [[a|e] s']. Qed.

Lemma bind_throw {A B} (e : E) (k : A → M S E B) : (x <- throw e ;; k x) ≡ throw e.
Proof. by intros s. Qed.

Lemma try_catch_ret {A} (a : A) (h : E → M S E A) : try_catch (ret a) h ≡ ret a.
Proof. by intros s. Qed.

Lemma try_catch_throw {A} (e : E) (h : E → M S E A) : try_catch (throw e) h ≡ h e.
Proof. by intros s. Qed.

Lemma try_catch_rethrow {A} (m : M S E A) : try_catch m throw ≡ m.
Proof. intros s. unfold try_catch, throw. by destruct (m s) as [[a|e] s']. Qed.

Lemma try_finally_ret {A} (m : M S E A) : try_finally m (ret ()) ≡ m.
Proof. intros s. unfold try_finally, ret. by destruct (m s). Qed.

Lemma for_each_app {A} (f : A → M S E unit) l1 l2 :
  for_each f (l1 ++ l2) ≡ (for_each f l1 ;; for_each f l2).
Proof.
  induction l1 as [|x l1 IH]; simpl; [by rewrite bind_ret_l|].
  rewrite bind_assoc. by setoid_rewrite IH.
Qed.
End equivalence.

(** ** Proof rules *)

Section rules.
Context {S E : Type}.
Implicit Types (P I : S → Prop) (R : relation S).

(** [hoare P m Q]: from a state satisfying [P], [m] ends with an outcome
    and a state related by [Q].  Computations are total functions, so this
    is total correctness. *)
Definition hoare {A} P (m : M S E A) (Q : Outcome E A → S → Prop) : Prop :=
  ∀ s, P s → Q (outcome m s) (exec m s).

(** [preserves I m]: [m] keeps the invariant [I], whether it resolves or
    rejects. *)
Definition preserves {A} I (m : M S E A) : Prop := ∀ s, I s → I (exec m s).

(** [advances R m]: the final state of [m] is [R]-later than its initial
    state. *)
Definition advances {A} R (m : M S E A) : Prop := ∀ s, R s (exec m s).

(** [no_throw m]: [m] always resolves. *)
Definition no_throw {A} (m : M S E A) : Prop := ∀ s, is_ok (outcome m s) = true.

Lemma hoare_conseq {A} P P' (m : M S E A) Q Q' :
  hoare P' m Q' → (∀ s, P s → P' s) → (∀ o s, Q' o s → Q o s) → hoare P m Q.
Proof. unfold hoare. eauto. Qed.

Lemma hoare_ret {A} P (a : A) : hoare P (ret a : M S E A) (λ o s, o = Ok a ∧ P s).
Proof. by intros s Hs. Qed.

Lemma hoare_bind {A B} P (m : M S E A) (k : A → M S E B) Q1 Q :
  hoare P m Q1 →
  (∀ a, hoare (Q1 (Ok a)) (k a) Q) →
  (∀ e s, Q1 (Throw e) s → Q (Throw e) s) →
  hoare P (x <- m ;; k x) Q.
Proof.
  intros Hm Hk He s Hs. specialize (Hm s Hs).
  unfold outcome, exec, bind in *. destruct (m s) as [[a|e] s']; simpl in *.
  - by apply Hk.
  - by apply He.
Qed.

Lemma hoare_try_catch {A} P (m : M S E A) h Q1 Q :
  hoare P m Q1 →
  (∀ e, hoare (Q1 (Throw e)) (h e) Q) →
  (∀ a s, Q1 (Ok a) s → Q (Ok a) s) →
  hoare P (try_catch m h) Q.
Proof.
  intros Hm Hh Ha s Hs. specialize (Hm s Hs).
  unfold outcome, exec, try_catch in *. destruct (m s) as [[a|e] s']; simpl in *.
  - by apply Ha.
  - by apply Hh.
Qed.

(** *** Invariants *)

Lemma preserves_ret {A} I (a : A) : preserves I (ret a : M S E A).
Proof. by intros s. Qed.

Lemma preserves_throw {A} I (e : E) : preserves I (throw e : M S E A).
Proof. by intros s. Qed.

Lemma preserves_gets {A} I (f : S → A) : preserves I (gets f : M S E A).
Proof. by intros s. Qed.

Lemma preserves_modify I (f : S → S) :
  (∀ s, I s → I (f s)) → preserves I (modify f : M S E unit).
Proof. intros Hf s. apply Hf. Qed.

Lemma preserves_bind {A B} I (m : M S E A) (k : A → M S E B) :
  preserves I m → (∀ a, preserves I (k a)) → preserves I (x <- m ;; k x).
Proof.
  intros Hm Hk s Hs. specialize (Hm s Hs). unfold exec, bind in *.
  destruct (m s) as [[a|e] s']; simpl in *; [by apply Hk|done].
Qed.

Lemma preserves_try_catch {A} I (m : M S E A) h :
  preserves I m → (∀ e, preserves I (h e)) → preserves I (try_catch m h).
Proof.
  intros Hm Hh s Hs. specialize (Hm s Hs). unfold exec, try_catch in *.
  destruct (m s) as [[a|e] s']; simpl in *; [done|by apply Hh].
Qed.

Lemma preserves_try_finally {A} I (m : M S E A) f :
  preserves I m → preserves I f → preserves I (try_finally m f).
Proof.
  intros Hm Hf s Hs. specialize (Hm s Hs). unfold exec, try_finally in *.
  destruct (m s) as [r s']; simpl in *. specialize (Hf s' Hm). unfold exec in Hf.
  by destruct (f s') as [[[]|e] s''].
Qed.

Lemma preserves_for_each {A} I (f : A → M S E unit) l :
  (∀ x, x ∈ l → preserves I (f x)) → preserves I (for_each f l).
Proof.
  induction l as [|x l IH]; intros Hf; simpl; [apply preserves_ret|].
  apply preserves_bind; [apply Hf; left|intros _; apply IH].
  intros y Hy. apply Hf. by right.
Qed.

Lemma preserves_if {A} I (b : bool) (m1 m2 : M S E A) :
  preserves I m1 → preserves I m2 → preserves I (if b then m1 else m2).
Proof. by destruct b. Qed.

(** Where the continuation depends on the value read. *)
Lemma preserves_gets_bind {A B} I (f : S → A) (k : A → M S E B) :
  (∀ s, I s → I (exec (k (f s)) s)) → preserves I (x <- gets f ;; k x).
Proof. intros Hk s Hs. by apply Hk. Qed.

(** Where the continuation depends on what the first part established of
    its result. *)
Lemma preserves_bind_with {A B} I (φ : A → S → Prop) (m : M S E A)
    (k : A → M S E B) :
  hoare I m (λ o s, I s ∧ ∀ a, o = Ok a → φ a s) →
  (∀ a, hoare (λ s, I s ∧ φ a s) (k a) (λ _, I)) →
  preserves I (x <- m ;; k x).
Proof.
  intros Hm Hk s Hs. specialize (Hm s Hs). unfold hoare, outcome, exec, bind in *.
  destruct (m s) as [[a|e] s']; simpl in *; [|by destruct Hm].
  destruct Hm as [HI Hφ]. apply Hk. split; [done|by apply Hφ].
Qed.

Lemma hoare_bind_preserves {A B} P I (m : M S E A) (k : A → M S E B) :
  hoare P m (λ _, I) → (∀ a, preserves I (k a)) →
  hoare P (x <- m ;; k x) (λ _, I).
Proof.
  intros Hm Hk s Hs. specialize (Hm s Hs). unfold hoare, outcome, exec, bind in *.
  destruct (m s) as [[a|e] s']; simpl in *; [by apply Hk|done].
Qed.

Lemma hoare_if {A} P (b : bool) (m1 m2 : M S E A) Q :
  (b = true → hoare P m1 Q) → (b = false → hoare P m2 Q) →
  hoare P (if b then m1 else m2) Q.
Proof. destruct b; auto. Qed.

Lemma preserves_hoare {A} P I (m : M S E A) :
  preserves I m → (∀ s, P s → I s) → hoare P m (λ _, I).
Proof. intros Hm HP s Hs. apply Hm, HP, Hs. Qed.

(** *** Preorders *)

Section preorder.
Context R `{!PreOrder R}.

Lemma advances_ret {A} (a : A) : advances R (ret a : M S E A).
Proof. by intros s. Qed.

Lemma advances_throw {A} (e : E) : advances R (throw e : M S E A).
Proof. by intros s. Qed.

Lemma advances_gets {A} (f : S → A) : advances R (gets f : M S E A).
Proof. by intros s. Qed.

Lemma advances_modify (f : S → S) :
  (∀ s, R s (f s)) → advances R (modify f : M S E unit).
Proof. intros Hf s. apply Hf. Qed.

Lemma advances_bind {A B} (m : M S E A) (k : A → M S E B) :
  advances R m → (∀ a, advances R (k a)) → advances R (x <- m ;; k x).
Proof.
  intros Hm Hk s. specialize (Hm s). unfold exec, bind in *.
  destruct (m s) as [[a|e] s']; simpl in *; [|done].
  etrans; [done|apply Hk].
Qed.

Lemma advances_try_catch {A} (m : M S E A) h :
  advances R m → (∀ e, advances R (h e)) → advances R (try_catch m h).
Proof.
  intros Hm Hh s. specialize (Hm s). unfold exec, try_catch in *.
  destruct (m s) as [[a|e] s']; simpl in *; [done|].
  etrans; [done|apply Hh].
Qed.

Lemma advances_try_finally {A} (m : M S E A) f :
  advances R m → advances R f → advances R (try_finally m f).
Proof.
  intros Hm Hf s. specialize (Hm s). unfold exec, try_finally in *.
  destruct (m s) as [r s']; simpl in *. specialize (Hf s'). unfold exec in Hf.
  destruct (f s') as [[[]|e] s'']; simpl in *; by etrans.
Qed.

Lemma advances_for_each {A} (f : A → M S E unit) l :
  (∀ x, advances R (f x)) → advances R (for_each f l).
Proof.
  intros Hf. induction l as [|x l IH]; simpl; [apply advances_ret|].
  by apply advances_bind.
Qed.

Lemma advances_if {A} (b : bool) (m1 m2 : M S E A) :
  advances R m1 → advances R m2 → advances R (if b then m1 else m2).
Proof. by destruct b. Qed.
End preorder.

(** *** Handled rejections *)

Lemma no_throw_ret {A} (a : A) : no_throw (ret a : M S E A).
Proof. by intros s. Qed.

Lemma no_throw_gets {A} (f : S → A) : no_throw (gets f : M S E A).
Proof. by intros s. Qed.

Lemma no_throw_modify (f : S → S) : no_throw (modify f : M S E unit).
Proof. by intros s. Qed.

Lemma no_throw_bind {A B} (m : M S E A) (k : A → M S E B) :
  no_throw m → (∀ a, no_throw (k a)) → no_throw (x <- m ;; k x).
Proof.
  intros Hm Hk s. specialize (Hm s). unfold outcome, bind in *.
  destruct (m s) as [[a|e] s']; simpl in *; [apply Hk|done].
Qed.

Lemma no_throw_try_catch {A} (m : M S E A) h :
  (∀ e, no_throw (h e)) → no_throw (try_catch m h).
Proof.
  intros Hh s. unfold outcome, try_catch.
  destruct (m s) as [[a|e] s']; simpl; [done|apply Hh].
Qed.

Lemma no_throw_try_finally {A} (m : M S E A) f :
  no_throw m → no_throw f → no_throw (try_finally m f).
Proof.
  intros Hm Hf s. specialize (Hm s). unfold outcome, try_finally in *.
  destruct (m s) as [r s']; simpl in *. specialize (Hf s'). unfold outcome in Hf.
  by destruct (f s') as [[[]|e] s''].
Qed.

Lemma no_throw_for_each {A} (f : A → M S E unit) l :
  (∀ x, no_throw (f x)) → no_throw (for_each f l).
Proof.
  intros Hf. induction l as [|x l IH]; simpl; [apply no_throw_ret|].
  by apply no_throw_bind.
Qed.

Lemma no_throw_if {A} (b : bool) (m1 m2 : M S E A) :
  no_throw m1 → no_throw m2 → no_throw (if b then m1 else m2).
Proof. by destruct b. Qed.

(** *** What a program answers, whatever the state *)

(** [always m φ]: the outcome of [m] satisfies [φ] from every state. *)
Definition always {A} (m : M S E A) (φ : Outcome E A → Prop) : Prop :=
  ∀ s, φ (outcome m s).

Lemma always_ret {A} (a : A) (φ : Outcome E A → Prop) :
  φ (Ok a) → always (ret a) φ.
Proof. by intros H s. Qed.

Lemma always_bind {A B} (m : M S E A) (k : A → M S E B) φ :
  (∀ a, always (k a) φ) → (∀ e, φ (Throw e)) → always (x <- m ;; k x) φ.
Proof.
  intros Hk He s. unfold outcome, bind.
  destruct (m s) as [[a|e] s']; [apply Hk|apply He].
Qed.

Lemma always_bind_ok {A B} (m : M S E A) (k : A → M S E B) φ :
  no_throw m → (∀ a, always (k a) φ) → always (x <- m ;; k x) φ.
Proof.
  intros Hm Hk s. specialize (Hm s). unfold outcome, bind in *.
  destruct (m s) as [[a|e] s']; [apply Hk|done].
Qed.

Lemma always_try_catch {A} (m : M S E A) h (ψ φ : Outcome E A → Prop) :
  always m ψ → (∀ a, ψ (Ok a) → φ (Ok a)) → (∀ e, always (h e) φ) →
  always (try_catch m h) φ.
Proof.
  intros Hm Ha Hh s. specialize (Hm s). unfold outcome, try_catch in *.
  destruct (m s) as [[a|e] s']; [by apply Ha|apply Hh].
Qed.

Lemma always_if {A} (b : bool) (m1 m2 : M S E A) φ :
  always m1 φ → always m2 φ → always (if b then m1 else m2) φ.
Proof. by destruct b. Qed.

(** A sequence resolves when its first part does and the rest resolves on
    what the first part can answer. *)
Lemma no_throw_bind_with {A B} (m : M S E A) (k : A → M S E B)
    (φ : Outcome E A → Prop) :
  always m φ → (∀ e, ¬ φ (Throw e)) → (∀ a, φ (Ok a) → no_throw (k a)) →
  no_throw (x <- m ;; k x).
Proof.
  intros Hm He Hk s. specialize (Hm s). unfold outcome, bind in *.
  destruct (m s) as [[a|e] s']; [by apply Hk|by destruct (He e)].
Qed.
End rules.

(** The rules as hints: [eauto with eff] walks the structure of a handler. *)
Create HintDb eff discriminated.
#[export] Hint Resolve preserves_ret preserves_throw preserves_gets
  preserves_bind preserves_try_catch preserves_try_finally preserves_if : eff.
#[export] Hint Resolve advances_ret advances_throw advances_gets
  advances_bind advances_try_catch advances_try_finally advances_if : eff.
#[export] Hint Resolve no_throw_ret no_throw_gets no_throw_modify
  no_throw_bind no_throw_try_catch no_throw_try_finally no_throw_if : eff.

(** Unfold one sequencing step of a run on a concrete or symbolic state. *)
Ltac eff_step :=
  unfold exec, outcome, bind, ret, throw, try_catch, try_finally, gets, get,
    modify in *; simpl in *.

(** ** Weakest preconditions

    [wp m Q s]: running [m] from [s] ends in an outcome and a state that
    satisfy [Q].  The rules below compute [wp] along the structure of a
    handler, one construct at a time, so that a proof about a handler is a
    symbolic run of it. *)

Section wp.
Context {S E : Type}.

Definition wp {A} (m : M S E A) (Q : Outcome E A → S → Prop) (s : S) : Prop :=
  Q (outcome m s) (exec m s).

(** The continuation of a sequence: go on after a value, stop at a
    rejection. *)
Definition wp_then {A B} (k : A → M S E B) (Q : Outcome E B → S → Prop) :
    Outcome E A → S → Prop :=
  λ o s, match o with Ok a => wp (k a) Q s | Throw e => Q (Throw e) s end.

(** The continuation of a [try]: stop at a value, handle a rejection. *)
Definition wp_else {A} (h : E → M S E A) (Q : Outcome E A → S → Prop) :
    Outcome E A → S → Prop :=
  λ o s, match o with Ok a => Q (Ok a) s | Throw e => wp (h e) Q s end.

(** The continuation of a [finally]. *)
Definition wp_after {A} (f : M S E unit) (Q : Outcome E A → S → Prop) :
    Outcome E A → S → Prop :=
  λ r s, wp f (λ o s', match o with Ok _ => Q r s' | Throw e => Q (Throw e) s' end) s.

Lemma wp_ret {A} (a : A) Q s : wp (ret a) Q s = Q (Ok a) s.
Proof. done. Qed.

Lemma wp_throw {A} (e : E) (Q : Outcome E A → S → Prop) s :
  wp (throw e) Q s = Q (Throw e) s.
Proof. done. Qed.

Lemma wp_gets {A} (f : S → A) Q s : wp (gets f) Q s = Q (Ok (f s)) s.
Proof. done. Qed.

Lemma wp_modify (f : S → S) Q s : wp (modify f) Q s = Q (Ok ()) (f s).
Proof. done. Qed.

Lemma wp_bind {A B} (m : M S E A) (k : A → M S E B) Q s :
  wp (x <- m ;; k x) Q s = wp m (wp_then k Q) s.
Proof. unfold wp, wp_then, outcome, exec, bind. by destruct (m s) as [[a|e] s']. Qed.

Lemma wp_try_catch {A} (m : M S E A) h Q s :
  wp (try_catch m h) Q s = wp m (wp_else h Q) s.
Proof.
  unfold wp, wp_else, outcome, exec, try_catch. by destruct (m s) as [[a|e] s'].
Qed.

Lemma wp_try_finally {A} (m : M S E A) f Q s :
  wp (try_finally m f) Q s = wp m (wp_after f Q) s.
Proof.
  unfold wp_after, wp, outcome, exec, try_finally.
  destruct (m s) as [r s']; simpl. by destruct (f s') as [[[]|e] s''].
Qed.

Lemma wp_if {A} (b : bool) (m1 m2 : M S E A) Q s :
  wp (if b then m1 else m2) Q s = if b then wp m1 Q s else wp m2 Q s.
Proof. by destruct b. Qed.

Lemma wp_mono {A} (m : M S E A) (Q Q' : Outcome E A → S → Prop) s :
  wp m Q s → (∀ o s', Q o s' → Q' o s') → wp m Q' s.
Proof. unfold wp. auto. Qed.

Lemma wp_and {A} (m : M S E A) (Q Q' : Outcome E A → S → Prop) s :
  wp m Q s → wp m Q' s → wp m (λ o s', Q o s' ∧ Q' o s') s.
Proof. unfold wp. auto. Qed.

Lemma wp_equiv {A} (m m' : M S E A) Q s : m ≡ m' → wp m Q s ↔ wp m' Q s.
Proof. intros Hm. unfold wp, outcome, exec. by rewrite Hm. Qed.

Lemma hoare_wp {A} P (m : M S E A) Q : hoare P m Q ↔ ∀ s, P s → wp m Q s.
Proof. done. Qed.

Lemma preserves_wp {A} I (m : M S E A) :
  preserves I m ↔ ∀ s, I s → wp m (λ _, I) s.
Proof. done. Qed.

Lemma advances_wp {A} (R : relation S) (m : M S E A) :
  advances R m ↔ ∀ s, wp m (λ _ s', R s s') s.
Proof. done. Qed.

Lemma no_throw_wp {A} (m : M S E A) :
  no_throw m ↔ ∀ s, wp m (λ o _, is_ok o = true) s.
Proof. done. Qed.

(** A loop over a list keeps what each of its turns keeps. *)
Lemma wp_for_each {A} (f : A → M S E unit) l (I : S → Prop) s :
  I s →
  (∀ x s', x ∈ l → I s' → wp (f x) (λ _, I) s') →
  wp (for_each f l) (λ _, I) s.
Proof.
  revert s. induction l as [|x l IH]; intros s Hs Hf; simpl.
  - by rewrite wp_ret.
  - rewrite wp_bind. eapply wp_mono; [apply Hf; [left|done]|].
    intros [[]|e] s' Hs'; simpl; [|done].
    apply IH; [done|]. intros y s'' Hy. apply Hf. by right.
Qed.
(** A loop whose turns all resolve is the fold of their runs. *)
Lemma wp_for_each_total {A} (f : A → M S E unit) (g : S → A → S) l Q s :
  (∀ x Q' s', wp (f x) Q' s' = Q' (Ok ()) (g s' x)) →
  wp (for_each f l) Q s = Q (Ok ()) (foldl g s l).
Proof.
  intros Hf. revert s. induction l as [|x l IH]; intros s; simpl; [done|].
  rewrite wp_bind, Hf. apply IH.
Qed.
End wp.

#[global] Instance wp_proper {S E A} :
  Proper ((≡) ==> (=) ==> (=) ==> iff) (@wp S E A).
Proof. intros m m' Hm Q ? <- s ? <-. by apply wp_equiv. Qed.

Create Rewrite HintDb wp.
#[export] Hint Rewrite @wp_ret @wp_throw @wp_gets @wp_modify @wp_bind
  @wp_try_catch @wp_try_finally : wp.

(** One symbolic step, and a run to the first branch. *)
Ltac wp_step :=
  first
    [ rewrite wp_bind | rewrite wp_try_catch | rewrite wp_try_finally
    | rewrite wp_ret | rewrite wp_throw | rewrite wp_gets | rewrite wp_modify ];
  unfold wp_then, wp_else, wp_after; cbn beta iota.

Ltac wp_run := repeat wp_step.

(** Walk the structure of a program with the rules for an invariant; the
    calls it is made of are closed by [leaf]. *)
Ltac preserves_walk leaf :=
  repeat first
    [ solve [leaf]
    | lazymatch goal with
      | |- preserves _ (bind (gets _) _) => fail
      | |- preserves _ (bind _ _) => apply preserves_bind; [|intros ?]
      | |- preserves _ (try_catch _ _) => apply preserves_try_catch; [|intros ?]
      | |- preserves _ (try_finally _ _) => apply preserves_try_finally
      | |- preserves _ (ret _) => apply preserves_ret
      | |- preserves _ (throw _) => apply preserves_throw
      | |- preserves _ (gets _) => apply preserves_gets
      | |- preserves _ (if _ then _ else _) => apply preserves_if
      | |- preserves _ (let _ := _ in _) => cbv zeta
      end ].

(** The same for a preorder on the states. *)
Ltac advances_walk leaf :=
  repeat first
    [ solve [leaf]
    | lazymatch goal with
      | |- advances _ (bind _ _) => apply advances_bind; [apply _| |intros ?]
      | |- advances _ (try_catch _ _) =>
          apply advances_try_catch; [apply _| |intros ?]
      | |- advances _ (try_finally _ _) =>
          apply advances_try_finally; [apply _| |]
      | |- advances _ (ret _) => apply advances_ret; apply _
      | |- advances _ (throw _) => apply advances_throw; apply _
      | |- advances _ throw => intros ?
      | |- advances _ (gets _) => apply advances_gets; apply _
      | |- advances _ (if _ then _ else _) => apply advances_if
      | |- advances _ (let _ := _ in _) => cbv zeta
      | |- ∀ _, _ => intros ?
      end ].
