(* ===== verification/Types.v ===== *)
(** * Types: the data model of [src/types/index.ts]

    [Transaction] with the seven fields of the interface, under the names
    of the source.  [date] is the instant the ISO-8601 string denotes and
    [amount] a number of minor currency units (see the header of
    [Prelude]).  [NewTransaction] is [Omit<Transaction, 'id' | 'synced'>],
    the argument of [addTransaction]. *)

From S2P Require Import Prelude.

(** ['income' | 'expense'] *)
Inductive TransactionType : Set :=
  | income
  | expense.

Record Transaction : Set := mkTransaction {
  id : string;
  amount : Z;
  category : string;
  type : TransactionType;
  date : Z;
  notes : string;
  synced : bool;
}.

Record NewTransaction : Set := mkNewTransaction {
  new_amount : Z;
  new_category : string;
  new_type : TransactionType;
  new_date : Z;
  new_notes : string;
}.

#[global] Instance TransactionType_eq_dec : EqDecision TransactionType.
Proof. solve_decision. Defined.

#[global] Instance Transaction_eq_dec : EqDecision Transaction.
Proof. solve_decision. Defined.

#[global] Instance NewTransaction_eq_dec : EqDecision NewTransaction.
Proof. solve_decision. Defined.

#[global] Instance Transaction_inhabited : Inhabited Transaction :=
  populate (mkTransaction "" 0 "" expense 0 "" false).

(** [{ ...tx, synced: b }] *)
Definition with_synced (b : bool) (tx : Transaction) : Transaction :=
  mkTransaction (id tx) (amount tx) (category tx) (type tx) (date tx) (notes tx) b.

(** The identifiers of a list of transactions, in order. *)
Definition ids (l : list Transaction) : list string := id <$> l.

(** Identifiers are unique within a collection. *)
Definition unique_ids (l : list Transaction) : Prop := NoDup (ids l).

#[global] Instance unique_ids_dec l : Decision (unique_ids l).
Proof. unfold unique_ids. apply _. Defined.

(** [same_record a b]: [a] and [b] are the same transaction up to the
    [synced] flag. *)
Definition same_record (a b : Transaction) : Prop :=
  with_synced false a = with_synced false b.

(** [tx_le a b]: [b] is [a], possibly marked as synced since.  The only
    field that may change is [synced], and only from [false] to [true]. *)
Definition tx_le (a b : Transaction) : Prop :=
  same_record a b ∧ (synced a = true → synced b = true).

#[global] Instance tx_le_dec a b : Decision (tx_le a b).
Proof. unfold tx_le, same_record. apply _. Defined.

(** ** Lemmas *)

Lemma with_synced_id b tx : id (with_synced b tx) = id tx.
Proof. done. Qed.

Lemma with_synced_synced b tx : synced (with_synced b tx) = b.
Proof. done. Qed.

Lemma with_synced_same tx : with_synced (synced tx) tx = tx.
Proof. by destruct tx. Qed.

Lemma with_synced_idemp b b' tx : with_synced b (with_synced b' tx) = with_synced b tx.
Proof. done. Qed.

Lemma same_record_id a b : same_record a b → id a = id b.
Proof. unfold same_record. intros H. by apply (f_equal id) in H. Qed.

Lemma same_record_with_synced b tx : same_record tx (with_synced b tx).
Proof. done. Qed.

#[global] Instance same_record_equivalence : Equivalence same_record.
Proof. unfold same_record. split; [done|by intros ?? ->|by intros ??? -> ->]. Qed.

#[global] Instance tx_le_preorder : PreOrder tx_le.
Proof.
  split; [by intros a|].
  intros a b c [Hab Sab] [Hbc Sbc]. split; [by etrans|auto].
Qed.

#[global] Instance tx_le_antisymm : AntiSymm (=) tx_le.
Proof.
  intros [i a c t d n s] [i' a' c' t' d' n' s'] [Hab Sab] [_ Sba].
  unfold same_record, with_synced in Hab. simpl in *. inversion Hab; subst.
  f_equal. destruct s, s'; auto. symmetry; auto.
Qed.

Lemma tx_le_with_synced tx : tx_le tx (with_synced true tx).
Proof. done. Qed.

Lemma tx_le_id a b : tx_le a b → id a = id b.
Proof. intros [H _]. by apply same_record_id. Qed.

Lemma ids_app l1 l2 : ids (l1 ++ l2) = ids l1 ++ ids l2.
Proof. apply fmap_app. Qed.

Lemma ids_cons tx l : ids (tx :: l) = id tx :: ids l.
Proof. done. Qed.

Lemma ids_length l : length (ids l) = length l.
Proof. apply length_fmap. Qed.

Lemma elem_of_ids i l : i ∈ ids l ↔ ∃ tx, tx ∈ l ∧ id tx = i.
Proof.
  unfold ids. rewrite list_elem_of_fmap. split; intros (tx & ? & ?); by exists tx.
Qed.

Lemma unique_ids_nil : unique_ids [].
Proof. apply NoDup_nil_2. Qed.

Lemma unique_ids_snoc l tx : unique_ids (l ++ [tx]) ↔ unique_ids l ∧ id tx ∉ ids l.
Proof. apply (NoDup_keys_snoc id). Qed.

Lemma unique_ids_inj l a b : unique_ids l → a ∈ l → b ∈ l → id a = id b → a = b.
Proof. apply (NoDup_keys_inj id). Qed.

#[export] Hint Rewrite with_synced_id with_synced_synced ids_app ids_cons : ledger.
#[export] Hint Resolve unique_ids_nil tx_le_with_synced : ledger.
