(* ===== verification/Ledger.v ===== *)
(** * Ledger: the list computations of [TransactionContext.tsx]

    The pure parts of the provider: what [loadTransactions],
    [addTransaction], [getUnsyncedTransactions], [markTransactionAsSynced]
    and [mergeTransactions] compute on arrays of transactions, before any
    state or I/O is involved.  [Engine] wraps them in the monad.

    The lemmas are the ledger's algebra: which operations keep identifiers
    unique, which are idempotent, and that every operation moves the
    collection up in the order [ledger_le] (nothing is removed, and the only
    field that changes is [synced], from [false] to [true]). *)

From S2P Require Import Prelude Types.

(** ** Operations *)

(** [loadTransactions], the sample branch:
    [sampleTransactions.map((tx) => ({ ...tx, synced: false }))]. *)
Definition initializedTransactions (sampleTransactions : list Transaction) :
    list Transaction :=
  with_synced false <$> sampleTransactions.

(** [addTransaction]:
    [{ ...newTransaction, id: uuidv4(), synced: false }]. *)
Definition transactionWithId (newTransaction : NewTransaction) (uuid : string) :
    Transaction :=
  {| id := uuid;
     amount := new_amount newTransaction;
     category := new_category newTransaction;
     type := new_type newTransaction;
     date := new_date newTransaction;
     notes := new_notes newTransaction;
     synced := false |}.

(** [addTransaction]: [[...transactions, transactionWithId]]. *)
Definition updatedTransactions (transactions : list Transaction)
    (tx : Transaction) : list Transaction :=
  js_push tx transactions.

(** [getUnsyncedTransactions]: [transactions.filter((tx) => !tx.synced)]. *)
Definition getUnsyncedTransactions (transactions : list Transaction) :
    list Transaction :=
  filter (λ tx, synced tx = false) transactions.

(** [markTransactionAsSynced], the updater:
    [prev.map((tx) => tx.id === id ? { ...tx, synced: true } : tx)]. *)
Definition mark_synced (i : string) (prevTransactions : list Transaction) :
    list Transaction :=
  (λ tx, if decide (id tx = i) then with_synced true tx else tx)
    <$> prevTransactions.

(** [mergeTransactions]: [new Map(transactions.map((tx) => [tx.id, tx]))].
    A later pair overrides an earlier one with the same key. *)
Definition localTransactionsMap (transactions : list Transaction) :
    gmap string Transaction :=
  foldl (λ m tx, <[id tx := tx]> m) ∅ transactions.

(** [mergeTransactions], the body of the [forEach]: the map is the one built
    before the loop; the array is the one being pushed to. *)
Definition merge_step (m : gmap string Transaction) (arr : list Transaction)
    (serverTx : Transaction) : list Transaction :=
  if decide (is_Some (m !! id serverTx)) then arr
  else js_push (with_synced true serverTx) arr.

(** [mergeTransactions]: the array after the [forEach]. *)
Definition merge (transactions serverTransactions : list Transaction) :
    list Transaction :=
  foldl (merge_step (localTransactionsMap transactions))
    transactions serverTransactions.

(** ** Reference definitions *)

(** Existence-based merge, stated directly: the local collection followed by
    the remote entries whose identifier is not a local one, marked synced. *)
Definition merge_spec (local remote : list Transaction) : list Transaction :=
  local ++ (with_synced true <$> filter (λ s, id s ∉ ids local) remote).

(** [ledger_le l1 l2]: every entry of [l1] is still in [l2], possibly marked
    as synced since. *)
Definition ledger_le (l1 l2 : list Transaction) : Prop :=
  ∀ a, a ∈ l1 → ∃ b, b ∈ l2 ∧ tx_le a b.

(** The entries of a collection that carry identifier [i]. *)
Definition with_id (i : string) (l : list Transaction) : list Transaction :=
  filter (λ tx, id tx = i) l.

(** ** The order on ledgers *)

#[global] Instance ledger_le_preorder : PreOrder ledger_le.
Proof.
  split.
  - intros l a Ha. by exists a.
  - intros l1 l2 l3 H12 H23 a Ha.
    destruct (H12 a Ha) as (b & Hb & Hab). destruct (H23 b Hb) as (c & Hc & Hbc).
    exists c. split; [done|by etrans].
Qed.

#[global] Instance ledger_le_perm : Proper ((≡ₚ) ==> (≡ₚ) ==> iff) ledger_le.
Proof.
  intros l1 l1' H1 l2 l2' H2. unfold ledger_le.
  by setoid_rewrite H1; setoid_rewrite H2.
Qed.

Lemma ledger_le_nil l : ledger_le [] l.
Proof. by intros a ?%elem_of_nil. Qed.

Lemma ledger_le_app_r l1 l2 l : ledger_le l1 l2 → ledger_le l1 (l2 ++ l).
Proof.
  intros H a Ha. destruct (H a Ha) as (b & Hb & Hab).
  exists b. split; [|done]. apply elem_of_app. by left.
Qed.

Lemma ledger_le_fmap (g : Transaction → Transaction) l :
  (∀ tx, tx_le tx (g tx)) → ledger_le l (g <$> l).
Proof.
  intros Hg a Ha. exists (g a). split; [|done]. by apply list_elem_of_fmap_2.
Qed.

Lemma ledger_le_ids l1 l2 : ledger_le l1 l2 → ids l1 ⊆ ids l2.
Proof.
  intros H i (a & Ha & <-)%elem_of_ids. destruct (H a Ha) as (b & Hb & Hab).
  apply elem_of_ids. exists b. split; [done|]. symmetry. by apply tx_le_id.
Qed.

(** ** [updatedTransactions] *)

Lemma updatedTransactions_ids l tx : ids (updatedTransactions l tx) = ids l ++ [id tx].
Proof. unfold updatedTransactions, js_push. by rewrite ids_app. Qed.

Lemma updatedTransactions_length l tx :
  length (updatedTransactions l tx) = S (length l).
Proof. unfold updatedTransactions, js_push. rewrite length_app. simpl. lia. Qed.

Lemma updatedTransactions_unique l tx :
  unique_ids l → id tx ∉ ids l → unique_ids (updatedTransactions l tx).
Proof. intros. by apply unique_ids_snoc. Qed.

Lemma updatedTransactions_le l tx : ledger_le l (updatedTransactions l tx).
Proof. by apply ledger_le_app_r. Qed.

Lemma transactionWithId_unsynced n u : synced (transactionWithId n u) = false.
Proof. done. Qed.

Lemma transactionWithId_id n u : id (transactionWithId n u) = u.
Proof. done. Qed.

(** ** [initializedTransactions] *)

Lemma initializedTransactions_ids l : ids (initializedTransactions l) = ids l.
Proof. apply (keys_fmap_id id). apply with_synced_id. Qed.

Lemma initializedTransactions_unsynced l :
  getUnsyncedTransactions (initializedTransactions l) = initializedTransactions l.
Proof.
  unfold getUnsyncedTransactions, initializedTransactions.
  induction l as [|tx l IH]; csimpl; [done|].
  rewrite filter_cons_True by done. by f_equal.
Qed.

(** ** [getUnsyncedTransactions] *)

Lemma elem_of_getUnsyncedTransactions tx l :
  tx ∈ getUnsyncedTransactions l ↔ tx ∈ l ∧ synced tx = false.
Proof. unfold getUnsyncedTransactions. by rewrite list_elem_of_filter, (comm and). Qed.

Lemma getUnsyncedTransactions_app l1 l2 :
  getUnsyncedTransactions (l1 ++ l2)
  = getUnsyncedTransactions l1 ++ getUnsyncedTransactions l2.
Proof. apply filter_app. Qed.

Lemma getUnsyncedTransactions_sublist l : sublist (getUnsyncedTransactions l) l.
Proof. apply sublist_filter. Qed.

Lemma getUnsyncedTransactions_unique l :
  unique_ids l → unique_ids (getUnsyncedTransactions l).
Proof.
  unfold unique_ids, ids. intros H.
  apply (sublist_NoDup _ (id <$> l)); [exact H|].
  apply fmap_sublist, getUnsyncedTransactions_sublist.
Qed.

Lemma getUnsyncedTransactions_nil_iff l :
  getUnsyncedTransactions l = [] ↔ Forall (λ tx, synced tx = true) l.
Proof.
  unfold getUnsyncedTransactions. induction l as [|tx l IH]; [done|].
  rewrite Forall_cons, <- IH. destruct (synced tx) eqn:E.
  - rewrite filter_cons_False by (by rewrite E). tauto.
  - rewrite filter_cons_True by done. split; [done|by intros [? _]].
Qed.

(** ** [mark_synced] *)

Lemma mark_synced_ids i l : ids (mark_synced i l) = ids l.
Proof. apply (keys_fmap_id id). intros tx. by case_decide. Qed.

Lemma mark_synced_length i l : length (mark_synced i l) = length l.
Proof. apply length_fmap. Qed.

Lemma mark_synced_unique i l : unique_ids l → unique_ids (mark_synced i l).
Proof. unfold unique_ids. by rewrite mark_synced_ids. Qed.

Lemma mark_synced_le i l : ledger_le l (mark_synced i l).
Proof. apply ledger_le_fmap. intros tx. case_decide; [apply tx_le_with_synced|done]. Qed.

Lemma mark_synced_lookup i l k :
  mark_synced i l !! k
  = (λ tx, if decide (id tx = i) then with_synced true tx else tx) <$> l !! k.
Proof. apply list_lookup_fmap. Qed.

Lemma mark_synced_app i l1 l2 :
  mark_synced i (l1 ++ l2) = mark_synced i l1 ++ mark_synced i l2.
Proof. apply fmap_app. Qed.

Lemma mark_synced_idemp i l : mark_synced i (mark_synced i l) = mark_synced i l.
Proof.
  unfold mark_synced. rewrite <- list_fmap_compose. apply list_fmap_ext.
  intros k tx _. simpl. repeat case_decide; done.
Qed.

Lemma mark_synced_comm i j l :
  mark_synced i (mark_synced j l) = mark_synced j (mark_synced i l).
Proof.
  unfold mark_synced. rewrite <- !list_fmap_compose. apply list_fmap_ext.
  intros k tx _. simpl. repeat case_decide; done.
Qed.

Lemma mark_synced_absent i l : i ∉ ids l → mark_synced i l = l.
Proof.
  intros Hi. unfold mark_synced. rewrite <- (list_fmap_id l) at 2.
  apply list_fmap_ext. intros k tx Hk. simpl. case_decide as E; [|done].
  exfalso. apply Hi, elem_of_ids. exists tx. split; [|done].
  by apply list_elem_of_lookup_2 in Hk.
Qed.

(** After [mark_synced i], every entry with identifier [i] is synced. *)
Lemma mark_synced_synced i l tx :
  tx ∈ mark_synced i l → id tx = i → synced tx = true.
Proof.
  unfold mark_synced. intros (a & -> & Ha)%list_elem_of_fmap.
  case_decide; [done|]. by intros ?.
Qed.

(** Entries with another identifier are not touched. *)
Lemma mark_synced_other i l tx :
  id tx ≠ i → tx ∈ mark_synced i l ↔ tx ∈ l.
Proof.
  intros Hne. unfold mark_synced. rewrite list_elem_of_fmap. split.
  - intros (a & -> & Ha). case_decide as E; [|done]. simpl in Hne. by rewrite E in Hne.
  - intros Ha. exists tx. by rewrite decide_False.
Qed.

(** The unsynced entries after [mark_synced i]: those with another
    identifier. *)
Lemma getUnsyncedTransactions_mark_synced i l :
  getUnsyncedTransactions (mark_synced i l)
  = filter (λ tx, id tx ≠ i) (getUnsyncedTransactions l).
Proof.
  unfold getUnsyncedTransactions, mark_synced.
  induction l as [|tx l IH]; csimpl; [done|].
  destruct (decide (id tx = i)) as [E|E], (synced tx) eqn:Es.
  - rewrite !filter_cons_False by (by rewrite ?Es). done.
  - rewrite filter_cons_False by done. rewrite filter_cons_True by done.
    rewrite filter_cons_False by (by intros []). done.
  - rewrite !filter_cons_False by (by rewrite ?Es). done.
  - rewrite !filter_cons_True by done. by f_equal.
Qed.

Lemma getUnsyncedTransactions_mark_synced_length i l :
  (length (getUnsyncedTransactions (mark_synced i l))
   ≤ length (getUnsyncedTransactions l))%nat.
Proof. rewrite getUnsyncedTransactions_mark_synced. apply length_filter. Qed.

(** ** [localTransactionsMap] *)

Lemma localTransactionsMap_snoc l tx :
  localTransactionsMap (l ++ [tx]) = <[id tx := tx]> (localTransactionsMap l).
Proof. unfold localTransactionsMap. by rewrite foldl_snoc. Qed.

Lemma localTransactionsMap_has l i :
  is_Some (localTransactionsMap l !! i) ↔ i ∈ ids l.
Proof.
  induction l as [|tx l IH] using rev_ind.
  - unfold localTransactionsMap. simpl. rewrite lookup_empty, is_Some_alt.
    split; [done|by intros ?%elem_of_nil].
  - rewrite localTransactionsMap_snoc, ids_app, elem_of_app, <- IH. simpl.
    rewrite list_elem_of_singleton. destruct (decide (id tx = i)) as [->|Hne].
    + rewrite lookup_insert_eq. split; [by right|by eexists].
    + rewrite lookup_insert_ne by done. split; [by left|by intros [?|?]].
Qed.

(** ** [merge] *)

(** The loop computes the reference definition. *)
Lemma merge_step_foldl m base acc server :
  foldl (merge_step m) (base ++ acc) server
  = base ++ acc
      ++ (with_synced true <$> filter (λ s, ¬ is_Some (m !! id s)) server).
Proof.
  revert acc. induction server as [|s server IH]; intros acc; simpl.
  - by rewrite app_nil_r.
  - unfold merge_step at 2. destruct (decide (is_Some (m !! id s))) as [Hs|Hs].
    + rewrite filter_cons_False by naive_solver. apply IH.
    + rewrite filter_cons_True by done. unfold js_push.
      rewrite <- (assoc (++)), IH. simpl. by rewrite <- (assoc (++)).
Qed.

Lemma merge_eq_spec local remote : merge local remote = merge_spec local remote.
Proof.
  unfold merge, merge_spec.
  rewrite <- (app_nil_r local) at 2. rewrite merge_step_foldl. simpl.
  do 2 f_equal. apply list_filter_iff. intros s.
  by rewrite localTransactionsMap_has.
Qed.

Lemma merge_nil_r local : merge local [] = local.
Proof. done. Qed.

Lemma merge_prefix local remote : local `prefix_of` merge local remote.
Proof. rewrite merge_eq_spec. by eexists. Qed.

Lemma merge_le local remote : ledger_le local (merge local remote).
Proof. rewrite merge_eq_spec. by apply ledger_le_app_r. Qed.

Lemma merge_length local remote :
  length (merge local remote)
  = (length local + length (filter (λ s, id s ∉ ids local) remote))%nat.
Proof. rewrite merge_eq_spec. unfold merge_spec. by rewrite length_app, length_fmap. Qed.

Lemma merge_ids local remote :
  ids (merge local remote) = ids local ++ filter (λ i, i ∉ ids local) (ids remote).
Proof.
  rewrite merge_eq_spec. unfold merge_spec. rewrite ids_app. f_equal.
  unfold ids. rewrite (keys_fmap_id id) by done.
  induction remote as [|s r IH]; csimpl; [done|].
  destruct (decide (id s ∉ id <$> local)).
  - rewrite !filter_cons_True by done. csimpl. by f_equal.
  - rewrite !filter_cons_False by done. done.
Qed.

(** Merging a remote set whose identifiers are all known changes nothing. *)
Lemma merge_known local remote : ids remote ⊆ ids local → merge local remote = local.
Proof.
  intros Hsub. rewrite merge_eq_spec. unfold merge_spec.
  replace (filter _ remote) with (@nil Transaction); [by rewrite app_nil_r|].
  symmetry. induction remote as [|s r IH]; [done|].
  rewrite filter_cons_False; [apply IH|]; set_solver.
Qed.

Lemma merge_idemp local remote : merge (merge local remote) remote = merge local remote.
Proof.
  apply merge_known. rewrite merge_ids. intros i Hi. apply elem_of_app.
  destruct (decide (i ∈ ids local)); [by left|right].
  by apply list_elem_of_filter.
Qed.

Lemma merge_unique local remote :
  unique_ids local → unique_ids remote → unique_ids (merge local remote).
Proof.
  unfold unique_ids. intros Hl Hr. rewrite merge_ids. apply NoDup_app.
  split_and!; [done| |by apply NoDup_filter].
  by intros i Hi [Hn _]%list_elem_of_filter.
Qed.

(** What the merge adds is marked as synced. *)
Lemma merge_new_synced local remote tx :
  tx ∈ merge local remote → tx ∉ local → synced tx = true.
Proof.
  rewrite merge_eq_spec. unfold merge_spec.
  intros [?|(s & -> & _)%list_elem_of_fmap]%elem_of_app ?; done.
Qed.

(** The local copy wins: an entry the merge finds locally is the local one,
    whatever the remote copy says. *)
Lemma merge_local_wins local remote tx :
  unique_ids remote → tx ∈ merge local remote → id tx ∈ ids local → tx ∈ local.
Proof.
  rewrite merge_eq_spec. unfold merge_spec. intros _.
  intros [?|(s & -> & [Hn _]%list_elem_of_filter)%list_elem_of_fmap]%elem_of_app;
    [done|]. by rewrite with_synced_id.
Qed.

(** Under unique identifiers an identifier selects one entry. *)
(** What the merge adds is synced: the merge leaves the entries to upload
    as they are. *)
Lemma getUnsyncedTransactions_merge local remote :
  getUnsyncedTransactions (merge local remote) = getUnsyncedTransactions local.
Proof.
  rewrite merge_eq_spec. unfold merge_spec.
  rewrite getUnsyncedTransactions_app.
  set (new := filter (λ s, id s ∉ ids local) remote).
  assert (getUnsyncedTransactions (with_synced true <$> new) = []) as ->
    by (apply getUnsyncedTransactions_nil_iff, Forall_fmap, Forall_forall;
        by intros s _).
  apply app_nil_r.
Qed.

(** An entry of the merge is a local one or a remote one marked as
    synced. *)
Lemma elem_of_merge local remote tx :
  tx ∈ merge local remote →
  tx ∈ local ∨ ∃ s, s ∈ remote ∧ tx = with_synced true s.
Proof.
  rewrite merge_eq_spec. unfold merge_spec.
  intros [?|(s & -> & [_ Hs]%list_elem_of_filter)%list_elem_of_fmap]%elem_of_app;
    [by left|right; by exists s].
Qed.

Lemma with_id_absent i l : i ∉ ids l → with_id i l = [].
Proof.
  unfold with_id, ids. induction l as [|a l IH]; [done|].
  rewrite fmap_cons, not_elem_of_cons, filter_cons. intros [Hne Hl].
  rewrite decide_False by done. by apply IH.
Qed.

Lemma with_id_unique l tx : unique_ids l → tx ∈ l → with_id (id tx) l = [tx].
Proof.
  unfold unique_ids. induction l as [|a l IH]; [by intros _ ?%elem_of_nil|].
  rewrite ids_cons, NoDup_cons, elem_of_cons. unfold with_id. rewrite filter_cons.
  intros [Ha Hl] [->|Hin].
  - rewrite decide_True by done. f_equal. by apply with_id_absent.
  - rewrite decide_False; [by apply IH|]. intros Heq. apply Ha.
    rewrite Heq. apply elem_of_ids. by exists tx.
Qed.

Lemma merge_absent_added local s :
  id s ∉ ids local → merge local [s] = local ++ [with_synced true s].
Proof.
  intros Hs. rewrite merge_eq_spec. unfold merge_spec.
  by rewrite filter_cons_True, filter_nil by done.
Qed.

(** A remote answer that lists the same unknown identifier twice is pushed
    twice: the map of known identifiers is built before the loop and is not
    updated by the pushes. *)
Lemma merge_twice local s :
  id s ∉ ids local
  → merge local [s; s] = local ++ [with_synced true s; with_synced true s].
Proof.
  intros Hs. rewrite merge_eq_spec. unfold merge_spec.
  by rewrite !filter_cons_True, filter_nil by done.
Qed.

(** ** Properties *)

(** C4: [mergeTransactions] computes the existence-based merge: the loop
    that consults the map of local identifiers and pushes onto the array
    yields the local collection followed by the remote entries whose
    identifier is unknown locally, marked as synced. *)
Theorem merge_refines_spec local remote :
  merge local remote = merge_spec local remote.
Proof. apply merge_eq_spec. Qed.

(** Merging a remote set whose identifiers are all known locally leaves
    the local collection unchanged, whatever the remote copies contain. *)
Theorem merge_known_noop local remote :
  ids remote ⊆ ids local → merge local remote = local.
Proof. apply merge_known. Qed.

Lemma merge_known_noop_witness :
  merge [mkTransaction "a" 5 "Food" expense 10 "" false]
        [mkTransaction "a" 7 "Gifts" income 20 "remote" true]
  = [mkTransaction "a" 5 "Food" expense 10 "" false].
Proof. apply merge_known_noop. intros x Hx. exact Hx. Defined.

(** The merge keeps identifiers unique, provided the remote answer does
    not list an identifier twice. *)
Theorem merge_keeps_unique_ids local remote :
  unique_ids local → unique_ids remote → unique_ids (merge local remote).
Proof. apply merge_unique. Qed.

Lemma merge_keeps_unique_ids_witness :
  unique_ids (merge [mkTransaction "a" 5 "Food" expense 10 "" false]
                    [mkTransaction "b" 7 "Gifts" income 20 "" true]).
Proof.
  apply merge_keeps_unique_ids; apply (bool_decide_unpack _); by vm_compute.
Defined.

(** C35: the merge does not deduplicate the remote answer: an unknown
    identifier listed twice by the server ends up twice in the local
    collection, which then violates the uniqueness of identifiers. *)
Theorem merge_duplicate_remote local s :
  id s ∉ ids local → ¬ unique_ids (merge local [s; s]).
Proof.
  intros Hs. rewrite merge_twice by done. unfold unique_ids.
  rewrite ids_app, NoDup_app. intros (_ & _ & Hdup). simpl in Hdup.
  apply NoDup_cons in Hdup as [Hin _]. apply Hin. by left.
Qed.

Lemma merge_duplicate_remote_witness :
  ¬ unique_ids (merge [] [mkTransaction "a" 5 "Food" expense 10 "" true;
                          mkTransaction "a" 5 "Food" expense 10 "" true]).
Proof. apply merge_duplicate_remote. by intros ?%elem_of_nil. Defined.

(** Marking a transaction as synced changes nothing but [synced] flags,
    and only from [false] to [true]: identifiers and their order are kept
    and every entry is still there, possibly marked. *)
Theorem mark_synced_monotone i l :
  ids (mark_synced i l) = ids l ∧ ledger_le l (mark_synced i l).
Proof. split; [apply mark_synced_ids|apply mark_synced_le]. Qed.

#[export] Hint Resolve updatedTransactions_le mark_synced_le merge_le
  ledger_le_nil : ledger.
#[export] Hint Resolve mark_synced_unique merge_unique
  getUnsyncedTransactions_unique : ledger.
#[export] Hint Rewrite mark_synced_ids mark_synced_length merge_nil_r
  updatedTransactions_ids initializedTransactions_ids : ledger.
