(* ===== verification/Sample.v ===== *)
(** * Sample: the sample data of [src/data/sampleTransactions.ts]

    The module generates one hundred random transactions when it is loaded
    and generates them again as long as the incomes do not exceed the
    expenses.  [loadTransactions] installs the result when the store is
    empty.

    [Math.random()] is a draw from a [Source]: an infinite sequence of
    integers, read at a position that moves on with every draw, each reduced
    to a number of [0, 1) with the denominator [RES].  The arithmetic on the
    draws is exact: the factor [0.6] is the rational 3/5 and [toFixed(2)]
    rounds the exact product to the cent (half up), so that an amount is an
    integer number of cents, as everywhere in the development.  The rounding
    of the products to doubles is outside the model.

    The [do ... while] loop is a [Fixpoint] on fuel.  No fuel is enough for
    every source: [generate_diverges] gives one on which the module never
    finishes loading.  [generate_first] and [generate_again] are the two
    equations of the loop, and [generate_turns] gives the result for every
    fuel above the index of the first batch that ends it. *)

From stdpp Require Import pretty.
From S2P Require Import Prelude Effects Types Ledger.

(** ** The random source *)

(** The denominator of a draw: a double of [0, 1) is a multiple of 2^-53. *)
Definition RES : Z := 9007199254740992.

Record Source : Type := mkSource {
  numbers : nat → Z;   (** what [Math.random()] will answer, call by call *)
  position : nat;      (** how many numbers were drawn *)
  clock : Z;           (** [Date.now()] *)
}.

Inductive GenError : Set := SampleOutOfFuel.

Definition Gen := M Source GenError.

(** The [k]-th draw from now on, as the numerator of a number of [0, 1). *)
Definition draw (s : Source) (k : nat) : Z := numbers s (position s + k) `mod` RES.

(** The source after [k] draws. *)
Definition advance (k : nat) (s : Source) : Source :=
  mkSource (numbers s) (k + position s) (clock s).

(** [Math.random()] *)
Definition Math_random : Gen Z := λ s, (Ok (draw s 0), advance 1 s).

(** ** The generator *)

Definition categories : list string :=
  ["Food"; "Transportation"; "Housing"; "Utilities"; "Entertainment";
   "Healthcare"; "Education"; "Shopping"; "Personal Care"; "Gifts";
   "Investments"; "Salary"; "Freelance"; "Dividends"; "Rental Income"].

(** [parseFloat(x.toFixed(2))] for [x = num / den], in cents. *)
Definition toFixed2 (num den : Z) : Z := (2 * (100 * num) + den) / (2 * den).

(** [getRandomAmount] *)
Definition getRandomAmount (type : TransactionType) : Gen Z :=
  r <- Math_random ;;
  match type with
  | income => ret (toFixed2 (r * 2000 + 500 * RES) RES)
  | expense => ret (toFixed2 (r * 1000) RES)
  end.

(** The template strings [${type}]. *)
Definition type_name (type : TransactionType) : string :=
  match type with income => "income" | expense => "expense" end.

(** [generateRandomTransaction] *)
Definition generateRandomTransaction (id : nat) : Gen Transaction :=
  r <- Math_random ;;
  let type := if bool_decide (5 * r < 3 * RES) then income else expense in
  r <- Math_random ;;
  let category := default "undefined" (categories !! Z.to_nat (r * 15 / RES)) in
  amount <- getRandomAmount type ;;
  now <- gets clock ;;
  r <- Math_random ;;
  let date := now - r * 7776000000 / RES in
  let notes := "Sample " +:+ type_name type +:+ " for " +:+ category in
  ret (mkTransaction (pretty id) amount category type date notes false).

(** [Array.from({ length }, (_, i) => f(i))], from the index [i] on. *)
Fixpoint Array_from {A} (length : nat) (f : nat → Gen A) (i : nat) :
    Gen (list A) :=
  match length with
  | O => ret []
  | S length =>
      x <- f i ;; xs <- Array_from length f (S i) ;; ret (x :: xs)
  end.

(** The sum of the amounts of one type:
    [.filter((tx) => tx.type === t).reduce((sum, tx) => sum + tx.amount, 0)]. *)
Definition total (t : TransactionType) (transactions : list Transaction) : Z :=
  sum_with amount (filter (λ tx, type tx = t) transactions).

(** One turn of the [do ... while]: the hundred transactions. *)
Definition batch : Gen (list Transaction) :=
  Array_from 100 (λ i, generateRandomTransaction (i + 1)) 0.

(** The loop condition [totalIncome <= totalExpenses]. *)
Definition again (transactions : list Transaction) : bool :=
  bool_decide (total income transactions ≤ total expense transactions).

(** [sampleTransactions]: the immediately invoked function, on fuel. *)
Fixpoint generate (fuel : nat) : Gen (list Transaction) :=
  match fuel with
  | O => throw SampleOutOfFuel
  | S fuel =>
      transactions <- batch ;;
      if again transactions then generate fuel else ret transactions
  end.

(** ** Reference definitions *)

(** The transaction made of four draws. *)
Definition sample (id : nat) (now r1 r2 r3 r4 : Z) : Transaction :=
  let type := if bool_decide (5 * r1 < 3 * RES) then income else expense in
  let category := default "undefined" (categories !! Z.to_nat (r2 * 15 / RES)) in
  {| id := pretty id;
     amount := match type with
               | income => toFixed2 (r3 * 2000 + 500 * RES) RES
               | expense => toFixed2 (r3 * 1000) RES
               end;
     category := category;
     type := type;
     date := now - r4 * 7776000000 / RES;
     notes := "Sample " +:+ type_name type +:+ " for " +:+ category;
     synced := false |}.

(** The array of [n] transactions with the identifiers from [i + 1] on. *)
Fixpoint samples (n i : nat) (s : Source) : list Transaction :=
  match n with
  | O => []
  | S n =>
      sample (i + 1) (clock s) (draw s 0) (draw s 1) (draw s 2) (draw s 3)
        :: samples n (S i) (advance 4 s)
  end.

(** What [sampleTransactions] promises of each of its entries. *)
Record sample_wf (now : Z) (tx : Transaction) : Prop := mkSampleWf {
  wf_synced : synced tx = false;
  wf_category : category tx ∈ categories;
  wf_income : type tx = income → 50000 ≤ amount tx ≤ 250000;
  wf_expense : type tx = expense → 0 ≤ amount tx ≤ 100000;
  wf_date : now - 7776000000 < date tx ≤ now;
  wf_notes :
    notes tx = "Sample " +:+ type_name (type tx) +:+ " for " +:+ category tx;
}.

(** ** The draws *)

Lemma RES_pos : 0 < RES.
Proof. done. Qed.

Lemma draw_range s k : 0 ≤ draw s k < RES.
Proof. apply Z.mod_pos_bound, RES_pos. Qed.

Lemma advance_advance j k s : advance j (advance k s) = advance (j + k) s.
Proof. unfold advance. simpl. f_equal. lia. Qed.

Lemma draw_advance j k s : draw (advance j s) k = draw s (j + k).
Proof. unfold draw, advance. simpl. do 2 f_equal. lia. Qed.

(** A scaled draw, rounded down, is below the scale. *)
Lemma scaled_range r n : 0 ≤ r < RES → 0 < n → 0 ≤ r * n / RES < n.
Proof.
  intros Hr Hn. pose proof RES_pos. split.
  - apply Z.div_pos; nia.
  - apply Z.div_lt_upper_bound; nia.
Qed.

Lemma toFixed2_range num lo hi :
  lo * RES ≤ 100 * num → 100 * num < hi * RES → lo ≤ toFixed2 num RES ≤ hi.
Proof.
  intros Hlo Hhi. pose proof RES_pos. unfold toFixed2. split.
  - apply Z.div_le_lower_bound; nia.
  - apply Z.lt_succ_r, Z.div_lt_upper_bound; nia.
Qed.

(** ** The generator, run *)

Lemma wp_Math_random Q s : wp Math_random Q s = Q (Ok (draw s 0)) (advance 1 s).
Proof. done. Qed.

(** A symbolic run of the generator up to its next branch. *)
Ltac gen_run :=
  repeat (rewrite ?wp_bind, ?wp_Math_random, ?wp_gets, ?wp_ret; unfold wp_then).

Lemma wp_generateRandomTransaction id Q s :
  wp (generateRandomTransaction id) Q s
  = Q (Ok (sample id (clock s) (draw s 0) (draw s 1) (draw s 2) (draw s 3)))
      (advance 4 s).
Proof.
  unfold generateRandomTransaction, getRandomAmount, sample.
  gen_run. rewrite !advance_advance, !draw_advance. cbn [Nat.add].
  destruct (bool_decide (5 * draw s 0 < 3 * RES)); gen_run;
    by rewrite !advance_advance, !draw_advance.
Qed.

Lemma wp_Array_from n i Q s :
  wp (Array_from n (λ i, generateRandomTransaction (i + 1)) i) Q s
  = Q (Ok (samples n i s)) (advance (4 * n) s).
Proof.
  revert i Q s. induction n as [|n IH]; intros i Q s; cbn [Array_from samples].
  - rewrite wp_ret. by destruct s.
  - rewrite wp_bind, wp_generateRandomTransaction. unfold wp_then.
    rewrite wp_bind, IH. unfold wp_then. rewrite wp_ret, advance_advance.
    do 2 f_equal. lia.
Qed.

Lemma wp_batch Q s : wp batch Q s = Q (Ok (samples 100 0 s)) (advance 400 s).
Proof. apply wp_Array_from. Qed.

(** The two equations of the loop. *)
Lemma generate_first fuel s :
  again (samples 100 0 s) = false →
  generate (S fuel) s = (Ok (samples 100 0 s), advance 400 s).
Proof.
  intros Hs. rewrite (surjective_pairing (generate _ _)).
  change (wp (generate (S fuel)) (λ o s', (o, s') = (Ok (samples 100 0 s), advance 400 s)) s).
  cbn [generate]. rewrite wp_bind, wp_batch. unfold wp_then. by rewrite Hs.
Qed.

Lemma generate_again fuel s :
  again (samples 100 0 s) = true →
  generate (S fuel) s = generate fuel (advance 400 s).
Proof.
  intros Hs. rewrite (surjective_pairing (generate (S fuel) s)).
  change (wp (generate (S fuel)) (λ o s', (o, s') = generate fuel (advance 400 s)) s).
  cbn [generate]. rewrite wp_bind, wp_batch. unfold wp_then. rewrite Hs.
  unfold wp, outcome, exec. by destruct (generate fuel (advance 400 s)).
Qed.

(** ** Every entry is well formed *)

Lemma sample_category r : 0 ≤ r < RES →
  default "undefined" (categories !! Z.to_nat (r * 15 / RES)) ∈ categories.
Proof.
  intros Hr. pose proof (scaled_range r 15 Hr) as Hi.
  destruct (lookup_lt_is_Some_2 categories (Z.to_nat (r * 15 / RES))) as [x Hx];
    [change (length categories) with 15%nat; lia|].
  rewrite Hx. by eapply list_elem_of_lookup_2.
Qed.

Lemma sample_wf_sample id now r1 r2 r3 r4 :
  0 ≤ r2 < RES → 0 ≤ r3 < RES → 0 ≤ r4 < RES →
  sample_wf now (sample id now r1 r2 r3 r4).
Proof.
  intros H2 H3 H4. pose proof (scaled_range r4 7776000000 H4).
  split; unfold sample; cbn [synced category type amount date notes];
    [done|by apply sample_category| | |lia|done];
    case_bool_decide; intros; try done; apply toFixed2_range; lia.
Qed.

Lemma samples_length n i s : length (samples n i s) = n.
Proof. revert i s. induction n; intros; simpl; by f_equal. Qed.

Lemma samples_ids n i s : ids (samples n i s) = pretty <$> seq (i + 1) n.
Proof.
  revert i s. induction n as [|n IH]; intros i s; [done|].
  cbn [samples seq fmap list_fmap]. rewrite ids_cons, IH.
  by replace (S i + 1)%nat with (S (i + 1)) by lia.
Qed.

Lemma samples_unique n i s : unique_ids (samples n i s).
Proof.
  unfold unique_ids. rewrite samples_ids.
  apply (NoDup_fmap_2 _), NoDup_seq.
Qed.

Lemma samples_wf n i s : Forall (sample_wf (clock s)) (samples n i s).
Proof.
  revert i s. induction n as [|n IH]; intros i s; [done|].
  cbn [samples]. constructor; [|apply (IH (S i) (advance 4 s))].
  apply sample_wf_sample; apply draw_range.
Qed.

(** ** The loop *)

(** The source after [k] turns of the loop. *)
Definition turns (k : nat) (s : Source) : Source := advance (400 * k) s.

Lemma turns_S k s : turns (S k) s = turns k (advance 400 s).
Proof. unfold turns. rewrite advance_advance. f_equal. lia. Qed.

Lemma turns_0 s : turns 0 s = s.
Proof. by destruct s. Qed.

Lemma ok_pair_inv {A} (a b : A) (s s' : Source) :
  (Ok a : Outcome GenError A, s) = (Ok b, s') → a = b ∧ s = s'.
Proof. by intros [= -> ->]. Qed.

(** A result is the batch of the first turn whose incomes exceed its
    expenses. *)
Lemma generate_result fuel s txs s' :
  generate fuel s = (Ok txs, s') →
  ∃ k, (k < fuel)%nat ∧ txs = samples 100 0 (turns k s)
       ∧ s' = turns (S k) s ∧ again txs = false.
Proof.
  revert s. induction fuel as [|fuel IH]; intros s; [by intros [=]|].
  destruct (again (samples 100 0 s)) eqn:Hs.
  - rewrite (generate_again _ _ Hs). intros (k & Hk & -> & -> & Hk')%IH.
    exists (S k). rewrite !turns_S.
    split_and!; [lia|reflexivity|reflexivity|exact Hk'].
  - rewrite (generate_first _ _ Hs). intros [<- <-]%ok_pair_inv. exists 0%nat.
    rewrite turns_S, !turns_0. split_and!; [lia|reflexivity|reflexivity|exact Hs].
Qed.

(** Enough fuel: the batch of the turn [k] is the result as soon as the
    fuel exceeds [k]. *)
Lemma generate_turns k fuel s :
  (∀ j, (j < k)%nat → again (samples 100 0 (turns j s)) = true) →
  again (samples 100 0 (turns k s)) = false → (k < fuel)%nat →
  generate fuel s = (Ok (samples 100 0 (turns k s)), turns (S k) s).
Proof.
  revert fuel s. induction k as [|k IH]; intros fuel s Hbad Hgood Hk;
    (destruct fuel as [|fuel]; [lia|]).
  - rewrite turns_S, !turns_0 in *. exact (generate_first _ _ Hgood).
  - pose proof (Hbad 0%nat ltac:(lia)) as H0. rewrite turns_0 in H0.
    rewrite (generate_again _ _ H0), (turns_S (S k) s), (turns_S k s).
    rewrite turns_S in Hgood.
    apply IH; [|exact Hgood|lia].
    intros j Hj. rewrite <- turns_S. apply Hbad. lia.
Qed.

(** No fuel helps on a source whose batches are all of the same kind. *)
Lemma generate_stuck fuel s :
  (∀ k, again (samples 100 0 (turns k s)) = true) →
  outcome (generate fuel) s = Throw SampleOutOfFuel.
Proof.
  revert s. induction fuel as [|fuel IH]; intros s Hs; [reflexivity|].
  pose proof (Hs 0%nat) as H0. rewrite turns_0 in H0.
  unfold outcome. rewrite (generate_again _ _ H0).
  apply IH. intros k. rewrite <- turns_S. apply Hs.
Qed.

(** ** The properties of the sample data *)

(** C24: whatever the random numbers, a result of the generator is an
    array of one hundred unsynced transactions with the identifiers ["1"]
    to ["100"], each with a category of the list, an amount in the range of
    its type, a date within the last ninety days and the note of the
    template, and its incomes exceed its expenses. *)
Theorem generate_sound fuel s txs :
  outcome (generate fuel) s = Ok txs →
  length txs = 100%nat ∧ ids txs = pretty <$> seq 1 100 ∧ unique_ids txs
  ∧ Forall (sample_wf (clock s)) txs
  ∧ total expense txs < total income txs.
Proof.
  unfold outcome. destruct (generate fuel s) as [o s'] eqn:Hg. simpl.
  intros ->. apply generate_result in Hg as (k & _ & -> & _ & Hagain).
  split_and!.
  - apply samples_length.
  - apply samples_ids.
  - apply samples_unique.
  - apply (samples_wf 100 0 (turns k s)).
  - apply bool_decide_eq_false in Hagain. lia.
Qed.

(** C25: the loop ends as soon as a batch has more incomes than expenses:
    when the batches of the turns before [k] have not and the batch of the
    turn [k] has, every fuel above [k] gives that batch, and the source has
    moved on by the draws of [k + 1] batches. *)
Theorem generate_enough_fuel k fuel s :
  (∀ j, (j < k)%nat → again (samples 100 0 (turns j s)) = true) →
  again (samples 100 0 (turns k s)) = false → (k < fuel)%nat →
  outcome (generate fuel) s = Ok (samples 100 0 (turns k s))
  ∧ position (exec (generate fuel) s) = (400 * S k + position s)%nat.
Proof.
  intros Hbad Hgood Hk. unfold outcome, exec.
  by rewrite (generate_turns k fuel s Hbad Hgood Hk).
Qed.

(** The source that always answers [x]. *)
Definition constant (x : Z) (p : nat) (now : Z) : Source :=
  mkSource (λ _, x) p now.

Lemma turns_constant x p now k :
  turns k (constant x p now) = constant x (400 * k + p) now.
Proof. done. Qed.

(** C31: the module may never finish loading: on the source that always
    answers the largest number every transaction is an expense, the incomes
    never exceed the expenses, and no number of turns ends the loop. *)
Theorem generate_diverges fuel p now :
  outcome (generate fuel) (constant (RES - 1) p now) = Throw SampleOutOfFuel.
Proof.
  apply generate_stuck. intros k. rewrite turns_constant.
  generalize (400 * k + p)%nat. intros q. by vm_compute.
Qed.

Lemma generate_sound_witness :
  total expense (samples 100 0 (constant 0 0 1700000300000))
  < total income (samples 100 0 (constant 0 0 1700000300000)).
Proof.
  refine (proj2 (proj2 (proj2 (proj2 (generate_sound 1 (constant 0 0 1700000300000)
            (samples 100 0 (constant 0 0 1700000300000)) _))))).
  by vm_compute.
Defined.

Lemma generate_enough_fuel_witness :
  outcome (generate 3) (constant 0 0 1700000300000)
  = Ok (samples 100 0 (constant 0 0 1700000300000)).
Proof.
  refine (proj1 (generate_enough_fuel 0 3 (constant 0 0 1700000300000) _ _ _));
    [intros j Hj; lia|by vm_compute|lia].
Defined.
