(* ===== verification/Utils.v ===== *)
(** * Utils: the two modules of [src/utils]

    - [Database] is [src/utils/database.ts]: a SQLite table of transactions
      with three operations.  The model holds what the statements of the
      source say: the table exists or not ([CREATE TABLE IF NOT EXISTS]),
      its primary key is the identifier, a row has the six columns of the
      [INSERT] and no [synced] column.  A rejected promise is a [Throw] of
      the monad of [Effects].  [SELECT *] without an order is modelled by
      the order of insertion.
    - [NotificationService] is [src/utils/notification.ts]: an event
      emitter with one method, [notify], that emits the event ['notify'].
      [on] is the subscription of the emitter class it extends.

    Neither module is called by the provider: the provider persists to
    AsyncStorage and reports with toasts. *)

From S2P Require Import Prelude Effects Types.

Module Database.

(** A row of the table [transactions]: the columns of the [CREATE TABLE]. *)
Record Row : Set := mkRow {
  row_id : string;        (** [id TEXT PRIMARY KEY NOT NULL] *)
  row_amount : Z;         (** [amount REAL NOT NULL] *)
  row_category : string;  (** [category TEXT NOT NULL] *)
  row_type : TransactionType;  (** [type TEXT NOT NULL] *)
  row_date : Z;           (** [date TEXT NOT NULL] *)
  row_notes : string;     (** [notes TEXT] *)
}.

#[global] Instance Row_eq_dec : EqDecision Row.
Proof. solve_decision. Defined.

(** The file [transactions.db]: the rows of the table when it exists. *)
Record Db : Set := mkDb { table : option (list Row) }.

Inductive DbError : Set :=
  | NoSuchTable        (** the statement names a table that does not exist *)
  | ConstraintFailed.  (** [UNIQUE constraint failed: transactions.id] *)

#[global] Instance DbError_eq_dec : EqDecision DbError.
Proof. solve_decision. Defined.

Definition empty : Db := mkDb None.

(** The values bound to the parameters of the [INSERT]. *)
Definition row_of (transaction : Transaction) : Row :=
  {| row_id := id transaction;
     row_amount := amount transaction;
     row_category := category transaction;
     row_type := type transaction;
     row_date := date transaction;
     row_notes := notes transaction |}.

(** [initDatabase]: [CREATE TABLE IF NOT EXISTS transactions (...)]. *)
Definition initDatabase : M Db DbError unit :=
  modify (λ db, match table db with
                | Some _ => db
                | None => mkDb (Some [])
                end).

(** [addTransaction]: [INSERT INTO transactions (...) VALUES (...)]. *)
Definition addTransaction (transaction : Transaction) : M Db DbError unit :=
  db <- get ;;
  match table db with
  | None => throw NoSuchTable
  | Some rows =>
      if decide (id transaction ∈ row_id <$> rows) then throw ConstraintFailed
      else modify (λ _, mkDb (Some (rows ++ [row_of transaction])))
  end.

(** [getTransactions]: [SELECT * FROM transactions]. *)
Definition getTransactions : M Db DbError (list Row) :=
  db <- get ;;
  match table db with
  | None => throw NoSuchTable
  | Some rows => ret rows
  end.

(** The primary key: no two rows have the same identifier. *)
Definition key_ok (db : Db) : Prop :=
  match table db with
  | Some rows => NoDup (row_id <$> rows)
  | None => True
  end.

#[global] Instance key_ok_dec db : Decision (key_ok db).
Proof. unfold key_ok. destruct (table db); apply _. Defined.

(** ** The operations, run *)

Lemma initDatabase_run db :
  initDatabase db = (Ok (), mkDb (Some (default [] (table db)))).
Proof. by destruct db as [[rows|]]. Qed.

Lemma addTransaction_run tx db :
  addTransaction tx db
  = match table db with
    | None => (Throw NoSuchTable, db)
    | Some rows =>
        if decide (id tx ∈ row_id <$> rows) then (Throw ConstraintFailed, db)
        else (Ok (), mkDb (Some (rows ++ [row_of tx])))
    end.
Proof.
  unfold addTransaction, bind, get. simpl.
  destruct (table db) as [rows|]; [|done]. by case_decide.
Qed.

Lemma getTransactions_run db :
  getTransactions db
  = match table db with
    | None => (Throw NoSuchTable, db)
    | Some rows => (Ok rows, db)
    end.
Proof. unfold getTransactions, bind, get. simpl. by destruct (table db). Qed.

Lemma key_ok_empty : key_ok empty.
Proof. done. Qed.

Lemma key_ok_initDatabase : preserves key_ok initDatabase.
Proof.
  intros db Hdb. unfold exec. rewrite initDatabase_run. simpl.
  unfold key_ok in *. simpl. destruct (table db); [done|constructor].
Qed.

Lemma key_ok_addTransaction tx : preserves key_ok (addTransaction tx).
Proof.
  intros db Hdb. unfold exec. rewrite addTransaction_run.
  unfold key_ok in *. destruct (table db) as [rows|] eqn:E; simpl; [|by rewrite E].
  case_decide as Hin; simpl; [by rewrite E|].
  rewrite fmap_app. apply NoDup_app. split_and!; [done| |apply NoDup_singleton].
  intros i Hi ->%list_elem_of_singleton. done.
Qed.

Lemma key_ok_getTransactions : preserves key_ok getTransactions.
Proof.
  intros db Hdb. unfold exec. rewrite getTransactions_run.
  by destruct (table db) eqn:E.
Qed.

(** ** The properties of the table *)

(** A caller that inserts a list and drops the rejections. *)
Definition insert_all (txs : list Transaction) : M Db DbError unit :=
  for_each (λ tx, try_catch (addTransaction tx) (λ _, ret ())) txs.



(** An insertion is read back: after the initialisation, a
    transaction whose identifier is not in the table is appended as the row
    of its six columns, and the selection answers the rows in the order of
    their insertion.  The column [synced] does not exist: two transactions
    that differ in [synced] only are the same row. *)
Theorem insert_then_select tx db :
  id tx ∉ row_id <$> default [] (table db) →
  outcome (initDatabase ;; addTransaction tx ;; getTransactions) db
  = Ok (default [] (table db) ++ [row_of tx])
  ∧ ∀ b, row_of (with_synced b tx) = row_of tx.
Proof.
  intros Hid. split; [|done]. unfold outcome, bind.
  rewrite initDatabase_run, addTransaction_run. simpl.
  rewrite decide_False by done. by rewrite getTransactions_run.
Qed.

Lemma insert_then_select_witness :
  outcome (initDatabase ;;
           addTransaction (mkTransaction "a" 5 "Food" expense 10 "" true) ;;
           getTransactions) empty
  = Ok [mkRow "a" 5 "Food" expense 10 ""].
Proof.
  refine (proj1 (insert_then_select
            (mkTransaction "a" 5 "Food" expense 10 "" true) empty _)).
  by intros ?%elem_of_nil.
Defined.

(** An insertion is rejected, and the file is left as it was, when the
    table was never created and when the table already has a row with the
    identifier. *)
Theorem insert_rejected tx db :
  (table db = None → addTransaction tx db = (Throw NoSuchTable, db))
  ∧ (∀ rows, table db = Some rows → id tx ∈ row_id <$> rows →
       addTransaction tx db = (Throw ConstraintFailed, db)).
Proof.
  split.
  - intros Hdb. by rewrite addTransaction_run, Hdb.
  - intros rows Hdb Hin. rewrite addTransaction_run, Hdb. by rewrite decide_True.
Qed.

(** [initDatabase] creates the table once and keeps its rows. *)
Lemma initDatabase_idemp : (initDatabase ;; initDatabase) ≡ initDatabase.
Proof.
  intros db. unfold bind. by rewrite !initDatabase_run.
Qed.
End Database.

Module NotificationService.

Inductive NotificationType : Set :=
  | sync_success    (** ['sync-success'] *)
  | sync_failure    (** ['sync-failure'] *)
  | sync_progress.  (** ['sync-progress'] *)

Record NotificationPayload : Set := mkPayload {
  type : NotificationType;
  message : string;
}.

(** The emitter: the listeners of the event ['notify'], in the order of
    their registration, and the calls made so far. *)
Record Emitter : Set := mkEmitter {
  listeners : list nat;
  calls : list (nat * NotificationPayload);
}.

Definition notificationService : Emitter := mkEmitter [] [].

(** [notificationService.on('notify', listener)] *)
Definition on (listener : nat) (e : Emitter) : Emitter :=
  mkEmitter (listeners e ++ [listener]) (calls e).

(** [notify(payload)]: [this.emit('notify', payload)] calls every listener
    with the payload, in the order of registration. *)
Definition notify (payload : NotificationPayload) (e : Emitter) : Emitter :=
  mkEmitter (listeners e)
    (calls e ++ ((λ listener, (listener, payload)) <$> listeners e)).

(** The payloads a listener was called with. *)
Definition heard (listener : nat) (e : Emitter) : list NotificationPayload :=
  snd <$> filter (λ call, call.1 = listener) (calls e).

Lemma heard_notify listener payload e :
  heard listener (notify payload e)
  = heard listener e
    ++ ((λ _, payload) <$> filter (λ l, l = listener) (listeners e)).
Proof.
  unfold heard, notify. simpl. rewrite filter_app, fmap_app. f_equal.
  induction (listeners e) as [|l ls IH]; [done|]. csimpl.
  destruct (decide (l = listener)) as [->|Hne].
  - rewrite !filter_cons_True by done. csimpl. by f_equal.
  - by rewrite !filter_cons_False by done.
Qed.

Lemma listeners_notifications ps e :
  listeners (foldl (λ e p, notify p e) e ps) = listeners e.
Proof. revert e. induction ps as [|p ps IH]; intros e; simpl; [done|by rewrite IH]. Qed.

(** A listener that has subscribed once hears every notification made
    afterwards, once each and in the order in which they were made; without
    a listener a notification is dropped. *)
Theorem notify_in_order listener ps e :
  listener ∉ listeners e →
  heard listener (foldl (λ e p, notify p e) (on listener e) ps)
  = heard listener e ++ ps.
Proof.
  intros Hl. assert (filter (λ l, l = listener) (listeners (on listener e))
    = [listener]) as Hone.
  { unfold on. simpl. rewrite filter_app, filter_cons_True, filter_nil by done.
    rewrite filter_none; [done|].
    apply Forall_forall. intros l Hin ->. done. }
  change (heard listener e) with (heard listener (on listener e)).
  revert Hone. generalize (on listener e). clear. intros e.
  revert e. induction ps as [|p ps IH]; intros e He; simpl; [by rewrite app_nil_r|].
  rewrite IH by done. rewrite heard_notify, He. simpl.
  by rewrite <- app_assoc.
Qed.

Lemma notify_in_order_witness :
  heard 7 (notify (mkPayload sync_success "done")
             (notify (mkPayload sync_progress "1/2") (on 7 notificationService)))
  = [mkPayload sync_progress "1/2"; mkPayload sync_success "done"].
Proof.
  refine (notify_in_order 7 [mkPayload sync_progress "1/2";
                             mkPayload sync_success "done"]
            notificationService _).
  by intros ?%elem_of_nil.
Defined.
End NotificationService.
