(* ===== verification/Storage.v ===== *)
(** * Storage: the local durable store

    The provider keeps two items in AsyncStorage: ['transactions'], the JSON
    encoding of the whole list, and ['lastSyncTime'], the ISO-8601 string of
    the sync cursor.  The model holds what the two strings encode
    ([JSON.parse] after [JSON.stringify] is the identity on arrays of
    transactions); an item that was never written is [None], which is what
    [getItem] answers with [null].

    A write replaces the whole item; a failed write, decided by the
    environment in [Engine], leaves the store as it was. *)

From S2P Require Import Prelude Types.

Record AsyncStorage : Set := mkAsyncStorage {
  item_transactions : option (list Transaction);
  item_lastSyncTime : option Z;
}.

#[global] Instance AsyncStorage_eq_dec : EqDecision AsyncStorage.
Proof. solve_decision. Defined.

(** A store nothing was written to. *)
Definition storage_empty : AsyncStorage := mkAsyncStorage None None.

(** [AsyncStorage.setItem('transactions', JSON.stringify(l))] *)
Definition setItem_transactions (l : list Transaction) (st : AsyncStorage) :
    AsyncStorage :=
  mkAsyncStorage (Some l) (item_lastSyncTime st).

(** [AsyncStorage.setItem('lastSyncTime', timestamp)] *)
Definition setItem_lastSyncTime (t : Z) (st : AsyncStorage) : AsyncStorage :=
  mkAsyncStorage (item_transactions st) (Some t).

(** The epoch, [new Date(0)]: the cursor of a store that was never synced. *)
Definition epoch : Z := 0.

(** The cursor a store holds: [lastSync || new Date(0).toISOString()]. *)
Definition cursor (st : AsyncStorage) : Z := default epoch (item_lastSyncTime st).

(** The list a store holds, empty when it was never written. *)
Definition stored (st : AsyncStorage) : list Transaction :=
  default [] (item_transactions st).

(** The stored list has unique identifiers. *)
Definition storage_ok (st : AsyncStorage) : Prop := unique_ids (stored st).

#[global] Instance storage_ok_dec st : Decision (storage_ok st).
Proof. unfold storage_ok. apply _. Defined.

(** ** Lemmas: the store is a pair of independent cells *)

Lemma get_set_transactions l st :
  item_transactions (setItem_transactions l st) = Some l.
Proof. done. Qed.

Lemma get_set_lastSyncTime t st :
  item_lastSyncTime (setItem_lastSyncTime t st) = Some t.
Proof. done. Qed.

Lemma set_transactions_lastSyncTime l st :
  item_lastSyncTime (setItem_transactions l st) = item_lastSyncTime st.
Proof. done. Qed.

Lemma set_lastSyncTime_transactions t st :
  item_transactions (setItem_lastSyncTime t st) = item_transactions st.
Proof. done. Qed.

Lemma set_transactions_twice l l' st :
  setItem_transactions l (setItem_transactions l' st) = setItem_transactions l st.
Proof. done. Qed.

Lemma set_items_comm l t st :
  setItem_transactions l (setItem_lastSyncTime t st)
  = setItem_lastSyncTime t (setItem_transactions l st).
Proof. done. Qed.

Lemma cursor_empty : cursor storage_empty = epoch.
Proof. done. Qed.

Lemma cursor_set_lastSyncTime t st : cursor (setItem_lastSyncTime t st) = t.
Proof. done. Qed.

Lemma cursor_set_transactions l st : cursor (setItem_transactions l st) = cursor st.
Proof. done. Qed.

Lemma stored_set_transactions l st : stored (setItem_transactions l st) = l.
Proof. done. Qed.

Lemma stored_set_lastSyncTime t st : stored (setItem_lastSyncTime t st) = stored st.
Proof. done. Qed.

Lemma storage_ok_empty : storage_ok storage_empty.
Proof. apply unique_ids_nil. Qed.

Lemma storage_ok_set_transactions l st :
  unique_ids l → storage_ok (setItem_transactions l st).
Proof. done. Qed.

Lemma storage_ok_set_lastSyncTime t st :
  storage_ok st → storage_ok (setItem_lastSyncTime t st).
Proof. done. Qed.

#[export] Hint Rewrite get_set_transactions get_set_lastSyncTime
  set_transactions_lastSyncTime set_lastSyncTime_transactions
  cursor_set_lastSyncTime cursor_set_transactions
  stored_set_transactions stored_set_lastSyncTime : ledger.
#[export] Hint Resolve storage_ok_empty storage_ok_set_transactions
  storage_ok_set_lastSyncTime : ledger.
