(* ===== verification/Remote.v ===== *)
(** * Remote: the remote ledger

    The provider writes one Firestore document per transaction, keyed by the
    transaction's identifier ([uploadTransaction]), and reads back the
    documents whose [timestamp] is later than the sync cursor
    ([fetchServerTransactions]).

    [RemoteLedger] is what the sync engine relies on: an upload that
    overwrites by identifier and a query that answers synced transactions
    with distinct identifiers.  [Engine] is written and proved against this
    interface.  [Collection] is the Firestore collection as a finite map
    from document identifiers to documents, with the document layout of the
    source, and [firestore_ledger] shows that it implements the interface.

    The order in which a query lists its documents is the order of
    [map_to_list]; no theorem depends on it. *)

From S2P Require Import Prelude Types Ledger.

(** ** The interface *)

Class RemoteLedger (R : Type) := {
  (** the ledger after a successful upload of one transaction *)
  upload : Transaction → R → R;
  (** the answer to a successful query for what is later than an instant *)
  queryAfter : Z → R → list Transaction;

  queryAfter_synced t r : Forall (λ tx, synced tx = true) (queryAfter t r);
  queryAfter_unique t r : unique_ids (queryAfter t r);
  upload_idemp tx r : upload tx (upload tx r) = upload tx r;
  queryAfter_upload t tx r :
    t < date tx → with_synced true tx ∈ queryAfter t (upload tx r);
  queryAfter_upload_inv t tx tx' r :
    tx' ∈ queryAfter t (upload tx r) → tx' ∈ queryAfter t r ∨ id tx' = id tx;
  queryAfter_upload_other t tx tx' r :
    id tx' ≠ id tx → tx' ∈ queryAfter t r → tx' ∈ queryAfter t (upload tx r);
}.

#[global] Hint Mode RemoteLedger ! : typeclass_instances.

(** ** The Firestore collection *)

(** A document of the collection ['transactions'], as [setDoc] writes it. *)
Record RemoteDoc : Set := mkRemoteDoc {
  doc_amount : Z;
  doc_category : string;
  doc_date : Z;
  doc_notes : string;
  doc_type : TransactionType;
  doc_timestamp : Z;
}.

#[global] Instance RemoteDoc_eq_dec : EqDecision RemoteDoc.
Proof. solve_decision. Defined.

Abbreviation Collection := (gmap string RemoteDoc).

(** [uploadTransaction]: the data of the document;
    [timestamp: Timestamp.fromDate(new Date(transaction.date))]. *)
Definition doc_of (transaction : Transaction) : RemoteDoc :=
  {| doc_amount := amount transaction;
     doc_category := category transaction;
     doc_date := date transaction;
     doc_notes := notes transaction;
     doc_type := type transaction;
     doc_timestamp := date transaction |}.

(** [setDoc(doc(db, 'transactions', id), data)]: overwrite by identifier. *)
Definition setDoc (i : string) (data : RemoteDoc) (c : Collection) : Collection :=
  <[i := data]> c.

(** [uploadTransaction]: the collection after the [setDoc] resolved. *)
Definition firestore_upload (transaction : Transaction) (c : Collection) :
    Collection :=
  setDoc (id transaction) (doc_of transaction) c.

(** [getDocs(query(ref, where('timestamp', '>', t)))]: the snapshot. *)
Definition getDocs (t : Z) (c : Collection) : list (string * RemoteDoc) :=
  filter (λ d, t < doc_timestamp d.2) (map_to_list c).

(** [fetchServerTransactions], the body of [querySnapshot.forEach]: the
    transaction pushed for one document. *)
Definition serverTransaction (d : string * RemoteDoc) : Transaction :=
  {| id := d.1;
     amount := doc_amount d.2;
     category := doc_category d.2;
     date := doc_date d.2;
     notes := doc_notes d.2;
     type := doc_type d.2;
     synced := true |}.

(** [fetchServerTransactions]: the array returned when the query resolved. *)
Definition firestore_query (t : Z) (c : Collection) : list Transaction :=
  serverTransaction <$> getDocs t c.

(** A document written by [uploadTransaction] has the timestamp of its date. *)
Definition coherent (c : Collection) : Prop :=
  map_Forall (λ _ d, doc_timestamp d = doc_date d) c.

(** ** Lemmas on the collection *)

Lemma serverTransaction_doc_of tx :
  serverTransaction (id tx, doc_of tx) = with_synced true tx.
Proof. done. Qed.

Lemma elem_of_getDocs t c i d :
  (i, d) ∈ getDocs t c ↔ c !! i = Some d ∧ t < doc_timestamp d.
Proof.
  unfold getDocs. rewrite list_elem_of_filter, elem_of_map_to_list. simpl. tauto.
Qed.

Lemma getDocs_ids_NoDup t c : NoDup (getDocs t c).*1.
Proof.
  unfold getDocs. apply (sublist_NoDup _ (map_to_list c).*1).
  - apply NoDup_fst_map_to_list.
  - apply fmap_sublist, sublist_filter.
Qed.

Lemma firestore_query_ids t c : ids (firestore_query t c) = (getDocs t c).*1.
Proof.
  unfold ids, firestore_query. rewrite <- list_fmap_compose.
  by apply list_fmap_ext.
Qed.

Lemma elem_of_firestore_query t c tx :
  tx ∈ firestore_query t c
  ↔ ∃ d, c !! id tx = Some d ∧ t < doc_timestamp d ∧ tx = serverTransaction (id tx, d).
Proof.
  unfold firestore_query. rewrite list_elem_of_fmap. split.
  - intros ([i d] & -> & Hd). apply elem_of_getDocs in Hd as [??]. by exists d.
  - intros (d & ? & ? & ->). exists (id tx, d). split; [done|].
    by apply elem_of_getDocs.
Qed.

Lemma firestore_upload_lookup tx c :
  firestore_upload tx c !! id tx = Some (doc_of tx).
Proof. apply lookup_insert_eq. Qed.

Lemma firestore_upload_lookup_ne tx c i :
  i ≠ id tx → firestore_upload tx c !! i = c !! i.
Proof. intros. by apply lookup_insert_ne. Qed.

Lemma firestore_upload_coherent tx c : coherent c → coherent (firestore_upload tx c).
Proof. intros Hc. by apply map_Forall_insert_2. Qed.

(** In a coherent collection a query answers exactly the documents dated
    after the instant asked for. *)
Lemma firestore_query_after t c tx :
  coherent c → tx ∈ firestore_query t c → t < date tx.
Proof.
  intros Hc (d & Hd & Ht & ->)%elem_of_firestore_query. simpl.
  by rewrite <- (Hc _ _ Hd).
Qed.

(** ** The collection implements the interface *)

Lemma firestore_query_synced t c :
  Forall (λ tx, synced tx = true) (firestore_query t c).
Proof. apply Forall_forall. by intros tx (d & _ & _ & ->)%elem_of_firestore_query. Qed.

Lemma firestore_query_unique t c : unique_ids (firestore_query t c).
Proof. unfold unique_ids. rewrite firestore_query_ids. apply getDocs_ids_NoDup. Qed.

Lemma firestore_upload_idemp tx c :
  firestore_upload tx (firestore_upload tx c) = firestore_upload tx c.
Proof. apply insert_insert_eq. Qed.

Lemma firestore_query_upload t tx c :
  t < date tx → with_synced true tx ∈ firestore_query t (firestore_upload tx c).
Proof.
  intros Ht. apply elem_of_firestore_query. exists (doc_of tx).
  by rewrite with_synced_id, firestore_upload_lookup.
Qed.

Lemma firestore_query_upload_inv t tx tx' c :
  tx' ∈ firestore_query t (firestore_upload tx c) →
  tx' ∈ firestore_query t c ∨ id tx' = id tx.
Proof.
  intros (d & Hd & Ht & Htx)%elem_of_firestore_query.
  destruct (decide (id tx' = id tx)) as [|Hne]; [by right|left].
  rewrite firestore_upload_lookup_ne in Hd by done.
  apply elem_of_firestore_query. by exists d.
Qed.

Lemma firestore_query_upload_other t tx tx' c :
  id tx' ≠ id tx → tx' ∈ firestore_query t c →
  tx' ∈ firestore_query t (firestore_upload tx c).
Proof.
  intros Hne (d & Hd & Ht & Htx)%elem_of_firestore_query.
  apply elem_of_firestore_query. exists d. by rewrite firestore_upload_lookup_ne.
Qed.

#[global] Instance firestore_ledger : RemoteLedger Collection :=
  {| upload := firestore_upload;
     queryAfter := firestore_query;
     queryAfter_synced := firestore_query_synced;
     queryAfter_unique := firestore_query_unique;
     upload_idemp := firestore_upload_idemp;
     queryAfter_upload := firestore_query_upload;
     queryAfter_upload_inv := firestore_query_upload_inv;
     queryAfter_upload_other := firestore_query_upload_other |}.

(** ** Consequences of the interface *)

Section ledger_facts.
Context `{RemoteLedger R}.

(** What a query answers merges into a ledger without breaking the
    uniqueness of identifiers. *)
Lemma merge_queryAfter_unique local t (r : R) :
  unique_ids local → unique_ids (merge local (queryAfter t r)).
Proof. intros. apply merge_unique; [done|apply queryAfter_unique]. Qed.

(** After its upload, a transaction dated after the cursor is known to the
    ledger under its own identifier. *)
Lemma queryAfter_upload_id t tx (r : R) :
  t < date tx → id tx ∈ ids (queryAfter t (upload tx r)).
Proof.
  intros Ht. apply elem_of_ids. exists (with_synced true tx).
  split; [by apply queryAfter_upload|done].
Qed.

Lemma queryAfter_new_synced local t (r : R) tx :
  tx ∈ merge local (queryAfter t r) → tx ∉ local → synced tx = true.
Proof. apply merge_new_synced. Qed.
End ledger_facts.

(** ** The contract of the remote ledger client *)

(** C18: uploading is idempotent: a second upload of a transaction leaves
    the collection as the first left it, and a query that reaches the
    transaction answers exactly one record under its identifier. *)
Theorem firestore_upload_idempotent t tx c :
  t < date tx →
  firestore_upload tx (firestore_upload tx c) = firestore_upload tx c
  ∧ with_id (id tx) (firestore_query t (firestore_upload tx (firestore_upload tx c)))
    = [with_synced true tx].
Proof.
  intros Ht. rewrite firestore_upload_idemp. split; [done|].
  apply (with_id_unique _ (with_synced true tx)).
  - apply firestore_query_unique.
  - by apply firestore_query_upload.
Qed.

(** C33: a query answers an uploaded transaction, marked as synced, exactly
    when its date is strictly later than the instant asked for. *)
Theorem firestore_query_after_upload t tx c :
  with_synced true tx ∈ firestore_query t (firestore_upload tx c) ↔ t < date tx.
Proof.
  split; [|apply firestore_query_upload].
  intros (d & Hd & Ht & _)%elem_of_firestore_query.
  rewrite with_synced_id, firestore_upload_lookup in Hd. by simplify_eq.
Qed.

(** An upload touches the document of its own identifier only: what a
    query answers under another identifier is what it answered before. *)
Theorem firestore_upload_other t tx tx' c :
  id tx' ≠ id tx →
  tx' ∈ firestore_query t (firestore_upload tx c) ↔ tx' ∈ firestore_query t c.
Proof.
  intros Hne. split.
  - by intros [?|?]%firestore_query_upload_inv.
  - by apply firestore_query_upload_other.
Qed.

(** Every record a query answers is marked as synced, and no
    identifier is answered twice. *)
Theorem firestore_query_synced_unique t c :
  Forall (λ tx, synced tx = true) (firestore_query t c)
  ∧ unique_ids (firestore_query t c).
Proof.
  split; [apply firestore_query_synced|apply firestore_query_unique].
Qed.

Lemma firestore_upload_idempotent_witness :
  with_id "a"
    (firestore_query 0
       (firestore_upload (mkTransaction "a" 5 "Food" expense 10 "" false)
          (firestore_upload (mkTransaction "a" 5 "Food" expense 10 "" false) ∅)))
  = [mkTransaction "a" 5 "Food" expense 10 "" true].
Proof.
  refine (proj2 (firestore_upload_idempotent 0
            (mkTransaction "a" 5 "Food" expense 10 "" false) ∅ _)).
  simpl. lia.
Defined.

Lemma firestore_upload_other_witness :
  mkTransaction "b" 7 "Rent" expense 20 "" true
  ∈ firestore_query 0
      (firestore_upload (mkTransaction "a" 5 "Food" expense 10 "" false)
         (firestore_upload (mkTransaction "b" 7 "Rent" expense 20 "" false) ∅)).
Proof.
  refine (proj2 (firestore_upload_other 0
            (mkTransaction "a" 5 "Food" expense 10 "" false)
            (mkTransaction "b" 7 "Rent" expense 20 "" true) _ _) _).
  - simpl. discriminate.
  - apply (bool_decide_unpack _). by vm_compute.
Defined.
