(* ===== verification/Engine.v ===== *)
(** * Engine: the [TransactionProvider] of [src/context/TransactionContext.tsx]

    [World] is everything the provider can read or change: the JavaScript
    heap of transaction arrays, the three React state hooks (the first holds
    a reference into the heap), AsyncStorage, the remote ledger, the
    environment's scripts and the trace of observable events.

    Every function declared in the body of the component closes over the
    [transactions], [isSyncing] and [loading] of the render that declared
    it: this is the [Closure].  The handlers are defined for an arbitrary
    closure; [render] gives the closure of the current state.

    The handlers are written in the monad of [Effects], one definition per
    function of the source and under its name. *)

From stdpp Require Import pretty.
From S2P Require Import Prelude Effects Types Ledger Storage Remote.

(** ** Errors, toasts and events *)

(** What an [await] can reject with. *)
Inductive Error : Set :=
  | StorageError   (** an AsyncStorage access rejected *)
  | FirestoreError (** [setDoc] or [getDocs] rejected *)
  | OutOfFuel.     (** the model of a loop ran out of fuel: never happens *)

(** [Toast.show({ type, text1, text2 })] *)
Inductive ToastType : Set := toast_info | toast_success | toast_error.

Record Toast : Set := mkToast {
  toast_type : ToastType;
  text1 : string;
  text2 : string;
}.

(** What the provider does that can be observed from outside, in order. *)
Inductive Event : Set :=
  | EToast (t : Toast)                      (** [Toast.show] *)
  | ESleep (ms : Z)                         (** [sleep(ms)] *)
  | ESetDoc (tx : Transaction) (ok : bool)  (** [setDoc] and its outcome *)
  | EGetDocs (after : Z) (ok : bool)        (** [getDocs] and its outcome *)
  | ESetItem (key : string) (ok : bool)     (** [AsyncStorage.setItem] *)
  | EGetItem (key : string) (ok : bool)     (** [AsyncStorage.getItem] *)
  | ENetInfo (isConnected : bool).          (** [NetInfo.fetch] *)

#[global] Instance Error_eq_dec : EqDecision Error.
Proof. solve_decision. Defined.
#[global] Instance ToastType_eq_dec : EqDecision ToastType.
Proof. solve_decision. Defined.
#[global] Instance Toast_eq_dec : EqDecision Toast.
Proof. solve_decision. Defined.
#[global] Instance Event_eq_dec : EqDecision Event.
Proof. solve_decision. Defined.

(** ** The environment *)

(** The answers of the outside world, consumed in call order.  [true] is a
    resolved promise (or a connected network), [false] a rejected one. *)
Record Env : Type := mkEnv {
  net : list bool;      (** [NetInfo.fetch().isConnected] *)
  uploads : list bool;  (** [setDoc] *)
  queries : list bool;  (** [getDocs] *)
  writes : list bool;   (** [AsyncStorage.setItem] *)
  reads : list bool;    (** [AsyncStorage.getItem] *)
  uuid : nat → string;  (** the results of [uuidv4()], in order *)
  uuid_next : nat;      (** how many identifiers were drawn *)
  now : Z;              (** the clock, [new Date()] *)
  sampleTransactions : list Transaction; (** [data/sampleTransactions] *)
}.

Definition set_net v (e : Env) : Env :=
  mkEnv v (uploads e) (queries e) (writes e) (reads e) (uuid e) (uuid_next e)
    (now e) (sampleTransactions e).
Definition set_uploads v (e : Env) : Env :=
  mkEnv (net e) v (queries e) (writes e) (reads e) (uuid e) (uuid_next e)
    (now e) (sampleTransactions e).
Definition set_queries v (e : Env) : Env :=
  mkEnv (net e) (uploads e) v (writes e) (reads e) (uuid e) (uuid_next e)
    (now e) (sampleTransactions e).
Definition set_writes v (e : Env) : Env :=
  mkEnv (net e) (uploads e) (queries e) v (reads e) (uuid e) (uuid_next e)
    (now e) (sampleTransactions e).
Definition set_reads v (e : Env) : Env :=
  mkEnv (net e) (uploads e) (queries e) (writes e) v (uuid e) (uuid_next e)
    (now e) (sampleTransactions e).
Definition set_uuid_next v (e : Env) : Env :=
  mkEnv (net e) (uploads e) (queries e) (writes e) (reads e) (uuid e) v
    (now e) (sampleTransactions e).
Definition set_now v (e : Env) : Env :=
  mkEnv (net e) (uploads e) (queries e) (writes e) (reads e) (uuid e)
    (uuid_next e) v (sampleTransactions e).

(** ** Closures *)

(** What the functions of one render captured. *)
Record Closure : Set := mkClosure {
  transactions : nat;  (** the array the [transactions] variable refers to *)
  isSyncing : bool;
  loading : bool;
}.

#[global] Instance Closure_eq_dec : EqDecision Closure.
Proof. solve_decision. Defined.

(** [MAX_RETRIES] of [attemptSyncTransaction]. *)
Definition MAX_RETRIES : nat := 5.

(** The first delay of [attemptSyncTransaction], in milliseconds. *)
Definition INITIAL_DELAY : Z := 1000.

Section engine.
Context {R : Type} `{!RemoteLedger R}.

(** ** The world *)

Record World : Type := mkWorld {
  heap : list (list Transaction); (** arrays, by reference *)
  hook_transactions : nat;        (** [useState<Transaction[]>([])] *)
  hook_isSyncing : bool;          (** [useState<boolean>(false)] *)
  hook_loading : bool;            (** [useState(true)] *)
  storage : AsyncStorage;
  remote : R;
  env : Env;
  trace : list Event;
}.

Definition set_heap v (w : World) : World :=
  mkWorld v (hook_transactions w) (hook_isSyncing w) (hook_loading w)
    (storage w) (remote w) (env w) (trace w).
Definition set_hook_transactions v (w : World) : World :=
  mkWorld (heap w) v (hook_isSyncing w) (hook_loading w)
    (storage w) (remote w) (env w) (trace w).
Definition set_hook_isSyncing v (w : World) : World :=
  mkWorld (heap w) (hook_transactions w) v (hook_loading w)
    (storage w) (remote w) (env w) (trace w).
Definition set_hook_loading v (w : World) : World :=
  mkWorld (heap w) (hook_transactions w) (hook_isSyncing w) v
    (storage w) (remote w) (env w) (trace w).
Definition set_storage v (w : World) : World :=
  mkWorld (heap w) (hook_transactions w) (hook_isSyncing w) (hook_loading w)
    v (remote w) (env w) (trace w).
Definition set_remote v (w : World) : World :=
  mkWorld (heap w) (hook_transactions w) (hook_isSyncing w) (hook_loading w)
    (storage w) v (env w) (trace w).
Definition set_env v (w : World) : World :=
  mkWorld (heap w) (hook_transactions w) (hook_isSyncing w) (hook_loading w)
    (storage w) (remote w) v (trace w).
Definition set_trace v (w : World) : World :=
  mkWorld (heap w) (hook_transactions w) (hook_isSyncing w) (hook_loading w)
    (storage w) (remote w) (env w) v.

(** The provider as it is mounted: [useState([])], [useState(false)],
    [useState(true)]. *)
Definition mount (st : AsyncStorage) (r : R) (e : Env) : World :=
  mkWorld [[]] 0%nat false true st r e [].

(** The array a reference denotes. *)
Definition array (ref : nat) (w : World) : list Transaction :=
  default [] (heap w !! ref).

(** The list the screens see: the array of the [transactions] hook. *)
Definition ledger (w : World) : list Transaction :=
  array (hook_transactions w) w.

(** The closure of a render in the current state. *)
Definition render (w : World) : Closure :=
  mkClosure (hook_transactions w) (hook_isSyncing w) (hook_loading w).

#[local] Abbreviation Eff := (M World Error).

(** ** Primitive effects *)

Definition emit (e : Event) : Eff unit :=
  modify (λ w, set_trace (trace w ++ [e]) w).

(** The next answer of one of the environment's scripts. *)
Definition ask (script : Env → list bool) (set : list bool → Env → Env) :
    Eff bool :=
  λ w, let '(b, rest) := pop true (script (env w)) in
       (Ok b, set_env (set rest (env w)) w).

(** [Toast.show(t)] *)
Definition Toast_show (t : Toast) : Eff unit := emit (EToast t).

(** [(await NetInfo.fetch()).isConnected] *)
Definition NetInfo_fetch : Eff bool :=
  isConnected <- ask net set_net ;;
  emit (ENetInfo isConnected) ;;
  ret isConnected.

(** [uuidv4()] *)
Definition uuidv4 : Eff string :=
  λ w, (Ok (uuid (env w) (uuid_next (env w))),
        set_env (set_uuid_next (S (uuid_next (env w))) (env w)) w).

(** [new Date()] *)
Definition Date_now : Eff Z := gets (λ w, now (env w)).

(** [sleep(ms)]: the clock moves on by [ms]. *)
Definition sleep (ms : Z) : Eff unit :=
  modify (λ w, set_env (set_now (now (env w) + ms) (env w)) w) ;;
  emit (ESleep ms).

(** [await AsyncStorage.getItem(key)], for each of the two keys. *)
Definition AsyncStorage_getItem {A} (key : string)
    (item : AsyncStorage → option A) : Eff (option A) :=
  ok <- ask reads set_reads ;;
  emit (EGetItem key ok) ;;
  if ok then gets (λ w, item (storage w)) else throw StorageError.

(** [await AsyncStorage.setItem(key, value)], for each of the two keys. *)
Definition AsyncStorage_setItem {A} (key : string)
    (set : A → AsyncStorage → AsyncStorage) (value : A) : Eff unit :=
  ok <- ask writes set_writes ;;
  emit (ESetItem key ok) ;;
  if ok then modify (λ w, set_storage (set value (storage w)) w)
  else throw StorageError.

(** [await setDoc(transactionRef, {...})] *)
Definition Firestore_setDoc (transaction : Transaction) : Eff unit :=
  ok <- ask uploads set_uploads ;;
  emit (ESetDoc transaction ok) ;;
  if ok then modify (λ w, set_remote (upload transaction (remote w)) w)
  else throw FirestoreError.

(** [await getDocs(q)] followed by the [forEach] that builds the array. *)
Definition Firestore_getDocs (after : Z) : Eff (list Transaction) :=
  ok <- ask queries set_queries ;;
  emit (EGetDocs after ok) ;;
  if ok then gets (λ w, queryAfter after (remote w)) else throw FirestoreError.

(** A new array on the heap. *)
Definition alloc (l : list Transaction) : Eff nat :=
  λ w, (Ok (length (heap w)), set_heap (heap w ++ [l]) w).

(** Mutation of an array in place. *)
Definition write (ref : nat) (l : list Transaction) : Eff unit :=
  modify (λ w, set_heap (<[ref := l]> (heap w)) w).

(** [setTransactions(l)], and [setTransactions((prev) => l)] once the
    updater has computed [l]: the hook refers to a new array. *)
Definition setTransactions (l : list Transaction) : Eff unit :=
  ref <- alloc l ;;
  modify (set_hook_transactions ref).

Definition setIsSyncing (b : bool) : Eff unit := modify (set_hook_isSyncing b).
Definition setLoading (b : bool) : Eff unit := modify (set_hook_loading b).

(** ** The toasts of the provider *)

Definition toast_load_failed : Toast :=
  mkToast toast_error "Error" "Failed to load transactions.".
Definition toast_add_failed : Toast :=
  mkToast toast_error "Error" "Failed to add transaction.".
Definition toast_offline : Toast :=
  mkToast toast_info "Offline Mode" "Using local data. Will sync when online.".
Definition toast_sync_failed : Toast :=
  mkToast toast_error "Sync Failed" "Will retry when online.".
Definition toast_uploaded (i : string) : Toast :=
  mkToast toast_success "Upload Successful" ("Transaction " +:+ i +:+ " synced.").
Definition toast_upload_failed (i : string) : Toast :=
  mkToast toast_error "Sync Error" ("Failed to sync transaction " +:+ i +:+ ".").
Definition toast_syncing (n : nat) : Toast :=
  mkToast toast_info "Syncing" ("Uploading " +:+ pretty n +:+ " transactions...").
Definition toast_bulk_failed : Toast :=
  mkToast toast_error "Sync Failed"
    "Changes saved locally. Will retry when online.".
Definition toast_merged (n : nat) : Toast :=
  mkToast toast_success "Sync Complete"
    ("Updated with " +:+ pretty n +:+ " new transactions.").
Definition toast_pull_failed : Toast :=
  mkToast toast_error "Sync Error"
    "Failed to sync with server. Local data preserved.".

(** ** The functions of the provider *)

(** [fetchServerTransactions]: the query, its rejection logged and
    rethrown. *)
Definition fetchServerTransactions (lastSyncTime : Z) :
    Eff (list Transaction) :=
  try_catch (Firestore_getDocs lastSyncTime) throw.

(** [getLastSyncTime]: the stored cursor, the epoch when there is none or
    when the read rejects. *)
Definition getLastSyncTime : Eff Z :=
  try_catch
    (lastSync <- AsyncStorage_getItem "lastSyncTime" item_lastSyncTime ;;
     ret (default epoch lastSync))
    (λ _, ret epoch).

(** [updateLastSyncTime]: a rejected write is logged and dropped. *)
Definition updateLastSyncTime (timestamp : Z) : Eff unit :=
  try_catch
    (AsyncStorage_setItem "lastSyncTime" setItem_lastSyncTime timestamp)
    (λ _, ret ()).

(** [uploadTransaction]: [setDoc], its rejection logged and rethrown. *)
Definition uploadTransaction (transaction : Transaction) : Eff unit :=
  try_catch (Firestore_setDoc transaction) throw.

(** [markTransactionAsSynced]: the updater maps over the current array of
    the hook, starts the write of the result (a rejection is logged by the
    [.catch]) and returns it as the new state. *)
Definition markTransactionAsSynced (i : string) : Eff unit :=
  try_catch
    (prevTransactions <- gets ledger ;;
     let updated := mark_synced i prevTransactions in
     try_catch
       (AsyncStorage_setItem "transactions" setItem_transactions updated)
       (λ _, ret ()) ;;
     setTransactions updated)
    (λ _, ret ()).

(** [attemptSyncTransaction], one turn of the [while] loop from the loop
    state [(attempt, success, delay)] to the next. *)
Definition attempt_once (transaction : Transaction) (attempt : nat)
    (delay : Z) : Eff (nat * bool * Z) :=
  try_catch
    (uploadTransaction transaction ;;
     markTransactionAsSynced (id transaction) ;;
     Toast_show (toast_uploaded (id transaction)) ;;
     ret (attempt, true, delay))
    (λ _,
      let attempt := S attempt in
      if bool_decide (attempt < MAX_RETRIES)%nat then
        sleep delay ;;
        ret (attempt, false, delay * 2)
      else
        Toast_show (toast_upload_failed (id transaction)) ;;
        ret (attempt, false, delay)).

(** [attemptSyncTransaction], the loop
    [while (attempt < MAX_RETRIES && !success)], on fuel. *)
Fixpoint attempt_loop (fuel : nat) (transaction : Transaction)
    (attempt : nat) (success : bool) (delay : Z) : Eff unit :=
  if bool_decide (attempt < MAX_RETRIES)%nat && negb success then
    match fuel with
    | O => throw OutOfFuel
    | S fuel =>
        st <- attempt_once transaction attempt delay ;;
        let '(attempt, success, delay) := st in
        attempt_loop fuel transaction attempt success delay
    end
  else ret ().

(** [attemptSyncTransaction]: upload with retry.  Each turn of the loop
    that does not succeed increments [attempt], so [MAX_RETRIES] turns are
    enough. *)
Definition attemptSyncTransaction (transaction : Transaction) : Eff unit :=
  attempt_loop MAX_RETRIES transaction 0 false INITIAL_DELAY.

Section render.
(** The closure of the render that declared the functions below. *)
Context (c : Closure).

(** [loadTransactions] *)
Definition loadTransactions : Eff unit :=
  try_catch
    (storedTransactions <-
       AsyncStorage_getItem "transactions" item_transactions ;;
     match storedTransactions with
     | Some l => setTransactions l
     | None =>
         sample <- gets (λ w, sampleTransactions (env w)) ;;
         let initialized := initializedTransactions sample in
         setTransactions initialized ;;
         AsyncStorage_setItem "transactions" setItem_transactions initialized
     end)
    (λ _, Toast_show toast_load_failed).

(** [getUnsyncedTransactions]: over the array of the closure. *)
Definition getUnsynced : Eff (list Transaction) :=
  gets (λ w, getUnsyncedTransactions (array (transactions c) w)).

(** [mergeTransactions]: the remote entries with an unknown identifier
    are pushed onto the array of the closure, in place. *)
Definition mergeTransactions (serverTransactions : list Transaction) :
    Eff (list Transaction) :=
  try_catch
    (local <- gets (array (transactions c)) ;;
     let merged := merge local serverTransactions in
     write (transactions c) merged ;;
     ret merged)
    throw.

(** [fetchAndMergeServerTransactions] *)
Definition fetchAndMergeServerTransactions : Eff unit :=
  try_catch
    (lastSyncTime <- getLastSyncTime ;;
     serverTransactions <- fetchServerTransactions lastSyncTime ;;
     if bool_decide (0 < length serverTransactions)%nat then
       mergeTransactions serverTransactions ;;
       newSyncTime <- Date_now ;;
       updateLastSyncTime newSyncTime ;;
       Toast_show (toast_merged (length serverTransactions))
     else ret ())
    (λ _, Toast_show toast_pull_failed).

(** [syncSingleTransaction] *)
Definition syncSingleTransaction (transaction : Transaction) : Eff unit :=
  if isSyncing c then ret ()
  else
    setIsSyncing true ;;
    try_finally
      (try_catch
         (isConnected <- NetInfo_fetch ;;
          if negb isConnected then Toast_show toast_offline
          else attemptSyncTransaction transaction)
         (λ _, Toast_show toast_sync_failed))
      (setIsSyncing false).

(** [syncAllTransactions] *)
Definition syncAllTransactions : Eff unit :=
  if isSyncing c then ret ()
  else
    setIsSyncing true ;;
    try_finally
      (try_catch
         (isConnected <- NetInfo_fetch ;;
          if negb isConnected then Toast_show toast_offline
          else
            unsyncedTransactions <- getUnsynced ;;
            (if bool_decide (0 < length unsyncedTransactions)%nat then
               Toast_show (toast_syncing (length unsyncedTransactions)) ;;
               for_each attemptSyncTransaction unsyncedTransactions
             else ret ()) ;;
            fetchAndMergeServerTransactions)
         (λ _, Toast_show toast_bulk_failed))
      (setIsSyncing false).

(** [addTransaction] *)
Definition addTransaction (newTransaction : NewTransaction) : Eff unit :=
  try_catch
    (u <- uuidv4 ;;
     let tx := transactionWithId newTransaction u in
     local <- gets (array (transactions c)) ;;
     AsyncStorage_setItem "transactions" setItem_transactions
       (updatedTransactions local tx) ;;
     prevTransactions <- gets ledger ;;
     setTransactions (updatedTransactions prevTransactions tx) ;;
     syncSingleTransaction tx)
    (λ _, Toast_show toast_add_failed).

(** The effect of the provider, the part that runs at once:
    [initialize()], that is [loadTransactions] then [setLoading(false)]. *)
Definition initialize : Eff unit :=
  loadTransactions ;;
  setLoading false.

(** The listener the effect registers with [NetInfo.addEventListener]. *)
Definition onNetInfo (isConnected : bool) : Eff unit :=
  if isConnected && negb (loading c) then syncAllTransactions else ret ().
End render.
End engine.

Arguments World R : clear implicits.
