(* ===== verification/EngineRules.v ===== *)
(** * EngineRules: symbolic execution of the provider's primitives

    For each primitive effect of [Engine] (a consumed script answer, an
    emitted event, a storage access, a Firestore call, a heap or hook
    update) the exact final world and outcome, as a [wp] equation.  The
    proofs about the handlers in [EngineInv] and [EngineSpec] are symbolic
    runs that use these equations and nothing else about the primitives.
    The tactics [wp_go] (a symbolic run), [wp_start] (from a statement on
    [exec] and [outcome] to a [wp] goal) and [concrete] with [by_run] (a run
    by computation on a world whose scripts are given) are defined here. *)

From S2P Require Import Prelude Effects Types Ledger Storage Remote Engine.

Section rules.
Context {R : Type} `{!RemoteLedger R}.
Implicit Types (w : World R) (c : Closure) (e : Event).

#[local] Abbreviation Eff := (M (World R) Error).

(** The next answer of a script, and what is left of it. *)
Definition answer (l : list bool) : bool := (pop true l).1.
Definition rest (l : list bool) : list bool := (pop true l).2.

(** The world after a script was consulted and the call logged. *)
Definition logged (set : list bool → Env → Env) (script : Env → list bool)
    (ev : bool → Event) w : World R :=
  set_trace (trace w ++ [ev (answer (script (env w)))])
    (set_env (set (rest (script (env w))) (env w)) w).

(** ** Equations for the primitives *)

Lemma wp_emit e Q w :
  wp (emit e) Q w = Q (Ok ()) (set_trace (trace w ++ [e]) w).
Proof. done. Qed.

Lemma wp_Toast_show t Q w :
  wp (Toast_show t) Q w = Q (Ok ()) (set_trace (trace w ++ [EToast t]) w).
Proof. done. Qed.

Lemma wp_ask script set Q w :
  wp (ask script set) Q w
  = Q (Ok (answer (script (env w))))
      (set_env (set (rest (script (env w))) (env w)) w).
Proof.
  unfold wp, outcome, exec, ask, answer, rest.
  by destruct (pop true (script (env w))).
Qed.

Lemma wp_NetInfo_fetch Q w :
  wp NetInfo_fetch Q w
  = Q (Ok (answer (net (env w)))) (logged set_net net ENetInfo w).
Proof. unfold NetInfo_fetch. rewrite wp_bind, wp_ask. done. Qed.

Lemma wp_uuidv4 Q w :
  wp uuidv4 Q w
  = Q (Ok (uuid (env w) (uuid_next (env w))))
      (set_env (set_uuid_next (S (uuid_next (env w))) (env w)) w).
Proof. done. Qed.

Lemma wp_Date_now Q w : wp Date_now Q w = Q (Ok (now (env w))) w.
Proof. done. Qed.

Lemma wp_sleep ms Q w :
  wp (sleep ms) Q w
  = Q (Ok ())
      (set_trace (trace w ++ [ESleep ms])
         (set_env (set_now (now (env w) + ms) (env w)) w)).
Proof. done. Qed.

Lemma wp_getItem {A} key (item : AsyncStorage → option A) Q w :
  wp (AsyncStorage_getItem key item) Q w
  = if answer (reads (env w))
    then Q (Ok (item (storage w))) (logged set_reads reads (EGetItem key) w)
    else Q (Throw StorageError) (logged set_reads reads (EGetItem key) w).
Proof.
  unfold AsyncStorage_getItem. rewrite wp_bind, wp_ask. unfold wp_then.
  rewrite wp_bind, wp_emit. unfold wp_then, logged.
  by destruct (answer (reads (env w))).
Qed.

Lemma wp_setItem {A} key (set : A → AsyncStorage → AsyncStorage) v Q w :
  wp (AsyncStorage_setItem key set v) Q w
  = if answer (writes (env w))
    then Q (Ok ())
           (set_storage (set v (storage w))
              (logged set_writes writes (ESetItem key) w))
    else Q (Throw StorageError) (logged set_writes writes (ESetItem key) w).
Proof.
  unfold AsyncStorage_setItem. rewrite wp_bind, wp_ask. unfold wp_then.
  rewrite wp_bind, wp_emit. unfold wp_then, logged.
  by destruct (answer (writes (env w))).
Qed.

Lemma wp_setDoc tx Q w :
  wp (Firestore_setDoc tx) Q w
  = if answer (uploads (env w))
    then Q (Ok ())
           (set_remote (upload tx (remote w))
              (logged set_uploads uploads (ESetDoc tx) w))
    else Q (Throw FirestoreError) (logged set_uploads uploads (ESetDoc tx) w).
Proof.
  unfold Firestore_setDoc. rewrite wp_bind, wp_ask. unfold wp_then.
  rewrite wp_bind, wp_emit. unfold wp_then, logged.
  by destruct (answer (uploads (env w))).
Qed.

Lemma wp_getDocs t Q w :
  wp (Firestore_getDocs t) Q w
  = if answer (queries (env w))
    then Q (Ok (queryAfter t (remote w)))
           (logged set_queries queries (EGetDocs t) w)
    else Q (Throw FirestoreError) (logged set_queries queries (EGetDocs t) w).
Proof.
  unfold Firestore_getDocs. rewrite wp_bind, wp_ask. unfold wp_then.
  rewrite wp_bind, wp_emit. unfold wp_then, logged.
  by destruct (answer (queries (env w))).
Qed.

Lemma wp_alloc l Q w :
  wp (alloc l) Q w = Q (Ok (length (heap w))) (set_heap (heap w ++ [l]) w).
Proof. done. Qed.

Lemma wp_write ref l Q w :
  wp (write ref l) Q w = Q (Ok ()) (set_heap (<[ref := l]> (heap w)) w).
Proof. done. Qed.

Lemma wp_setTransactions l Q w :
  wp (setTransactions l) Q w
  = Q (Ok ())
      (set_hook_transactions (length (heap w)) (set_heap (heap w ++ [l]) w)).
Proof. done. Qed.

Lemma wp_setIsSyncing b Q w :
  wp (setIsSyncing b) Q w = Q (Ok ()) (set_hook_isSyncing b w).
Proof. done. Qed.

Lemma wp_setLoading b Q w :
  wp (setLoading b) Q w = Q (Ok ()) (set_hook_loading b w).
Proof. done. Qed.

(** ** Reading the world after an update *)

Lemma array_alloc ref l w :
  array ref (set_heap (heap w ++ [l]) w)
  = if decide (ref = length (heap w)) then l else array ref w.
Proof.
  unfold array. simpl. case_decide as E.
  - subst. by rewrite lookup_app_r, Nat.sub_diag by lia.
  - destruct (decide (ref < length (heap w))%nat).
    + by rewrite lookup_app_l.
    + rewrite !lookup_ge_None_2; [done|lia|rewrite length_app; simpl; lia].
Qed.

Lemma ledger_setTransactions l w :
  ledger (set_hook_transactions (length (heap w)) (set_heap (heap w ++ [l]) w)) = l.
Proof.
  unfold ledger. simpl. unfold array. simpl.
  by rewrite lookup_app_r, Nat.sub_diag by lia.
Qed.

Lemma array_write ref ref' l w :
  array ref (set_heap (<[ref' := l]> (heap w)) w)
  = if decide (ref = ref' ∧ ref' < length (heap w))%nat then l else array ref w.
Proof.
  unfold array. simpl. case_decide as E.
  - destruct E as [-> ?]. by rewrite list_lookup_insert_eq.
  - destruct (decide (ref = ref')) as [->|].
    + rewrite list_insert_ge by lia. done.
    + by rewrite list_lookup_insert_ne.
Qed.

Lemma array_logged set script ev ref w :
  array ref (logged set script ev w) = array ref w.
Proof. done. Qed.

Lemma ledger_logged set script ev w : ledger (logged set script ev w) = ledger w.
Proof. done. Qed.
End rules.

#[export] Hint Rewrite @wp_emit @wp_Toast_show @wp_ask @wp_NetInfo_fetch
  @wp_uuidv4 @wp_Date_now @wp_sleep @wp_getItem @wp_setItem @wp_setDoc
  @wp_getDocs @wp_alloc @wp_write @wp_setTransactions @wp_setIsSyncing
  @wp_setLoading : wp.

(** A symbolic run of a handler: structural rules and primitive equations,
    up to the first choice of the environment. *)
Ltac wp_prim :=
  first
    [ rewrite wp_Toast_show | rewrite wp_emit | rewrite wp_NetInfo_fetch
    | rewrite wp_uuidv4 | rewrite wp_Date_now | rewrite wp_sleep
    | rewrite wp_getItem | rewrite wp_setItem | rewrite wp_setDoc
    | rewrite wp_getDocs | rewrite wp_setTransactions | rewrite wp_alloc
    | rewrite wp_write | rewrite wp_setIsSyncing | rewrite wp_setLoading
    | rewrite wp_ask ];
  unfold wp_then, wp_else, wp_after; cbn beta iota.

Ltac wp_go := repeat first [wp_step | wp_prim].

(** Turn a goal about [outcome m w] and [exec m w] into a goal about
    [wp m _ w]. *)
Ltac wp_start :=
  cbv zeta;
  lazymatch goal with
  | |- context [exec ?m ?w] =>
      pattern (outcome m w), (exec m w);
      lazymatch goal with |- ?Q _ _ => change (wp m Q w) end
  | |- context [outcome ?m ?w] =>
      pattern (outcome m w), (exec m w);
      lazymatch goal with |- ?Q _ _ => change (wp m Q w) end
  end.

(** A world with its fields and scripts named, for a run by computation. *)
Ltac concrete w :=
  destruct w as [?hp ?ht ?hs ?hl ?st ?r [] ?tr]; simpl in *; subst.

(** Close the goals a run by computation leaves: equal fields, traces up to
    the association of [++], instants up to arithmetic. *)
Ltac by_run :=
  split_and!;
  first [ reflexivity
        | cbv -[app]; by rewrite <- ?app_assoc
        | cbv -[Z.add Z.mul]; lia ].
