(* ===== verification/EngineOrder.v ===== *)
(** * EngineOrder: the order every run of the provider climbs

    [extends] is a preorder on worlds: the trace grows at its end, an array
    on the heap is only ever pushed to, and the environment only draws new
    identifiers.  Every primitive and every handler of [Engine] takes a world
    to a later one ([advances extends]); the tactic [adv_walk] proves it
    along the structure of a handler.  Events observed before a handler ran
    are therefore never rewritten, and what was known of an array or of the
    identifier generator stays known. *)

From S2P Require Import Prelude Effects Types Ledger Storage Remote.
From S2P Require Import Engine EngineRules.

Section extends.
Context {R : Type} `{!RemoteLedger R}.
Implicit Types (w : World R) (c : Closure).

(** ** The preorder [extends] *)

Definition env_le (e e' : Env) : Prop :=
  uuid e = uuid e' ∧ (uuid_next e ≤ uuid_next e')%nat
  ∧ sampleTransactions e = sampleTransactions e'.

Definition heap_le (h h' : list (list Transaction)) : Prop :=
  ∀ ref l, h !! ref = Some l → ∃ l', h' !! ref = Some l' ∧ l `prefix_of` l'.

Record extends (w w' : World R) : Prop := mkExtends {
  ext_env : env_le (env w) (env w');
  ext_trace : trace w `prefix_of` trace w';
  ext_heap : heap_le (heap w) (heap w');
}.

#[global] Instance env_le_preorder : PreOrder env_le.
Proof.
  split; [by intros e|].
  intros e1 e2 e3 (? & ? & ?) (? & ? & ?).
  split_and!; [congruence|lia|congruence].
Qed.

#[global] Instance heap_le_preorder : PreOrder heap_le.
Proof.
  split; [intros h ref l ?; by exists l|].
  intros h1 h2 h3 H12 H23 ref l Hl.
  destruct (H12 _ _ Hl) as (l2 & Hl2 & ?). destruct (H23 _ _ Hl2) as (l3 & ? & ?).
  exists l3. split; [done|by etrans].
Qed.

#[global] Instance extends_preorder : PreOrder extends.
Proof.
  split; [by intros w|].
  intros w1 w2 w3 [] []. split; by etrans.
Qed.

Lemma heap_le_app h l : heap_le h (h ++ [l]).
Proof. intros ref l' Hl. exists l'. split; [|done]. by apply lookup_app_l_Some. Qed.

Lemma heap_le_insert h ref l l' :
  h !! ref = Some l → l `prefix_of` l' → heap_le h (<[ref := l']> h).
Proof.
  intros Href Hpre r x Hx. destruct (decide (r = ref)) as [->|Hne].
  - exists l'. rewrite list_lookup_insert_eq by (by eapply lookup_lt_Some).
    split; [done|congruence].
  - exists x. by rewrite list_lookup_insert_ne.
Qed.

Lemma heap_le_length h h' : heap_le h h' → (length h ≤ length h')%nat.
Proof.
  intros Hle. destruct (decide (length h = 0)%nat) as [|Hne]; [lia|].
  destruct (lookup_lt_is_Some_2 h (pred (length h))) as [l Hl]; [lia|].
  destruct (Hle _ _ Hl) as (l' & Hl' & _). apply lookup_lt_Some in Hl'. lia.
Qed.

(** Updates that extend the world. *)
Lemma extends_trace w ev : extends w (set_trace (trace w ++ [ev]) w).
Proof. split; simpl; [done|by eexists|done]. Qed.

Lemma extends_logged set script ev w :
  (∀ v e, uuid (set v e) = uuid e ∧ uuid_next (set v e) = uuid_next e
          ∧ sampleTransactions (set v e) = sampleTransactions e) →
  extends w (logged set script ev w).
Proof.
  intros Hset. unfold logged. split; simpl; [|by eexists|done].
  destruct (Hset (rest (script (env w))) (env w)) as (? & ? & ?).
  split_and!; [done|lia|done].
Qed.

Lemma extends_same_core w w' :
  env w' = env w → trace w' = trace w → heap w' = heap w → extends w w'.
Proof. intros He Ht Hh. split; rewrite ?He, ?Ht, ?Hh; done. Qed.

Lemma extends_alloc l w : extends w (set_heap (heap w ++ [l]) w).
Proof. split; simpl; [done|done|apply heap_le_app]. Qed.

Lemma extends_write ref l w :
  array ref w `prefix_of` l → extends w (set_heap (<[ref := l]> (heap w)) w).
Proof.
  intros Hpre. split; simpl; [done|done|].
  destruct (heap w !! ref) as [l0|] eqn:E.
  - eapply heap_le_insert; [done|]. unfold array in Hpre. by rewrite E in Hpre.
  - rewrite list_insert_ge; [done|]. by apply lookup_ge_None.
Qed.

(** ** Every primitive extends the world *)

#[local] Abbreviation adv := (advances extends).

Lemma adv_emit ev : adv (emit ev).
Proof. intros w. apply extends_trace. Qed.

Lemma adv_ask_logged {A} set script ev (k : bool → M (World R) Error A) :
  (∀ v e, uuid (set v e) = uuid e ∧ uuid_next (set v e) = uuid_next e
          ∧ sampleTransactions (set v e) = sampleTransactions e) →
  (∀ b, adv (k b)) →
  adv (ok <- ask script set ;; emit (ev ok) ;; k ok).
Proof.
  intros Hset Hk w.
  change (wp (ok <- ask script set ;; emit (ev ok) ;; k ok)
            (λ _ w', extends w w') w).
  rewrite wp_bind, wp_ask. unfold wp_then.
  rewrite wp_bind, wp_emit. unfold wp_then, wp.
  etrans; [apply (extends_logged set script ev w Hset)|apply Hk].
Qed.

Lemma adv_setItem {A} key (set : A → AsyncStorage → AsyncStorage) v :
  adv (AsyncStorage_setItem key set v).
Proof.
  apply adv_ask_logged; [done|]. intros []; [|apply advances_throw; apply _].
  apply advances_modify. intros w. by apply extends_same_core.
Qed.

Lemma adv_getItem {A} key (item : AsyncStorage → option A) :
  adv (AsyncStorage_getItem key item).
Proof.
  apply adv_ask_logged; [done|].
  intros []; [apply advances_gets|apply advances_throw]; apply _.
Qed.

Lemma adv_setDoc tx : adv (Firestore_setDoc tx).
Proof.
  apply adv_ask_logged; [done|]. intros []; [|apply advances_throw; apply _].
  apply advances_modify. intros w. by apply extends_same_core.
Qed.

Lemma adv_getDocs t : adv (Firestore_getDocs t).
Proof.
  apply adv_ask_logged; [done|].
  intros []; [apply advances_gets|apply advances_throw]; apply _.
Qed.

Lemma adv_NetInfo_fetch : adv NetInfo_fetch.
Proof. apply adv_ask_logged; [done|]. intros b. apply advances_ret, _. Qed.

Lemma adv_uuidv4 : adv uuidv4.
Proof.
  intros w. split; simpl; [|done|done]. split_and!; simpl; [done|lia|done].
Qed.

Lemma adv_sleep ms : adv (sleep ms).
Proof.
  apply advances_bind; [apply _| |intros; apply adv_emit].
  apply advances_modify. intros w. split; simpl; done.
Qed.

Lemma adv_setTransactions l : adv (setTransactions l).
Proof.
  apply advances_bind; [apply _|intros w; apply extends_alloc|].
  intros ref. apply advances_modify. intros w. by apply extends_same_core.
Qed.

Lemma adv_setIsSyncing b : adv (setIsSyncing b).
Proof. apply advances_modify. intros w. by apply extends_same_core. Qed.

Lemma adv_setLoading b : adv (setLoading b).
Proof. apply advances_modify. intros w. by apply extends_same_core. Qed.
End extends.

Create HintDb adv discriminated.
#[export] Hint Resolve adv_emit adv_setItem adv_getItem adv_setDoc adv_getDocs
  adv_NetInfo_fetch adv_uuidv4 adv_sleep adv_setTransactions adv_setIsSyncing
  adv_setLoading : adv.

(** Walk the structure of a handler with the rules of [Effects] for a
    preorder; the leaves are closed by the lemmas of the database [adv] and
    by the hypotheses. *)
Ltac adv_walk :=
  advances_walk
    ltac:(first [ solve [auto 1 with adv nocore] | apply adv_emit
                | apply advances_gets; apply _ ]).

(** ** Every handler extends the world *)

Section handlers_extend.
Context {R : Type} `{!RemoteLedger R}.
Implicit Types (w : World R) (c : Closure).

#[local] Abbreviation adv := (advances (extends (R:=R))).

Lemma adv_gets_bind {A B} (f : World R → A) (k : A → M (World R) Error B) :
  (∀ w, extends w (exec (k (f w)) w)) → adv (x <- gets f ;; k x).
Proof. intros Hk w. apply Hk. Qed.

Lemma adv_fetchServerTransactions t : adv (fetchServerTransactions t).
Proof. unfold fetchServerTransactions. adv_walk. Qed.

Lemma adv_getLastSyncTime : adv getLastSyncTime.
Proof. unfold getLastSyncTime. adv_walk. Qed.

Lemma adv_updateLastSyncTime t : adv (updateLastSyncTime t).
Proof. unfold updateLastSyncTime. adv_walk. Qed.

Lemma adv_uploadTransaction tx : adv (uploadTransaction tx).
Proof. unfold uploadTransaction. adv_walk. Qed.

Lemma adv_markTransactionAsSynced i : adv (markTransactionAsSynced i).
Proof. unfold markTransactionAsSynced. adv_walk. Qed.

Lemma adv_attempt_once tx attempt delay : adv (attempt_once tx attempt delay).
Proof.
  unfold attempt_once.
  pose proof adv_uploadTransaction. pose proof adv_markTransactionAsSynced.
  adv_walk.
Qed.

Lemma adv_attempt_loop fuel tx attempt success delay :
  adv (attempt_loop fuel tx attempt success delay).
Proof.
  revert attempt success delay.
  induction fuel as [|fuel IH]; intros attempt success delay; simpl;
    apply advances_if; [adv_walk..| |adv_walk].
  apply advances_bind; [apply _|apply adv_attempt_once|].
  intros [[a s] d]. apply IH.
Qed.

Lemma adv_attemptSyncTransaction tx : adv (attemptSyncTransaction tx).
Proof. apply adv_attempt_loop. Qed.

Lemma adv_loadTransactions : adv loadTransactions.
Proof.
  unfold loadTransactions. adv_walk.
  case_match; adv_walk.
Qed.

Lemma adv_mergeTransactions c server : adv (mergeTransactions c server).
Proof.
  unfold mergeTransactions. apply advances_try_catch; [apply _| |adv_walk].
  apply adv_gets_bind. intros w. apply extends_write, merge_prefix.
Qed.

Lemma adv_fetchAndMergeServerTransactions c :
  adv (fetchAndMergeServerTransactions c).
Proof.
  unfold fetchAndMergeServerTransactions.
  pose proof adv_getLastSyncTime. pose proof adv_fetchServerTransactions.
  pose proof adv_mergeTransactions. pose proof adv_updateLastSyncTime.
  adv_walk.
Qed.

Lemma adv_syncSingleTransaction c tx : adv (syncSingleTransaction c tx).
Proof.
  unfold syncSingleTransaction.
  pose proof adv_attemptSyncTransaction. adv_walk.
Qed.

Lemma adv_syncAllTransactions c : adv (syncAllTransactions c).
Proof.
  unfold syncAllTransactions, getUnsynced.
  pose proof adv_fetchAndMergeServerTransactions. adv_walk.
  apply advances_for_each; [apply _|]. apply adv_attemptSyncTransaction.
Qed.

Lemma adv_addTransaction c n : adv (addTransaction c n).
Proof.
  unfold addTransaction.
  pose proof adv_syncSingleTransaction. adv_walk.
Qed.

Lemma adv_initialize : adv initialize.
Proof. unfold initialize. pose proof adv_loadTransactions. adv_walk. Qed.

Lemma adv_onNetInfo c b : adv (onNetInfo c b).
Proof. unfold onNetInfo. pose proof adv_syncAllTransactions. adv_walk. Qed.

(** What the preorder gives: after any handler, the events observed
    before are still the beginning of the trace. *)
Lemma extends_trace_prefix w w' : extends w w' → trace w `prefix_of` trace w'.
Proof. by intros []. Qed.
End handlers_extend.
