(* ===== verification/EngineInv.v ===== *)
(** * EngineInv: the well-formedness of a world and its preservation

    [inv w] says that the world is one the provider can be in: the hook
    refers to an array of the heap; every array of the heap, the stored list
    and the sample data have unique identifiers; and no identifier in use
    anywhere (heap, store, sample data, remote ledger) will be drawn again by
    the generator.  The last part is the assumption on [uuidv4] made
    explicit: without it [addTransaction] could create a duplicate.

    Every handler keeps [inv].  The uniqueness of identifiers in the list the
    screens see is a consequence. *)

From S2P Require Import Prelude Effects Types Ledger Storage Remote.
From S2P Require Import Engine EngineRules EngineOrder.

Section invariant.
Context {R : Type} `{!RemoteLedger R}.
Implicit Types (w : World R) (c : Closure) (e : Env) (l : list Transaction).

(** [used e i]: the generator will not draw [i] from now on. *)
Definition used e (i : string) : Prop :=
  ∀ n, (uuid_next e ≤ n)%nat → uuid e n ≠ i.

(** [known e l]: the identifiers of [l] are unique and all in use. *)
Definition known e l : Prop :=
  unique_ids l ∧ Forall (λ tx, used e (id tx)) l.

(** The generator never answers the same identifier twice. *)
Definition uuid_fresh e : Prop :=
  ∀ n m, (uuid_next e ≤ n)%nat → (n < m)%nat → uuid e n ≠ uuid e m.

Record inv w : Prop := mkInv {
  inv_hook : (hook_transactions w < length (heap w))%nat;
  inv_heap : Forall (known (env w)) (heap w);
  inv_stored : known (env w) (stored (storage w));
  inv_sample : known (env w) (sampleTransactions (env w));
  inv_remote : ∀ t tx, tx ∈ queryAfter t (remote w) → used (env w) (id tx);
  inv_uuid : uuid_fresh (env w);
}.

(** ** [used] and [known] *)

Lemma used_mono e e' i : env_le e e' → used e i → used e' i.
Proof. intros (Hu & Hn & _) H n Hle. rewrite <- Hu. apply H. lia. Qed.

Lemma known_mono e e' l : env_le e e' → known e l → known e' l.
Proof.
  intros Hle [Hu Hf]. split; [done|].
  eapply Forall_impl; [done|]. intros tx. by apply used_mono.
Qed.

Lemma uuid_fresh_mono e e' : env_le e e' → uuid_fresh e → uuid_fresh e'.
Proof. intros (Hu & Hn & _) H n m Hle Hlt. rewrite <- Hu. apply H; lia. Qed.

Lemma known_nil e : known e [].
Proof. split; [apply unique_ids_nil|done]. Qed.

Lemma known_ids e l i : known e l → i ∈ ids l → used e i.
Proof.
  intros [_ Hf] (tx & Htx & <-)%elem_of_ids.
  by apply (proj1 (Forall_forall _ _) Hf).
Qed.

(** The next identifier is not yet in a known list. *)
Lemma known_next_fresh e l : known e l → uuid e (uuid_next e) ∉ ids l.
Proof. intros Hk Hin. by apply (known_ids _ _ _ Hk Hin (uuid_next e)). Qed.

Lemma known_fmap e l (g : Transaction → Transaction) :
  (∀ tx, id (g tx) = id tx) → known e l → known e (g <$> l).
Proof.
  intros Hg [Hu Hf]. split.
  - unfold unique_ids, ids. by rewrite (keys_fmap_id id).
  - apply Forall_fmap. eapply Forall_impl; [done|]. intros tx. simpl. by rewrite Hg.
Qed.

Lemma known_mark_synced e l i : known e l → known e (mark_synced i l).
Proof. apply known_fmap. intros tx. by case_decide. Qed.

Lemma known_initialized e l : known e l → known e (initializedTransactions l).
Proof. by apply known_fmap. Qed.

Lemma known_push e l tx :
  known e l → used e (id tx) → id tx ∉ ids l → known e (updatedTransactions l tx).
Proof.
  intros [Hu Hf] Hused Hnew. split; [by apply updatedTransactions_unique|].
  apply Forall_app. split; [done|by apply Forall_singleton].
Qed.

Lemma known_merge e l server :
  known e l → known e server → known e (merge l server).
Proof.
  intros [Hu Hf] [Hsu Hsf]. split; [by apply merge_unique|].
  rewrite merge_eq_spec. apply Forall_app. split; [done|].
  apply Forall_fmap, Forall_forall. intros s [_ Hs]%list_elem_of_filter. simpl.
  by apply (proj1 (Forall_forall _ _) Hsf).
Qed.

(** ** What the invariant gives *)

Lemma inv_array w ref : inv w → known (env w) (array ref w).
Proof.
  intros Hw. unfold array. destruct (heap w !! ref) as [l|] eqn:E; simpl.
  - eapply (proj1 (Forall_forall _ _) (inv_heap _ Hw)).
    by eapply list_elem_of_lookup_2.
  - apply known_nil.
Qed.

Lemma inv_ledger w : inv w → known (env w) (ledger w).
Proof. apply inv_array. Qed.

Lemma inv_query w t : inv w → known (env w) (queryAfter t (remote w)).
Proof.
  intros Hw. split; [apply queryAfter_unique|].
  apply Forall_forall. intros tx. apply (inv_remote _ Hw).
Qed.

(** ** Updates that keep the invariant *)

(** The invariant reads the hook, the heap, the store, the remote ledger
    and, of the environment, the generator and the sample data. *)
Lemma inv_transfer w w' :
  hook_transactions w' = hook_transactions w → heap w' = heap w →
  storage w' = storage w → remote w' = remote w →
  env_le (env w) (env w') → inv w → inv w'.
Proof.
  intros Hh Hp Hs Hr Hle [H1 H2 H3 H4 H5 H6].
  split; rewrite ?Hh, ?Hp, ?Hs, ?Hr.
  - done.
  - eapply Forall_impl; [done|]. intros l. by apply known_mono.
  - by eapply known_mono.
  - rewrite <- (proj2 (proj2 Hle)). by eapply known_mono.
  - intros t tx Htx. eapply used_mono; [done|]. by eapply H5.
  - by eapply uuid_fresh_mono.
Qed.

Lemma inv_logged set script ev w :
  (∀ v e, uuid (set v e) = uuid e ∧ uuid_next (set v e) = uuid_next e
          ∧ sampleTransactions (set v e) = sampleTransactions e) →
  inv w → inv (logged set script ev w).
Proof.
  intros Hset. apply inv_transfer; try done.
  apply (ext_env _ _ (extends_logged set script ev w Hset)).
Qed.

Lemma inv_set_trace w t : inv w → inv (set_trace t w).
Proof. by apply inv_transfer. Qed.

Lemma inv_set_hook_isSyncing w b : inv w → inv (set_hook_isSyncing b w).
Proof. by apply inv_transfer. Qed.

Lemma inv_set_hook_loading w b : inv w → inv (set_hook_loading b w).
Proof. by apply inv_transfer. Qed.

Lemma inv_set_now w t : inv w → inv (set_env (set_now t (env w)) w).
Proof. by apply inv_transfer. Qed.

Lemma inv_setTransactions w l :
  inv w → known (env w) l →
  inv (set_hook_transactions (length (heap w)) (set_heap (heap w ++ [l]) w)).
Proof.
  intros [H1 H2 H3 H4 H5 H6] Hl. split; simpl; try done.
  - rewrite length_app. simpl. lia.
  - apply Forall_app. split; [done|by apply Forall_singleton].
Qed.

Lemma inv_write w ref l :
  inv w → known (env w) l → inv (set_heap (<[ref := l]> (heap w)) w).
Proof.
  intros [H1 H2 H3 H4 H5 H6] Hl. split; simpl; try done.
  - by rewrite length_insert.
  - by apply Forall_insert.
Qed.

Lemma inv_set_transactions_item w l :
  inv w → known (env w) l →
  inv (set_storage (setItem_transactions l (storage w)) w).
Proof. intros [H1 H2 H3 H4 H5 H6] Hl. by split. Qed.

Lemma inv_set_lastSyncTime_item w t :
  inv w → inv (set_storage (setItem_lastSyncTime t (storage w)) w).
Proof. intros [H1 H2 H3 H4 H5 H6]. by split. Qed.

Lemma inv_upload w tx :
  inv w → used (env w) (id tx) → inv (set_remote (upload tx (remote w)) w).
Proof.
  intros [H1 H2 H3 H4 H5 H6] Htx. split; simpl; try done.
  intros t tx' [?| ->]%queryAfter_upload_inv; [by eapply H5|done].
Qed.

(** Drawing an identifier: the world stays well formed and the identifier
    drawn is in use from then on. *)
Lemma inv_draw w :
  inv w → inv (set_env (set_uuid_next (S (uuid_next (env w))) (env w)) w).
Proof.
  intros Hw. apply (inv_transfer w); [done..| |done].
  split_and!; simpl; [done|lia|done].
Qed.

Lemma used_draw w e' :
  inv w → env_le (set_uuid_next (S (uuid_next (env w))) (env w)) e' →
  used e' (uuid (env w) (uuid_next (env w))).
Proof.
  intros Hw Hle. eapply used_mono; [done|].
  intros n Hn. simpl in *. apply not_eq_sym, (inv_uuid _ Hw); lia.
Qed.

(** The list a read of the store answers. *)
Lemma inv_item_transactions w l :
  inv w → item_transactions (storage w) = Some l → known (env w) l.
Proof. intros Hw Hl. generalize (inv_stored _ Hw). unfold stored. by rewrite Hl. Qed.

(** ** Well-formed worlds in which given identifiers are in use *)

Definition inv_for (us : list string) w : Prop :=
  inv w ∧ Forall (used (env w)) us.

Lemma inv_for_nil w : inv w → inv_for [] w.
Proof. by split. Qed.

Lemma inv_for_inv us w : inv_for us w → inv w.
Proof. by intros []. Qed.

Lemma inv_for_used us w i : inv_for us w → i ∈ us → used (env w) i.
Proof. intros [_ Hu] Hi. by apply (proj1 (Forall_forall _ _) Hu). Qed.

Lemma inv_for_weaken us us' w : us' ⊆ us → inv_for us w → inv_for us' w.
Proof.
  intros Hsub [Hw Hu]. split; [done|]. apply Forall_forall. intros i Hi.
  apply (proj1 (Forall_forall _ _) Hu), Hsub, Hi.
Qed.

Lemma inv_for_app us us' w :
  inv_for us w → Forall (used (env w)) us' → inv_for (us' ++ us) w.
Proof. intros [Hw Hu] Hu'. split; [done|by apply Forall_app]. Qed.

Lemma inv_for_known us l w :
  inv_for us w → known (env w) l → inv_for (ids l ++ us) w.
Proof.
  intros Hw [_ Hl]. apply inv_for_app; [done|]. by apply Forall_fmap.
Qed.

Lemma inv_for_extends us w w' :
  inv_for us w → extends w w' → inv w' → inv_for us w'.
Proof.
  intros [_ Hu] Hext Hw'. split; [done|].
  eapply Forall_impl; [done|]. intros i. apply used_mono, (ext_env _ _ Hext).
Qed.

(** A handler that keeps the world well formed and extends it keeps the
    identifiers in use. *)
Lemma keeps_intro_from {A} us (P : World R → Prop) (m : M (World R) Error A) :
  advances extends m →
  (∀ w, P w → inv_for us w) →
  (∀ w, P w → wp m (λ _, inv) w) →
  hoare P m (λ _, inv_for us).
Proof.
  intros Ha HP Hm w Hw. apply (inv_for_extends us w); [by apply HP|apply Ha|].
  by apply Hm.
Qed.

Lemma keeps_intro {A} us (m : M (World R) Error A) :
  advances extends m →
  (∀ w, inv_for us w → wp m (λ _, inv) w) →
  preserves (inv_for us) m.
Proof. intros Ha Hm. by apply (keeps_intro_from us (inv_for us)). Qed.

(** The identifiers put in use for a part of a handler can be forgotten
    after it. *)
Lemma keeps_weaken {A} us us' (m : M (World R) Error A) :
  us' ⊆ us → advances extends m →
  (∀ w, inv_for us' w → Forall (used (env w)) us) →
  preserves (inv_for us) m → preserves (inv_for us') m.
Proof.
  intros Hsub Ha Hu Hm w Hw. apply (inv_for_weaken us); [done|].
  apply Hm. split; [by destruct Hw|by apply Hu].
Qed.
End invariant.

Create HintDb inv discriminated.
#[export] Hint Resolve inv_array inv_ledger inv_query known_nil known_mark_synced
  known_initialized known_merge inv_for_inv inv_item_transactions inv_sample : inv.

(** The next environment of a run is later than the first. *)
Ltac env_le_solve :=
  solve [unfold logged; simpl; split_and!; simpl; first [done|lia]].

(** Well-formedness of the world a symbolic run ends in, by the shape of
    the world. *)
Ltac inv_solve :=
  repeat first
    [ assumption
    | lazymatch goal with
      | |- inv (set_trace _ _) => apply inv_set_trace
      | |- inv (set_hook_isSyncing _ _) => apply inv_set_hook_isSyncing
      | |- inv (set_hook_loading _ _) => apply inv_set_hook_loading
      | |- inv (logged _ _ _ _) => apply inv_logged; [done|]
      | |- inv (set_env (set_now _ _) _) => apply inv_set_now
      | |- inv (set_env (set_uuid_next _ _) _) => apply inv_draw
      | |- inv (set_storage (setItem_lastSyncTime ?t _) ?w) =>
          apply (inv_set_lastSyncTime_item w t)
      | |- inv (set_storage (setItem_transactions ?l _) ?w) =>
          apply (inv_set_transactions_item w l)
      | |- inv (set_hook_transactions _ (set_heap (_ ++ [?l]) ?w)) =>
          apply (inv_setTransactions w l)
      | |- inv (set_heap (<[?ref := ?l]> _) ?w) => apply (inv_write w ref l)
      | |- inv (set_remote (upload ?tx _) ?w) => apply (inv_upload w tx)
      | |- known _ _ =>
          eapply known_mono; [|solve [eauto with inv]]; env_le_solve
      | |- used _ _ =>
          eapply used_mono; [|solve [eauto using inv_for_used with inv]];
          env_le_solve
      end ].

#[export] Hint Extern 2 (inv _) => solve [inv_solve] : inv.

(** A symbolic run of a handler for its well-formedness. *)
Ltac keep_run :=
  wp_go; repeat (case_match; wp_go); inv_solve.

(** A primitive keeps the world well formed. *)
Ltac keep_prim :=
  apply keeps_intro;
    [first [apply adv_emit|apply advances_gets, _|auto 1 with adv nocore]
    |let Hw := fresh "Hw" in
     intros ? Hw; pose proof (inv_for_inv _ _ Hw); keep_run].

Create HintDb keep discriminated.

(** Walk the structure of a handler with the rules of [Effects] for an
    invariant; the leaves are closed by the database [keep]. *)
Ltac keep_walk := preserves_walk ltac:(auto 2 with keep nocore).

(** ** Every handler keeps the world well formed *)

Section handlers_keep.
Context {R : Type} `{!RemoteLedger R}.
Implicit Types (w : World R) (c : Closure) (us : list string).

#[local] Abbreviation keeps us := (preserves (inv_for (R:=R) us)).

Lemma keeps_Toast_show us t : keeps us (Toast_show t).
Proof. keep_prim. Qed.

Lemma keeps_NetInfo_fetch us : keeps us NetInfo_fetch.
Proof. keep_prim. Qed.

Lemma keeps_sleep us ms : keeps us (sleep ms).
Proof. keep_prim. Qed.

Lemma keeps_Date_now us : keeps us Date_now.
Proof. apply preserves_gets. Qed.

Lemma keeps_uuidv4 us : keeps us uuidv4.
Proof. keep_prim. Qed.

Lemma keeps_getItem {A} us key (item : AsyncStorage → option A) :
  keeps us (AsyncStorage_getItem key item).
Proof. keep_prim. Qed.

Lemma keeps_setItem_lastSyncTime us t :
  keeps us (AsyncStorage_setItem "lastSyncTime" setItem_lastSyncTime t).
Proof. keep_prim. Qed.

Lemma keeps_setDoc us tx : id tx ∈ us → keeps us (Firestore_setDoc tx).
Proof. intros Hin. keep_prim. Qed.

Lemma keeps_getDocs us t : keeps us (Firestore_getDocs t).
Proof. keep_prim. Qed.

Lemma keeps_setIsSyncing us b : keeps us (setIsSyncing b).
Proof. keep_prim. Qed.

Lemma keeps_setLoading us b : keeps us (setLoading b).
Proof. keep_prim. Qed.

#[local] Hint Resolve keeps_Toast_show keeps_NetInfo_fetch keeps_sleep
  keeps_Date_now keeps_uuidv4 keeps_getItem keeps_setItem_lastSyncTime
  keeps_setDoc keeps_getDocs keeps_setIsSyncing keeps_setLoading : keep.

Lemma keeps_fetchServerTransactions us t : keeps us (fetchServerTransactions t).
Proof. unfold fetchServerTransactions. keep_walk. Qed.

Lemma keeps_getLastSyncTime us : keeps us getLastSyncTime.
Proof. unfold getLastSyncTime. keep_walk. Qed.

Lemma keeps_updateLastSyncTime us t : keeps us (updateLastSyncTime t).
Proof. unfold updateLastSyncTime. keep_walk. Qed.

Lemma keeps_uploadTransaction us tx : id tx ∈ us → keeps us (uploadTransaction tx).
Proof. intros Hin. unfold uploadTransaction. keep_walk. Qed.

Lemma keeps_markTransactionAsSynced us i : keeps us (markTransactionAsSynced i).
Proof.
  apply keeps_intro; [apply adv_markTransactionAsSynced|].
  intros w [Hw _]. unfold markTransactionAsSynced. keep_run.
Qed.

#[local] Hint Resolve keeps_fetchServerTransactions keeps_getLastSyncTime
  keeps_updateLastSyncTime keeps_uploadTransaction
  keeps_markTransactionAsSynced : keep.

Lemma keeps_attempt_once us tx attempt delay :
  id tx ∈ us → keeps us (attempt_once tx attempt delay).
Proof. intros Hin. unfold attempt_once. keep_walk. Qed.

Lemma keeps_attempt_loop us fuel tx attempt success delay :
  id tx ∈ us → keeps us (attempt_loop fuel tx attempt success delay).
Proof.
  intros Hin. revert attempt success delay.
  induction fuel as [|fuel IH]; intros attempt success delay; simpl;
    apply preserves_if; [keep_walk..| |keep_walk].
  apply preserves_bind; [by apply keeps_attempt_once|].
  intros [[a s] d]. apply IH.
Qed.

Lemma keeps_attemptSyncTransaction us tx :
  id tx ∈ us → keeps us (attemptSyncTransaction tx).
Proof. apply keeps_attempt_loop. Qed.

Lemma keeps_loadTransactions us : keeps us loadTransactions.
Proof.
  apply keeps_intro; [apply adv_loadTransactions|].
  intros w [Hw _]. unfold loadTransactions. keep_run.
Qed.

#[local] Hint Resolve keeps_attemptSyncTransaction keeps_loadTransactions : keep.

(** What a query answered is known. *)
Lemma fetchServerTransactions_known us t :
  hoare (inv_for us) (fetchServerTransactions t)
    (λ o w, inv_for us w ∧ ∀ l, o = Ok l → known (env w) l).
Proof.
  intros w Hw. split; [by apply keeps_fetchServerTransactions|].
  pose proof (inv_for_inv _ _ Hw).
  change (wp (fetchServerTransactions t) (λ o w', ∀ l, o = Ok l → known (env w') l) w).
  unfold fetchServerTransactions. wp_go. case_match; wp_go; [|done].
  intros l [= <-]. inv_solve.
Qed.

Lemma keeps_mergeTransactions us c server :
  hoare (λ w, inv_for us w ∧ known (env w) server) (mergeTransactions c server)
    (λ _, inv_for us).
Proof.
  apply keeps_intro_from; [apply adv_mergeTransactions|by intros w []|].
  intros w [[Hw _] Hs]. unfold mergeTransactions. keep_run.
Qed.

Lemma keeps_fetchAndMergeServerTransactions us c :
  keeps us (fetchAndMergeServerTransactions c).
Proof.
  unfold fetchAndMergeServerTransactions.
  apply preserves_try_catch; [|keep_walk]. apply preserves_bind; [keep_walk|].
  intros t. eapply preserves_bind_with; [apply fetchServerTransactions_known|].
  intros l. apply hoare_if; intros _; [|by apply preserves_hoare; [keep_walk|intros ? []]].
  apply hoare_bind_preserves; [apply keeps_mergeTransactions|]. intros _. keep_walk.
Qed.

Lemma keeps_syncSingleTransaction us c tx :
  id tx ∈ us → keeps us (syncSingleTransaction c tx).
Proof. intros Hin. unfold syncSingleTransaction. keep_walk. Qed.

#[local] Hint Resolve keeps_fetchAndMergeServerTransactions
  keeps_syncSingleTransaction : keep.

(** The loop of [syncAllTransactions] over the unsynced entries of a
    known array. *)
Lemma keeps_sync_loop us l :
  preserves (inv_for (R:=R) (ids l ++ us))
    (for_each attemptSyncTransaction (getUnsyncedTransactions l)).
Proof.
  apply preserves_for_each. intros tx Htx. apply keeps_attemptSyncTransaction.
  apply elem_of_app. left. apply elem_of_ids. exists tx. split; [|done].
  by apply list_elem_of_filter in Htx as [_ ?].
Qed.

(** A read whose continuation relies on the identifiers of a known list. *)
Lemma keeps_gets_bind {A B} us (l : World R → list Transaction)
    (f : World R → A) (k : A → M (World R) Error B) :
  (∀ w, inv w → known (env w) (l w)) →
  (∀ w, preserves (inv_for (ids (l w) ++ us)) (k (f w))) →
  keeps us (x <- gets f ;; k x).
Proof.
  intros Hl Hk. apply preserves_gets_bind. intros w Hw.
  apply (inv_for_weaken (ids (l w) ++ us)); [set_solver|].
  apply Hk, inv_for_known; [done|]. apply Hl. by destruct Hw.
Qed.

Lemma keeps_syncAllTransactions us c : keeps us (syncAllTransactions c).
Proof.
  unfold syncAllTransactions, getUnsynced. keep_walk.
  apply (keeps_gets_bind us (array (transactions c))); [intros; by apply inv_array|].
  intros w. pose proof (keeps_sync_loop us (array (transactions c) w)). keep_walk.
Qed.

(** [fresh u w]: the identifier [u] was drawn and no array holds it. *)
Definition fresh (u : string) w : Prop :=
  used (env w) u ∧ ∀ ref, u ∉ ids (array ref w).

Lemma uuidv4_fresh us :
  hoare (inv_for us) uuidv4 (λ o w, inv_for us w ∧ ∀ u, o = Ok u → fresh u w).
Proof.
  intros w Hw. split; [by apply keeps_uuidv4|]. destruct Hw as [Hw _].
  intros u [= <-]. split; [by apply (used_draw w)|].
  intros ref. apply (known_next_fresh (env w) (array ref w)). by apply inv_array.
Qed.

Lemma known_push_fresh w w' ref tx :
  inv w → fresh (id tx) w → env_le (env w) (env w') →
  known (env w') (updatedTransactions (array ref w) tx).
Proof.
  intros Hw [Hu Hf] Hle. apply (known_mono (env w)); [done|].
  apply known_push; [by apply inv_array|done|apply Hf].
Qed.

(** [addTransaction] up to the call of [syncSingleTransaction]. *)
Lemma keeps_add_body us c tx :
  hoare (λ w, inv_for us w ∧ fresh (id tx) w)
    (local <- gets (array (transactions c)) ;;
     AsyncStorage_setItem "transactions" setItem_transactions
       (updatedTransactions local tx) ;;
     prevTransactions <- gets ledger ;;
     setTransactions (updatedTransactions prevTransactions tx) ;;
     syncSingleTransaction c tx)
    (λ _, inv_for us).
Proof.
  apply hoare_wp. intros w [[Hw Hus] Hf]. wp_go. case_match; wp_go.
  - apply (inv_for_weaken (id tx :: us)); [set_solver|].
    apply keeps_syncSingleTransaction; [left|]. split.
    + inv_solve; by apply (known_push_fresh w).
    + apply Forall_cons. split; [by destruct Hf|]. eapply Forall_impl; [done|].
      intros i. apply used_mono. env_le_solve.
  - split; [inv_solve|]. eapply Forall_impl; [done|].
    intros i. apply used_mono. env_le_solve.
Qed.

Lemma keeps_addTransaction us c n : keeps us (addTransaction c n).
Proof.
  unfold addTransaction. apply preserves_try_catch; [|keep_walk].
  eapply preserves_bind_with; [apply uuidv4_fresh|].
  intros u. apply (keeps_add_body us c (transactionWithId n u)).
Qed.

Lemma keeps_initialize us : keeps us initialize.
Proof. unfold initialize. keep_walk. Qed.

Lemma keeps_onNetInfo us c b : keeps us (onNetInfo c b).
Proof. unfold onNetInfo. pose proof keeps_syncAllTransactions. keep_walk. Qed.

(** The provider as it is mounted is well formed when the store, the sample
    data and the remote ledger hold identifiers the generator will not
    draw. *)
Lemma inv_mount st (r : R) e :
  known e (stored st) → known e (sampleTransactions e) →
  (∀ t tx, tx ∈ queryAfter t r → used e (id tx)) → uuid_fresh e →
  inv (mount st r e).
Proof.
  intros Hst Hsample Hr He. split; simpl; try done; [lia|].
  apply Forall_singleton, known_nil.
Qed.
End handlers_keep.
