(* ===== verification/EngineSpec.v ===== *)
(** * EngineSpec: what the handlers of the provider do

    The functional behaviour of the functions of
    [src/context/TransactionContext.tsx], one group of theorems per
    function: the retry loop of [attemptSyncTransaction] (termination within
    [MAX_RETRIES] turns, the backoff sequence, the first success), the
    single-flight guard of [syncSingleTransaction] and
    [syncAllTransactions], the offline paths, [addTransaction] and its error
    path, the pull of [fetchAndMergeServerTransactions] and the sync cursor.

    The theorems are stated on the final world [exec h w] and on the outcome
    [outcome h w] of a handler [h], for every world [w] that satisfies the
    hypotheses on the environment's answers. *)

From S2P Require Import Prelude Effects Types Ledger Storage Remote.
From S2P Require Import Engine EngineRules EngineOrder EngineInv.

Section spec.
Context {R : Type} `{!RemoteLedger R}.
Implicit Types (w : World R) (c : Closure) (tx : Transaction).

#[local] Abbreviation Eff := (M (World R) Error).

(** ** Handlers that never reject *)

Lemma no_throw_Toast_show t : no_throw (Toast_show t : Eff unit).
Proof. by intros w. Qed.

Lemma no_throw_sleep ms : no_throw (sleep ms : Eff unit).
Proof. by intros w. Qed.

Lemma no_throw_NetInfo_fetch : no_throw (NetInfo_fetch : Eff bool).
Proof. apply no_throw_wp. intros w. by rewrite wp_NetInfo_fetch. Qed.

Lemma no_throw_uuidv4 : no_throw (uuidv4 : Eff string).
Proof. by intros w. Qed.

Lemma no_throw_setTransactions l : no_throw (setTransactions l : Eff unit).
Proof. by intros w. Qed.

Lemma no_throw_getLastSyncTime : no_throw (getLastSyncTime : Eff Z).
Proof. apply no_throw_try_catch. intros _. apply no_throw_ret. Qed.

Lemma no_throw_updateLastSyncTime t : no_throw (updateLastSyncTime t : Eff unit).
Proof. apply no_throw_try_catch. intros _. apply no_throw_ret. Qed.

Lemma no_throw_markTransactionAsSynced i :
  no_throw (markTransactionAsSynced i : Eff unit).
Proof. apply no_throw_try_catch. intros _. apply no_throw_ret. Qed.

(** A turn of the retry loop resolves, and either succeeded or counted one
    more attempt. *)
Definition turned (attempt : nat) (o : Outcome Error (nat * bool * Z)) : Prop :=
  ∃ a s d, o = Ok (a, s, d) ∧ (s = true ∨ a = S attempt).

Lemma attempt_once_turned tx attempt delay :
  always (attempt_once tx attempt delay : Eff _) (turned attempt).
Proof.
  unfold attempt_once.
  apply (always_try_catch _ _ (λ o, ∀ v, o = Ok v → v = (attempt, true, delay))).
  - do 3 (apply always_bind; [intros _|done]). apply always_ret. by intros v [= <-].
  - intros v Hv. rewrite (Hv v eq_refl). exists attempt, true, delay. auto.
  - intros _. cbv zeta. apply always_if;
      (apply always_bind_ok; [by intros w|]; intros _; apply always_ret);
      eexists _, _, _; eauto.
Qed.

(** The loop resolves when the fuel covers the attempts that are left. *)
Lemma no_throw_attempt_loop fuel tx attempt success delay :
  (success = true ∨ MAX_RETRIES ≤ attempt + fuel)%nat →
  no_throw (attempt_loop fuel tx attempt success delay : Eff unit).
Proof.
  revert attempt success delay.
  induction fuel as [|fuel IH]; intros attempt success delay Hfuel; simpl;
    case_bool_decide; destruct success; simpl; try apply no_throw_ret;
    destruct Hfuel as [|Hfuel]; try done; try lia.
  apply (no_throw_bind_with _ _ (turned attempt)).
  - apply attempt_once_turned.
  - by intros e (? & ? & ? & ? & _).
  - intros [[a s] d] (? & ? & ? & [= <- <- <-] & Hs). apply IH.
    destruct Hs as [?|Hs]; [by left|right; lia].
Qed.

Lemma no_throw_attemptSyncTransaction tx :
  no_throw (attemptSyncTransaction tx : Eff unit).
Proof. apply no_throw_attempt_loop. right. unfold MAX_RETRIES. lia. Qed.

(** More fuel than the attempts that are left changes nothing. *)
Lemma attempt_loop_fuel fuel fuel' tx attempt success delay w :
  (MAX_RETRIES ≤ attempt + fuel)%nat → (fuel ≤ fuel')%nat →
  attempt_loop fuel' tx attempt success delay w
  = attempt_loop fuel tx attempt success delay w.
Proof.
  revert fuel' attempt success delay w.
  induction fuel as [|fuel IH]; intros fuel' attempt success delay w Hfuel Hle;
    (destruct fuel' as [|fuel']; [try lia|]); simpl;
    case_bool_decide; simpl; try done; try lia.
  destruct success; simpl; [done|]. unfold bind.
  pose proof (attempt_once_turned tx attempt delay w) as (a & s & d & Ho & Hs).
  unfold outcome in Ho. destruct (attempt_once tx attempt delay w) as [o w'].
  simpl in Ho. subst o. destruct Hs as [Hs|Hs]; subst.
  - destruct fuel, fuel'; simpl; by rewrite andb_false_r.
  - apply IH; lia.
Qed.

Lemma no_throw_loadTransactions : no_throw (loadTransactions : Eff unit).
Proof. apply no_throw_try_catch. intros _. apply no_throw_Toast_show. Qed.

Lemma no_throw_fetchAndMergeServerTransactions c :
  no_throw (fetchAndMergeServerTransactions c : Eff unit).
Proof. apply no_throw_try_catch. intros _. apply no_throw_Toast_show. Qed.

Lemma no_throw_guarded (b : bool) (body : Eff unit) h :
  (∀ e, no_throw (h e)) →
  no_throw (if b then ret ()
            else setIsSyncing true ;;
                 try_finally (try_catch body h) (setIsSyncing false)).
Proof.
  intros Hh. apply no_throw_if; [apply no_throw_ret|].
  apply no_throw_bind; [by intros w|intros _].
  apply no_throw_try_finally; [by apply no_throw_try_catch|by intros w].
Qed.

Lemma no_throw_syncSingleTransaction c tx :
  no_throw (syncSingleTransaction c tx : Eff unit).
Proof. apply no_throw_guarded. intros _. apply no_throw_Toast_show. Qed.

Lemma no_throw_syncAllTransactions c : no_throw (syncAllTransactions c : Eff unit).
Proof. apply no_throw_guarded. intros _. apply no_throw_Toast_show. Qed.

Lemma no_throw_addTransaction c n : no_throw (addTransaction c n : Eff unit).
Proof. apply no_throw_try_catch. intros _. apply no_throw_Toast_show. Qed.

Lemma no_throw_initialize : no_throw (initialize : Eff unit).
Proof.
  apply no_throw_bind; [apply no_throw_loadTransactions|]. by intros _ w.
Qed.

Lemma no_throw_onNetInfo c b : no_throw (onNetInfo c b : Eff unit).
Proof.
  apply no_throw_if; [apply no_throw_syncAllTransactions|apply no_throw_ret].
Qed.

(** ** The worlds the functions end in

    Each function of the provider is characterised by an equation: its
    outcome and the world it ends in, as a function of the world it starts
    in and of the next answers of the environment. *)

(** After [Toast.show(t)]. *)
Definition toasted (t : Toast) w : World R :=
  set_trace (trace w ++ [EToast t]) w.

(** After [sleep(ms)]. *)
Definition slept (ms : Z) w : World R :=
  set_trace (trace w ++ [ESleep ms])
    (set_env (set_now (now (env w) + ms) (env w)) w).

(** After [setDoc] for [tx]: the call is logged, the document is written
    when the call resolved. *)
Definition uploaded tx w : World R :=
  set_remote (if answer (uploads (env w)) then upload tx (remote w) else remote w)
    (logged set_uploads uploads (ESetDoc tx) w).

(** After [AsyncStorage.setItem('transactions', l)]: the call is logged,
    the item is written when the call resolved. *)
Definition saved (l : list Transaction) w : World R :=
  set_storage (if answer (writes (env w))
               then setItem_transactions l (storage w) else storage w)
    (logged set_writes writes (ESetItem "transactions") w).

(** After [AsyncStorage.setItem('lastSyncTime', t)]. *)
Definition cursor_saved (t : Z) w : World R :=
  set_storage (if answer (writes (env w))
               then setItem_lastSyncTime t (storage w) else storage w)
    (logged set_writes writes (ESetItem "lastSyncTime") w).

(** After [setTransactions(l)]. *)
Definition installed (l : list Transaction) w : World R :=
  set_hook_transactions (length (heap w)) (set_heap (heap w ++ [l]) w).

(** After [markTransactionAsSynced(i)]. *)
Definition marked (i : string) w : World R :=
  installed (mark_synced i (ledger w)) (saved (mark_synced i (ledger w)) w).

(** After one turn of the retry loop. *)
Definition turn tx (attempt : nat) (delay : Z) w : World R :=
  if answer (uploads (env w))
  then toasted (toast_uploaded (id tx)) (marked (id tx) (uploaded tx w))
  else if bool_decide (S attempt < MAX_RETRIES)%nat
       then slept delay (uploaded tx w)
       else toasted (toast_upload_failed (id tx)) (uploaded tx w).

(** The loop state after one turn. *)
Definition turn_state tx (attempt : nat) (delay : Z) w : nat * bool * Z :=
  if answer (uploads (env w)) then (attempt, true, delay)
  else if bool_decide (S attempt < MAX_RETRIES)%nat
       then (S attempt, false, delay * 2)
       else (S attempt, false, delay).

Lemma wp_uploadTransaction tx Q w :
  wp (uploadTransaction tx) Q w
  = Q (if answer (uploads (env w)) then Ok () else Throw FirestoreError)
      (uploaded tx w).
Proof.
  unfold uploadTransaction, uploaded. wp_go.
  by destruct (answer (uploads (env w))).
Qed.

Lemma wp_markTransactionAsSynced i Q w :
  wp (markTransactionAsSynced i) Q w = Q (Ok ()) (marked i w).
Proof.
  unfold markTransactionAsSynced, marked, saved. wp_go.
  by destruct (answer (writes (env w))).
Qed.

Lemma wp_attempt_once tx attempt delay Q w :
  wp (attempt_once tx attempt delay) Q w
  = Q (Ok (turn_state tx attempt delay w)) (turn tx attempt delay w).
Proof.
  unfold attempt_once, turn, turn_state. wp_go. rewrite wp_uploadTransaction.
  destruct (answer (uploads (env w))); cbn beta iota.
  - by rewrite wp_bind, wp_markTransactionAsSynced.
  - case_bool_decide; by wp_go.
Qed.

(** The loop, one turn at a time. *)
Lemma wp_attempt_loop fuel tx attempt delay Q w :
  (attempt < MAX_RETRIES)%nat →
  wp (attempt_loop (S fuel) tx attempt false delay) Q w
  = wp (let '(a, s, d) := turn_state tx attempt delay w in
        attempt_loop fuel tx a s d) Q (turn tx attempt delay w).
Proof.
  intros Hlt. simpl. rewrite bool_decide_true by done. simpl.
  by rewrite wp_bind, wp_attempt_once.
Qed.

Lemma attempt_loop_done fuel tx attempt success delay :
  (success = true ∨ MAX_RETRIES ≤ attempt)%nat →
  attempt_loop fuel tx attempt success delay = (ret () : Eff unit).
Proof.
  intros Hdone. destruct fuel; simpl; case_bool_decide; destruct success;
    simpl; try done; destruct Hdone; try done; lia.
Qed.

(** The retry loop as a recursion on the attempts that are left: the
    reference the loop on fuel is compared with. *)
Fixpoint retry (n : nat) tx (attempt : nat) (delay : Z) w : World R :=
  match n with
  | O => w
  | S n =>
      if answer (uploads (env w)) then turn tx attempt delay w
      else retry n tx (S attempt) (delay * 2) (turn tx attempt delay w)
  end.

Lemma wp_attempt_loop_retry fuel tx attempt delay Q w :
  (MAX_RETRIES ≤ attempt + fuel)%nat →
  wp (attempt_loop fuel tx attempt false delay) Q w
  = Q (Ok ()) (retry (MAX_RETRIES - attempt) tx attempt delay w).
Proof.
  revert attempt delay w. induction fuel as [|fuel IH]; intros attempt delay w Hfuel.
  { rewrite attempt_loop_done by (right; lia).
    by replace (MAX_RETRIES - attempt)%nat with 0%nat by lia. }
  destruct (decide (attempt < MAX_RETRIES)%nat) as [Hlt|Hge].
  - rewrite wp_attempt_loop by done.
    replace (MAX_RETRIES - attempt)%nat with (S (MAX_RETRIES - S attempt)) by lia.
    cbn [retry]. unfold turn_state. destruct (answer (uploads (env w))).
    + by rewrite attempt_loop_done by auto.
    + case_bool_decide; [apply IH; lia|].
      rewrite attempt_loop_done by (right; lia).
      by replace (MAX_RETRIES - S attempt)%nat with 0%nat by lia.
  - rewrite attempt_loop_done by (right; lia).
    by replace (MAX_RETRIES - attempt)%nat with 0%nat by lia.
Qed.

Lemma wp_attemptSyncTransaction tx Q w :
  wp (attemptSyncTransaction tx) Q w
  = Q (Ok ()) (retry MAX_RETRIES tx 0 INITIAL_DELAY w).
Proof. unfold attemptSyncTransaction. by rewrite wp_attempt_loop_retry by lia. Qed.

(** *** The pull *)

(** After [getLastSyncTime], and what it answers. *)
Definition cursor_read w : World R :=
  logged set_reads reads (EGetItem "lastSyncTime") w.

Definition lastSyncTime w : Z :=
  if answer (reads (env w)) then cursor (storage w) else epoch.

(** After [getDocs] for what is later than [t]. *)
Definition queried (t : Z) w : World R :=
  logged set_queries queries (EGetDocs t) w.

(** After [mergeTransactions]: the array of the closure holds the merge. *)
Definition merged_into c (server : list Transaction) w : World R :=
  set_heap (<[transactions c := merge (array (transactions c) w) server]> (heap w)) w.

(** After [fetchAndMergeServerTransactions]. *)
Definition pulled c w : World R :=
  let t := lastSyncTime w in
  let w1 := queried t (cursor_read w) in
  if answer (queries (env w)) then
    let server := queryAfter t (remote w) in
    if bool_decide (0 < length server)%nat then
      toasted (toast_merged (length server))
        (cursor_saved (now (env w)) (merged_into c server w1))
    else w1
  else toasted toast_pull_failed w1.

Lemma wp_getLastSyncTime Q w :
  wp getLastSyncTime Q w = Q (Ok (lastSyncTime w)) (cursor_read w).
Proof.
  unfold getLastSyncTime, lastSyncTime, cursor_read. wp_go.
  by destruct (answer (reads (env w))).
Qed.

Lemma wp_fetchServerTransactions t Q w :
  wp (fetchServerTransactions t) Q w
  = Q (if answer (queries (env w)) then Ok (queryAfter t (remote w))
       else Throw FirestoreError) (queried t w).
Proof.
  unfold fetchServerTransactions, queried. wp_go.
  by destruct (answer (queries (env w))).
Qed.

Lemma wp_mergeTransactions c server Q w :
  wp (mergeTransactions c server) Q w
  = Q (Ok (merge (array (transactions c) w) server)) (merged_into c server w).
Proof. unfold mergeTransactions. by wp_go. Qed.

Lemma wp_updateLastSyncTime t Q w :
  wp (updateLastSyncTime t) Q w = Q (Ok ()) (cursor_saved t w).
Proof.
  unfold updateLastSyncTime, cursor_saved. wp_go.
  by destruct (answer (writes (env w))).
Qed.

Lemma wp_fetchAndMergeServerTransactions c Q w :
  wp (fetchAndMergeServerTransactions c) Q w = Q (Ok ()) (pulled c w).
Proof.
  unfold fetchAndMergeServerTransactions, pulled.
  rewrite wp_try_catch, wp_bind, wp_getLastSyncTime. unfold wp_then.
  rewrite wp_bind, wp_fetchServerTransactions. unfold wp_then, wp_else.
  change (queries (env (cursor_read w))) with (queries (env w)).
  change (remote (cursor_read w)) with (remote w).
  destruct (answer (queries (env w))); [|by wp_go].
  case_bool_decide; [|by wp_go].
  rewrite wp_bind, wp_mergeTransactions. unfold wp_then.
  rewrite wp_bind, wp_Date_now. unfold wp_then.
  rewrite wp_bind, wp_updateLastSyncTime. unfold wp_then.
  by rewrite wp_Toast_show.
Qed.

(** *** The guarded cycles *)

(** A cycle behind the single-flight guard of the closure. *)
Definition guarded c (body : World R → World R) w : World R :=
  if isSyncing c then w
  else set_hook_isSyncing false (body (set_hook_isSyncing true w)).

(** After [NetInfo.fetch()]. *)
Definition probed w : World R := logged set_net net ENetInfo w.

(** After [attemptSyncTransaction]. *)
Definition attempted tx w : World R := retry MAX_RETRIES tx 0 INITIAL_DELAY w.

(** The body of [syncSingleTransaction]. *)
Definition synced_one tx w : World R :=
  if answer (net (env w)) then attempted tx (probed w)
  else toasted toast_offline (probed w).

(** The upload pass of [syncAllTransactions]. *)
Definition drained (unsynced : list Transaction) w : World R :=
  if bool_decide (0 < length unsynced)%nat
  then foldl (λ w' tx, attempted tx w') (toasted (toast_syncing (length unsynced)) w)
         unsynced
  else w.

(** The body of [syncAllTransactions]. *)
Definition synced_all c w : World R :=
  if answer (net (env w))
  then pulled c (drained (getUnsyncedTransactions (array (transactions c) w)) (probed w))
  else toasted toast_offline (probed w).

Lemma wp_guarded c (body : Eff unit) h (f : World R → World R) Q w :
  (∀ Q' w', wp (try_catch body h) Q' w' = Q' (Ok ()) (f w')) →
  wp (if isSyncing c then ret ()
      else setIsSyncing true ;;
           try_finally (try_catch body h) (setIsSyncing false)) Q w
  = Q (Ok ()) (guarded c f w).
Proof.
  intros Hbody. unfold guarded. destruct (isSyncing c); [done|].
  rewrite wp_bind, wp_setIsSyncing. unfold wp_then.
  by rewrite wp_try_finally, Hbody.
Qed.

Lemma wp_syncSingleTransaction c tx Q w :
  wp (syncSingleTransaction c tx) Q w = Q (Ok ()) (guarded c (synced_one tx) w).
Proof.
  apply wp_guarded. intros Q' w'. unfold synced_one.
  rewrite wp_try_catch, wp_bind, wp_NetInfo_fetch. unfold wp_then, wp_else.
  destruct (answer (net (env w'))); simpl; [|by rewrite wp_Toast_show].
  by rewrite wp_attemptSyncTransaction.
Qed.

Lemma wp_drain unsynced Q w :
  wp (if bool_decide (0 < length unsynced)%nat
      then Toast_show (toast_syncing (length unsynced)) ;;
           for_each attemptSyncTransaction unsynced
      else ret ()) Q w
  = Q (Ok ()) (drained unsynced w).
Proof.
  unfold drained. case_bool_decide; [|done].
  rewrite wp_bind, wp_Toast_show. unfold wp_then.
  apply wp_for_each_total. intros tx Q' w'. apply wp_attemptSyncTransaction.
Qed.

Lemma wp_syncAllTransactions c Q w :
  wp (syncAllTransactions c) Q w = Q (Ok ()) (guarded c (synced_all c) w).
Proof.
  apply wp_guarded. intros Q' w'. unfold synced_all, getUnsynced.
  rewrite wp_try_catch, wp_bind, wp_NetInfo_fetch. unfold wp_then, wp_else.
  destruct (answer (net (env w'))); simpl; [|by rewrite wp_Toast_show].
  rewrite wp_bind, wp_gets. unfold wp_then.
  rewrite wp_bind, wp_drain. unfold wp_then.
  by rewrite wp_fetchAndMergeServerTransactions.
Qed.

(** *** Adding and loading *)

(** The transaction [addTransaction] creates in a world. *)
Definition created (n : NewTransaction) w : Transaction :=
  transactionWithId n (uuid (env w) (uuid_next (env w))).

(** After [uuidv4()]. *)
Definition drawn w : World R :=
  set_env (set_uuid_next (S (uuid_next (env w))) (env w)) w.

(** After [addTransaction]. *)
Definition added c (n : NewTransaction) w : World R :=
  let tx := created n w in
  let w1 := saved (updatedTransactions (array (transactions c) w) tx) (drawn w) in
  if answer (writes (env w))
  then guarded c (synced_one tx) (installed (updatedTransactions (ledger w) tx) w1)
  else toasted toast_add_failed w1.

(** After [loadTransactions]. *)
Definition loaded w : World R :=
  let w1 := logged set_reads reads (EGetItem "transactions") w in
  if answer (reads (env w)) then
    match item_transactions (storage w) with
    | Some l => installed l w1
    | None =>
        let initialized := initializedTransactions (sampleTransactions (env w)) in
        let w2 := saved initialized (installed initialized w1) in
        if answer (writes (env w)) then w2 else toasted toast_load_failed w2
    end
  else toasted toast_load_failed w1.

Lemma wp_addTransaction c n Q w :
  wp (addTransaction c n) Q w = Q (Ok ()) (added c n w).
Proof.
  unfold addTransaction, added, created, saved, drawn. wp_go.
  cbn [env set_env writes set_uuid_next].
  destruct (answer (writes (env w))); wp_go; [|done].
  by rewrite wp_syncSingleTransaction.
Qed.

Lemma wp_loadTransactions Q w : wp loadTransactions Q w = Q (Ok ()) (loaded w).
Proof.
  unfold loadTransactions, loaded, saved. wp_go.
  destruct (answer (reads (env w))); wp_go; [|done].
  destruct (item_transactions (storage w)); wp_go; [done|].
  simpl (writes _). by destruct (answer (writes (env w))); wp_go.
Qed.

Lemma wp_initialize Q w :
  wp initialize Q w = Q (Ok ()) (set_hook_loading false (loaded w)).
Proof. unfold initialize. by rewrite wp_bind, wp_loadTransactions. Qed.

Lemma wp_onNetInfo c b Q w :
  wp (onNetInfo c b) Q w
  = Q (Ok ()) (if b && negb (loading c) then guarded c (synced_all c) w else w).
Proof.
  unfold onNetInfo. destruct (b && negb (loading c)); [|done].
  apply wp_syncAllTransactions.
Qed.

(** The uploads a trace records. *)
Definition is_upload (ev : Event) : bool :=
  match ev with ESetDoc _ _ => true | _ => false end.

Definition uploads_in (t : list Event) : nat := length (filter is_upload t).

Lemma uploads_in_app t1 t2 : uploads_in (t1 ++ t2) = (uploads_in t1 + uploads_in t2)%nat.
Proof. unfold uploads_in. by rewrite filter_app, length_app. Qed.

Lemma uploads_in_snoc t ev :
  uploads_in (t ++ [ev]) = (uploads_in t + if is_upload ev then 1 else 0)%nat.
Proof. rewrite uploads_in_app. by destruct ev. Qed.

(** A turn of the loop is one upload. *)
Lemma uploads_in_turn tx attempt delay w :
  uploads_in (trace (turn tx attempt delay w)) = S (uploads_in (trace w)).
Proof.
  unfold turn, marked, saved, uploaded.
  repeat case_match; simpl; rewrite !uploads_in_snoc; simpl; lia.
Qed.

Lemma uploads_in_retry n tx attempt delay w :
  (uploads_in (trace w) + min 1 n ≤ uploads_in (trace (retry n tx attempt delay w))
   ≤ uploads_in (trace w) + n)%nat.
Proof.
  revert attempt delay w. induction n as [|n IH]; intros attempt delay w;
    simpl; [lia|].
  case_match; [rewrite uploads_in_turn; lia|].
  specialize (IH (S attempt) (delay * 2) (turn tx attempt delay w)).
  rewrite uploads_in_turn in IH. lia.
Qed.

(** ** The list the screens see, after each step *)

Lemma ledger_installed l w : ledger (installed l w) = l.
Proof. apply ledger_setTransactions. Qed.

Lemma ledger_toasted t w : ledger (toasted t w) = ledger w.
Proof. done. Qed.

Lemma ledger_set_hook_isSyncing b w : ledger (set_hook_isSyncing b w) = ledger w.
Proof. done. Qed.

Lemma ledger_probed w : ledger (probed w) = ledger w.
Proof. done. Qed.

Lemma ledger_set_hook_loading b w : ledger (set_hook_loading b w) = ledger w.
Proof. done. Qed.

Lemma ledger_slept ms w : ledger (slept ms w) = ledger w.
Proof. done. Qed.

Lemma ledger_uploaded tx w : ledger (uploaded tx w) = ledger w.
Proof. unfold uploaded. by case_match. Qed.

Lemma ledger_saved l w : ledger (saved l w) = ledger w.
Proof. unfold saved. by case_match. Qed.

Lemma ledger_cursor_saved t w : ledger (cursor_saved t w) = ledger w.
Proof. unfold cursor_saved. by case_match. Qed.

Lemma ledger_marked i w : ledger (marked i w) = mark_synced i (ledger w).
Proof. apply ledger_installed. Qed.

Lemma ledger_turn tx attempt delay w :
  ledger (turn tx attempt delay w)
  = if answer (uploads (env w)) then mark_synced (id tx) (ledger w) else ledger w.
Proof.
  unfold turn. repeat case_match;
    by rewrite ?ledger_toasted, ?ledger_slept, ?ledger_marked, ?ledger_uploaded.
Qed.

(** The array of the closure is the list the screens see when the closure
    is the one of the current render; otherwise the merge does not reach
    the screens. *)
Lemma ledger_merged_into c server w :
  ledger (merged_into c server w)
  = if decide (hook_transactions w = transactions c
               ∧ transactions c < length (heap w))%nat
    then merge (ledger w) server else ledger w.
Proof.
  unfold ledger, merged_into. cbn [hook_transactions set_heap].
  rewrite array_write. case_decide as Hc; [|done]. by destruct Hc as [-> _].
Qed.

(** A retried upload marks its transaction or leaves the list as it is. *)
Lemma ledger_retry n tx attempt delay w :
  ledger (retry n tx attempt delay w) = ledger w
  ∨ ledger (retry n tx attempt delay w) = mark_synced (id tx) (ledger w).
Proof.
  revert attempt delay w. induction n as [|n IH]; intros attempt delay w;
    simpl; [by left|].
  destruct (answer (uploads (env w))) eqn:Hup.
  - right. by rewrite ledger_turn, Hup.
  - destruct (IH (S attempt) (delay * 2) (turn tx attempt delay w)) as [-> | ->];
      rewrite ledger_turn, Hup; auto.
Qed.

Lemma ledger_guarded_synced_one c tx w :
  ledger (guarded c (synced_one tx) w) = ledger w
  ∨ ledger (guarded c (synced_one tx) w) = mark_synced (id tx) (ledger w).
Proof.
  unfold guarded, synced_one. destruct (isSyncing c); [by left|].
  destruct (answer _); [|by left].
  apply (ledger_retry _ _ _ _ (probed (set_hook_isSyncing true w))).
Qed.

(** *** Nothing is lost and nothing is unsynced by a cycle *)

Lemma ledger_le_turn tx attempt delay w :
  ledger_le (ledger w) (ledger (turn tx attempt delay w)).
Proof. rewrite ledger_turn. case_match; [apply mark_synced_le|done]. Qed.

Lemma ledger_le_retry n tx attempt delay w :
  ledger_le (ledger w) (ledger (retry n tx attempt delay w)).
Proof.
  revert attempt delay w. induction n as [|n IH]; intros attempt delay w;
    simpl; [done|].
  case_match; [apply ledger_le_turn|]. etrans; [apply ledger_le_turn|apply IH].
Qed.

Lemma ledger_le_drained unsynced w :
  ledger_le (ledger w) (ledger (drained unsynced w)).
Proof.
  unfold drained. case_bool_decide; [|done].
  change (ledger w) with (ledger (toasted (toast_syncing (length unsynced)) w)).
  generalize (toasted (toast_syncing (length unsynced)) w). clear.
  induction unsynced as [|tx l IH]; intros w; simpl; [done|].
  etrans; [apply ledger_le_retry|apply IH].
Qed.

Lemma ledger_le_pulled c w : ledger_le (ledger w) (ledger (pulled c w)).
Proof.
  unfold pulled. destruct (answer _); [|done]. case_bool_decide; [|done].
  rewrite ledger_toasted, ledger_cursor_saved, ledger_merged_into.
  destruct (decide _); [apply (merge_le (ledger w))|done].
Qed.

Lemma ledger_le_guarded c body w :
  (∀ w', ledger_le (ledger w') (ledger (body w'))) →
  ledger_le (ledger w) (ledger (guarded c body w)).
Proof.
  intros Hbody. unfold guarded. case_match; [done|].
  apply (Hbody (set_hook_isSyncing true w)).
Qed.

Lemma ledger_le_synced_one tx w : ledger_le (ledger w) (ledger (synced_one tx w)).
Proof.
  unfold synced_one. case_match; [apply (ledger_le_retry _ _ _ _ (probed w))|done].
Qed.

Lemma ledger_le_synced_all c w : ledger_le (ledger w) (ledger (synced_all c w)).
Proof.
  unfold synced_all. case_match; [|done].
  etrans; [|apply ledger_le_pulled]. apply (ledger_le_drained _ (probed w)).
Qed.
Lemma ledger_le_added c n w : ledger_le (ledger w) (ledger (added c n w)).
Proof.
  unfold added. cbv zeta. destruct (answer _); [|done].
  etrans; [|apply ledger_le_guarded, ledger_le_synced_one].
  rewrite ledger_installed. apply updatedTransactions_le.
Qed.

(** *** The trace grows *)

Lemma trace_turn_le tx attempt delay w :
  (length (trace w) ≤ length (trace (turn tx attempt delay w)))%nat.
Proof.
  unfold turn, marked, saved, uploaded.
  repeat case_match; simpl; rewrite !length_app; lia.
Qed.

Lemma trace_retry_le n tx attempt delay w :
  (length (trace w) ≤ length (trace (retry n tx attempt delay w)))%nat.
Proof.
  revert attempt delay w. induction n as [|n IH]; intros attempt delay w;
    simpl; [done|].
  case_match; [apply trace_turn_le|]. etrans; [apply trace_turn_le|apply IH].
Qed.

Lemma trace_drained_le unsynced w :
  (length (trace w) ≤ length (trace (drained unsynced w)))%nat.
Proof.
  unfold drained. case_bool_decide; [|done].
  trans (length (trace (toasted (toast_syncing (length unsynced)) w)));
    [simpl; rewrite length_app; lia|].
  generalize (toasted (toast_syncing (length unsynced)) w). clear.
  induction unsynced as [|tx l IH]; intros w; simpl; [done|].
  etrans; [apply trace_retry_le|apply IH].
Qed.

Lemma trace_pulled_le c w :
  (length (trace w) ≤ length (trace (pulled c w)))%nat.
Proof.
  unfold pulled, cursor_saved. repeat case_match; simpl; rewrite !length_app; lia.
Qed.

(** A cycle that passed the guard asked for the connectivity. *)
Lemma trace_synced_all_grows c w :
  (length (trace w) < length (trace (synced_all c w)))%nat.
Proof.
  unfold synced_all.
  assert (length (trace (probed w)) = S (length (trace w))) as Hp
    by (simpl; rewrite length_app; simpl; lia).
  case_match; [|simpl; rewrite !length_app; simpl; lia].
  eapply Nat.lt_le_trans; [|apply trace_pulled_le].
  eapply Nat.lt_le_trans; [|apply trace_drained_le]. lia.
Qed.
End spec.

(** The worlds of the summaries, unfolded to the primitive updates. *)
Ltac unfold_worlds :=
  unfold added, loaded, guarded, synced_all, synced_one, pulled, drained,
    attempted, marked, created, drawn, probed, queried, cursor_read,
    merged_into, installed, saved, cursor_saved, uploaded, slept, toasted,
    lastSyncTime in *.
