(* ===== verification/EngineFrame.v ===== *)
(** * EngineFrame: invariants of the data a handler works on

    Most of what a handler of the provider does is bookkeeping: it consults
    the environment, logs events, moves the clock, reads and writes the
    store and raises the syncing flag.  None of this touches the [core] of
    the world: the heap of arrays, the array the hook refers to, the
    [loading] flag, the remote ledger and the identifier generator.  A
    program that leaves the core alone is [silent], and a property that
    only reads the core is [framed]: a silent program keeps every framed
    property.

    What is left are five updates: drawing an identifier, an upload, the
    two new arrays [markTransactionAsSynced] and [addTransaction] install,
    and the merge into the array of a closure.  [Stable I ok c] lists what
    a property [I] has to satisfy for them, where [ok] singles out the
    transactions that may be uploaded and [c] is the closure that runs the
    bulk sync.  The lemmas of the section [stable] then show that every
    handler keeps [I]; they are proved once, against the interface. *)

From S2P Require Import Prelude Effects Types Ledger Storage Remote.
From S2P Require Import Engine EngineRules EngineOrder EngineInv EngineSpec.

Section frame.
Context {R : Type} `{!RemoteLedger R}.
Implicit Types (w : World R) (c : Closure) (I : World R → Prop).

(** ** The core of a world *)

Definition core w :=
  (heap w, hook_transactions w, hook_loading w, remote w,
   uuid (env w), uuid_next (env w)).

Definition same_core : relation (World R) := λ w w', core w = core w'.

#[global] Instance same_core_equivalence : Equivalence same_core.
Proof.
  unfold same_core. split; [by intros w|by intros w w'|].
  intros w1 w2 w3. apply eq_trans.
Qed.

(** A program that leaves the core as it is. *)
Definition silent {A} (m : M (World R) Error A) : Prop := advances same_core m.

(** A property of the core. *)
Definition framed I : Prop := ∀ w w', same_core w w' → I w → I w'.

Lemma silent_preserves {A} I (m : M (World R) Error A) :
  framed I → silent m → preserves I m.
Proof. intros HI Hm w Hw. by apply (HI w), Hw. Qed.

(** What is read of the core is the same in worlds of the same core. *)
Lemma same_core_array ref w w' : same_core w w' → array ref w = array ref w'.
Proof. intros [= Hh _ _ _ _ _]. unfold array. by rewrite Hh. Qed.

Lemma same_core_ledger w w' : same_core w w' → ledger w = ledger w'.
Proof. intros [= Hh Ht _ _ _ _]. unfold ledger, array. by rewrite Hh, Ht. Qed.

Lemma same_core_used w w' i : same_core w w' → used (env w) i → used (env w') i.
Proof. intros [= _ _ _ _ Hu Hn] Hi n. rewrite <- Hu, <- Hn. apply Hi. Qed.

(** ** The bookkeeping is silent *)

(** A symbolic run that ends in worlds of the same core. *)
Ltac silent_run :=
  apply advances_wp; intros ?; wp_go; repeat (case_match; wp_go); done.

Lemma silent_emit ev : silent (emit ev).
Proof. silent_run. Qed.

Lemma silent_Toast_show t : silent (Toast_show t).
Proof. silent_run. Qed.

Lemma silent_NetInfo_fetch : silent NetInfo_fetch.
Proof. silent_run. Qed.

Lemma silent_Date_now : silent Date_now.
Proof. silent_run. Qed.

Lemma silent_sleep ms : silent (sleep ms).
Proof. silent_run. Qed.

Lemma silent_getItem {A} key (item : AsyncStorage → option A) :
  silent (AsyncStorage_getItem key item).
Proof. silent_run. Qed.

Lemma silent_setItem {A} key (set : A → AsyncStorage → AsyncStorage) v :
  silent (AsyncStorage_setItem key set v).
Proof. silent_run. Qed.

Lemma silent_getDocs t : silent (Firestore_getDocs t).
Proof. silent_run. Qed.

Lemma silent_setIsSyncing b : silent (setIsSyncing b).
Proof. silent_run. Qed.

Lemma silent_getLastSyncTime : silent getLastSyncTime.
Proof. unfold getLastSyncTime. silent_run. Qed.

Lemma silent_updateLastSyncTime t : silent (updateLastSyncTime t).
Proof. unfold updateLastSyncTime. silent_run. Qed.

Lemma silent_fetchServerTransactions t : silent (fetchServerTransactions t).
Proof. unfold fetchServerTransactions. silent_run. Qed.

(** ** The worlds the entry points end in *)

Lemma exec_syncSingleTransaction c tx w :
  exec (syncSingleTransaction c tx) w = guarded c (synced_one tx) w.
Proof. wp_start. by rewrite wp_syncSingleTransaction. Qed.

Lemma exec_syncAllTransactions c w :
  exec (syncAllTransactions c) w = guarded c (synced_all c) w.
Proof. wp_start. by rewrite wp_syncAllTransactions. Qed.

Lemma exec_addTransaction c n w : exec (addTransaction c n) w = added c n w.
Proof. wp_start. by rewrite wp_addTransaction. Qed.

Lemma exec_initialize w : exec initialize w = set_hook_loading false (loaded w).
Proof. wp_start. by rewrite wp_initialize. Qed.

Lemma exec_onNetInfo c b w :
  exec (onNetInfo c b) w
  = if b && negb (loading c) then guarded c (synced_all c) w else w.
Proof. unfold onNetInfo. case_match; [apply exec_syncAllTransactions|done]. Qed.
End frame.

Create HintDb silent discriminated.
#[export] Hint Resolve silent_emit silent_Toast_show silent_NetInfo_fetch
  silent_Date_now silent_sleep silent_getItem silent_setItem silent_getDocs
  silent_setIsSyncing silent_getLastSyncTime silent_updateLastSyncTime
  silent_fetchServerTransactions : silent.

(** ** Properties every handler keeps *)

Class Stable {R : Type} `{!RemoteLedger R} (I : World R → Prop)
    (ok : Transaction → Prop) (c : Closure) : Prop := {
  (** [I] reads the core only *)
  stable_framed : framed I;
  (** [uuidv4()] *)
  stable_drawn w : I w → I (drawn w);
  (** the transaction [addTransaction] creates may be uploaded *)
  stable_created n w : I w → ok (created n w);
  (** [setDoc] resolved *)
  stable_upload tx w : ok tx → I w → I (set_remote (upload tx (remote w)) w);
  (** the array [markTransactionAsSynced] installs *)
  stable_marked tx w :
    ok tx → I w → I (installed (mark_synced (id tx) (ledger w)) w);
  (** the array [addTransaction] installs *)
  stable_pushed tx w :
    ok tx → I w → I (installed (updatedTransactions (ledger w) tx) w);
  (** the answer of a query, merged into the array of the closure *)
  stable_merged t w : I w → I (merged_into c (queryAfter t (remote w)) w);
  (** what the bulk sync of the closure uploads *)
  stable_unsynced tx w :
    I w → tx ∈ getUnsyncedTransactions (array (transactions c) w) → ok tx;
}.

#[global] Hint Mode Stable - - ! - - : typeclass_instances.

Create HintDb stable discriminated.

(** Walk the structure of a handler; the bookkeeping is closed by the
    frame rule, the rest by the database [stable]. *)
Ltac stable_walk :=
  preserves_walk
    ltac:(first [ solve [auto 2 with stable nocore]
                | apply silent_preserves;
                  [apply stable_framed|solve [auto 1 with silent nocore]] ]).

Section stable.
Context {R : Type} `{!RemoteLedger R}.
Context (I : World R → Prop) (ok : Transaction → Prop) (c : Closure).
Context `{!Stable I ok c}.
Implicit Types (w : World R) (tx : Transaction).

#[local] Abbreviation keeps := (preserves I).

Lemma stable_uuidv4 : keeps uuidv4.
Proof. intros w Hw. by apply stable_drawn. Qed.

Lemma stable_setDoc tx : ok tx → keeps (Firestore_setDoc tx).
Proof.
  intros Htx. apply preserves_wp. intros w Hw. wp_go.
  assert (I (logged set_uploads uploads (ESetDoc tx) w)) as Hl
    by (by apply (stable_framed w)).
  case_match; wp_go; [|done]. by apply (stable_upload tx _ Htx) in Hl.
Qed.

Lemma stable_setTransactions_marked tx :
  ok tx →
  keeps (prev <- gets ledger ;;
         let updated := mark_synced (id tx) prev in
         try_catch
           (AsyncStorage_setItem "transactions" setItem_transactions updated)
           (λ _, ret ()) ;;
         setTransactions updated).
Proof.
  intros Htx. apply preserves_wp. intros w Hw. wp_go.
  pose proof (stable_marked tx w Htx Hw) as Hm.
  case_match; wp_go; revert Hm; by apply stable_framed.
Qed.

Lemma stable_uploadTransaction tx : ok tx → keeps (uploadTransaction tx).
Proof.
  intros Htx. unfold uploadTransaction. pose proof (stable_setDoc tx Htx).
  stable_walk.
Qed.

Lemma stable_markTransactionAsSynced tx :
  ok tx → keeps (markTransactionAsSynced (id tx)).
Proof.
  intros Htx. unfold markTransactionAsSynced.
  apply preserves_try_catch; [by apply stable_setTransactions_marked|].
  intros _. apply preserves_ret.
Qed.

Lemma stable_attempt_once tx attempt delay :
  ok tx → keeps (attempt_once tx attempt delay).
Proof.
  intros Htx. unfold attempt_once.
  pose proof (stable_uploadTransaction tx Htx).
  pose proof (stable_markTransactionAsSynced tx Htx). stable_walk.
Qed.

Lemma stable_attempt_loop fuel tx attempt success delay :
  ok tx → keeps (attempt_loop fuel tx attempt success delay).
Proof.
  intros Htx. revert attempt success delay.
  induction fuel as [|fuel IH]; intros attempt success delay; simpl;
    apply preserves_if; [stable_walk..| |stable_walk].
  apply preserves_bind; [by apply stable_attempt_once|].
  intros [[a s] d]. apply IH.
Qed.

Lemma stable_attemptSyncTransaction tx :
  ok tx → keeps (attemptSyncTransaction tx).
Proof. apply stable_attempt_loop. Qed.

Lemma stable_syncSingleTransaction c' tx :
  ok tx → keeps (syncSingleTransaction c' tx).
Proof.
  intros Htx. unfold syncSingleTransaction.
  pose proof (stable_attemptSyncTransaction tx Htx). stable_walk.
Qed.

Lemma stable_fetchAndMergeServerTransactions :
  keeps (fetchAndMergeServerTransactions c).
Proof.
  apply preserves_wp. intros w Hw. rewrite wp_fetchAndMergeServerTransactions.
  unfold pulled. cbv zeta.
  assert (I (queried (lastSyncTime w) (cursor_read w))) as Hq
    by (by apply (stable_framed w)).
  destruct (answer (queries (env w))); [|revert Hq; by apply stable_framed].
  case_bool_decide; [|done].
  pose proof (stable_merged (lastSyncTime w) w Hw) as Hm.
  revert Hm. apply stable_framed. unfold cursor_saved. by case_match.
Qed.

Lemma stable_syncAllTransactions : keeps (syncAllTransactions c).
Proof.
  unfold syncAllTransactions, getUnsynced.
  pose proof stable_fetchAndMergeServerTransactions. stable_walk.
  apply preserves_gets_bind. intros w Hw.
  lazymatch goal with
  | |- I (exec ?m w) => enough (keeps m) as Hm by exact (Hm w Hw)
  end.
  assert (keeps (for_each attemptSyncTransaction
                   (getUnsyncedTransactions (array (transactions c) w)))).
  { apply preserves_for_each. intros tx Htx.
    apply stable_attemptSyncTransaction, (stable_unsynced tx w Hw Htx). }
  stable_walk.
Qed.

Lemma stable_onNetInfo b : keeps (onNetInfo c b).
Proof. unfold onNetInfo. pose proof stable_syncAllTransactions. stable_walk. Qed.

(** [addTransaction], whatever the closure that runs it: the bulk sync is
    not part of it. *)
Lemma stable_addTransaction c' n : keeps (addTransaction c' n).
Proof.
  apply preserves_wp. intros w Hw. rewrite wp_addTransaction.
  unfold added. cbv zeta. pose proof (stable_created n w Hw) as Hok.
  assert (I (saved (updatedTransactions (array (transactions c') w) (created n w))
               (drawn w))) as Hs.
  { generalize (stable_drawn w Hw). apply stable_framed.
    unfold saved. by case_match. }
  destruct (answer (writes (env w))); [|revert Hs; by apply stable_framed].
  rewrite <- exec_syncSingleTransaction.
  apply (stable_syncSingleTransaction c' _ Hok).
  apply (stable_pushed _ _ Hok) in Hs. by rewrite ledger_saved in Hs.
Qed.
End stable.

(** ** Two stable properties *)

(** [loading] is what it is: only the effect of the provider sets it. *)
#[global] Instance stable_loading {R : Type} `{!RemoteLedger R} (b : bool) c :
  Stable (λ w : World R, hook_loading w = b) (λ _, True) c.
Proof. split; try done. by intros w w' [= _ _ <- _ _ _]. Qed.

(** An array that is on the heap stays on the heap. *)
#[global] Instance stable_on_heap {R : Type} `{!RemoteLedger R} (ref : nat) c :
  Stable (λ w : World R, (ref < length (heap w))%nat) (λ _, True) c.
Proof.
  split; try done.
  - by intros w w' [= <- _ _ _ _ _].
  - intros tx w _ Hw. simpl. rewrite length_app. lia.
  - intros tx w _ Hw. simpl. rewrite length_app. lia.
  - intros t w Hw. simpl. by rewrite length_insert.
Qed.
