(* ===== verification/SyncProps.v ===== *)
(** * SyncProps: the properties of the sync engine

    The theorems about the provider of
    [src/context/TransactionContext.tsx] that the rest of the application
    relies on, each stated on the handlers of [Engine] and proved from the
    summaries of [EngineSpec] and the invariants of [EngineInv] and
    [EngineOrder]:

    - the retry loop: the backoff sequence, the bound on the attempts, the
      first success, the fuel;
    - the single-flight guard and the offline paths;
    - [addTransaction] and its error path;
    - the pull: when the cursor moves and what is persisted;
    - the well-formedness of the world and the uniqueness of identifiers;
    - the start of the application.

    Each theorem with hypotheses is applied to a concrete world over the
    Firestore collection of [Remote]. *)

From stdpp Require Import pretty.
From S2P Require Import Prelude Effects Types Ledger Storage Remote.
From S2P Require Import Engine EngineRules EngineOrder EngineInv EngineSpec.

(** ** The worlds the theorems are applied to *)

(** A generator of identifiers that never repeats. *)
Definition uuid0 (n : nat) : string := "u" +:+ pretty n.

Definition groceries : Transaction :=
  mkTransaction "s1" 4200 "Food" expense 1700000000000 "weekly" true.
Definition salary : Transaction :=
  mkTransaction "s2" 250000 "Salary" income 1700000100000 "" true.
Definition coffee : NewTransaction :=
  mkNewTransaction 350 "Food" expense 1700000200000 "espresso".

(** An environment with the given scripts, the clock at the instant
    1700000300000 and two sample transactions. *)
Definition env_of (net uploads queries writes reads : list bool) : Env :=
  mkEnv net uploads queries writes reads uuid0 0 1700000300000
    [groceries; salary].

(** The application installed and not yet started. *)
Definition installed_app (e : Env) : World Collection :=
  mount storage_empty ∅ e.

(** The application after its first start: the sample data is loaded. *)
Definition started_app (e : Env) : World Collection :=
  exec initialize (installed_app e).

(** The events of an upload that failed five times. *)
Definition backoff_trace (tx : Transaction) : list Event :=
  [ESetDoc tx false; ESleep 1000; ESetDoc tx false; ESleep 2000;
   ESetDoc tx false; ESleep 4000; ESetDoc tx false; ESleep 8000;
   ESetDoc tx false; EToast (toast_upload_failed (id tx))].

Lemma uuid0_inj n m : uuid0 n = uuid0 m → n = m.
Proof. unfold uuid0. simpl. intros [= Hp]. simpl in Hp. by apply pretty_nat_inj. Qed.

Lemma inv_installed_app net uploads queries writes reads :
  inv (installed_app (env_of net uploads queries writes reads)).
Proof.
  apply inv_mount.
  - apply known_nil.
  - split; [by apply (bool_decide_unpack _)|]. by repeat constructor.
  - by intros t tx ?%elem_of_nil.
  - intros n m _ Hlt ?%uuid0_inj. lia.
Qed.

Lemma inv_started_app net uploads queries writes reads :
  inv (started_app (env_of net uploads queries writes reads)).
Proof.
  apply (inv_for_inv []), keeps_initialize, inv_for_nil, inv_installed_app.
Qed.

(** ** The retry loop *)

Section retry_loop.
Context {R : Type} `{!RemoteLedger R}.
Implicit Types (w : World R) (tx : Transaction).

(** C1: an upload that fails five times is attempted exactly five times,
    with sleeps of 1, 2, 4 and 8 seconds between the attempts and none after
    the last; one failure toast is shown, the clock has moved on by 15
    seconds, and the ledger, the store and the remote ledger are as
    before. *)
Theorem attemptSync_backoff tx w rest :
  uploads (env w) = replicate 5 false ++ rest →
  outcome (attemptSyncTransaction tx) w = Ok ()
  ∧ trace (exec (attemptSyncTransaction tx) w) = trace w ++ backoff_trace tx
  ∧ now (env (exec (attemptSyncTransaction tx) w)) = now (env w) + 15000
  ∧ uploads (env (exec (attemptSyncTransaction tx) w)) = rest
  ∧ ledger (exec (attemptSyncTransaction tx) w) = ledger w
  ∧ storage (exec (attemptSyncTransaction tx) w) = storage w
  ∧ remote (exec (attemptSyncTransaction tx) w) = remote w.
Proof. intros Hup. concrete w. by_run. Qed.

(** C20: [attemptSyncTransaction] always resolves: the loop ends within
    [MAX_RETRIES] turns, the fuel of the model is never exhausted and no
    rejection escapes. *)
Theorem attemptSync_resolves tx w :
  outcome (attemptSyncTransaction tx) w = Ok ().
Proof. wp_start. by rewrite wp_attemptSyncTransaction. Qed.

(** C8: when the first upload resolves, the document is written, the entry
    is marked as synced in the list of the hook, the marked list is written
    to the store (when that write resolves), one success toast is shown and
    nothing is slept. *)
Theorem attemptSync_first_success tx w :
  answer (uploads (env w)) = true →
  remote (exec (attemptSyncTransaction tx) w) = upload tx (remote w)
  ∧ ledger (exec (attemptSyncTransaction tx) w) = mark_synced (id tx) (ledger w)
  ∧ trace (exec (attemptSyncTransaction tx) w)
    = trace w ++ [ESetDoc tx true;
                  ESetItem "transactions" (answer (writes (env w)));
                  EToast (toast_uploaded (id tx))]
  ∧ now (env (exec (attemptSyncTransaction tx) w)) = now (env w)
  ∧ (answer (writes (env w)) = true →
     stored (storage (exec (attemptSyncTransaction tx) w))
     = mark_synced (id tx) (ledger w)).
Proof.
  intros Hup. wp_start. rewrite wp_attemptSyncTransaction.
  unfold MAX_RETRIES. cbn [retry]. rewrite Hup. unfold turn. rewrite Hup.
  rewrite ledger_toasted, ledger_marked, ledger_uploaded.
  unfold_worlds. simpl. rewrite Hup.
  split_and!; [done|done|by rewrite <- !app_assoc|done|by intros ->].
Qed.

(** One call of [attemptSyncTransaction] makes at least one and at
    most [MAX_RETRIES] uploads. *)
Theorem attemptSync_attempts_bounded tx w :
  (uploads_in (trace w) < uploads_in (trace (exec (attemptSyncTransaction tx) w))
   ≤ uploads_in (trace w) + MAX_RETRIES)%nat.
Proof.
  wp_start. rewrite wp_attemptSyncTransaction.
  pose proof (uploads_in_retry MAX_RETRIES tx 0 INITIAL_DELAY w) as Hb.
  unfold MAX_RETRIES in *. simpl min in Hb. lia.
Qed.

(** A turn of the loop sleeps for [delay] when the upload failed and an
    attempt is left, and not at all otherwise. *)
Lemma now_turn tx attempt delay w :
  now (env (turn tx attempt delay w))
  = now (env w)
    + (if answer (uploads (env w)) then 0
       else if bool_decide (S attempt < MAX_RETRIES)%nat then delay else 0).
Proof.
  unfold turn, marked, saved, uploaded. repeat case_match; simpl; lia.
Qed.

(** With [n] attempts left the loop sleeps for at most
    [delay * (2 ^ (n - 1) - 1)]: the delays double and none follows the
    last attempt. *)
Lemma now_retry n tx attempt delay w :
  (attempt + n = MAX_RETRIES)%nat → 0 ≤ delay →
  now (env w) ≤ now (env (retry n tx attempt delay w))
  ≤ now (env w) + delay * (2 ^ Z.of_nat (n - 1) - 1).
Proof.
  revert attempt delay w. induction n as [|n IH]; intros attempt delay w Hn Hd;
    cbn [retry]; [simpl; lia|].
  assert (0 < 2 ^ Z.of_nat (S n - 1)) by (apply Z.pow_pos_nonneg; lia).
  pose proof (now_turn tx attempt delay w) as Ht.
  destruct (answer (uploads (env w))); [nia|].
  specialize (IH (S attempt) (delay * 2) (turn tx attempt delay w)).
  destruct n as [|n]; [rewrite bool_decide_false in Ht by lia; simpl; lia|].
  rewrite bool_decide_true in Ht by lia.
  replace (S (S n) - 1)%nat with (S n) in * by lia.
  replace (S n - 1)%nat with n in IH by lia.
  rewrite Nat2Z.inj_succ, Z.pow_succ_r by lia. nia.
Qed.

(** C11: one call of [attemptSyncTransaction] is bounded, whatever the
    network answers: it makes at least one and at most five uploads, and
    the pauses between them add up to at most 15 seconds. *)
Theorem attemptSync_bounded tx w :
  (uploads_in (trace w) < uploads_in (trace (exec (attemptSyncTransaction tx) w))
   ≤ uploads_in (trace w) + 5)%nat
  ∧ now (env w) ≤ now (env (exec (attemptSyncTransaction tx) w))
    ≤ now (env w) + 15000.
Proof.
  wp_start. rewrite wp_attemptSyncTransaction.
  pose proof (uploads_in_retry MAX_RETRIES tx 0 INITIAL_DELAY w) as Hb.
  pose proof (now_retry MAX_RETRIES tx 0 INITIAL_DELAY w eq_refl) as Ht.
  unfold MAX_RETRIES, INITIAL_DELAY in *. simpl min in Hb.
  change (1000 * (2 ^ Z.of_nat (5 - 1) - 1)) with 15000 in Ht. lia.
Qed.

(** Any fuel of at least [MAX_RETRIES] gives the run of
    [attemptSyncTransaction]. *)
Theorem attempt_loop_fuel_irrelevant fuel tx w :
  (MAX_RETRIES ≤ fuel)%nat →
  attempt_loop fuel tx 0 false INITIAL_DELAY w = attemptSyncTransaction tx w.
Proof. intros Hfuel. by apply attempt_loop_fuel. Qed.
End retry_loop.

Lemma attemptSync_backoff_witness :
  trace (exec (attemptSyncTransaction groceries)
           (installed_app (env_of [] (replicate 5 false) [] [] [])))
  = backoff_trace groceries.
Proof.
  exact (proj1 (proj2 (attemptSync_backoff groceries
           (installed_app (env_of [] (replicate 5 false) [] [] [])) [] eq_refl))).
Defined.

Lemma attemptSync_first_success_witness :
  ledger (exec (attemptSyncTransaction (with_synced false groceries))
            (started_app (env_of [] [true] [] [] [])))
  = [groceries; with_synced false salary].
Proof.
  exact (proj1 (proj2 (attemptSync_first_success (with_synced false groceries)
           (started_app (env_of [] [true] [] [] [])) eq_refl))).
Defined.

Lemma attempt_loop_fuel_irrelevant_witness :
  attempt_loop 7 groceries 0 false INITIAL_DELAY
    (installed_app (env_of [] [false; true] [] [] []))
  = attemptSyncTransaction groceries
      (installed_app (env_of [] [false; true] [] [] [])).
Proof. apply attempt_loop_fuel_irrelevant. unfold MAX_RETRIES. lia. Defined.

(** ** The single-flight guard and the offline paths *)

Section guard.
Context {R : Type} `{!RemoteLedger R}.
Implicit Types (w : World R) (c : Closure) (tx : Transaction).

(** A cycle requested by a closure that saw a cycle in flight is
    dropped: nothing is uploaded, fetched, shown or changed. *)
Theorem guard_drops_cycle c tx w :
  isSyncing c = true →
  syncSingleTransaction c tx w = (Ok (), w) ∧ syncAllTransactions c w = (Ok (), w).
Proof. intros Hc. unfold syncSingleTransaction, syncAllTransactions. by rewrite Hc. Qed.

(** C13: the guard is released at the end of a cycle that took it, on every
    path; a dropped cycle leaves it as it is. *)
Theorem guard_released c tx w :
  hook_isSyncing (exec (syncAllTransactions c) w)
  = (if isSyncing c then hook_isSyncing w else false)
  ∧ hook_isSyncing (exec (syncSingleTransaction c tx) w)
    = (if isSyncing c then hook_isSyncing w else false).
Proof.
  split; wp_start;
    rewrite ?wp_syncAllTransactions, ?wp_syncSingleTransaction;
    unfold guarded; by destruct (isSyncing c).
Qed.

(** Offline, a bulk sync shows one informational toast and changes
    neither the ledger, nor the store, nor the remote ledger. *)
Theorem syncAll_offline c w :
  isSyncing c = false → answer (net (env w)) = false →
  trace (exec (syncAllTransactions c) w)
  = trace w ++ [ENetInfo false; EToast toast_offline]
  ∧ heap (exec (syncAllTransactions c) w) = heap w
  ∧ ledger (exec (syncAllTransactions c) w) = ledger w
  ∧ storage (exec (syncAllTransactions c) w) = storage w
  ∧ remote (exec (syncAllTransactions c) w) = remote w.
Proof.
  intros Hc Hnet. wp_start. rewrite wp_syncAllTransactions.
  unfold guarded, synced_all. rewrite Hc. simpl (net _). rewrite Hnet.
  unfold_worlds. simpl. rewrite Hnet. by rewrite <- !app_assoc.
Qed.

(** The guard reads the closure, not the hook: a closure that did not
    see the cycle in flight starts a second one while the hook says that a
    cycle is running, and releases the guard of the first when it ends. *)
Theorem guard_reads_closure c w :
  isSyncing c = false → hook_isSyncing w = true →
  (length (trace w) < length (trace (exec (syncAllTransactions c) w)))%nat
  ∧ hook_isSyncing (exec (syncAllTransactions c) w) = false.
Proof.
  intros Hc _. wp_start. rewrite wp_syncAllTransactions.
  unfold guarded. rewrite Hc. split; [|done]. simpl trace.
  apply (trace_synced_all_grows c (set_hook_isSyncing true w)).
Qed.
End guard.

Lemma guard_drops_cycle_witness :
  syncAllTransactions (mkClosure 0 true false)
    (started_app (env_of [] [] [] [] []))
  = (Ok (), started_app (env_of [] [] [] [] [])).
Proof.
  exact (proj2 (guard_drops_cycle (mkClosure 0 true false) groceries
                  (started_app (env_of [] [] [] [] [])) eq_refl)).
Defined.

Lemma syncAll_offline_witness :
  ledger (exec (syncAllTransactions (mkClosure 1 false false))
            (started_app (env_of [false] [] [] [] [])))
  = [with_synced false groceries; with_synced false salary].
Proof.
  exact (proj1 (proj2 (proj2 (syncAll_offline (mkClosure 1 false false)
           (started_app (env_of [false] [] [] [] [])) eq_refl eq_refl)))).
Defined.

Lemma guard_reads_closure_witness :
  hook_isSyncing
    (exec (syncAllTransactions (mkClosure 1 false false))
       (set_hook_isSyncing true (started_app (env_of [true] [] [] [] []))))
  = false.
Proof.
  exact (proj2 (guard_reads_closure (mkClosure 1 false false)
           (set_hook_isSyncing true (started_app (env_of [true] [] [] [] [])))
           eq_refl eq_refl)).
Defined.

(** ** Adding a transaction *)

Section adding.
Context {R : Type} `{!RemoteLedger R}.
Implicit Types (w : World R) (c : Closure) (n : NewTransaction).

(** C26: when the write to the store resolves, [addTransaction] appends
    exactly one entry to the list of the hook: the new transaction under the
    identifier drawn, unsynced when it is created; at the end of the call
    the list is the old one followed by the new entry, marked as synced or
    not according to the upload. *)
Theorem addTransaction_appends c n w :
  answer (writes (env w)) = true →
  id (created n w) = uuid (env w) (uuid_next (env w))
  ∧ synced (created n w) = false
  ∧ (ledger (exec (addTransaction c n) w)
     = updatedTransactions (ledger w) (created n w)
     ∨ ledger (exec (addTransaction c n) w)
       = mark_synced (id (created n w))
           (updatedTransactions (ledger w) (created n w))).
Proof.
  intros Hw. split_and!; [done..|]. wp_start. rewrite wp_addTransaction.
  unfold added. cbv zeta. rewrite Hw.
  lazymatch goal with
  | |- context [guarded c _ ?W] =>
      destruct (ledger_guarded_synced_one c (created n w) W) as [-> | ->]
  end; rewrite ledger_installed; auto.
Qed.

(** C36: offline, the new entry stays unsynced, nothing is uploaded, and
    what is written to the store is the array of the closure followed by the
    new entry, while the list of the hook is the current list followed by
    the new entry. *)
Theorem addTransaction_offline c n w :
  answer (writes (env w)) = true → isSyncing c = false →
  answer (net (env w)) = false →
  ledger (exec (addTransaction c n) w)
  = updatedTransactions (ledger w) (created n w)
  ∧ stored (storage (exec (addTransaction c n) w))
    = updatedTransactions (array (transactions c) w) (created n w)
  ∧ remote (exec (addTransaction c n) w) = remote w
  ∧ trace (exec (addTransaction c n) w)
    = trace w ++ [ESetItem "transactions" true; ENetInfo false;
                  EToast toast_offline].
Proof.
  intros Hw Hc Hnet. wp_start. rewrite wp_addTransaction.
  unfold added, guarded, synced_one. rewrite Hw, Hc. simpl (net _). rewrite Hnet.
  rewrite ledger_set_hook_isSyncing, ledger_toasted, ledger_probed,
    ledger_set_hook_isSyncing, ledger_installed.
  unfold_worlds. simpl. rewrite Hw, Hnet. by rewrite <- !app_assoc.
Qed.

(** C14: when the write to the store rejects, [addTransaction] shows the
    error toast and adds nothing: the list of the hook, the store and the
    remote ledger are as before; the identifier drawn is spent. *)
Theorem addTransaction_persist_failure c n w :
  answer (writes (env w)) = false →
  outcome (addTransaction c n) w = Ok ()
  ∧ heap (exec (addTransaction c n) w) = heap w
  ∧ ledger (exec (addTransaction c n) w) = ledger w
  ∧ storage (exec (addTransaction c n) w) = storage w
  ∧ remote (exec (addTransaction c n) w) = remote w
  ∧ uuid_next (env (exec (addTransaction c n) w)) = S (uuid_next (env w))
  ∧ trace (exec (addTransaction c n) w)
    = trace w ++ [ESetItem "transactions" false; EToast toast_add_failed].
Proof.
  intros Hw. wp_start. rewrite wp_addTransaction. unfold added. rewrite Hw.
  unfold_worlds. simpl. rewrite Hw. by rewrite <- !app_assoc.
Qed.
End adding.

Lemma addTransaction_appends_witness :
  id (created coffee (started_app (env_of [true] [true] [] [] []))) = "u0".
Proof.
  exact (proj1 (addTransaction_appends (mkClosure 1 false false) coffee
                  (started_app (env_of [true] [true] [] [] [])) eq_refl)).
Defined.

Lemma addTransaction_offline_witness :
  ledger (exec (addTransaction (mkClosure 1 false false) coffee)
            (started_app (env_of [false] [] [] [] [])))
  = [with_synced false groceries; with_synced false salary;
     mkTransaction "u0" 350 "Food" expense 1700000200000 "espresso" false].
Proof.
  exact (proj1 (addTransaction_offline (mkClosure 1 false false) coffee
                  (started_app (env_of [false] [] [] [] []))
                  eq_refl eq_refl eq_refl)).
Defined.

Lemma addTransaction_persist_failure_witness :
  ledger (exec (addTransaction (mkClosure 1 false false) coffee)
            (started_app (env_of [] [] [] [true; false] [])))
  = [with_synced false groceries; with_synced false salary].
Proof.
  exact (proj1 (proj2 (proj2 (addTransaction_persist_failure
           (mkClosure 1 false false) coffee
           (started_app (env_of [] [] [] [true; false] [])) eq_refl)))).
Defined.

(** ** The pull and the sync cursor *)

Section pull.
Context {R : Type} `{!RemoteLedger R}.
Implicit Types (w : World R) (c : Closure).

(** A pull that answers no document leaves the cursor, the store and
    every array as they are and shows nothing. *)
Theorem pull_empty_keeps_cursor c w :
  answer (queries (env w)) = true →
  queryAfter (lastSyncTime w) (remote w) = [] →
  storage (exec (fetchAndMergeServerTransactions c) w) = storage w
  ∧ heap (exec (fetchAndMergeServerTransactions c) w) = heap w
  ∧ trace (exec (fetchAndMergeServerTransactions c) w)
    = trace w ++ [EGetItem "lastSyncTime" (answer (reads (env w)));
                  EGetDocs (lastSyncTime w) true].
Proof.
  intros Hq Hnil. wp_start. rewrite wp_fetchAndMergeServerTransactions.
  unfold pulled. rewrite Hq, Hnil. unfold_worlds. simpl. rewrite Hq.
  by rewrite <- !app_assoc.
Qed.

(** A pull whose query rejects is reported by a toast, resolves, and
    leaves the cursor, the store and every array as they are. *)
Theorem pull_failure_keeps_cursor c w :
  answer (queries (env w)) = false →
  outcome (fetchAndMergeServerTransactions c) w = Ok ()
  ∧ storage (exec (fetchAndMergeServerTransactions c) w) = storage w
  ∧ heap (exec (fetchAndMergeServerTransactions c) w) = heap w
  ∧ trace (exec (fetchAndMergeServerTransactions c) w)
    = trace w ++ [EGetItem "lastSyncTime" (answer (reads (env w)));
                  EGetDocs (lastSyncTime w) false; EToast toast_pull_failed].
Proof.
  intros Hq. wp_start. rewrite wp_fetchAndMergeServerTransactions.
  unfold pulled. rewrite Hq. unfold_worlds. simpl. rewrite Hq.
  by rewrite <- !app_assoc.
Qed.

(** A pull that answers documents merges them into the array of the
    closure, shows their number and, when the write resolves, moves the
    cursor to the instant of the clock. *)
Theorem pull_advances_cursor c w :
  answer (queries (env w)) = true →
  queryAfter (lastSyncTime w) (remote w) ≠ [] →
  (transactions c < length (heap w))%nat →
  array (transactions c) (exec (fetchAndMergeServerTransactions c) w)
  = merge (array (transactions c) w) (queryAfter (lastSyncTime w) (remote w))
  ∧ cursor (storage (exec (fetchAndMergeServerTransactions c) w))
    = (if answer (writes (env w)) then now (env w) else cursor (storage w))
  ∧ last (trace (exec (fetchAndMergeServerTransactions c) w))
    = Some (EToast (toast_merged
                      (length (queryAfter (lastSyncTime w) (remote w))))).
Proof.
  intros Hq Hne Hc. wp_start. rewrite wp_fetchAndMergeServerTransactions.
  unfold pulled. rewrite Hq, bool_decide_true
    by (destruct (queryAfter _ _); [done|simpl; lia]).
  split_and!.
  - unfold toasted, cursor_saved. simpl. unfold array at 1. simpl.
    by rewrite list_lookup_insert_eq.
  - unfold_worlds. simpl. by destruct (answer (writes (env w))).
  - unfold toasted. simpl. apply last_snoc.
Qed.

(** A pull never writes the list of transactions to the store: what
    it merged lives in memory only, also when it moved the cursor. *)
Theorem pull_never_persists c w :
  item_transactions (storage (exec (fetchAndMergeServerTransactions c) w))
  = item_transactions (storage w).
Proof.
  wp_start. rewrite wp_fetchAndMergeServerTransactions. unfold pulled.
  destruct (answer (queries _)); [case_bool_decide|]; try done.
  unfold_worlds. simpl. by destruct (answer (writes _)).
Qed.

(** C34: a pull made by a closure of an earlier render merges into the
    array that render captured: the list of the hook does not change. *)
Theorem pull_stale_closure c w :
  transactions c ≠ hook_transactions w →
  ledger (exec (fetchAndMergeServerTransactions c) w) = ledger w.
Proof.
  intros Hc. wp_start. rewrite wp_fetchAndMergeServerTransactions. unfold pulled.
  destruct (answer (queries _)); [case_bool_decide|]; try done.
  rewrite ledger_toasted, ledger_cursor_saved, ledger_merged_into.
  destruct (decide _) as [Hd|]; [|done]. destruct Hc. symmetry. apply Hd.
Qed.
End pull.

(** The application started, with [groceries] uploaded. *)
Definition uploaded_app (e : Env) : World Collection :=
  exec (attemptSyncTransaction (with_synced false groceries)) (started_app e).

Lemma pull_empty_keeps_cursor_witness :
  storage (exec (fetchAndMergeServerTransactions (mkClosure 1 false false))
             (started_app (env_of [] [] [true] [] [])))
  = storage (started_app (env_of [] [] [true] [] [])).
Proof.
  exact (proj1 (pull_empty_keeps_cursor (mkClosure 1 false false)
                  (started_app (env_of [] [] [true] [] [])) eq_refl eq_refl)).
Defined.

Lemma pull_failure_keeps_cursor_witness :
  storage (exec (fetchAndMergeServerTransactions (mkClosure 1 false false))
             (uploaded_app (env_of [] [] [false] [] [])))
  = storage (uploaded_app (env_of [] [] [false] [] [])).
Proof.
  exact (proj1 (proj2 (pull_failure_keeps_cursor (mkClosure 1 false false)
                  (uploaded_app (env_of [] [] [false] [] [])) eq_refl))).
Defined.

Lemma pull_advances_cursor_witness :
  cursor (storage (exec (fetchAndMergeServerTransactions (mkClosure 2 false false))
                     (uploaded_app (env_of [] [] [] [] []))))
  = 1700000300000.
Proof.
  refine (proj1 (proj2 (pull_advances_cursor (mkClosure 2 false false)
                  (uploaded_app (env_of [] [] [] [] [])) eq_refl _ _)));
    [by vm_compute|vm_compute; lia].
Defined.

Lemma pull_stale_closure_witness :
  ledger (exec (fetchAndMergeServerTransactions (mkClosure 0 false true))
            (uploaded_app (env_of [] [] [] [] [])))
  = [groceries; with_synced false salary].
Proof.
  refine (pull_stale_closure (mkClosure 0 false true)
            (uploaded_app (env_of [] [] [] [] [])) _).
  by vm_compute.
Defined.

(** ** Well-formed worlds, handled rejections, monotone ledger *)

Section wellformed.
Context {R : Type} `{!RemoteLedger R}.
Implicit Types (w : World R) (c : Closure) (n : NewTransaction).

(** Every entry point of the provider keeps the world well formed:
    the hook refers to an array, every array and the stored list have unique
    identifiers, and no identifier in use is drawn again. *)
Theorem handlers_keep_inv c n b w :
  inv w →
  inv (exec initialize w) ∧ inv (exec (addTransaction c n) w)
  ∧ inv (exec (syncAllTransactions c) w) ∧ inv (exec (onNetInfo c b) w).
Proof.
  intros Hw%inv_for_nil.
  split_and!; apply (inv_for_inv []);
    [by apply keeps_initialize|by apply keeps_addTransaction
    |by apply keeps_syncAllTransactions|by apply keeps_onNetInfo].
Qed.

(** In a well-formed world, the list the screens see has unique
    identifiers after a transaction was added and after a bulk sync,
    whatever the closure that made the call. *)
Theorem ledger_ids_unique c n w :
  inv w →
  unique_ids (ledger (exec (addTransaction c n) w))
  ∧ unique_ids (ledger (exec (syncAllTransactions c) w)).
Proof.
  intros Hw%inv_for_nil. split; apply inv_ledger, (inv_for_inv []);
    [by apply keeps_addTransaction|by apply keeps_syncAllTransactions].
Qed.

(** No entry point of the provider rejects: every failure of the
    store, of the remote ledger or of the network ends in a toast. *)
Theorem handlers_never_reject c n b tx w :
  outcome initialize w = Ok ()
  ∧ outcome (addTransaction c n) w = Ok ()
  ∧ outcome (syncSingleTransaction c tx) w = Ok ()
  ∧ outcome (syncAllTransactions c) w = Ok ()
  ∧ outcome (onNetInfo c b) w = Ok ().
Proof.
  split_and!; wp_start;
    by rewrite ?wp_initialize, ?wp_addTransaction, ?wp_syncSingleTransaction,
      ?wp_syncAllTransactions, ?wp_onNetInfo.
Qed.

(** C17: adding and syncing lose no entry of the list the screens see and
    turn no synced flag back to false. *)
Theorem sync_keeps_ledger c n tx w :
  ledger_le (ledger w) (ledger (exec (addTransaction c n) w))
  ∧ ledger_le (ledger w) (ledger (exec (syncSingleTransaction c tx) w))
  ∧ ledger_le (ledger w) (ledger (exec (syncAllTransactions c) w)).
Proof.
  split_and!; wp_start;
    rewrite ?wp_addTransaction, ?wp_syncSingleTransaction, ?wp_syncAllTransactions.
  - apply ledger_le_added.
  - apply ledger_le_guarded, ledger_le_synced_one.
  - apply ledger_le_guarded, ledger_le_synced_all.
Qed.

(** Every entry point only extends the world: the events already
    observed stay the beginning of the trace, arrays are only pushed to,
    identifiers are only drawn. *)
Theorem handlers_extend c n b w :
  extends w (exec initialize w) ∧ extends w (exec (addTransaction c n) w)
  ∧ extends w (exec (syncAllTransactions c) w)
  ∧ extends w (exec (onNetInfo c b) w).
Proof.
  split_and!;
    [apply adv_initialize|apply adv_addTransaction
    |apply adv_syncAllTransactions|apply adv_onNetInfo].
Qed.
End wellformed.

Lemma handlers_keep_inv_witness :
  inv (exec (addTransaction (mkClosure 1 false false) coffee)
         (started_app (env_of [] [] [] [] []))).
Proof.
  exact (proj1 (proj2 (handlers_keep_inv (mkClosure 1 false false) coffee true
           (started_app (env_of [] [] [] [] []))
           (inv_started_app [] [] [] [] [])))).
Defined.

Lemma ledger_ids_unique_witness :
  unique_ids (ledger (exec (addTransaction (mkClosure 1 false false) coffee)
                        (started_app (env_of [] [] [] [] [])))).
Proof.
  exact (proj1 (ledger_ids_unique (mkClosure 1 false false) coffee
           (started_app (env_of [] [] [] [] []))
           (inv_started_app [] [] [] [] []))).
Defined.

(** ** The start of the application *)

Section loading.
Context {R : Type} `{!RemoteLedger R}.
Implicit Types (w : World R) (l : list Transaction).

(** When the store holds a list, [loadTransactions] installs exactly
    that list and writes nothing. *)
Theorem load_restores l w :
  answer (reads (env w)) = true → item_transactions (storage w) = Some l →
  ledger (exec loadTransactions w) = l
  ∧ storage (exec loadTransactions w) = storage w
  ∧ trace (exec loadTransactions w) = trace w ++ [EGetItem "transactions" true].
Proof.
  intros Hr Hl. wp_start. rewrite wp_loadTransactions. unfold loaded.
  rewrite Hr, Hl. rewrite ledger_installed. unfold_worlds. simpl. by rewrite Hr.
Qed.

(** When the store holds no list, [loadTransactions] installs the
    sample data with every entry unsynced and writes it to the store; when
    that write rejects the list stays installed and the error toast is
    shown. *)
Theorem load_seeds w :
  answer (reads (env w)) = true → item_transactions (storage w) = None →
  ledger (exec loadTransactions w)
  = initializedTransactions (sampleTransactions (env w))
  ∧ getUnsyncedTransactions (ledger (exec loadTransactions w))
    = ledger (exec loadTransactions w)
  ∧ (if answer (writes (env w))
     then stored (storage (exec loadTransactions w))
          = initializedTransactions (sampleTransactions (env w))
     else storage (exec loadTransactions w) = storage w
          ∧ last (trace (exec loadTransactions w))
            = Some (EToast toast_load_failed)).
Proof.
  intros Hr Hl. wp_start. rewrite wp_loadTransactions. unfold loaded.
  rewrite Hr, Hl. cbv zeta.
  assert (∀ l w', ledger (saved l (installed l w')) = l) as Hsaved
    by (intros; by rewrite ledger_saved, ledger_installed).
  destruct (answer (writes (env w))) eqn:Hw;
    rewrite ?ledger_toasted, Hsaved, initializedTransactions_unsynced;
    split_and!; try done; unfold_worlds; simpl; rewrite Hw; try done.
  apply last_snoc.
Qed.

(** When the read of the store rejects, [loadTransactions] shows the
    error toast and leaves the list, the arrays and the store as they
    are. *)
Theorem load_read_failure w :
  answer (reads (env w)) = false →
  outcome loadTransactions w = Ok ()
  ∧ heap (exec loadTransactions w) = heap w
  ∧ ledger (exec loadTransactions w) = ledger w
  ∧ storage (exec loadTransactions w) = storage w
  ∧ trace (exec loadTransactions w)
    = trace w ++ [EGetItem "transactions" false; EToast toast_load_failed].
Proof.
  intros Hr. wp_start. rewrite wp_loadTransactions. unfold loaded. rewrite Hr.
  unfold_worlds. simpl. rewrite Hr. by rewrite <- !app_assoc.
Qed.

(** [initialize] is idempotent on a store that holds a list: running
    it again, as the effect of the provider does when [loading] changes,
    installs the same list again. *)
Theorem initialize_again l w :
  answer (reads (env w)) = true → item_transactions (storage w) = Some l →
  answer (rest (reads (env w))) = true →
  ledger (exec initialize (exec initialize w)) = l
  ∧ storage (exec initialize (exec initialize w)) = storage w
  ∧ hook_loading (exec initialize (exec initialize w)) = false.
Proof.
  intros Hr Hl Hr'. wp_start. rewrite wp_initialize. wp_start.
  rewrite wp_initialize.
  assert (∀ w', answer (reads (env w')) = true →
                item_transactions (storage w') = Some l →
                loaded w' = installed l (logged set_reads reads
                                           (EGetItem "transactions") w')) as Hload
    by (intros w' H1 H2; unfold loaded; by rewrite H1, H2).
  rewrite (Hload w) by done. rewrite Hload by done.
  by rewrite ledger_set_hook_loading, ledger_installed.
Qed.
End loading.

Lemma load_restores_witness :
  ledger (exec loadTransactions
            (mount (setItem_transactions [salary] storage_empty)
               (∅ : Collection) (env_of [] [] [] [] [])))
  = [salary].
Proof.
  exact (proj1 (load_restores [salary]
           (mount (setItem_transactions [salary] storage_empty) (∅ : Collection)
              (env_of [] [] [] [] [])) eq_refl eq_refl)).
Defined.

Lemma load_seeds_witness :
  ledger (exec loadTransactions (installed_app (env_of [] [] [] [] [])))
  = [with_synced false groceries; with_synced false salary].
Proof.
  exact (proj1 (load_seeds (installed_app (env_of [] [] [] [] []))
                  eq_refl eq_refl)).
Defined.

Lemma load_read_failure_witness :
  ledger (exec loadTransactions (installed_app (env_of [] [] [] [] [false])))
  = [].
Proof.
  exact (proj1 (proj2 (proj2 (load_read_failure
           (installed_app (env_of [] [] [] [] [false])) eq_refl)))).
Defined.

(** ** Scenarios *)

(** Three unsynced entries: the sample data and one entry added offline. *)
Definition three_unsynced : World Collection :=
  exec (addTransaction (mkClosure 1 false false) coffee)
    (started_app (env_of [false] [] [] [] [])).

(** A record another device uploaded. *)
Definition rent : Transaction :=
  mkTransaction "r1" 90000 "Rent" expense 1700000050000 "november" false.

(** A device with nothing to upload, and a remote ledger that holds
    [rent]. *)
Definition second_device : World Collection :=
  mount (setItem_transactions [groceries] storage_empty)
    (firestore_upload rent ∅) (env_of [] [] [] [] []).

(** The toasts of a trace. *)
Definition toasts (t : list Event) : list Toast :=
  omap (λ ev, match ev with EToast t => Some t | _ => None end) t.



Lemma initialize_again_witness :
  ledger (exec initialize (exec initialize
            (mount (setItem_transactions [salary] storage_empty)
               (∅ : Collection) (env_of [] [] [] [] []))))
  = [salary].
Proof.
  exact (proj1 (initialize_again [salary]
           (mount (setItem_transactions [salary] storage_empty) (∅ : Collection)
              (env_of [] [] [] [] [])) eq_refl eq_refl eq_refl)).
Defined.
