(* ===== verification/Views.v ===== *)
(** * Views: what the screens compute from the ledger

    The screens under [src/app] read [transactions] from the provider and
    derive what they show:

    - [src/app/index.tsx] (the dashboard): the totals, the balance and the
      five most recent transactions.  [transactions.sort] sorts the array of
      the provider in place: [HomeScreen] is an effect on the heap.
    - [src/app/history.tsx]: the list filtered by a search string and a
      type, sorted by date.
    - [src/app/charts.tsx]: the expenses added up by category, in the order
      in which the categories first occur (the order of the keys of a
      JavaScript object whose keys are not integers).
    - [src/app/add.tsx]: the submit handler of the form.
    - [src/app/_layout.tsx] and the two list items: the choice of icons.

    [Array.prototype.sort] is stable; it is modelled by a stable insertion
    sort, [js_sort].  [toLowerCase] is modelled on ASCII letters. *)

From Stdlib Require Import Ascii.
From stdpp Require Import sorting.
From S2P Require Import Prelude Effects Types Ledger Storage Remote.
From S2P Require Import Engine EngineRules EngineOrder EngineInv EngineSpec SyncProps.

(** ** [Array.prototype.sort] *)

Section js_sort.
Context {A : Type} (before : A → A → bool).

(** [before a b]: the comparator answers a number that is not positive, so
    [a] stays before [b]. *)
Fixpoint js_insert (x : A) (l : list A) : list A :=
  match l with
  | [] => [x]
  | y :: l' => if before x y then x :: l else y :: js_insert x l'
  end.

(** [arr.sort(compare)], stable. *)
Definition js_sort (arr : list A) : list A := foldr js_insert [] arr.
End js_sort.

(** ** The dashboard, [src/app/index.tsx] *)

Definition totalIncome (transactions : list Transaction) : Z :=
  sum_with amount (filter (λ t, type t = income) transactions).

Definition totalExpenses (transactions : list Transaction) : Z :=
  sum_with amount (filter (λ t, type t = expense) transactions).

Definition balance (transactions : list Transaction) : Z :=
  totalIncome transactions - totalExpenses transactions.

(** The comparator [(a, b) => new Date(b.date) - new Date(a.date)]. *)
Definition by_date_desc (a b : Transaction) : bool := bool_decide (date b ≤ date a).

Definition sort_by_date : list Transaction → list Transaction :=
  js_sort by_date_desc.

Definition recentTransactions (transactions : list Transaction) :
    list Transaction :=
  js_slice0 5 (sort_by_date transactions).

(** What a render of the dashboard shows. *)
Record Dashboard : Set := mkDashboard {
  shown_income : Z;
  shown_expenses : Z;
  shown_balance : Z;
  shown_recent : list Transaction;
}.

(** ** The history, [src/app/history.tsx] *)

(** [selectedType] *)
Inductive SelectedType : Set := all | only (t : TransactionType).

(** [c.toLowerCase()] on one ASCII character. *)
Definition lower_ascii (c : ascii) : ascii :=
  let n := nat_of_ascii c in
  if bool_decide (65 ≤ n ≤ 90)%nat then ascii_of_nat (n + 32) else c.

(** [s.toLowerCase()] *)
Fixpoint toLowerCase (s : string) : string :=
  match s with
  | EmptyString => EmptyString
  | String c s' => String (lower_ascii c) (toLowerCase s')
  end.

(** [s.startsWith(q)] *)
Fixpoint startsWith (q s : string) : bool :=
  match q, s with
  | EmptyString, _ => true
  | String a q', String b s' => bool_decide (a = b) && startsWith q' s'
  | String _ _, EmptyString => false
  end.

(** [s.includes(q)] *)
Fixpoint includes (q s : string) : bool :=
  startsWith q s ||
  match s with
  | EmptyString => false
  | String _ s' => includes q s'
  end.

(** The predicate of [transactions.filter] in the history. *)
Definition matches (searchQuery : string) (selectedType : SelectedType)
    (transaction : Transaction) : bool :=
  let matchesSearch :=
    includes (toLowerCase searchQuery) (toLowerCase (category transaction))
    || includes (toLowerCase searchQuery) (toLowerCase (notes transaction)) in
  let matchesType :=
    match selectedType with
    | all => true
    | only t => bool_decide (type transaction = t)
    end in
  matchesSearch && matchesType.

Definition filteredTransactions (searchQuery : string)
    (selectedType : SelectedType) (transactions : list Transaction) :
    list Transaction :=
  filter (λ t, matches searchQuery selectedType t = true) transactions.

(** The [data] of the list: the filtered transactions, sorted by date. *)
Definition historyData (searchQuery : string) (selectedType : SelectedType)
    (transactions : list Transaction) : list Transaction :=
  sort_by_date (filteredTransactions searchQuery selectedType transactions).

(** ** The charts, [src/app/charts.tsx] *)

(** [acc[category] = (acc[category] || 0) + amount] on an object whose keys
    are listed in the order of their insertion. *)
Fixpoint bump (acc : list (string * Z)) (category : string) (amount : Z) :
    list (string * Z) :=
  match acc with
  | [] => [(category, 0 + amount)]
  | (k, v) :: acc' =>
      if decide (k = category) then (k, v + amount) :: acc'
      else (k, v) :: bump acc' category amount
  end.

Definition expensesByCategory (transactions : list Transaction) :
    list (string * Z) :=
  foldl (λ acc t, bump acc (category t) (amount t)) []
    (filter (λ t, type t = expense) transactions).

(** An entry of the pie chart; [hue] is the [index * 37] of its colour. *)
Record ChartData : Set := mkChartData {
  name : string;
  chart_amount : Z;
  hue : nat;
}.

Definition pieChartData (transactions : list Transaction) : list ChartData :=
  imap (λ index '(category, amount), mkChartData category amount (index * 37))
    (expensesByCategory transactions).

(** ** The tab bar, [src/app/_layout.tsx], and the list items *)

Inductive RouteName : Set := route_index | route_add | route_history | route_charts.

Record IconMapping : Set := mkIconMapping {
  focused : string;
  unfocused : string;
}.

Definition ICONS (r : RouteName) : IconMapping :=
  match r with
  | route_index => mkIconMapping "home" "home-outline"
  | route_add => mkIconMapping "add-circle" "add-circle-outline"
  | route_history => mkIconMapping "list" "list-outline"
  | route_charts => mkIconMapping "pie-chart" "pie-chart-outline"
  end.

(** [route.name as RouteName], and [undefined] for any other name. *)
Definition routeName (s : string) : option RouteName :=
  if decide (s = "index") then Some route_index
  else if decide (s = "add") then Some route_add
  else if decide (s = "history") then Some route_history
  else if decide (s = "charts") then Some route_charts
  else None.

Definition tabBarIcon (route_name : string) (is_focused : bool) : string :=
  match routeName route_name with
  | Some r => if is_focused then focused (ICONS r) else unfocused (ICONS r)
  | None => "help-outline"
  end.

(** The icon of [HistoryItem] and [TransactionItem]. *)
Definition itemIcon (item : Transaction) : string :=
  if decide (type item = income) then "arrow-up-circle" else "arrow-down-circle".

(** The colour of the icon and of the amount: [theme.colors.primary] for
    an income, [theme.colors.error] otherwise. *)
Inductive ThemeColor : Set := primary | error.

Definition itemColor (item : Transaction) : ThemeColor :=
  if decide (type item = income) then primary else error.

(** ** The screens as effects on the world *)

Section screens.
Context {R : Type} `{!RemoteLedger R}.
Context (parseFloat : string → Z).

#[local] Abbreviation Eff := (M (World R) Error).

(** One render of [HomeScreen]: the totals are computed, then
    [transactions.sort] sorts the array of the closure in place. *)
Definition HomeScreen (c : Closure) : Eff Dashboard :=
  transactions <- gets (array (transactions c)) ;;
  let sorted := sort_by_date transactions in
  write (Engine.transactions c) sorted ;;
  ret (mkDashboard (totalIncome transactions) (totalExpenses transactions)
         (balance transactions) (js_slice0 5 sorted)).

(** The values of the form of [src/app/add.tsx]. *)
Record FormData : Set := mkFormData {
  data_amount : string;
  data_category : string;
  data_notes : string;
  data_type : TransactionType;
}.

(** [onSubmit]: answers whether the form was submitted. *)
Definition onSubmit (c : Closure) (data : FormData) : Eff bool :=
  if bool_decide (data_amount data ≠ "") && bool_decide (data_category data ≠ "")
  then
    date <- Date_now ;;
    addTransaction c
      (mkNewTransaction (parseFloat (data_amount data)) (data_category data)
         (data_type data) date (data_notes data)) ;;
    ret true
  else ret false.
End screens.

(** ** Lemmas on the sort *)

Section js_sort_facts.
Context {A : Type} (before : A → A → bool).

Lemma js_insert_perm x l : js_insert before x l ≡ₚ x :: l.
Proof.
  induction l as [|y l IH]; simpl; [done|]. case_match; [done|].
  rewrite IH. apply Permutation_swap.
Qed.

Lemma js_sort_perm l : js_sort before l ≡ₚ l.
Proof.
  induction l as [|x l IH]; simpl; [done|]. by rewrite js_insert_perm, IH.
Qed.

Lemma js_sort_length l : length (js_sort before l) = length l.
Proof. by rewrite js_sort_perm. Qed.

Lemma elem_of_js_sort x l : x ∈ js_sort before l ↔ x ∈ l.
Proof. by rewrite js_sort_perm. Qed.

(** The comparators of the screens are total and transitive. *)
Context (before_total : ∀ a b, before a b = true ∨ before b a = true).
Context (before_trans : ∀ a b c, before a b = true → before b c = true →
                                 before a c = true).

Lemma js_insert_sorted x l :
  StronglySorted (λ a b, before a b = true) l →
  StronglySorted (λ a b, before a b = true) (js_insert before x l).
Proof.
  induction 1 as [|y l Hl IH Hy]; simpl; [by repeat constructor|].
  destruct (before x y) eqn:Hxy.
  - constructor; [by constructor|]. constructor; [done|].
    eapply Forall_impl; [done|]. intros z. by apply before_trans.
  - constructor; [done|]. rewrite js_insert_perm. constructor; [|done].
    by destruct (before_total x y) as [Hb|Hb]; [rewrite Hxy in Hb|].
Qed.

Lemma js_sort_sorted l : StronglySorted (λ a b, before a b = true) (js_sort before l).
Proof.
  induction l as [|x l IH]; simpl; [constructor|by apply js_insert_sorted].
Qed.

(** A sorted array is left as it is. *)
Lemma js_sort_id l :
  StronglySorted (λ a b, before a b = true) l → js_sort before l = l.
Proof.
  induction 1 as [|x l Hl IH Hx]; simpl; [done|]. rewrite IH.
  destruct l as [|y l]; simpl; [done|]. by rewrite (Forall_inv Hx).
Qed.

Lemma js_sort_idemp l : js_sort before (js_sort before l) = js_sort before l.
Proof. apply js_sort_id, js_sort_sorted. Qed.
End js_sort_facts.

(** ** Lemmas on the dashboard *)

(** The amount of a transaction, counted negative when it is an expense. *)
Definition signed (t : Transaction) : Z :=
  match type t with income => amount t | expense => - amount t end.

Lemma by_date_desc_total a b : by_date_desc a b = true ∨ by_date_desc b a = true.
Proof.
  unfold by_date_desc. destruct (decide (date b ≤ date a)).
  - left. by apply bool_decide_eq_true.
  - right. apply bool_decide_eq_true. lia.
Qed.

Lemma by_date_desc_trans a b c :
  by_date_desc a b = true → by_date_desc b c = true → by_date_desc a c = true.
Proof. unfold by_date_desc. rewrite !bool_decide_eq_true. lia. Qed.

Lemma sort_by_date_perm l : sort_by_date l ≡ₚ l.
Proof. apply js_sort_perm. Qed.

Lemma StronglySorted_weaken {A} (R1 R2 : relation A) l :
  (∀ a b, R1 a b → R2 a b) → StronglySorted R1 l → StronglySorted R2 l.
Proof.
  intros HR. induction 1; constructor; [done|].
  eapply Forall_impl; [done|]. intros b. apply HR.
Qed.

Lemma sort_by_date_sorted l :
  StronglySorted (λ a b, date b ≤ date a) (sort_by_date l).
Proof.
  eapply StronglySorted_weaken;
    [|apply js_sort_sorted; [apply by_date_desc_total|apply by_date_desc_trans]].
  intros a b. apply bool_decide_eq_true.
Qed.

Lemma sort_by_date_ids l : ids (sort_by_date l) ≡ₚ ids l.
Proof. unfold ids. by rewrite sort_by_date_perm. Qed.

Lemma sort_by_date_unique l : unique_ids l → unique_ids (sort_by_date l).
Proof. unfold unique_ids. by rewrite sort_by_date_ids. Qed.

Lemma totals_cons t l :
  totalIncome (t :: l) = (if decide (type t = income) then amount t else 0)
                         + totalIncome l
  ∧ totalExpenses (t :: l) = (if decide (type t = expense) then amount t else 0)
                             + totalExpenses l.
Proof.
  unfold totalIncome, totalExpenses. rewrite !filter_cons.
  split; case_decide; rewrite ?sum_with_cons; lia.
Qed.

Lemma balance_signed l : balance l = sum_with signed l.
Proof.
  unfold balance. induction l as [|t l IH]; [done|].
  destruct (totals_cons t l) as [-> ->]. rewrite sum_with_cons, <- IH.
  unfold signed. destruct (type t); repeat case_decide; try done; lia.
Qed.

#[global] Instance totalIncome_perm : Proper ((≡ₚ) ==> (=)) totalIncome.
Proof. intros l1 l2 Hl. unfold totalIncome. by rewrite Hl. Qed.

#[global] Instance totalExpenses_perm : Proper ((≡ₚ) ==> (=)) totalExpenses.
Proof. intros l1 l2 Hl. unfold totalExpenses. by rewrite Hl. Qed.

#[global] Instance balance_perm : Proper ((≡ₚ) ==> (=)) balance.
Proof. intros l1 l2 Hl. unfold balance. by rewrite Hl. Qed.

(** ** Lemmas on the search *)

Lemma startsWith_spec q s : startsWith q s = true ↔ ∃ post, s = q +:+ post.
Proof.
  revert s. induction q as [|a q IH]; intros s; simpl.
  - split; [by exists s|done].
  - destruct s as [|b s]; [split; [done|by intros [? ?]]|].
    rewrite andb_true_iff, bool_decide_eq_true, IH. split.
    + intros [-> [post ->]]. by exists post.
    + intros [post [= -> ->]]. split; [done|by exists post].
Qed.

Lemma includes_spec q s :
  includes q s = true ↔ ∃ pre post, s = pre +:+ q +:+ post.
Proof.
  split.
  - induction s as [|c s IH]; simpl; rewrite orb_true_iff.
    + intros [[post ->]%startsWith_spec|?]; [by exists "", post|done].
    + intros [[post ->]%startsWith_spec|(pre & post & ->)%IH];
        [by exists "", post|by exists (String c pre), post].
  - intros (pre & post & ->). induction pre as [|c pre IH]; simpl.
    + destruct (q +:+ post) eqn:E; simpl; apply orb_true_iff; left;
        apply startsWith_spec; exists post; by rewrite E.
    + rewrite IH. apply orb_true_r.
Qed.

Lemma includes_empty s : includes "" s = true.
Proof. by destruct s. Qed.

Lemma lower_ascii_idemp c : lower_ascii (lower_ascii c) = lower_ascii c.
Proof. by destruct c as [[] [] [] [] [] [] [] []]. Qed.

Lemma toLowerCase_idemp s : toLowerCase (toLowerCase s) = toLowerCase s.
Proof. induction s as [|c s IH]; simpl; [done|]. by rewrite lower_ascii_idemp, IH. Qed.

Lemma toLowerCase_length s : String.length (toLowerCase s) = String.length s.
Proof. induction s as [|c s IH]; simpl; [done|]. by rewrite IH. Qed.

Lemma elem_of_filteredTransactions q sel l t :
  t ∈ filteredTransactions q sel l ↔ t ∈ l ∧ matches q sel t = true.
Proof. unfold filteredTransactions. rewrite list_elem_of_filter. tauto. Qed.

(** ** Lemmas on the charts *)

Lemma bump_total acc c a : sum_with snd (bump acc c a) = sum_with snd acc + a.
Proof.
  induction acc as [|[k v] acc IH]; simpl;
    [rewrite sum_with_cons, sum_with_nil; simpl; lia|].
  case_decide; rewrite !sum_with_cons; simpl; [lia|]. rewrite IH. lia.
Qed.

Lemma bump_keys acc c a :
  (bump acc c a).*1 = if decide (c ∈ acc.*1) then acc.*1 else acc.*1 ++ [c].
Proof.
  induction acc as [|[k v] acc IH]; [done|]. cbn [bump].
  destruct (decide (k = c)) as [->|Hne]; rewrite !fmap_cons; cbn [fst].
  - by rewrite decide_True by left.
  - rewrite IH. destruct (decide (c ∈ acc.*1)).
    + by rewrite decide_True by (by right).
    + rewrite decide_False; [done|]. by intros [?|?]%elem_of_cons.
Qed.

Lemma bump_NoDup acc c a : NoDup acc.*1 → NoDup (bump acc c a).*1.
Proof.
  intros Hacc. rewrite bump_keys. case_decide; [done|].
  apply NoDup_app. split_and!; [done| |apply NoDup_singleton].
  by intros x Hx ->%list_elem_of_singleton.
Qed.

(** The amount recorded under a category. *)
Definition recorded (acc : list (string * Z)) (c : string) : Z :=
  sum_with snd (filter (λ kv, kv.1 = c) acc).

Lemma recorded_bump acc c a k :
  NoDup acc.*1 →
  recorded (bump acc c a) k = recorded acc k + (if decide (c = k) then a else 0).
Proof.
  unfold recorded. induction acc as [|[k' v] acc IH]; intros Hacc; cbn [bump].
  - rewrite filter_cons, filter_nil. simpl.
    case_decide; rewrite ?sum_with_cons, ?sum_with_nil; simpl; lia.
  - rewrite fmap_cons in Hacc. apply NoDup_cons in Hacc as [Hk' Hacc].
    specialize (IH Hacc).
    destruct (decide (k' = c)) as [->|Hne]; rewrite !filter_cons; cbn [fst].
    + repeat case_decide; rewrite ?sum_with_cons; simpl; lia.
    + repeat case_decide; rewrite ?sum_with_cons, IH; simpl; try lia;
        rewrite decide_True in * by done; lia.
Qed.

Lemma foldl_bump_total acc l :
  sum_with snd (foldl (λ acc t, bump acc (category t) (amount t)) acc l)
  = sum_with snd acc + sum_with amount l.
Proof.
  revert acc. induction l as [|t l IH]; intros acc; simpl;
    [rewrite sum_with_nil; lia|].
  rewrite IH, bump_total, sum_with_cons. lia.
Qed.

Lemma foldl_bump_NoDup acc l :
  NoDup acc.*1 →
  NoDup (foldl (λ acc t, bump acc (category t) (amount t)) acc l).*1.
Proof.
  revert acc. induction l as [|t l IH]; intros acc Hacc; simpl; [done|].
  by apply IH, bump_NoDup.
Qed.

Lemma foldl_bump_recorded acc l k :
  NoDup acc.*1 →
  recorded (foldl (λ acc t, bump acc (category t) (amount t)) acc l) k
  = recorded acc k + sum_with amount (filter (λ t, category t = k) l).
Proof.
  revert acc. induction l as [|t l IH]; intros acc Hacc; simpl.
  - rewrite filter_nil, sum_with_nil. lia.
  - rewrite IH by by apply bump_NoDup. rewrite recorded_bump by done.
    rewrite filter_cons. case_decide; rewrite ?sum_with_cons; lia.
Qed.

Lemma filter_all {A} (P : A → Prop) `{∀ x, Decision (P x)} (l : list A) :
  (∀ x, P x) → filter P l = l.
Proof.
  intros HP. induction l as [|x l IH]; [done|].
  rewrite filter_cons, decide_True by done. by f_equal.
Qed.

Lemma known_perm (e : Env) (l l' : list Transaction) :
  l ≡ₚ l' → known e l → known e l'.
Proof.
  intros Hl [Hu Hf]. split; [|by rewrite <- Hl].
  unfold unique_ids, ids in *. by rewrite <- Hl.
Qed.

(** ** The properties of the screens *)

(** The balance of the dashboard is the sum of the amounts, each
    expense counted negative, and the totals and the balance do not depend
    on the order of the list: the sort of the dashboard leaves them as they
    are. *)
Theorem dashboard_balance l :
  balance l = sum_with signed l
  ∧ totalIncome (sort_by_date l) = totalIncome l
  ∧ totalExpenses (sort_by_date l) = totalExpenses l
  ∧ balance (sort_by_date l) = balance l.
Proof. split; [apply balance_signed|]. by rewrite !sort_by_date_perm. Qed.

(** The dashboard shows at most five transactions, the latest first,
    and every transaction it does not show is no later than each one it
    shows. *)
Theorem recentTransactions_newest l :
  (length (recentTransactions l) ≤ 5)%nat
  ∧ StronglySorted (λ a b, date b ≤ date a) (recentTransactions l)
  ∧ ∃ others, l ≡ₚ recentTransactions l ++ others
      ∧ ∀ a b, a ∈ recentTransactions l → b ∈ others → date b ≤ date a.
Proof.
  unfold recentTransactions, js_slice0.
  pose proof (sort_by_date_sorted l) as Hs.
  rewrite <- (take_drop 5 (sort_by_date l)) in Hs. split_and!.
  - rewrite length_take. lia.
  - by apply StronglySorted_app_1_l in Hs.
  - exists (drop 5 (sort_by_date l)). split.
    + by rewrite take_drop, sort_by_date_perm.
    + intros a b Ha Hb. by apply (StronglySorted_app_1_elem_of _ _ _ _ _ Hs).
Qed.

(** The history lists exactly the transactions that match the search
    and the selected type, the latest first; with an empty search and every
    type selected it lists them all. *)
Theorem historyData_spec q sel l :
  (∀ t, t ∈ historyData q sel l ↔ t ∈ l ∧ matches q sel t = true)
  ∧ StronglySorted (λ a b, date b ≤ date a) (historyData q sel l)
  ∧ historyData "" all l = sort_by_date l.
Proof.
  unfold historyData. split_and!.
  - intros t. unfold sort_by_date.
    by rewrite elem_of_js_sort, elem_of_filteredTransactions.
  - apply sort_by_date_sorted.
  - unfold filteredTransactions. rewrite filter_all; [done|].
    intros t. unfold matches. simpl. by rewrite includes_empty.
Qed.

(** The search matches a transaction exactly when the search string,
    in lower case, occurs in the category or in the notes, in lower case;
    the case of the search string is irrelevant. *)
Theorem search_matches q t :
  (matches q all t = true
   ↔ (∃ pre post, toLowerCase (category t) = pre +:+ toLowerCase q +:+ post)
     ∨ (∃ pre post, toLowerCase (notes t) = pre +:+ toLowerCase q +:+ post))
  ∧ matches (toLowerCase q) all t = matches q all t.
Proof.
  unfold matches. rewrite toLowerCase_idemp. split; [|done].
  by rewrite andb_true_r, orb_true_iff, !includes_spec.
Qed.

(** The chart adds up every expense once: the amounts of the
    categories sum to the total of the expenses, no category is listed
    twice, and the amount of a category is the sum of its expenses. *)
Theorem expensesByCategory_total l :
  sum_with snd (expensesByCategory l) = totalExpenses l
  ∧ NoDup (expensesByCategory l).*1
  ∧ ∀ k, recorded (expensesByCategory l) k
         = sum_with amount
             (filter (λ t, category t = k) (filter (λ t, type t = expense) l)).
Proof.
  unfold expensesByCategory, totalExpenses. split_and!.
  - rewrite foldl_bump_total, sum_with_nil. lia.
  - apply foldl_bump_NoDup, NoDup_nil_2.
  - intros k. rewrite foldl_bump_recorded by apply NoDup_nil_2.
    unfold recorded. rewrite filter_nil, sum_with_nil. lia.
Qed.

(** The entry of the pie chart at position [i] is the category at
    position [i] with its amount, and its hue is [37 i]. *)
Theorem pieChartData_entries l i d :
  pieChartData l !! i = Some d →
  expensesByCategory l !! i = Some (name d, chart_amount d)
  ∧ hue d = (i * 37)%nat.
Proof.
  unfold pieChartData. rewrite list_lookup_imap.
  destruct (expensesByCategory l !! i) as [[k v]|]; simpl; [|done].
  by intros [= <-].
Qed.

Section screen_props.
Context {R : Type} `{!RemoteLedger R}.
Context (parseFloat : string → Z).
Implicit Types (w : World R) (c : Closure).

(** C37: a render of the dashboard sorts the array the closure captured in
    place: after it the array of the provider is in the order of the dates,
    not in the order of insertion; the world stays well formed. *)
Theorem HomeScreen_sorts_in_place c w :
  (transactions c < length (heap w))%nat →
  array (transactions c) (exec (HomeScreen c) w)
  = sort_by_date (array (transactions c) w)
  ∧ outcome (HomeScreen c) w
    = Ok (mkDashboard (totalIncome (array (transactions c) w))
            (totalExpenses (array (transactions c) w))
            (balance (array (transactions c) w))
            (recentTransactions (array (transactions c) w)))
  ∧ (inv w → inv (exec (HomeScreen c) w)).
Proof.
  intros Hc. wp_start. unfold HomeScreen. wp_go. split_and!.
  - unfold array at 1. simpl. by rewrite list_lookup_insert_eq.
  - done.
  - intros Hw. apply inv_write; [done|].
    eapply known_perm; [symmetry; apply sort_by_date_perm|by apply inv_array].
Qed.

(** The form is submitted only when the amount and the category are
    not empty; then one transaction is added with the amount parsed, the
    fields of the form and the instant of the clock as its date, without
    any check of the sign of the amount. *)
Theorem onSubmit_spec c data w :
  (data_amount data = "" ∨ data_category data = "" →
   onSubmit parseFloat c data w = (Ok false, w))
  ∧ (data_amount data ≠ "" → data_category data ≠ "" →
     outcome (onSubmit parseFloat c data) w = Ok true
     ∧ exec (onSubmit parseFloat c data) w
       = exec (addTransaction c
                 (mkNewTransaction (parseFloat (data_amount data))
                    (data_category data) (data_type data) (now (env w))
                    (data_notes data))) w).
Proof.
  unfold onSubmit. split.
  - intros [Ha|Hc]; [by rewrite bool_decide_false by (by intros [])|].
    rewrite (bool_decide_false (data_category data ≠ "")) by (by intros []).
    by rewrite andb_false_r.
  - intros Ha Hc. rewrite !bool_decide_true by done. simpl. wp_start.
    rewrite wp_bind, wp_Date_now. unfold wp_then.
    rewrite wp_bind, wp_addTransaction. unfold wp_then.
    rewrite wp_ret. split; [done|]. wp_start. by rewrite wp_addTransaction.
Qed.
End screen_props.

(** The unknown route names get the fallback icon, and each route has two
    icons, the unfocused one being the outline of the focused one. *)
Lemma tabBarIcon_outline s :
  match routeName s with
  | Some r => tabBarIcon s false = tabBarIcon s true +:+ "-outline"
  | None => ∀ b, tabBarIcon s b = "help-outline"
  end.
Proof. unfold tabBarIcon. destruct (routeName s) as [[]|]; done. Qed.

Lemma pieChartData_entries_witness :
  hue (mkChartData "Rent" 90000 37) = (1 * 37)%nat.
Proof.
  exact (proj2 (pieChartData_entries
                  [with_synced false groceries; rent; with_synced false groceries]
                  1 (mkChartData "Rent" 90000 37) eq_refl)).
Defined.

Lemma HomeScreen_sorts_in_place_witness :
  array 1 (exec (HomeScreen (mkClosure 1 false false))
             (started_app (env_of [] [] [] [] [])))
  = [with_synced false salary; with_synced false groceries].
Proof.
  refine (proj1 (HomeScreen_sorts_in_place (mkClosure 1 false false)
                   (started_app (env_of [] [] [] [] [])) _)).
  vm_compute. lia.
Defined.

Lemma onSubmit_spec_witness :
  onSubmit (λ _, 350) (mkClosure 1 false false)
    (mkFormData "" "Food" "" expense) (started_app (env_of [] [] [] [] []))
  = (Ok false, started_app (env_of [] [] [] [] [])).
Proof.
  refine (proj1 (onSubmit_spec (λ _, 350) (mkClosure 1 false false)
                   (mkFormData "" "Food" "" expense)
                   (started_app (env_of [] [] [] [] []))) _).
  by left.
Defined.
