(* ===== verification/Lifecycle.v ===== *)
(** * Lifecycle: the provider between its entry points

    [TransactionProvider] is entered from outside in four ways only: React
    runs its effect, NetInfo calls the listener the effect registered, the
    form of [src/app/add.tsx] calls [addTransaction], and the dashboard of
    [src/app/index.tsx] renders (and sorts the array of the provider in
    place).  The context value exports [transactions] and [addTransaction]
    and nothing else, so [syncAllTransactions] is only ever reached through
    the listener.

    [App] is the provider as React holds it between two such tasks: the
    world, the listener that is subscribed (by the closure of the render
    whose effect registered it) and the value of the dependency [loading]
    at the last run of the effect.  [step] is the transition relation,
    [run_task] and [run] compute it.

    The effect has the dependency list [[loading]]: it runs after the first
    render and once more when [loading] has become [false], and never again.
    The listener of the second run is therefore the one that stays, with the
    closure of that render: the theorems [app_ok_steps] and [settled_steps]
    are the invariants of the reachable states, by induction on the run. *)

From stdpp Require Import pretty.
From S2P Require Import Prelude Effects Types Ledger Sample Storage Remote.
From S2P Require Import Engine EngineRules EngineOrder EngineInv EngineSpec.
From S2P Require Import EngineFrame SyncProps Views.

Section lifecycle.
Context {R : Type} `{!RemoteLedger R}.
Implicit Types (w : World R) (c : Closure).

(** ** The state between two tasks *)

Record App : Type := mkApp {
  world : World R;
  (** the callback registered with [NetInfo.addEventListener] *)
  listener : option Closure;
  (** [loading] as the effect saw it when it ran last *)
  deps : option bool;
}.

Definition set_world w (a : App) : App := mkApp w (listener a) (deps a).

(** The provider as it is mounted: no effect has run. *)
Definition start (st : AsyncStorage) (r : R) (e : Env) : App :=
  mkApp (mount st r e) None None.

(** What enters the provider. *)
Inductive Task : Set :=
  | RunEffect                           (** React runs the effect *)
  | NetInfoEvent (isConnected : bool)   (** NetInfo calls the listener *)
  | Submit (n : NewTransaction)         (** the form calls [addTransaction] *)
  | ShowHome.                           (** the dashboard renders *)

(** [useEffect(.., [loading])]: the effect is due after the first render and
    after a render in which [loading] is not what it was at the last run. *)
Definition effect_due (a : App) : Prop :=
  deps a ≠ Some (hook_loading (world a)).

#[global] Instance effect_due_dec a : Decision (effect_due a).
Proof. unfold effect_due. apply _. Defined.

(** The effect: the subscription of the last run is dropped, [initialize()]
    runs, and the listener is registered with the closure of the render the
    effect belongs to. *)
Definition useEffect (a : App) : App :=
  let c := render (world a) in
  mkApp (exec initialize (world a)) (Some c) (Some (loading c)).

Definition run_task (t : Task) (a : App) : option App :=
  match t with
  | RunEffect => if decide (effect_due a) then Some (useEffect a) else None
  | NetInfoEvent b =>
      c ← listener a; Some (set_world (exec (onNetInfo c b) (world a)) a)
  | Submit n =>
      Some (set_world (exec (addTransaction (render (world a)) n) (world a)) a)
  | ShowHome =>
      Some (set_world (exec (HomeScreen (render (world a))) (world a)) a)
  end.

Fixpoint run (ts : list Task) (a : App) : option App :=
  match ts with
  | [] => Some a
  | t :: ts => a' ← run_task t a; run ts a'
  end.

(** The state after a sequence of tasks (the state itself when one of them
    is not enabled). *)
Definition after (ts : list Task) (a : App) : App := default a (run ts a).

(** ** The transition relation *)

Inductive step : App → Task → App → Prop :=
  | step_effect a : effect_due a → step a RunEffect (useEffect a)
  | step_event a c b :
      listener a = Some c →
      step a (NetInfoEvent b) (set_world (exec (onNetInfo c b) (world a)) a)
  | step_submit a n :
      step a (Submit n)
        (set_world (exec (addTransaction (render (world a)) n) (world a)) a)
  | step_home a :
      step a ShowHome
        (set_world (exec (HomeScreen (render (world a))) (world a)) a).

Inductive steps : App → list Task → App → Prop :=
  | steps_nil a : steps a [] a
  | steps_cons a t a' ts a'' :
      step a t a' → steps a' ts a'' → steps a (t :: ts) a''.

(** ** Invariants of the states *)

(** A state the provider can be in between two tasks. *)
Record app_ok (a : App) : Prop := mkAppOk {
  ok_inv : inv (world a);
  (** no sync is under way *)
  ok_idle : hook_isSyncing (world a) = false;
  (** [loading] never becomes [true] again *)
  ok_loaded : deps a = Some false → hook_loading (world a) = false;
  (** the listener is the one of the last run of the effect, and the array
      of its closure is on the heap *)
  ok_listener c :
    listener a = Some c →
    isSyncing c = false ∧ deps a = Some (loading c)
    ∧ (transactions c < length (heap (world a)))%nat;
}.

(** The effect ran its second time for the closure [c]: the listener is the
    one of [c] from now on. *)
Definition settled c (a : App) : Prop :=
  listener a = Some c ∧ loading c = false ∧ deps a = Some false
  ∧ hook_loading (world a) = false.

(** What a task other than the effect does to the state of the hooks. *)
Record calm (w w' : World R) : Prop := mkCalm {
  calm_inv : inv w → inv w';
  calm_idle : hook_isSyncing w = false → hook_isSyncing w' = false;
  calm_loading : hook_loading w' = hook_loading w;
  calm_heap : (length (heap w) ≤ length (heap w'))%nat;
}.

(** ** The relation and its computation agree *)

Lemma step_run_task t a a' : step a t a' ↔ run_task t a = Some a'.
Proof.
  split.
  - intros [a0 Hdue|a0 c b Hc|a0 n|a0]; simpl; [by case_decide|by rewrite Hc|done..].
  - destruct t as [|b|n|]; simpl.
    + case_decide; intros [= <-]. by constructor.
    + destruct (listener a) as [c|] eqn:Hc; intros [= <-]. by constructor.
    + intros [= <-]. constructor.
    + intros [= <-]. constructor.
Qed.

Lemma run_effect a : effect_due a → run_task RunEffect a = Some (useEffect a).
Proof. intros Ha. simpl. by rewrite decide_True. Qed.

Lemma steps_run ts a a' : steps a ts a' ↔ run ts a = Some a'.
Proof.
  revert a. induction ts as [|t ts IH]; intros a; simpl.
  - split; [by inversion 1|intros [= <-]; constructor].
  - split.
    + inversion 1 as [|? ? a1 ? ? H1 H2]; subst.
      apply step_run_task in H1 as ->. by apply IH.
    + destruct (run_task t a) as [a1|] eqn:H1; [|done]. simpl. intros H2.
      apply (steps_cons a t a1); [by apply step_run_task|by apply IH].
Qed.

Lemma steps_after ts a : is_Some (run ts a) → steps a ts (after ts a).
Proof. intros [a' Ha]. apply steps_run. unfold after. by rewrite Ha. Qed.

Lemma run_app ts ts' a : run (ts ++ ts') a = run ts a ≫= run ts'.
Proof.
  revert a. induction ts as [|t ts IH]; intros a; simpl; [done|].
  destruct (run_task t a) as [a1|]; simpl; [apply IH|done].
Qed.

Lemma steps_app a ts a' ts' a'' :
  steps a ts a' → steps a' ts' a'' → steps a (ts ++ ts') a''.
Proof. induction 1; intros; simpl; [done|]. eapply steps_cons; eauto. Qed.

(** ** What a task does to the hooks *)

Lemma calm_of_handler (h : M (World R) Error unit) w :
  preserves (inv_for []) h → advances extends h →
  (hook_isSyncing w = false → hook_isSyncing (exec h w) = false) →
  preserves (λ w', hook_loading w' = hook_loading w) h →
  calm w (exec h w).
Proof.
  intros Hinv Hadv Hidle Hload. split; [|done|by apply Hload|].
  - intros Hw. by apply (inv_for_inv []), Hinv, inv_for_nil.
  - apply heap_le_length, Hadv.
Qed.

Lemma calm_onNetInfo c b w : isSyncing c = false → calm w (exec (onNetInfo c b) w).
Proof.
  intros Hc. apply calm_of_handler;
    [apply keeps_onNetInfo|apply adv_onNetInfo|
    |apply (stable_onNetInfo _ (λ _, True)), _].
  rewrite exec_onNetInfo. unfold guarded. rewrite Hc. by case_match.
Qed.

Lemma calm_addTransaction c n w : calm w (exec (addTransaction c n) w).
Proof.
  apply calm_of_handler;
    [apply keeps_addTransaction|apply adv_addTransaction|
    |apply (stable_addTransaction _ (λ _, True) c)].
  rewrite exec_addTransaction. unfold added, guarded. cbv zeta.
  by repeat case_match.
Qed.

Lemma exec_HomeScreen c w :
  exec (HomeScreen c) w
  = set_heap (<[transactions c := sort_by_date (array (transactions c) w)]> (heap w)) w.
Proof. wp_start. unfold HomeScreen. by wp_go. Qed.

Lemma calm_HomeScreen c w : calm w (exec (HomeScreen c) w).
Proof.
  rewrite exec_HomeScreen. split; simpl; [|done..|by rewrite length_insert].
  intros Hw. apply inv_write; [done|].
  eapply known_perm; [symmetry; apply sort_by_date_perm|by apply inv_array].
Qed.

(** The world after the effect. *)
Lemma effect_world w :
  inv w → hook_isSyncing w = false →
  inv (exec initialize w) ∧ hook_isSyncing (exec initialize w) = false
  ∧ hook_loading (exec initialize w) = false
  ∧ (length (heap w) ≤ length (heap (exec initialize w)))%nat.
Proof.
  intros Hw Hidle. split_and!.
  - by apply (inv_for_inv []), keeps_initialize, inv_for_nil.
  - rewrite exec_initialize. unfold loaded. cbv zeta. by repeat case_match.
  - by rewrite exec_initialize.
  - apply heap_le_length, adv_initialize.
Qed.

(** ** The invariants, by induction on the run *)

Lemma app_ok_start st r e : inv (mount st r e) → app_ok (start st r e).
Proof. by split. Qed.

Lemma app_ok_calm a w' :
  app_ok a → calm (world a) w' → app_ok (set_world w' a).
Proof.
  intros [Hinv Hidle Hloaded Hlis] [H1 H2 H3 H4]. split; simpl; auto.
  - rewrite H3. auto.
  - intros c Hc. destruct (Hlis c Hc) as (? & ? & ?). split_and!; [done..|lia].
Qed.

Lemma app_ok_step a t a' : app_ok a → step a t a' → app_ok a'.
Proof.
  intros Ha. destruct 1 as [a Hdue|a c b Hc|a n|a].
  - destruct Ha as [Hinv Hidle _ _].
    destruct (effect_world _ Hinv Hidle) as (? & ? & ? & ?).
    split; simpl; [done..|]. intros c [= <-]. split_and!; [done..|].
    pose proof (inv_hook _ Hinv). simpl. lia.
  - apply app_ok_calm, calm_onNetInfo; [done|]. by apply (ok_listener a Ha).
  - apply app_ok_calm, calm_addTransaction. done.
  - apply app_ok_calm, calm_HomeScreen. done.
Qed.

Lemma app_ok_steps a ts a' : app_ok a → steps a ts a' → app_ok a'.
Proof. intros Ha. induction 1; eauto using app_ok_step. Qed.

Lemma settled_calm c a w' :
  settled c a → calm (world a) w' → settled c (set_world w' a).
Proof.
  intros (Hl & Hc & Hd & Hw) Hcalm. split_and!; simpl; [done..|].
  by rewrite (calm_loading _ _ Hcalm).
Qed.

Lemma settled_step c a t a' :
  app_ok a → settled c a → step a t a' → settled c a' ∧ t ≠ RunEffect.
Proof.
  intros Ha Hs. destruct 1 as [a Hdue|a c' b Hc'|a n|a].
  - destruct Hs as (_ & _ & Hd & Hw). destruct Hdue. by rewrite Hd, Hw.
  - split; [|done]. apply settled_calm, calm_onNetInfo; [done|].
    by apply (ok_listener a Ha).
  - split; [|done]. by apply settled_calm, calm_addTransaction.
  - split; [|done]. by apply settled_calm, calm_HomeScreen.
Qed.

Lemma settled_steps c a ts a' :
  app_ok a → settled c a → steps a ts a' → settled c a' ∧ RunEffect ∉ ts.
Proof.
  intros Ha Hs. induction 1 as [a|a t a1 ts a2 H1 H2 IH].
  - split; [done|]. by intros ?%elem_of_nil.
  - destruct (settled_step c a t a1 Ha Hs H1) as [Hs1 Ht].
    destruct (IH (app_ok_step _ _ _ Ha H1) Hs1) as [Hs2 Hts].
    split; [done|]. intros [?|?]%elem_of_cons; [by subst|done].
Qed.

(** The effect at the start of the application: two runs, after which the
    listener is the one of the render in which [loading] became [false]. *)
Lemma startup_settled st r e :
  let w1 := exec initialize (mount st r e) in
  let a2 := mkApp (exec initialize w1) (Some (render w1)) (Some false) in
  run [RunEffect; RunEffect] (start st r e) = Some a2 ∧ settled (render w1) a2.
Proof.
  intros w1 a2.
  assert (hook_loading w1 = false) as Hw1 by (unfold w1; by rewrite exec_initialize).
  assert (hook_loading (world a2) = false) as Hw2
    by (unfold a2; cbn [world]; by rewrite exec_initialize).
  assert (useEffect (useEffect (start st r e)) = a2) as <-
    by (unfold useEffect at 1; cbn [world useEffect start render loading];
        fold w1; by rewrite Hw1).
  split;
    [|split_and!; [reflexivity|exact Hw1|exact (f_equal Some Hw1)|exact Hw2]].
  cbn [run]. rewrite (run_effect (start st r e)) by (by intros ?).
  cbn [mbind option_bind]. rewrite run_effect; [done|].
  unfold effect_due. cbn [useEffect start world deps render loading]. fold w1.
  by rewrite Hw1.
Qed.

Lemma settled_not_due c a : settled c a → ¬ effect_due a.
Proof. intros (_ & _ & Hd & Hl) Hdue. apply Hdue. by rewrite Hd, Hl. Qed.

(** The application once it has started. *)
Definition started (st : AsyncStorage) (r : R) (e : Env) : App :=
  after [RunEffect; RunEffect] (start st r e).

Lemma started_ok st r e :
  inv (mount st r e) →
  app_ok (started st r e)
  ∧ settled (render (exec initialize (mount st r e))) (started st r e).
Proof.
  intros H0. destruct (startup_settled st r e) as [Hrun Hs].
  unfold started, after. rewrite Hrun. split; [|done].
  eapply app_ok_steps; [by apply app_ok_start|]. by apply steps_run.
Qed.

(** ** The first start, with the generated sample data *)

(** The sample data of [Sample.generate] are known to an environment whose
    generator of identifiers never answers a decimal numeral. *)
Lemma generated_known e fuel s txs :
  outcome (generate fuel) s = Ok txs →
  (∀ n (i : nat), (uuid_next e ≤ n)%nat → uuid e n ≠ pretty i) →
  known e txs.
Proof.
  intros (_ & Hids & Hu & _ & _)%generate_sound Huuid. split; [done|].
  apply Forall_forall. intros tx Htx n Hn.
  assert (id tx ∈ ids txs) as Hin by (apply elem_of_ids; by exists tx).
  rewrite Hids in Hin. apply list_elem_of_fmap in Hin as (i & -> & _).
  by apply Huuid.
Qed.

(** The provider mounted on a new device is well formed. *)
Lemma inv_first_start (r : R) e fuel s :
  outcome (generate fuel) s = Ok (sampleTransactions e) →
  (∀ n (i : nat), (uuid_next e ≤ n)%nat → uuid e n ≠ pretty i) →
  uuid_fresh e → (∀ t tx, tx ∈ queryAfter t r → used e (id tx)) →
  inv (mount storage_empty r e).
Proof.
  intros Hgen Huuid Hfresh Hr. apply inv_mount; [apply known_nil| |done..].
  by eapply generated_known.
Qed.

(** ** The properties of the lifecycle *)

(** C7: every state the provider reaches from its mount, whatever the tasks
    and the answers of the environment, is well formed: the identifiers of
    the list the screens see are unique, and no sync is under way between
    two tasks. *)
Theorem reachable_wellformed st r e ts a :
  inv (mount st r e) → steps (start st r e) ts a →
  inv (world a) ∧ unique_ids (ledger (world a))
  ∧ hook_isSyncing (world a) = false.
Proof.
  intros H0 Hs.
  destruct (app_ok_steps _ _ _ (app_ok_start _ _ _ H0) Hs) as [H1 H2 _ _].
  split_and!; [done|by apply inv_ledger|done].
Qed.

(** At the start of the application the effect of the provider runs
    twice, so [initialize] loads the list twice; the listener that stays
    subscribed has the closure of the render in which [loading] became
    [false]; and the effect is not due a third time. *)
Theorem effect_runs_twice st r e :
  let w1 := exec initialize (mount st r e) in
  run [RunEffect; RunEffect] (start st r e)
  = Some (mkApp (exec initialize w1) (Some (render w1)) (Some false))
  ∧ run [RunEffect; RunEffect; RunEffect] (start st r e) = None.
Proof.
  intros w1. destruct (startup_settled st r e) as [Hrun Hs]. fold w1 in Hrun, Hs.
  split; [done|]. apply settled_not_due in Hs.
  rewrite (run_app [RunEffect; RunEffect] [RunEffect]), Hrun. simpl.
  by rewrite decide_False.
Qed.

(** C12: once the effect has run for a render in which [loading] is
    [false], the listener keeps the closure of that render: no task
    replaces it, the effect never runs again, and the closure says for ever
    that no sync is under way. *)
Theorem listener_frozen c a ts a' :
  app_ok a → settled c a → steps a ts a' →
  listener a' = Some c ∧ (RunEffect ∉ ts) ∧ isSyncing c = false
  ∧ (transactions c < length (heap (world a')))%nat.
Proof.
  intros Ha Hs Hsteps.
  destruct (settled_steps c a ts a' Ha Hs Hsteps) as [(Hl & _) Hts].
  destruct (ok_listener _ (app_ok_steps _ _ _ Ha Hsteps) c Hl) as (? & _ & ?).
  done.
Qed.

(** While [loading] is [true] the listener ignores every change of
    connectivity. *)
Theorem listener_waits c b w :
  loading c = true → onNetInfo c b w = (Ok (), w).
Proof. intros Hc. unfold onNetInfo. by rewrite Hc, andb_false_r. Qed.
End lifecycle.

(** ** On a device *)

(** A device on which the application was installed and started, offline
    at its first check of the network. *)
Definition device : App (R:=Collection) :=
  started storage_empty ∅ (env_of [false] [] [] [] []).

Lemma device_ok :
  app_ok device ∧ settled (render (started_app (env_of [false] [] [] [] []))) device.
Proof. apply started_ok, inv_installed_app. Qed.

Lemma reachable_wellformed_witness :
  unique_ids
    (ledger (world (after [RunEffect; RunEffect; Submit coffee;
                           NetInfoEvent true; ShowHome]
                      (start storage_empty (∅ : Collection)
                         (env_of [false] [] [] [] []))))).
Proof.
  refine (proj1 (proj2 (reachable_wellformed _ _ _ _ _
            (inv_installed_app [false] [] [] [] []) (steps_after _ _ _)))).
  vm_compute. by eexists.
Defined.

Lemma listener_frozen_witness :
  listener (after [Submit coffee; NetInfoEvent true; ShowHome] device)
  = Some (mkClosure 1 false false).
Proof.
  refine (proj1 (listener_frozen _ _ _ _ (proj1 device_ok) (proj2 device_ok)
            (steps_after _ _ _))).
  vm_compute. by eexists.
Defined.

Lemma listener_waits_witness :
  onNetInfo (mkClosure 0 false true) true (installed_app (env_of [] [] [] [] []))
  = (Ok (), installed_app (env_of [] [] [] [] [])).
Proof. exact (listener_waits (mkClosure 0 false true) true _ eq_refl). Defined.
