(* ===== verification/Stale.v ===== *)
(** * Stale: what the listener of the provider does not see

    Once the application has started, the listener registered with NetInfo
    is the one of the render in which [loading] became [false], for good
    ([Lifecycle.settled_steps]).  The [transactions] of its closure is the
    array that was loaded at the start.  [addTransaction] installs a new
    array and [markTransactionAsSynced] another one, so the array of the
    listener never holds a transaction that was added later and never learns
    that one of its entries was synced.  Two properties of the world are
    kept by every task from then on:

    - [stranded tx c]: the transaction [tx], added while the listener has
      the closure [c], is in the list of the screens and unsynced, and
      neither the array of [c] nor the remote ledger holds its identifier;
    - [backlog U c]: the unsynced entries of the array of [c] are [U], up to
      their order.

    Both are instances of [EngineFrame.Stable]; what remains to be shown at
    the level of the tasks is that the in-place sort of the dashboard keeps
    them. *)

From S2P Require Import Prelude Effects Types Ledger Storage Remote.
From S2P Require Import Engine EngineRules EngineOrder EngineInv EngineSpec.
From S2P Require Import EngineFrame SyncProps Views Lifecycle.

Section stale.
Context {R : Type} `{!RemoteLedger R}.
Implicit Types (w : World R) (c : Closure) (tx : Transaction).
Implicit Types (a : App (R:=R)).

(** ** Reading an array after the updates of the core *)

Lemma array_installed ref l w :
  (ref < length (heap w))%nat → array ref (installed l w) = array ref w.
Proof.
  intros Href. unfold installed.
  change (array ref (set_heap (heap w ++ [l]) w) = array ref w).
  rewrite array_alloc. case_decide; [lia|done].
Qed.

Lemma array_merged_into ref c server w :
  array ref (merged_into c server w)
  = if decide (ref = transactions c ∧ transactions c < length (heap w))%nat
    then merge (array (transactions c) w) server else array ref w.
Proof. apply array_write. Qed.

(** ** A transaction the listener does not know *)

Record stranded tx c w : Prop := mkStranded {
  str_heap : (transactions c < length (heap w))%nat;
  str_array : id tx ∉ ids (array (transactions c) w);
  str_remote : ∀ t s, s ∈ queryAfter t (remote w) → id s ≠ id tx;
  str_ledger : tx ∈ ledger w;
  str_only : ∀ x, x ∈ ledger w → id x = id tx → x = tx;
  str_used : used (env w) (id tx);
}.

(** The array of the listener is not the one the screens see. *)
Lemma stranded_apart tx c w :
  stranded tx c w → hook_transactions w ≠ transactions c.
Proof.
  intros [_ Ha _ Hl _ _] Heq. apply Ha, elem_of_ids. exists tx.
  split; [|done]. unfold ledger in Hl. by rewrite Heq in Hl.
Qed.

Lemma stranded_framed tx c : framed (stranded tx c).
Proof.
  intros w w' Hc [H1 H2 H3 H4 H5 H6].
  pose proof (same_core_array (transactions c) w w' Hc) as Ha.
  pose proof (same_core_ledger w w' Hc) as Hl.
  pose proof (same_core_used w w' (id tx) Hc H6).
  injection Hc as Hh _ _ Hr _ _.
  split; rewrite <- ?Ha, <- ?Hl, <- ?Hh, <- ?Hr; done.
Qed.

(** A new array for the hook, whose entries with the identifier of [tx] are
    [tx] itself. *)
Lemma stranded_installed tx c l w :
  stranded tx c w → tx ∈ l → (∀ x, x ∈ l → id x = id tx → x = tx) →
  stranded tx c (installed l w).
Proof.
  intros [H1 H2 H3 H4 H5 H6] Hin Honly.
  split; rewrite ?array_installed, ?ledger_installed; try done.
  simpl. rewrite length_app. lia.
Qed.

Lemma stranded_marked tx c x w :
  id x ≠ id tx → stranded tx c w →
  stranded tx c (installed (mark_synced (id x) (ledger w)) w).
Proof.
  intros Hx Hw. apply stranded_installed; [done|..].
  - apply mark_synced_other; [done|apply Hw].
  - intros y Hy Hid. apply mark_synced_other in Hy; [|congruence].
    by apply (str_only _ _ _ Hw).
Qed.

Lemma stranded_pushed tx c x w :
  id x ≠ id tx → stranded tx c w →
  stranded tx c (installed (updatedTransactions (ledger w) x) w).
Proof.
  intros Hx Hw. unfold updatedTransactions, js_push.
  apply stranded_installed; [done|..].
  - apply elem_of_app. left. apply Hw.
  - intros y [Hy|Hy%list_elem_of_singleton]%elem_of_app Hid;
      [by apply (str_only _ _ _ Hw)|by subst].
Qed.

Lemma stranded_upload tx c x w :
  id x ≠ id tx → stranded tx c w →
  stranded tx c (set_remote (upload x (remote w)) w).
Proof.
  intros Hx [H1 H2 H3 H4 H5 H6]. split; try done. simpl.
  intros t s [Hs| ->]%queryAfter_upload_inv; [by apply (H3 t)|done].
Qed.

Lemma stranded_merged tx c t w :
  stranded tx c w → stranded tx c (merged_into c (queryAfter t (remote w)) w).
Proof.
  intros Hw. pose proof (stranded_apart _ _ _ Hw) as Hne.
  destruct Hw as [H1 H2 H3 H4 H5 H6].
  assert (ledger (merged_into c (queryAfter t (remote w)) w) = ledger w) as Hl.
  { rewrite ledger_merged_into. case_decide as E; [by destruct E|done]. }
  split; rewrite ?Hl; try done; [simpl; by rewrite length_insert|].
  rewrite array_merged_into, decide_True by done.
  intros (y & [Hy|(s & Hs & ->)]%elem_of_merge & Hid)%elem_of_ids.
  - apply H2, elem_of_ids. by exists y.
  - rewrite with_synced_id in Hid. by apply (H3 t s).
Qed.

#[global] Instance stable_stranded tx c :
  Stable (stranded tx c) (λ x, id x ≠ id tx) c.
Proof.
  split.
  - apply stranded_framed.
  - intros w [H1 H2 H3 H4 H5 H6]. split; try done.
    intros n Hn. apply H6. simpl in Hn. lia.
  - intros n w Hw. apply (str_used _ _ _ Hw). done.
  - intros x w. apply stranded_upload.
  - intros x w. apply stranded_marked.
  - intros x w. apply stranded_pushed.
  - intros t w. apply stranded_merged.
  - intros x w Hw [Hx _]%elem_of_getUnsyncedTransactions Hid.
    apply (str_array _ _ _ Hw), elem_of_ids. by exists x.
Qed.

(** The sort of the dashboard permutes the array the screens see. *)
Lemma stranded_HomeScreen tx c w :
  stranded tx c w → stranded tx c (exec (HomeScreen (render w)) w).
Proof.
  intros Hw. pose proof (stranded_apart _ _ _ Hw) as Hne.
  destruct Hw as [H1 H2 H3 H4 H5 H6]. rewrite exec_HomeScreen.
  assert (∀ x, x ∈ ledger (set_heap (<[hook_transactions w :=
            sort_by_date (ledger w)]> (heap w)) w) → x ∈ ledger w) as Hl.
  { intros x. unfold ledger at 1. cbn [hook_transactions set_heap].
    rewrite array_write. case_decide; [|done]. by rewrite sort_by_date_perm. }
  split; cbn [render transactions]; try done.
  - simpl. by rewrite length_insert.
  - rewrite array_write, decide_False; [done|]. by intros [? _].
  - unfold ledger. cbn [hook_transactions set_heap]. rewrite array_write.
    case_decide as E; [by rewrite sort_by_date_perm|].
    unfold ledger, array in H4.
    destruct (heap w !! hook_transactions w) eqn:Hh; [|by apply elem_of_nil in H4].
    destruct E. split; [done|]. by eapply lookup_lt_Some.
  - intros x Hx. by apply H5, Hl.
Qed.

(** ** What the listener uploads *)

Record backlog (U : list Transaction) c w : Prop := mkBacklog {
  bl_heap : (transactions c < length (heap w))%nat;
  bl_unsynced : getUnsyncedTransactions (array (transactions c) w) ≡ₚ U;
}.

#[global] Instance stable_backlog U c :
  Stable (backlog U c) (λ _, True) c.
Proof.
  split; try done.
  - intros w w' Hc [H1 H2]. split; rewrite <- ?(same_core_array _ w w'); try done.
    by injection Hc as <- _ _ _ _ _.
  - by intros w [H1 H2].
  - by intros x w _ [H1 H2].
  - intros x w _ [H1 H2]. split; rewrite ?array_installed; try done.
    simpl. rewrite length_app. lia.
  - intros x w _ [H1 H2]. split; rewrite ?array_installed; try done.
    simpl. rewrite length_app. lia.
  - intros t w [H1 H2]. split; [simpl; by rewrite length_insert|].
    by rewrite array_merged_into, decide_True, getUnsyncedTransactions_merge.
Qed.

Lemma backlog_HomeScreen U c w :
  backlog U c w → backlog U c (exec (HomeScreen (render w)) w).
Proof.
  intros [H1 H2]. rewrite exec_HomeScreen. split; [simpl; by rewrite length_insert|].
  rewrite array_write. case_decide; [|done].
  unfold getUnsyncedTransactions. rewrite sort_by_date_perm.
  destruct H as [<- _]. exact H2.
Qed.

(** ** Along a run *)

Section along.
Context (I : World R → Prop) (ok : Transaction → Prop) (c : Closure).
Context `{!Stable I ok c}.
Context (I_home : ∀ w, I w → I (exec (HomeScreen (render w)) w)).

Lemma settled_step_keeps a t a' :
  settled c a → I (world a) → step a t a' → I (world a').
Proof.
  intros Hs Hw. destruct 1 as [a Hdue|a c' b Hc'|a n|a]; simpl.
  - destruct Hs as (_ & _ & Hd & Hl). destruct Hdue. by rewrite Hd, Hl.
  - destruct Hs as (Hc & _). rewrite Hc in Hc'. injection Hc' as <-.
    by apply (stable_onNetInfo I ok c).
  - by apply (stable_addTransaction I ok c).
  - by apply I_home.
Qed.

Lemma settled_steps_keep a ts a' :
  app_ok a → settled c a → I (world a) → steps a ts a' → I (world a').
Proof.
  intros Ha Hs Hw. induction 1 as [a|a t a1 ts a2 H1 H2 IH]; [done|].
  apply IH; [by eapply app_ok_step|by eapply settled_step|].
  by eapply settled_step_keeps.
Qed.
End along.

(** A transaction added while the device is offline is stranded. *)
Lemma stranded_added c c' n w :
  inv w → (transactions c < length (heap w))%nat →
  answer (writes (env w)) = true → answer (net (env w)) = false →
  stranded (created n w) c (exec (addTransaction c' n) w).
Proof.
  intros Hw Hc Hwr Hnet. rewrite exec_addTransaction. unfold added. cbv zeta.
  rewrite Hwr. set (tx := created n w).
  set (w1 := saved (updatedTransactions (array (transactions c') w) tx) (drawn w)).
  assert (stranded tx c (installed (updatedTransactions (ledger w) tx) w1)) as Hs.
  { pose proof (known_next_fresh _ _ (inv_array _ (transactions c) Hw)) as H1.
    pose proof (known_next_fresh _ _ (inv_ledger _ Hw)) as H2.
    split; rewrite ?array_installed, ?ledger_installed;
      unfold w1, saved; rewrite ?Hwr; simpl; try done.
    - rewrite length_app. lia.
    - intros t s Hs Hid. apply (inv_remote _ Hw t s Hs (uuid_next (env w))); [lia|].
      by rewrite Hid.
    - apply elem_of_app. right. by left.
    - intros x [Hx|Hx%list_elem_of_singleton]%elem_of_app Hid; [|done].
      destruct H2. apply elem_of_ids. by exists x.
    - apply (used_draw w); [done|]. env_le_solve. }
  revert Hs. unfold guarded, synced_one. destruct (isSyncing c'); [done|].
  cbn [env set_hook_isSyncing installed set_hook_transactions set_heap].
  replace (answer (net (env w1))) with false
    by (unfold w1, saved; simpl; by rewrite Hnet).
  by apply stranded_framed.
Qed.

(** ** The properties *)

(** C3: a transaction that is added while the device is offline is never
    uploaded by the running application.  Whatever happens after the
    submission (changes of connectivity, further submissions, renders of
    the dashboard, any answers of the environment), the transaction stays
    in the list of the screens, unsynced, the remote ledger does not hold
    it, and the array from which the listener picks what to upload does not
    hold it either. *)
Theorem offline_add_never_uploaded c n a ts a' :
  app_ok a → settled c a →
  answer (writes (env (world a))) = true → answer (net (env (world a))) = false →
  steps a (Submit n :: ts) a' →
  created n (world a) ∈ ledger (world a')
  ∧ synced (created n (world a)) = false
  ∧ (∀ t s, s ∈ queryAfter t (remote (world a')) →
            id s ≠ id (created n (world a)))
  ∧ listener a' = Some c
  ∧ id (created n (world a)) ∉ ids (array (transactions c) (world a')).
Proof.
  intros Ha Hs Hwr Hnet Hsteps. inversion Hsteps as [|? ? a1 ? ? H1 H2]; subst.
  pose proof (app_ok_step _ _ _ Ha H1) as Ha1.
  destruct (settled_step _ _ _ _ Ha Hs H1) as [Hs1 _].
  destruct (settled_steps c _ _ _ Ha1 Hs1 H2) as [(Hl & _) _].
  inversion H1; subst.
  assert (stranded (created n (world a)) c (world a')) as [? ? ? ? ? ?].
  { refine (settled_steps_keep _ _ c (stranded_HomeScreen _ c) _ _ _ Ha1 Hs1 _ H2).
    apply stranded_added; [apply Ha|apply (ok_listener a Ha), Hs|done..]. }
  by split_and!.
Qed.

(** C22: what the listener uploads never changes.  The unsynced entries of
    the array of its closure are, up to their order, those of the moment
    the listener was registered: an upload that succeeded does not remove
    its entry from them, and an entry added later never joins them. *)
Theorem listener_backlog_fixed c a ts a' :
  app_ok a → settled c a → steps a ts a' →
  getUnsyncedTransactions (array (transactions c) (world a'))
  ≡ₚ getUnsyncedTransactions (array (transactions c) (world a)).
Proof.
  intros Ha Hs Hsteps.
  refine (bl_unsynced _ _ _ (settled_steps_keep _ _ c
            (backlog_HomeScreen _ c) _ _ _ Ha Hs _ Hsteps)).
  split; [apply (ok_listener a Ha), Hs|done].
Qed.
End stale.

(** ** On a device *)

Lemma offline_add_never_uploaded_witness :
  created coffee (world device)
  ∈ ledger (world (after [Submit coffee; NetInfoEvent true; ShowHome;
                          NetInfoEvent true] device)).
Proof.
  refine (proj1 (offline_add_never_uploaded _ coffee device _ _
            (proj1 device_ok) (proj2 device_ok) eq_refl eq_refl
            (steps_after _ _ _))).
  vm_compute. by eexists.
Defined.

Lemma listener_backlog_fixed_witness :
  getUnsyncedTransactions
    (array 1 (world (after [NetInfoEvent true; Submit coffee] device)))
  ≡ₚ getUnsyncedTransactions (array 1 (world device)).
Proof.
  refine (listener_backlog_fixed (mkClosure 1 false false) device _ _
            (proj1 device_ok) (proj2 device_ok) (steps_after _ _ _)).
  vm_compute. by eexists.
Defined.


(** A restart is what uploads a stranded transaction: the list is
    loaded from the store, the new listener has the array that holds the
    transaction, and the next change of connectivity uploads it. *)
Example restart_uploads_stranded :
  let a1 := after [Submit coffee; NetInfoEvent true] device in
  let w1 := world a1 in
  let a2 := after [NetInfoEvent true] (started (storage w1) (remote w1) (env w1)) in
  ("u0" ∈ ids (ledger w1)) ∧ ("u0" ∉ ids (queryAfter 0 (remote w1)))
  ∧ ("u0" ∈ ids (queryAfter 0 (remote (world a2))))
  ∧ getUnsyncedTransactions (ledger (world a2)) = [].
Proof.
  cbv zeta. split_and!; [| | |by vm_compute];
    apply (bool_decide_unpack _); by vm_compute.
Qed.
