(* ===== verification/Await.v ===== *)
(** * Await: [async] functions between their [await]s

    [M S E A] of [Effects] runs an [async] function from its call to its
    settlement in one piece.  JavaScript does not: at an [await] of an
    operation of the platform the function is suspended, the event loop runs
    whatever else is ready, and the function goes on when the operation has
    settled.  Between two such points nothing else runs.

    [Prog S E A] is an [async] function as the sequence of its pieces: a
    tree whose nodes are computations of [M S E], each marked as run at once
    ([sync]) or awaited ([await]), and whose leaves are outcomes.  The
    operations have the names of [Effects] with a [p] in front.

    - [interp] forgets the marks: it is the function run in one piece.
    - [settle] runs a program to its first [await]; [resume] lets the
      awaited operation settle and runs the program to its next [await].
    - A [Pool] is the list of the suspended programs; [spawn] calls a
      function and [wake] resumes one of the pool.  [outcomes] lists the
      states the pool may be emptied in, over every order of the
      resumptions.

    [drain_awaits] relates the two readings: a program that is called and
    resumed until it is settled, with nothing in between, ends as [interp]
    says, after exactly [awaits] resumptions. *)

From S2P Require Import Prelude Effects.

Declare Scope prog_scope.
Delimit Scope prog_scope with prog.

Inductive Prog (S E A : Type) : Type :=
  | Done (o : Outcome E A)
  | Node (yield : bool) (X : Type) (m : M S E X)
      (k : Outcome E X → Prog S E A).
Arguments Done {S E A} o.
Arguments Node {S E A} yield {X} m k.
Bind Scope prog_scope with Prog.

Section programs.
Context {S E : Type}.
Implicit Types s : S.

(** [return a] and [throw e] *)
Definition pret {A} (a : A) : Prog S E A := Done (Ok a).
Definition pthrow {A} (e : E) : Prog S E A := Done (Throw e).

(** Code that runs at once. *)
Definition sync {A} (m : M S E A) : Prog S E A := Node false m Done.

(** [await m], for an operation [m] of the platform. *)
Definition await {A} (m : M S E A) : Prog S E A := Node true m Done.

(** [const x = await p; f x], for an [async] function [p] of the program *)
Fixpoint pbind {A B} (p : Prog S E A) (f : A → Prog S E B) : Prog S E B :=
  match p with
  | Done (Ok a) => f a
  | Done (Throw e) => Done (Throw e)
  | Node y m k => Node y m (λ o, pbind (k o) f)
  end.

(** [try { p } catch (e) { h e }] *)
Fixpoint ptry_catch {A} (p : Prog S E A) (h : E → Prog S E A) : Prog S E A :=
  match p with
  | Done (Ok a) => Done (Ok a)
  | Done (Throw e) => h e
  | Node y m k => Node y m (λ o, ptry_catch (k o) h)
  end.

(** The outcome of [try { .. } finally { f }] when the body has settled
    with [r]. *)
Fixpoint finally {A} (r : Outcome E A) (f : Prog S E unit) : Prog S E A :=
  match f with
  | Done (Ok _) => Done r
  | Done (Throw e) => Done (Throw e)
  | Node y m k => Node y m (λ o, finally r (k o))
  end.

(** [try { p } finally { f }] *)
Fixpoint ptry_finally {A} (p : Prog S E A) (f : Prog S E unit) : Prog S E A :=
  match p with
  | Done r => finally r f
  | Node y m k => Node y m (λ o, ptry_finally (k o) f)
  end.

(** [for (const x of l) { await f(x) }] *)
Fixpoint pfor_each {A} (f : A → Prog S E unit) (l : list A) : Prog S E unit :=
  match l with
  | [] => pret ()
  | x :: l' => pbind (f x) (λ _, pfor_each f l')
  end.

(** ** The function in one piece *)

Fixpoint interp {A} (p : Prog S E A) : M S E A :=
  match p with
  | Done o => λ s, (o, s)
  | Node _ m k => λ s, match m s with (o, s') => interp (k o) s' end
  end.

(** ** The function piece by piece *)

(** The program has settled. *)
Definition finished {A} (p : Prog S E A) : bool :=
  match p with Done _ => true | Node _ _ _ => false end.

(** The program is suspended at an [await]. *)
Definition suspended {A} (p : Prog S E A) : bool :=
  match p with Node true _ _ => true | _ => false end.

(** The code up to the first [await]. *)
Fixpoint settle {A} (p : Prog S E A) s : Prog S E A * S :=
  match p with
  | Node false m k => match m s with (o, s') => settle (k o) s' end
  | _ => (p, s)
  end.

(** The awaited operation settles and the program runs to its next
    [await]. *)
Definition resume {A} (p : Prog S E A) s : Prog S E A * S :=
  match p with
  | Node true m k => match m s with (o, s') => settle (k o) s' end
  | _ => (p, s)
  end.

(** [n] resumptions in a row. *)
Fixpoint drain {A} (n : nat) (p : Prog S E A) s : Prog S E A * S :=
  match n with
  | O => (p, s)
  | Datatypes.S n => match resume p s with (p', s') => drain n p' s' end
  end.

(** The number of [await]s the program meets when it runs from [s]. *)
Fixpoint awaits {A} (p : Prog S E A) s : nat :=
  match p with
  | Done _ => 0
  | Node y m k =>
      match m s with (o, s') => (if y then 1 else 0) + awaits (k o) s' end
  end.

(** ** The suspended functions of an application *)

Definition Pool : Type := list (Prog S E unit).

(** A function is called: it runs to its first [await] and joins the pool
    unless it has settled already.  A rejection nobody awaits is dropped. *)
Definition spawn (p : Prog S E unit) (st : S * Pool) : S * Pool :=
  match settle p st.1 with
  | (p', s') => (s', if finished p' then st.2 else st.2 ++ [p'])
  end.

(** The operation awaited by the function at index [i] settles. *)
Definition wake (i : nat) (st : S * Pool) : option (S * Pool) :=
  p ← st.2 !! i;
  match resume p st.1 with
  | (p', s') => Some (s', if finished p' then delete i st.2 else <[i:=p']> st.2)
  end.

(** The functions at the indices [ixs] are resumed, in this order. *)
Fixpoint wakes (ixs : list nat) (st : S * Pool) : option (S * Pool) :=
  match ixs with
  | [] => Some st
  | i :: ixs => st' ← wake i st; wakes ixs st'
  end.

(** Every order in which the awaited operations may settle: the states in
    which the pool is left empty.  The answer is [None] when on some order
    [fuel] resumptions do not empty the pool. *)
Fixpoint outcomes (fuel : nat) (st : S * Pool) : option (list S) :=
  match st.2, fuel with
  | [], _ => Some [st.1]
  | _, O => None
  | _, Datatypes.S fuel =>
      mjoin <$> mapM (λ i, wake i st ≫= outcomes fuel) (seq 0 (length st.2))
  end.
End programs.

Arguments pbind {S E A B} (p f)%_prog.
Arguments ptry_catch {S E A} (p h)%_prog.
Arguments ptry_finally {S E A} (p f)%_prog.
Arguments pfor_each {S E A} f%_prog l.

Notation "x <- p ;; k" := (pbind p%prog (λ x, k%prog))
  (at level 100, p at next level, right associativity) : prog_scope.
Notation "p ;; k" := (pbind p%prog (λ _, k%prog))
  (at level 100, right associativity) : prog_scope.

(** ** [interp] is a morphism of the operations *)

Section interp.
Context {S E : Type}.
Implicit Types s : S.

Lemma interp_pret {A} (a : A) : interp (pret a) ≡@{M S E A} ret a.
Proof. done. Qed.

Lemma interp_pthrow {A} (e : E) : interp (pthrow e) ≡@{M S E A} throw e.
Proof. done. Qed.

Lemma interp_sync {A} (m : M S E A) : interp (sync m) ≡ m.
Proof. intros s. simpl. by destruct (m s). Qed.

Lemma interp_await {A} (m : M S E A) : interp (await m) ≡ m.
Proof. intros s. simpl. by destruct (m s). Qed.

Lemma interp_pbind {A B} (p : Prog S E A) (f : A → Prog S E B) :
  interp (pbind p f) ≡ (x <- interp p ;; interp (f x))%eff.
Proof.
  induction p as [[a|e]|y X m k IH]; intros s; [done..|].
  simpl. unfold bind. simpl. destruct (m s) as [o s']. apply IH.
Qed.

Lemma interp_ptry_catch {A} (p : Prog S E A) (h : E → Prog S E A) :
  interp (ptry_catch p h) ≡ try_catch (interp p) (λ e, interp (h e)).
Proof.
  induction p as [[a|e]|y X m k IH]; intros s; [done..|].
  simpl. unfold try_catch. simpl. destruct (m s) as [o s']. apply IH.
Qed.

Lemma interp_finally {A} (r : Outcome E A) (f : Prog S E unit) s :
  interp (finally r f) s
  = match interp f s with
    | (Ok _, s'') => (r, s'')
    | (Throw e, s'') => (Throw e, s'')
    end.
Proof.
  revert s. induction f as [[a|e]|y X m k IH]; intros s; [done..|].
  simpl. destruct (m s) as [o s']. apply IH.
Qed.

Lemma interp_ptry_finally {A} (p : Prog S E A) (f : Prog S E unit) :
  interp (ptry_finally p f) ≡ try_finally (interp p) (interp f).
Proof.
  induction p as [r|y X m k IH]; intros s.
  - simpl. by rewrite interp_finally.
  - simpl. unfold try_finally. simpl. destruct (m s) as [o s']. apply IH.
Qed.

Lemma interp_pfor_each {A} (f : A → Prog S E unit) (l : list A) :
  interp (pfor_each f l) ≡ for_each (λ x, interp (f x)) l.
Proof.
  induction l as [|x l IH]; [done|]. simpl.
  rewrite interp_pbind. by setoid_rewrite IH.
Qed.

(** The rules in the form the refinement of a function is proved with:
    piece by piece along the two definitions. *)
Lemma refines_bind {A B} (p : Prog S E A) (f : A → Prog S E B) m g :
  interp p ≡ m → (∀ a, interp (f a) ≡ g a) →
  interp (pbind p f) ≡ (x <- m ;; g x)%eff.
Proof. intros Hp Hf. rewrite interp_pbind, Hp. by setoid_rewrite Hf. Qed.

Lemma refines_try_catch {A} (p : Prog S E A) h m g :
  interp p ≡ m → (∀ e, interp (h e) ≡ g e) →
  interp (ptry_catch p h) ≡ try_catch m g.
Proof. intros Hp Hh. rewrite interp_ptry_catch, Hp. by setoid_rewrite Hh. Qed.

Lemma refines_try_finally {A} (p : Prog S E A) f m g :
  interp p ≡ m → interp f ≡ g → interp (ptry_finally p f) ≡ try_finally m g.
Proof. intros Hp Hf. by rewrite interp_ptry_finally, Hp, Hf. Qed.

Lemma refines_for_each {A} (f : A → Prog S E unit) g (l : list A) :
  (∀ x, interp (f x) ≡ g x) → interp (pfor_each f l) ≡ for_each g l.
Proof.
  intros Hf. rewrite interp_pfor_each.
  induction l as [|x l IH]; [done|]. simpl. rewrite Hf. by setoid_rewrite IH.
Qed.

(** ** Pieces and the whole *)

Lemma settle_interp {A} (p : Prog S E A) s :
  interp (settle p s).1 (settle p s).2 = interp p s.
Proof.
  revert s. induction p as [o|[] X m k IH]; intros s; [done..|].
  simpl. destruct (m s) as [o s']. apply IH.
Qed.

Lemma resume_interp {A} (p : Prog S E A) s :
  interp (resume p s).1 (resume p s).2 = interp p s.
Proof.
  destruct p as [o|[] X m k]; [done| |done].
  simpl. destruct (m s) as [o s']. apply settle_interp.
Qed.

(** After [settle] a program is settled or suspended. *)
Lemma settle_cases {A} (p : Prog S E A) s :
  finished (settle p s).1 || suspended (settle p s).1 = true.
Proof.
  revert s. induction p as [o|[] X m k IH]; intros s; [done..|].
  simpl. destruct (m s) as [o s']. apply IH.
Qed.

Lemma resume_finished {A} (p : Prog S E A) s :
  finished p = true → resume p s = (p, s).
Proof. by destruct p. Qed.

Lemma drain_finished {A} n (o : Outcome E A) s :
  drain n (Done o) s = (Done o : Prog S E A, s).
Proof. induction n as [|n IH]; [done|apply IH]. Qed.

(** A program that runs alone is settled after [awaits] resumptions, with
    the outcome and in the state of the function in one piece. *)
Lemma drain_awaits {A} (p : Prog S E A) s :
  drain (awaits p s) (settle p s).1 (settle p s).2
  = (Done (outcome (interp p) s), exec (interp p) s).
Proof.
  unfold outcome, exec.
  revert s. induction p as [o|[] X m k IH]; intros s; [done| |].
  - simpl. destruct (m s) as [o s'] eqn:Hm. simpl. rewrite Hm.
    destruct (settle (k o) s') as [p' s''] eqn:Hs.
    specialize (IH o s'). by rewrite Hs in IH.
  - simpl. destruct (m s) as [o s']. apply IH.
Qed.

(** Fewer resumptions leave the program unsettled. *)
Lemma drain_before {A} n (p : Prog S E A) s :
  (n < awaits p s)%nat → finished (drain n (settle p s).1 (settle p s).2).1 = false.
Proof.
  revert n s. induction p as [o|[] X m k IH]; intros n s; simpl.
  - lia.
  - destruct (m s) as [o s'] eqn:Hm. destruct n as [|n]; [done|].
    intros Hn. simpl. rewrite Hm.
    destruct (settle (k o) s') as [p' s''] eqn:Hs.
    specialize (IH o n s'). rewrite Hs in IH. apply IH. lia.
  - destruct (m s) as [o s']. apply IH.
Qed.

(** A function called when nothing is suspended, and resumed until it has
    settled: the pool is empty again and the state is the one the function
    in one piece ends in. *)
Lemma spawn_alone (p : Prog S E unit) s :
  wakes (replicate (awaits p s) 0%nat) (spawn p (s, []))
  = Some (exec (interp p) s, []).
Proof.
  unfold exec, spawn. simpl.
  revert s. induction p as [o|[] X m k IH]; intros s; [done| |].
  - simpl. destruct (m s) as [o s'] eqn:Hm. simpl.
    unfold wake. simpl. rewrite Hm.
    specialize (IH o s'). destruct (settle (k o) s') as [p' s''].
    by destruct (finished p').
  - simpl. destruct (m s) as [o s']. apply IH.
Qed.

Lemma wakes_nil ixs s (st : S * list (Prog S E unit)) :
  wakes ixs (s, []) = Some st → ixs = [] ∧ st = (s, []).
Proof. destruct ixs; [by intros [= <-]|done]. Qed.

Lemma wake_lt i (st st' : S * list (Prog S E unit)) :
  wake i st = Some st' → (i < length st.2)%nat.
Proof.
  unfold wake. intros (p & Hp & _)%bind_Some. by eapply lookup_lt_Some.
Qed.

(** [outcomes] misses no order: the state in which a sequence of
    resumptions leaves the pool empty is one of them. *)
Lemma outcomes_complete fuel (st : S * list (Prog S E unit)) l ixs s' :
  outcomes fuel st = Some l → wakes ixs st = Some (s', []) → s' ∈ l.
Proof.
  revert st l ixs.
  induction fuel as [|fuel IH]; intros [s [|p pool]] l ixs; cbn [outcomes fst snd];
    try (by intros [= <-] [_ ?]%wakes_nil; simplify_eq; left).
  intros (ls & Hm%mapM_Some & ->)%fmap_Some. destruct ixs as [|i ixs]; [done|].
  cbn [wakes]. destruct (wake i _) as [st'|] eqn:Hi; [|done]. cbn. intros Hw.
  destruct (Forall2_lookup_l _ _ _ i i Hm) as (li & Hli & Ho);
    [by apply lookup_seq_lt, (wake_lt _ _ _ Hi)|].
  rewrite Hi in Ho. apply list_elem_of_join. exists li.
  eauto using list_elem_of_lookup_2.
Qed.

(** A property decided on every outcome holds after every order. *)
Lemma outcomes_all fuel (st : S * list (Prog S E unit)) (P : S → bool) ixs s' :
  from_option (forallb P) false (outcomes fuel st) = true →
  wakes ixs st = Some (s', []) → P s' = true.
Proof.
  destruct (outcomes fuel st) as [l|] eqn:Hl; [|done]. cbn. intros Hall Hw.
  apply (outcomes_complete _ _ _ _ _ Hl), list_elem_of_In in Hw.
  by apply (proj1 (forallb_forall P l) Hall).
Qed.
End interp.
