(* ===== verification/Rely.v ===== *)
(** * Rely: invariants of functions that run in turns

    What holds of the state of an application while several [async]
    functions are under way cannot be proved of one function from its call
    to its end: between two of its pieces the others run.  This file is the
    logic for it, over the programs of [Await].

    A [Protocol] is what all functions of an application agree on: an
    invariant [holds] of the state, stated for the tokens that the suspended
    functions hold at the moment (a token is something a function has taken
    and not yet published, such as an identifier it has drawn), and a
    preorder [guar] that every turn of every function stays within.  An
    assertion a function makes while it is suspended must be [stable]: what
    the others may do does not falsify it.

    [wpp p Q] is the weakest precondition of the program [p] for the
    postcondition [Q], in the middle of a turn.  An assertion of that kind
    ([Assn]) speaks of the tokens the others hold, of the state in which the
    turn began and of the state now.  Code that runs at once takes the
    assertion along as it is; at an [await] the turn ends: the function
    picks the tokens it keeps and a stable claim, the protocol must hold,
    and the function goes on from any state in which both hold again.

    [pool_ok] is the invariant of the pool: the protocol holds for the
    tokens of all the suspended functions, and each of them is [parked] with
    a claim that holds.  [spawn_ok] and [wake_ok] say that calling a
    function that is [callable] and resuming any suspended function keep
    it: the protocol holds after every move of every schedule. *)

From S2P Require Import Prelude Effects Await.

Class Protocol (S K : Type) : Type := {
  (** the invariant, for the tokens held by the suspended functions *)
  holds : list K → S → Prop;
  (** what one turn may do to the state *)
  guar : relation S;
  #[global] guar_preorder :: PreOrder guar;
  (** tokens can be given up, and their order does not matter *)
  holds_sub us us' s : us' ⊆+ us → holds us s → holds us' s;
}.

#[global] Hint Mode Protocol ! - : typeclass_instances.

Section logic.
Context {S E K : Type} `{!Protocol S K}.
Implicit Types (s : S) (us others : list K) (P : S → Prop).

Definition stable P : Prop := ∀ s s', guar s s' → P s → P s'.

(** An assertion in the middle of a turn: the tokens of the others, the
    state at the beginning of the turn and the state now. *)
Definition Assn : Type := list K → S → S → Prop.

Fixpoint wpp {A} (p : Prog S E A) (Q : Outcome E A → Assn)
    (others : list K) (s0 s : S) : Prop :=
  match p with
  | Done o => Q o others s0 s
  | Node false m k => wpp (k (outcome m s)) Q others s0 (exec m s)
  | Node true m k =>
      ∃ us P, guar s0 s ∧ holds (us ++ others) s ∧ stable P ∧ P s ∧
        ∀ others' s', holds (us ++ others') s' → P s' →
          wpp (k (outcome m s')) Q others' s' (exec m s')
  end.

(** [{B} p {Q}] in the middle of a turn. *)
Definition triple {A} (B : Assn) (p : Prog S E A) (Q : Outcome E A → Assn) :
    Prop :=
  ∀ others s0 s, B others s0 s → wpp p Q others s0 s.

(** The end of a function: its last turn stayed within [guar] and the
    protocol holds without any token of the function. *)
Definition at_rest {A} : Outcome E A → Assn :=
  λ _ others s0 s, guar s0 s ∧ holds others s.

(** A function that can be called at any time. *)
Definition callable (p : Prog S E unit) : Prop :=
  ∀ others s, holds others s → wpp p at_rest others s s.

(** What a suspended function holds and claims. *)
Record Owner : Type := mkOwner { tokens : list K; claim : S → Prop }.

Definition parked (o : Owner) (p : Prog S E unit) : Prop :=
  match p with
  | Node true m k =>
      stable (claim o) ∧
      ∀ others s, holds (tokens o ++ others) s → claim o s →
        wpp (k (outcome m s)) at_rest others s (exec m s)
  | _ => False
  end.

Definition all_tokens (owners : list Owner) : list K :=
  concat (tokens <$> owners).

Definition pool_ok (s : S) (pool : list (Prog S E unit)) : Prop :=
  ∃ owners, Forall2 (λ o p, parked o p ∧ claim o s) owners pool
            ∧ holds (all_tokens owners) s.

(** ** The rules *)

Lemma wpp_mono {A} (p : Prog S E A) (Q Q' : Outcome E A → Assn) others s0 s :
  (∀ o others s0 s, Q o others s0 s → Q' o others s0 s) →
  wpp p Q others s0 s → wpp p Q' others s0 s.
Proof.
  intros HQ. revert others s0 s.
  induction p as [o|[] X m k IH]; intros others s0 s; simpl; [apply HQ| |apply IH].
  intros (us & P & ? & ? & ? & ? & Hk). exists us, P. split_and!; [done..|].
  intros others' s' ? ?. by apply IH, Hk.
Qed.

Lemma wpp_bind {A B} (p : Prog S E A) (f : A → Prog S E B) Q others s0 s :
  wpp p (λ o, match o with
              | Ok a => wpp (f a) Q
              | Throw e => Q (Throw e)
              end) others s0 s →
  wpp (pbind p f) Q others s0 s.
Proof.
  revert others s0 s.
  induction p as [[a|e]|[] X m k IH]; intros others s0 s; simpl; [done..| |apply IH].
  intros (us & P & ? & ? & ? & ? & Hk). exists us, P. split_and!; [done..|].
  intros others' s' ? ?. by apply IH, Hk.
Qed.

Lemma wpp_try_catch {A} (p : Prog S E A) h Q others s0 s :
  wpp p (λ o, match o with
              | Ok a => Q (Ok a)
              | Throw e => wpp (h e) Q
              end) others s0 s →
  wpp (ptry_catch p h) Q others s0 s.
Proof.
  revert others s0 s.
  induction p as [[a|e]|[] X m k IH]; intros others s0 s; simpl; [done..| |apply IH].
  intros (us & P & ? & ? & ? & ? & Hk). exists us, P. split_and!; [done..|].
  intros others' s' ? ?. by apply IH, Hk.
Qed.

Lemma wpp_finally {A} (r : Outcome E A) (f : Prog S E unit) Q others s0 s :
  wpp f (λ o, match o with
              | Ok _ => Q r
              | Throw e => Q (Throw e)
              end) others s0 s →
  wpp (finally r f) Q others s0 s.
Proof.
  revert others s0 s.
  induction f as [[a|e]|[] X m k IH]; intros others s0 s; simpl; [done..| |apply IH].
  intros (us & P & ? & ? & ? & ? & Hk). exists us, P. split_and!; [done..|].
  intros others' s' ? ?. by apply IH, Hk.
Qed.

Lemma wpp_try_finally {A} (p : Prog S E A) (f : Prog S E unit) Q others s0 s :
  wpp p (λ r, wpp f (λ o, match o with
                          | Ok _ => Q r
                          | Throw e => Q (Throw e)
                          end)) others s0 s →
  wpp (ptry_finally p f) Q others s0 s.
Proof.
  revert others s0 s.
  induction p as [r|[] X m k IH]; intros others s0 s; simpl;
    [apply wpp_finally| |apply IH].
  intros (us & P & ? & ? & ? & ? & Hk). exists us, P. split_and!; [done..|].
  intros others' s' ? ?. by apply IH, Hk.
Qed.

(** ** Triples *)

Lemma triple_conseq {A} (B B' : Assn) (p : Prog S E A) Q Q' :
  triple B' p Q' →
  (∀ others s0 s, B others s0 s → B' others s0 s) →
  (∀ o others s0 s, Q' o others s0 s → Q o others s0 s) →
  triple B p Q.
Proof. intros Hp HB HQ others s0 s Hs. eapply wpp_mono; [apply HQ|]. by apply Hp, HB. Qed.

Lemma triple_pret {A} (B : Assn) (a : A) Q :
  (∀ others s0 s, B others s0 s → Q (Ok a) others s0 s) → triple B (pret a) Q.
Proof. intros HQ others s0 s. apply HQ. Qed.

Lemma triple_pthrow {A} (B : Assn) (e : E) (Q : Outcome E A → Assn) :
  (∀ others s0 s, B others s0 s → Q (Throw e) others s0 s) →
  triple B (pthrow e) Q.
Proof. intros HQ others s0 s. apply HQ. Qed.

Lemma triple_sync {A} (B : Assn) (m : M S E A) Q :
  (∀ others s0 s, B others s0 s → Q (outcome m s) others s0 (exec m s)) →
  triple B (sync m) Q.
Proof. intros HQ others s0 s. apply HQ. Qed.

(** At an [await] the function keeps the tokens [us] and claims [P]. *)
Lemma triple_await {A} us P (B : Assn) (m : M S E A) Q :
  stable P →
  (∀ others s0 s, B others s0 s → guar s0 s ∧ holds (us ++ others) s ∧ P s) →
  (∀ others s, holds (us ++ others) s → P s →
     Q (outcome m s) others s (exec m s)) →
  triple B (await m) Q.
Proof.
  intros HP HB HQ others s0 s (? & ? & ?)%HB. exists us, P.
  split_and!; [done..|]. intros others' s' ? ?. by apply HQ.
Qed.

Lemma triple_bind {A B'} (B : Assn) (p : Prog S E A) (f : A → Prog S E B')
    (B1 : A → Assn) Q :
  triple B p (λ o, match o with Ok a => B1 a | Throw e => Q (Throw e) end) →
  (∀ a, triple (B1 a) (f a) Q) →
  triple B (pbind p f) Q.
Proof.
  intros Hp Hf others s0 s Hs. apply wpp_bind.
  eapply wpp_mono; [|by apply Hp]. intros [a|e] ????; [by apply Hf|done].
Qed.

Lemma triple_try_catch {A} (B : Assn) (p : Prog S E A) h (B1 : E → Assn) Q :
  triple B p (λ o, match o with Ok a => Q (Ok a) | Throw e => B1 e end) →
  (∀ e, triple (B1 e) (h e) Q) →
  triple B (ptry_catch p h) Q.
Proof.
  intros Hp Hh others s0 s Hs. apply wpp_try_catch.
  eapply wpp_mono; [|by apply Hp]. intros [a|e] ????; [done|by apply Hh].
Qed.

Lemma triple_try_finally {A} (B : Assn) (p : Prog S E A) f (B1 : Assn) Q :
  triple B p (λ _, B1) →
  (∀ r : Outcome E A,
     triple B1 f (λ o, match o with Ok _ => Q r | Throw e => Q (Throw e) end)) →
  triple B (ptry_finally p f) Q.
Proof.
  intros Hp Hf others s0 s Hs. apply wpp_try_finally.
  eapply wpp_mono; [|by apply Hp]. intros r ????. by apply Hf.
Qed.

(** A loop with the invariant [B]. *)
Lemma triple_for_each {A} (B : Assn) (f : A → Prog S E unit) (l : list A) Q :
  (∀ x, x ∈ l →
     triple B (f x) (λ o, match o with Ok _ => B | Throw e => Q (Throw e) end)) →
  (∀ others s0 s, B others s0 s → Q (Ok ()) others s0 s) →
  triple B (pfor_each f l) Q.
Proof.
  intros Hf HQ. induction l as [|x l IH]; [by apply triple_pret|].
  simpl. eapply triple_bind; [apply Hf; left|].
  intros []. apply IH. intros y Hy. apply Hf. by right.
Qed.

Lemma triple_if {A} (B : Assn) (b : bool) (p1 p2 : Prog S E A) Q :
  (b = true → triple B p1 Q) → (b = false → triple B p2 Q) →
  triple B (if b then p1 else p2) Q.
Proof. destruct b; auto. Qed.

(** What is known besides the assertion can be used in its proof. *)
Lemma triple_assume {A} (B : Assn) (φ : Prop) (p : Prog S E A) Q :
  (φ → triple B p Q) → triple (λ others s0 s, φ ∧ B others s0 s) p Q.
Proof. intros Hp others s0 s [Hφ Hs]. by apply Hp. Qed.

(** ** Assertions a program keeps *)

(** [keeps B p]: the assertion [B] holds after [p] whenever it held
    before, whatever the outcome. *)
Definition keeps {A} (B : Assn) (p : Prog S E A) : Prop := triple B p (λ _, B).

Lemma keeps_pret {A} (B : Assn) (a : A) : keeps B (pret a).
Proof. by apply triple_pret. Qed.

Lemma keeps_pthrow {A} (B : Assn) (e : E) : keeps B (pthrow e : Prog S E A).
Proof. by apply triple_pthrow. Qed.

Lemma keeps_bind {A B'} (B : Assn) (p : Prog S E A) (f : A → Prog S E B') :
  keeps B p → (∀ a, keeps B (f a)) → keeps B (pbind p f).
Proof.
  intros Hp Hf. apply (triple_bind _ _ _ (λ _, B)); [|done].
  eapply triple_conseq; [apply Hp|done|]. by intros [a|e].
Qed.

Lemma keeps_try_catch {A} (B : Assn) (p : Prog S E A) h :
  keeps B p → (∀ e, keeps B (h e)) → keeps B (ptry_catch p h).
Proof.
  intros Hp Hh. apply (triple_try_catch _ _ _ (λ _, B)); [|done].
  eapply triple_conseq; [apply Hp|done|]. by intros [a|e].
Qed.

Lemma keeps_try_finally {A} (B : Assn) (p : Prog S E A) f :
  keeps B p → keeps B f → keeps B (ptry_finally p f).
Proof.
  intros Hp Hf. apply (triple_try_finally _ _ _ B); [done|]. intros r.
  eapply triple_conseq; [apply Hf|done|]. by intros [a|e].
Qed.

Lemma keeps_for_each {A} (B : Assn) (f : A → Prog S E unit) l :
  (∀ x, x ∈ l → keeps B (f x)) → keeps B (pfor_each f l).
Proof.
  intros Hf. apply triple_for_each; [|done]. intros x Hx.
  eapply triple_conseq; [by apply Hf|done|]. by intros [a|e].
Qed.

Lemma keeps_if {A} (B : Assn) (b : bool) (p1 p2 : Prog S E A) :
  keeps B p1 → keeps B p2 → keeps B (if b then p1 else p2).
Proof. by destruct b. Qed.

(** A program that keeps [B'], between a [B] that is stronger and a [Q]
    that is weaker. *)
Lemma keeps_triple {A} (B B' : Assn) (p : Prog S E A) (Q : Outcome E A → Assn) :
  keeps B' p →
  (∀ others s0 s, B others s0 s → B' others s0 s) →
  (∀ o others s0 s, B' others s0 s → Q o others s0 s) →
  triple B p Q.
Proof. intros Hp HB HQ. by eapply triple_conseq. Qed.

(** ** The pool *)

(** A program runs to its next [await]: the turn stayed within [guar], and
    the program is at rest or parked. *)
Lemma wpp_settle (p : Prog S E unit) others s0 s :
  wpp p at_rest others s0 s →
  guar s0 (settle p s).2 ∧
  if finished (settle p s).1 then holds others (settle p s).2
  else ∃ o, parked o (settle p s).1 ∧ claim o (settle p s).2
            ∧ holds (tokens o ++ others) (settle p s).2.
Proof.
  revert s. induction p as [o|[] X m k IH]; intros s; simpl.
  - by intros [? ?].
  - intros (us & P & ? & ? & ? & ? & Hk). split; [done|].
    by exists (mkOwner us P).
  - intros Hk. specialize (IH _ _ Hk). unfold outcome, exec in IH.
    by destruct (m s) as [o s'].
Qed.

Lemma claims_stable owners (pool : list (Prog S E unit)) s s' :
  guar s s' →
  Forall2 (λ o p, parked o p ∧ claim o s) owners pool →
  Forall2 (λ o p, parked o p ∧ claim o s') owners pool.
Proof.
  intros Hg Hown. eapply Forall2_impl; [done|]. intros o p [Hp Hc]. split; [done|].
  destruct p as [|[] X m k]; [done| |done]. destruct Hp as [Hst _]. by eapply Hst.
Qed.

Lemma all_tokens_lookup owners i o :
  owners !! i = Some o → all_tokens owners ≡ₚ tokens o ++ all_tokens (delete i owners).
Proof.
  intros Hi. unfold all_tokens.
  rewrite <- (take_drop_middle _ _ _ Hi) at 1. rewrite delete_take_drop.
  rewrite !fmap_app, !concat_app. simpl. apply Permutation_app_swap_app.
Qed.

Lemma all_tokens_insert owners i o :
  (i < length owners)%nat →
  all_tokens (<[i:=o]> owners) ≡ₚ tokens o ++ all_tokens (delete i owners).
Proof.
  intros Hi.
  rewrite (all_tokens_lookup (<[i:=o]> owners) i o) by by apply list_lookup_insert_eq.
  f_equiv. unfold all_tokens.
  by rewrite !delete_take_drop, take_insert_ge, drop_insert_lt by lia.
Qed.

(** Calling a callable function keeps the invariant of the pool. *)
Theorem spawn_ok (p : Prog S E unit) s pool :
  callable p → pool_ok s pool →
  guar s (spawn p (s, pool)).1 ∧ pool_ok (spawn p (s, pool)).1 (spawn p (s, pool)).2.
Proof.
  intros Hp (owners & Hown & Hs). unfold spawn. simpl.
  destruct (wpp_settle p _ s s (Hp _ _ Hs)) as [Hg Hend].
  destruct (settle p s) as [p' s']. simpl in *. split; [done|].
  destruct (finished p').
  - exists owners. split; [by eapply claims_stable|done].
  - destruct Hend as (o & Ho & Hc & Hh). exists (owners ++ [o]). split.
    + apply Forall2_app; [by eapply claims_stable|]. by repeat constructor.
    + eapply holds_sub; [|done]. apply Permutation_submseteq.
      unfold all_tokens. rewrite fmap_app, concat_app. simpl.
      by rewrite app_nil_r, (comm (++)).
Qed.

(** Resuming any suspended function keeps the invariant of the pool. *)
Theorem wake_ok i s pool s' pool' :
  pool_ok s pool → wake i (s, pool) = Some (s', pool') →
  guar s s' ∧ pool_ok s' pool'.
Proof.
  intros (owners & Hown & Hs). unfold wake, Pool. simpl.
  destruct (pool !! i) as [p|] eqn:Hi; simpl; [|done].
  destruct (Forall2_lookup_r _ _ _ _ _ Hown Hi) as (o & Ho & Hp & Hc).
  destruct p as [|[] X m k]; [done| |done]. destruct Hp as [_ Hk]. simpl.
  pose proof (holds_sub _ _ _
    (Permutation_submseteq _ _ (symmetry (all_tokens_lookup _ _ _ Ho))) Hs) as Hs1.
  specialize (Hk _ _ Hs1 Hc). apply wpp_settle in Hk as [Hg Hend].
  unfold outcome, exec in *. destruct (m s) as [r s1]. simpl in *.
  destruct (settle (k r) s1) as [p' s2]. simpl in *.
  destruct (finished p'); intros [= <- <-]; (split; [done|]).
  - exists (delete i owners). split; [|done].
    apply Forall2_delete. by eapply claims_stable.
  - destruct Hend as (o' & Ho' & Hc' & Hh). exists (<[i:=o']> owners). split.
    + apply Forall2_insert; [by eapply claims_stable|done].
    + eapply holds_sub; [|done]. apply Permutation_submseteq.
      apply all_tokens_insert. by eapply lookup_lt_Some.
Qed.

(** Any number of resumptions, in any order. *)
Corollary wakes_ok ixs s pool s' pool' :
  pool_ok s pool → wakes ixs (s, pool) = Some (s', pool') →
  guar s s' ∧ pool_ok s' pool'.
Proof.
  revert s pool. induction ixs as [|i ixs IH]; intros s pool Hok; simpl.
  - by intros [= <- <-].
  - destruct (wake i (s, pool)) as [[s1 pool1]|] eqn:Hw; [|done]. simpl.
    destruct (wake_ok _ _ _ _ _ Hok Hw) as [Hg1 Hok1].
    intros [Hg2 Hok2]%IH; [|done]. split; [by etrans|done].
Qed.
End logic.

(** [keeps B p] along the text of [p]; [leaf] proves it of the pieces. *)
Ltac keeps_walk leaf :=
  repeat first
    [ solve [leaf]
    | lazymatch goal with
      | |- keeps _ (pbind _ _) => apply keeps_bind; [|intros ?]
      | |- keeps _ (ptry_catch _ _) => apply keeps_try_catch; [|intros ?]
      | |- keeps _ (ptry_finally _ _) => apply keeps_try_finally
      | |- keeps _ (pfor_each _ _) => apply keeps_for_each; intros ? ?
      | |- keeps _ (pret _) => apply keeps_pret
      | |- keeps _ (pthrow _) => apply keeps_pthrow
      | |- keeps _ (if _ then _ else _) => apply keeps_if
      | |- keeps _ (let _ := _ in _) => cbv zeta
      | |- triple ?B ?p (λ _, ?B) => change (keeps B p)
      end ].
