(* ===== verification/EngineAsync.v ===== *)
(** * EngineAsync: the functions of the provider, [await] by [await]

    [Module Async] holds the functions of
    [src/context/TransactionContext.tsx] once more, as programs of [Await]:
    the same text as in [Engine], with every operation of the platform that
    the source awaits ([AsyncStorage.getItem], [AsyncStorage.setItem],
    [setDoc], [getDocs], [NetInfo.fetch], [sleep]) marked [await] and the
    rest marked [sync].  An [await] of a function of the provider itself is
    a [pbind]: it suspends nothing by itself.  [markTransactionAsSynced]
    awaits nothing (the write it starts is not awaited) and is one piece.

    The theorems [refines_*] say that forgetting the marks gives the
    functions of [Engine]: what [Engine] and the files after it prove is
    proved of these programs when nothing runs in between. *)

From S2P Require Import Prelude Effects Types Ledger Storage Remote.
From S2P Require Import Engine Await.

Module Async.
Section engine.
Context {R : Type} `{!RemoteLedger R}.

#[local] Abbreviation Job := (Prog (World R) Error).
#[local] Open Scope prog_scope.

(** [fetchServerTransactions] *)
Definition fetchServerTransactions (lastSyncTime : Z) :
    Job (list Transaction) :=
  ptry_catch (await (Firestore_getDocs lastSyncTime)) pthrow.

(** [getLastSyncTime] *)
Definition getLastSyncTime : Job Z :=
  ptry_catch
    (lastSync <- await (AsyncStorage_getItem "lastSyncTime" item_lastSyncTime) ;;
     pret (default epoch lastSync))
    (λ _, pret epoch).

(** [updateLastSyncTime] *)
Definition updateLastSyncTime (timestamp : Z) : Job unit :=
  ptry_catch
    (await (AsyncStorage_setItem "lastSyncTime" setItem_lastSyncTime timestamp))
    (λ _, pret ()).

(** [uploadTransaction] *)
Definition uploadTransaction (transaction : Transaction) : Job unit :=
  ptry_catch (await (Firestore_setDoc transaction)) pthrow.

(** [markTransactionAsSynced]: nothing is awaited. *)
Definition markTransactionAsSynced (i : string) : Job unit :=
  sync (Engine.markTransactionAsSynced i).

(** [attemptSyncTransaction], one turn of the loop. *)
Definition attempt_once (transaction : Transaction) (attempt : nat)
    (delay : Z) : Job (nat * bool * Z) :=
  ptry_catch
    (uploadTransaction transaction ;;
     markTransactionAsSynced (id transaction) ;;
     sync (Toast_show (toast_uploaded (id transaction))) ;;
     pret (attempt, true, delay))
    (λ _,
      let attempt := S attempt in
      if bool_decide (attempt < MAX_RETRIES)%nat then
        await (sleep delay) ;;
        pret (attempt, false, delay * 2)
      else
        sync (Toast_show (toast_upload_failed (id transaction))) ;;
        pret (attempt, false, delay)).

(** [attemptSyncTransaction], the loop on fuel. *)
Fixpoint attempt_loop (fuel : nat) (transaction : Transaction)
    (attempt : nat) (success : bool) (delay : Z) : Job unit :=
  if bool_decide (attempt < MAX_RETRIES)%nat && negb success then
    match fuel with
    | O => pthrow OutOfFuel
    | S fuel =>
        st <- attempt_once transaction attempt delay ;;
        let '(attempt, success, delay) := st in
        attempt_loop fuel transaction attempt success delay
    end
  else pret ().

(** [attemptSyncTransaction] *)
Definition attemptSyncTransaction (transaction : Transaction) : Job unit :=
  attempt_loop MAX_RETRIES transaction 0 false INITIAL_DELAY.

Section render.
Context (c : Closure).

(** [loadTransactions] *)
Definition loadTransactions : Job unit :=
  ptry_catch
    (storedTransactions <-
       await (AsyncStorage_getItem "transactions" item_transactions) ;;
     match storedTransactions with
     | Some l => sync (setTransactions l)
     | None =>
         sample <- sync (gets (λ w, sampleTransactions (env w))) ;;
         let initialized := initializedTransactions sample in
         sync (setTransactions initialized) ;;
         await (AsyncStorage_setItem "transactions" setItem_transactions
                  initialized)
     end)
    (λ _, sync (Toast_show toast_load_failed)).

(** [mergeTransactions]: nothing of the platform is awaited. *)
Definition mergeTransactions (serverTransactions : list Transaction) :
    Job (list Transaction) :=
  sync (Engine.mergeTransactions c serverTransactions).

(** [fetchAndMergeServerTransactions] *)
Definition fetchAndMergeServerTransactions : Job unit :=
  ptry_catch
    (lastSyncTime <- getLastSyncTime ;;
     serverTransactions <- fetchServerTransactions lastSyncTime ;;
     if bool_decide (0 < length serverTransactions)%nat then
       mergeTransactions serverTransactions ;;
       newSyncTime <- sync Date_now ;;
       updateLastSyncTime newSyncTime ;;
       sync (Toast_show (toast_merged (length serverTransactions)))
     else pret ())
    (λ _, sync (Toast_show toast_pull_failed)).

(** [syncSingleTransaction] *)
Definition syncSingleTransaction (transaction : Transaction) : Job unit :=
  if isSyncing c then pret ()
  else
    sync (setIsSyncing true) ;;
    ptry_finally
      (ptry_catch
         (isConnected <- await NetInfo_fetch ;;
          if negb isConnected then sync (Toast_show toast_offline)
          else attemptSyncTransaction transaction)
         (λ _, sync (Toast_show toast_sync_failed)))
      (sync (setIsSyncing false)).

(** [syncAllTransactions] *)
Definition syncAllTransactions : Job unit :=
  if isSyncing c then pret ()
  else
    sync (setIsSyncing true) ;;
    ptry_finally
      (ptry_catch
         (isConnected <- await NetInfo_fetch ;;
          if negb isConnected then sync (Toast_show toast_offline)
          else
            unsyncedTransactions <- sync (getUnsynced c) ;;
            (if bool_decide (0 < length unsyncedTransactions)%nat then
               sync (Toast_show (toast_syncing (length unsyncedTransactions))) ;;
               pfor_each attemptSyncTransaction unsyncedTransactions
             else pret ()) ;;
            fetchAndMergeServerTransactions)
         (λ _, sync (Toast_show toast_bulk_failed)))
      (sync (setIsSyncing false)).

(** [addTransaction] *)
Definition addTransaction (newTransaction : NewTransaction) : Job unit :=
  ptry_catch
    (u <- sync uuidv4 ;;
     let tx := transactionWithId newTransaction u in
     local <- sync (gets (array (transactions c))) ;;
     await (AsyncStorage_setItem "transactions" setItem_transactions
              (updatedTransactions local tx)) ;;
     prevTransactions <- sync (gets ledger) ;;
     sync (setTransactions (updatedTransactions prevTransactions tx)) ;;
     syncSingleTransaction tx)
    (λ _, sync (Toast_show toast_add_failed)).

(** [initialize] of the effect *)
Definition initialize : Job unit :=
  loadTransactions ;;
  sync (setLoading false).

(** The listener of the effect *)
Definition onNetInfo (isConnected : bool) : Job unit :=
  if isConnected && negb (loading c) then syncAllTransactions else pret ().
End render.
End engine.
End Async.

(** ** The programs refine the functions of [Engine] *)

(** [refine_walk] proves [interp p ≡ m] along the text of [p] and [m]. *)
Ltac refine_walk :=
  repeat first
    [ match goal with H : _ |- _ => apply H end
    | apply interp_sync | apply interp_await
    | apply interp_pret | apply interp_pthrow
    | apply refines_bind; [|intro]
    | apply refines_try_catch; [|intro]
    | apply refines_try_finally
    | apply refines_for_each; intro
    | progress cbv zeta
    | match goal with
      | |- interp (if ?b then _ else _) ≡ _ => destruct b
      | |- interp (match ?x with Some _ => _ | None => _ end) ≡ _ => destruct x
      | |- interp (let '(_, _) := ?x in _) ≡ _ => destruct x
      end ].

Section refinement.
Context {R : Type} `{!RemoteLedger R}.
Implicit Types (c : Closure) (tx : Transaction).

Lemma refines_fetchServerTransactions t :
  interp (Async.fetchServerTransactions (R:=R) t)
  ≡ Engine.fetchServerTransactions t.
Proof. unfold Async.fetchServerTransactions, fetchServerTransactions. refine_walk. Qed.

Lemma refines_getLastSyncTime :
  interp (Async.getLastSyncTime (R:=R)) ≡ Engine.getLastSyncTime.
Proof. unfold Async.getLastSyncTime, getLastSyncTime. refine_walk. Qed.

Lemma refines_updateLastSyncTime t :
  interp (Async.updateLastSyncTime (R:=R) t) ≡ Engine.updateLastSyncTime t.
Proof. unfold Async.updateLastSyncTime, updateLastSyncTime. refine_walk. Qed.

Lemma refines_uploadTransaction tx :
  interp (Async.uploadTransaction (R:=R) tx) ≡ Engine.uploadTransaction tx.
Proof. unfold Async.uploadTransaction, uploadTransaction. refine_walk. Qed.

Lemma refines_markTransactionAsSynced i :
  interp (Async.markTransactionAsSynced (R:=R) i)
  ≡ Engine.markTransactionAsSynced i.
Proof. apply interp_sync. Qed.

Lemma refines_attempt_once tx attempt delay :
  interp (Async.attempt_once (R:=R) tx attempt delay)
  ≡ Engine.attempt_once tx attempt delay.
Proof.
  unfold Async.attempt_once, attempt_once.
  pose proof (refines_uploadTransaction tx).
  pose proof (refines_markTransactionAsSynced (id tx)). refine_walk.
Qed.

Lemma refines_attempt_loop fuel tx attempt success delay :
  interp (Async.attempt_loop (R:=R) fuel tx attempt success delay)
  ≡ Engine.attempt_loop fuel tx attempt success delay.
Proof.
  revert attempt success delay.
  induction fuel as [|fuel IH]; intros attempt success delay;
    cbn [Async.attempt_loop attempt_loop]; destruct (_ && _); [done..| |done].
  apply refines_bind; [apply refines_attempt_once|].
  intros [[attempt' success'] delay']. apply IH.
Qed.

Lemma refines_attemptSyncTransaction tx :
  interp (Async.attemptSyncTransaction (R:=R) tx)
  ≡ Engine.attemptSyncTransaction tx.
Proof. apply refines_attempt_loop. Qed.

Lemma refines_loadTransactions :
  interp (Async.loadTransactions (R:=R)) ≡ Engine.loadTransactions.
Proof. unfold Async.loadTransactions, loadTransactions. refine_walk. Qed.

Lemma refines_fetchAndMergeServerTransactions c :
  interp (Async.fetchAndMergeServerTransactions (R:=R) c)
  ≡ Engine.fetchAndMergeServerTransactions c.
Proof.
  unfold Async.fetchAndMergeServerTransactions, fetchAndMergeServerTransactions.
  pose proof refines_getLastSyncTime.
  apply refines_try_catch; [|intro; refine_walk].
  apply refines_bind; [done|intros t].
  apply refines_bind; [apply refines_fetchServerTransactions|intros l].
  destruct (bool_decide _); [|done].
  apply refines_bind; [apply interp_sync|intros _].
  apply refines_bind; [apply interp_sync|intros t'].
  apply refines_bind; [apply refines_updateLastSyncTime|intros _].
  apply interp_sync.
Qed.

Lemma refines_syncSingleTransaction c tx :
  interp (Async.syncSingleTransaction (R:=R) c tx)
  ≡ Engine.syncSingleTransaction c tx.
Proof.
  unfold Async.syncSingleTransaction, syncSingleTransaction.
  pose proof (refines_attemptSyncTransaction tx). refine_walk.
Qed.

Lemma refines_syncAllTransactions c :
  interp (Async.syncAllTransactions (R:=R) c) ≡ Engine.syncAllTransactions c.
Proof.
  unfold Async.syncAllTransactions, syncAllTransactions.
  pose proof (refines_fetchAndMergeServerTransactions c).
  pose proof refines_attemptSyncTransaction. refine_walk.
Qed.

Lemma refines_addTransaction c n :
  interp (Async.addTransaction (R:=R) c n) ≡ Engine.addTransaction c n.
Proof.
  unfold Async.addTransaction, addTransaction.
  pose proof (refines_syncSingleTransaction c). refine_walk.
Qed.

Lemma refines_initialize :
  interp (Async.initialize (R:=R)) ≡ Engine.initialize.
Proof.
  unfold Async.initialize, initialize.
  pose proof refines_loadTransactions. refine_walk.
Qed.

Lemma refines_onNetInfo c b :
  interp (Async.onNetInfo (R:=R) c b) ≡ Engine.onNetInfo c b.
Proof.
  unfold Async.onNetInfo, onNetInfo.
  pose proof (refines_syncAllTransactions c). refine_walk.
Qed.

(** A program that refines a function and runs alone settles after
    [awaits] resumptions, as the function does. *)
Lemma alone_settles (p : Prog (World R) Error unit) m w :
  interp p ≡ m →
  drain (awaits p w) (settle p w).1 (settle p w).2
  = (Done (outcome m w), exec m w).
Proof. intros Hp. rewrite drain_awaits. unfold outcome, exec. by rewrite Hp. Qed.


End refinement.
