(* ===== verification/EngineRely.v ===== *)
(** * EngineRely: what the functions of the provider agree on

    The protocol of [Rely] for the provider.

    - A token is an identifier that [addTransaction] has drawn and not yet
      written anywhere.  [sound us w] is the invariant: the world is well
      formed ([inv] of [EngineInv]) and the identifiers [us] are in use and
      [nowhere] in it: in no array of the heap, not in the store, not in
      the sample data, not in the remote ledger.
    - [allowed w w'] is what a turn may do: the environment moves on, the
      trace grows at its end, an array of the heap keeps its identifiers,
      and [loading] does not become [true] again.
    - [clean us l w]: the list [l] can be written anywhere in [w]: its
      identifiers are unique, in use, and none of them is a token.
    - [listed i w]: the identifier is in an array of the heap.  It is a
      stable claim, and an identifier that is listed is no token.

    The second half proves, with the rules of [Rely], that the four entry
    points of the provider are [callable]: whatever functions are
    suspended, in whatever state they have left the world, a function that
    is called and every turn it takes afterwards keep [sound]. *)

From S2P Require Import Prelude Effects Types Ledger Storage Remote.
From S2P Require Import Engine EngineRules EngineOrder EngineInv EngineSpec.
From S2P Require Import Await Rely EngineAsync.

Section protocol.
Context {R : Type} `{!RemoteLedger R}.
Implicit Types (w : World R) (c : Closure) (u i : string).
Implicit Types (us : list string) (l : list Transaction).

(** ** The protocol *)

Record nowhere u w : Prop := mkNowhere {
  nw_heap ref : u ∉ ids (array ref w);
  nw_stored : u ∉ ids (stored (storage w));
  nw_sample : u ∉ ids (sampleTransactions (env w));
  nw_remote t : u ∉ ids (queryAfter t (remote w));
}.

Record sound us w : Prop := mkSound {
  sound_inv : inv w;
  sound_nodup : NoDup us;
  sound_used u : u ∈ us → used (env w) u;
  sound_nowhere u : u ∈ us → nowhere u w;
}.

Record allowed w w' : Prop := mkAllowed {
  allowed_env : env_le (env w) (env w');
  allowed_ids ref : ids (array ref w) ⊆ ids (array ref w');
  allowed_trace : trace w `prefix_of` trace w';
  allowed_loading : hook_loading w = false → hook_loading w' = false;
}.

Definition clean us l w : Prop :=
  known (env w) l ∧ ∀ u, u ∈ us → u ∉ ids l.

Definition listed i w : Prop := ∃ ref, i ∈ ids (array ref w).

#[global] Instance allowed_preorder : PreOrder allowed.
Proof.
  split; [by intros w|].
  intros w1 w2 w3 [? H12 ? ?] [? H23 ? ?].
  split; [by etrans|intros ref; etrans; [apply H12|apply H23]|by etrans|auto].
Qed.

Lemma sound_sub us us' w : us' ⊆+ us → sound us w → sound us' w.
Proof.
  intros Hsub [Hi Hn Hu Hw]. split; [done| |by eauto using elem_of_submseteq..].
  apply submseteq_Permutation in Hsub as [k Hk]. rewrite Hk in Hn.
  by apply NoDup_app in Hn as [? _].
Qed.

#[global] Instance engine_protocol : Protocol (World R) string :=
  {| holds := sound; guar := allowed; holds_sub := sound_sub |}.

(** The assertion of a function in the middle of a turn that holds the
    tokens [us] and claims [P]. *)
Definition mid us (P : World R → Prop) : Assn (S:=World R) (K:=string) :=
  λ others w0 w, allowed w0 w ∧ sound (us ++ others) w ∧ P w.

(** ** Clean lists *)

Lemma known_ids_perm e l l' : ids l' ≡ₚ ids l → known e l → known e l'.
Proof.
  intros Hp [Hu Hf]. split; [unfold unique_ids; by rewrite Hp|].
  apply Forall_forall. intros tx Htx.
  assert (id tx ∈ ids l) as (tx' & Htx' & <-)%elem_of_ids.
  { rewrite <- Hp. apply elem_of_ids. by exists tx. }
  by eapply (proj1 (Forall_forall _ _) Hf).
Qed.

Lemma clean_perm us l l' w : ids l' ≡ₚ ids l → clean us l w → clean us l' w.
Proof.
  intros Hp [Hk Hu]. split; [by eapply known_ids_perm|].
  intros u Hin. rewrite Hp. by apply Hu.
Qed.

Lemma clean_array us ref w : sound us w → clean us (array ref w) w.
Proof.
  intros [Hi _ _ Hw]. split; [by apply inv_array|].
  intros u Hu. apply (nw_heap _ _ (Hw u Hu)).
Qed.

Lemma clean_stored us w : sound us w → clean us (stored (storage w)) w.
Proof.
  intros [Hi _ _ Hw]. split; [apply Hi|].
  intros u Hu. apply (nw_stored _ _ (Hw u Hu)).
Qed.

Lemma clean_sample us w : sound us w → clean us (sampleTransactions (env w)) w.
Proof.
  intros [Hi _ _ Hw]. split; [apply Hi|].
  intros u Hu. apply (nw_sample _ _ (Hw u Hu)).
Qed.

Lemma clean_query us t w : sound us w → clean us (queryAfter t (remote w)) w.
Proof.
  intros [Hi _ _ Hw]. split; [by apply inv_query|].
  intros u Hu. apply (nw_remote _ _ (Hw u Hu)).
Qed.

Lemma clean_mark_synced us i l w : clean us l w → clean us (mark_synced i l) w.
Proof. apply clean_perm. by rewrite mark_synced_ids. Qed.

Lemma clean_initialized us l w :
  clean us l w → clean us (initializedTransactions l) w.
Proof. apply clean_perm. by rewrite initializedTransactions_ids. Qed.

Lemma clean_merge us l server w :
  clean us l w → clean us server w → clean us (merge l server) w.
Proof.
  intros [Hl Hul] [Hs Hus]. split; [by apply known_merge|].
  intros u Hu (tx & Htx & Hid)%elem_of_ids.
  apply elem_of_merge in Htx as [Htx|(tx' & Htx' & ->)].
  - apply (Hul u Hu), elem_of_ids. by exists tx.
  - apply (Hus u Hu), elem_of_ids. exists tx'. by rewrite <- Hid, with_synced_id.
Qed.

Lemma clean_push us l tx w :
  clean us l w → used (env w) (id tx) → id tx ∉ ids l → id tx ∉ us →
  clean us (updatedTransactions l tx) w.
Proof.
  intros [Hl Hul] Hused Hnew Hus. split; [by apply known_push|].
  intros u Hu. rewrite updatedTransactions_ids, elem_of_app, list_elem_of_singleton.
  intros [?| ->]; [by eapply Hul|done].
Qed.

Lemma clean_mono us l w w' : env_le (env w) (env w') → clean us l w → clean us l w'.
Proof. intros Hle [Hk Hu]. split; [by eapply known_mono|done]. Qed.

(** An identifier that is listed is in use and is no token. *)
Lemma listed_used us i w : sound us w → listed i w → used (env w) i ∧ i ∉ us.
Proof.
  intros Hs [ref Hi]. split.
  - eapply known_ids; [apply (inv_array _ ref), Hs|done].
  - intros Hu. by apply (nw_heap _ _ (sound_nowhere _ _ Hs i Hu) ref).
Qed.

Lemma listed_stable i : stable (listed i).
Proof. intros w w' Hw [ref Hi]. exists ref. by apply (allowed_ids _ _ Hw). Qed.

Lemma True_stable : stable (λ _ : World R, True).
Proof. done. Qed.

(** ** One step of a turn *)

(** [fine us w w']: the step from [w] to [w'] is allowed and leaves the
    world sound. *)
Definition fine us w w' : Prop := allowed w w' ∧ sound us w'.

(** A piece that needs nothing but the protocol. *)
Definition gentle {A} (m : M (World R) Error A) : Prop :=
  ∀ us w, sound us w → fine us w (exec m w).

Lemma fine_refl us w : sound us w → fine us w w.
Proof. by split. Qed.

Lemma fine_trans us w w1 w2 :
  fine us w w1 → (sound us w1 → fine us w1 w2) → fine us w w2.
Proof. intros [? Hs] H2. destruct (H2 Hs). split; [by etrans|done]. Qed.

(** A step that leaves the lists of the world alone. *)
Lemma fine_frame us w w' :
  sound us w → env_le (env w) (env w') →
  hook_transactions w' = hook_transactions w → heap w' = heap w →
  stored (storage w') = stored (storage w) → remote w' = remote w →
  trace w `prefix_of` trace w' →
  (hook_loading w = false → hook_loading w' = false) →
  fine us w w'.
Proof.
  intros [[H1 H2 H3 H4 H5 H6] Hn Hu Hw] Hle Hh Hp Hs Hr Ht Hl.
  assert (∀ ref, array ref w' = array ref w) as Ha.
  { intros ref. unfold array. by rewrite Hp. }
  split; [split; [done| |done..]|split; [split|done| |]].
  - intros ref. by rewrite Ha.
  - by rewrite Hh, Hp.
  - rewrite Hp. eapply Forall_impl; [done|]. intros l. by apply known_mono.
  - rewrite Hs. by eapply known_mono.
  - rewrite <- (proj2 (proj2 Hle)). by eapply known_mono.
  - rewrite Hr. intros t tx Htx. eapply used_mono; [done|]. by eapply H5.
  - by eapply uuid_fresh_mono.
  - intros u Hin. eapply used_mono; [done|]. by apply Hu.
  - intros u Hin. destruct (Hw u Hin) as [G1 G2 G3 G4].
    split; [intros ref; by rewrite Ha|by rewrite Hs|
            by rewrite <- (proj2 (proj2 Hle))|by rewrite Hr].
Qed.

(** [setTransactions(l)] *)
Lemma fine_install us l w :
  sound us w → clean us l w → fine us w (installed l w).
Proof.
  intros [Hi Hn Hu Hw] [Hk Hl].
  assert (∀ ref, ids (array ref w) ⊆ ids (array ref (installed l w))
                 ∧ (array ref (installed l w) = l
                    ∨ array ref (installed l w) = array ref w)) as Ha.
  { intros ref. unfold installed.
    change (array ref (set_hook_transactions ?n ?w')) with (array ref w').
    rewrite array_alloc. case_decide as E; [|by auto]. split; [|by left].
    unfold array. subst. rewrite lookup_ge_None_2 by lia. apply list_subseteq_nil. }
  split; [split; [done|apply Ha|done..]|].
  split; [by apply inv_setTransactions|done..|].
  intros u Hin. destruct (Hw u Hin) as [G1 G2 G3 G4]. split; [|done..].
  intros ref. destruct (proj2 (Ha ref)) as [-> | ->]; [by apply Hl|done].
Qed.

(** A write to an array in place that keeps its identifiers. *)
Lemma fine_write us ref l w :
  sound us w → clean us l w → ids (array ref w) ⊆ ids l →
  fine us w (set_heap (<[ref := l]> (heap w)) w).
Proof.
  intros [Hi Hn Hu Hw] [Hk Hl] Hsub.
  split; [split; [done| |done..]|split; [by apply inv_write|done..|]].
  - intros ref'. rewrite array_write. case_decide as E; [|done]. by destruct E as [-> _].
  - intros u Hin. destruct (Hw u Hin) as [G1 G2 G3 G4]. split; [|done..].
    intros ref'. rewrite array_write. case_decide; [by apply Hl|done].
Qed.

(** [AsyncStorage.setItem('transactions', l)] that resolves *)
Lemma fine_store us l w :
  sound us w → clean us l w →
  fine us w (set_storage (setItem_transactions l (storage w)) w).
Proof.
  intros [Hi Hn Hu Hw] [Hk Hl].
  split; [done|split; [by apply inv_set_transactions_item|done..|]].
  intros u Hin. destruct (Hw u Hin) as [G1 G2 G3 G4]. split; [done| |done..].
  by apply Hl.
Qed.

(** [setDoc] that resolves *)
Lemma fine_upload us tx w :
  sound us w → used (env w) (id tx) → id tx ∉ us →
  fine us w (set_remote (upload tx (remote w)) w).
Proof.
  intros [Hi Hn Hu Hw] Hused Hnew.
  split; [done|split; [by apply inv_upload|done..|]].
  intros u Hin. destruct (Hw u Hin) as [G1 G2 G3 G4]. split; [done..|].
  intros t (tx' & [Htx'|Hid]%queryAfter_upload_inv & <-)%elem_of_ids.
  - apply (G4 t), elem_of_ids. by exists tx'.
  - rewrite Hid in Hin. done.
Qed.

(** [uuidv4()]: the identifier drawn is a token from now on. *)
Lemma fine_draw us w :
  sound us w →
  allowed w (drawn w) ∧ sound (uuid (env w) (uuid_next (env w)) :: us) (drawn w).
Proof.
  intros Hs. destruct (fine_frame us w (drawn w)) as [Ha [Hi Hn Hu Hw]];
    [done|split_and!; simpl; [done|lia|done]|done..|].
  split; [done|]. destruct Hs as [Hi0 _ Hu0 Hw0].
  assert (∀ l, known (env w) l → uuid (env w) (uuid_next (env w)) ∉ ids l) as Hfresh.
  { intros l. apply known_next_fresh. }
  split; [done| | |].
  - apply NoDup_cons. split; [|done]. intros Hin. by apply (Hu0 _ Hin (uuid_next (env w))).
  - intros u [->|Hin]%elem_of_cons; [|by apply Hu].
    by apply (used_draw w).
  - intros u [->|Hin]%elem_of_cons; [|by apply Hw]. split.
    + intros ref. apply Hfresh, (inv_array w), Hi0.
    + apply Hfresh, Hi0.
    + apply Hfresh, Hi0.
    + intros t. apply Hfresh, (inv_query w), Hi0.
Qed.

Lemma mid_fine us (P : World R → Prop) others w0 w w' :
  stable P → mid us P others w0 w →
  (sound (us ++ others) w → fine (us ++ others) w w') →
  mid us P others w0 w'.
Proof.
  intros HP (Ha & Hs & Hp) Hf. destruct (Hf Hs) as [Ha' Hs'].
  split_and!; [by etrans|done|by eapply HP].
Qed.

(** A gentle piece keeps the assertion of the function that runs it, at
    once or awaited. *)
Lemma gentle_sync {A} us (P : World R → Prop) (m : M (World R) Error A) :
  gentle m → stable P → keeps (mid us P) (sync m).
Proof.
  intros Hm HP. apply triple_sync. intros others w0 w Hmid.
  eapply mid_fine; [done..|]. apply Hm.
Qed.

Lemma gentle_await {A} us (P : World R → Prop) (m : M (World R) Error A) :
  gentle m → stable P → keeps (mid us P) (await m).
Proof.
  intros Hm HP. apply (triple_await us P); [done|done|].
  intros others w Hs Hp. apply (mid_fine us P others w w); [done| |apply Hm].
  by split_and!.
Qed.
End protocol.

(** A piece that leaves the lists of the world alone, by its run. *)
Ltac frame_run :=
  intros us w Hs; wp_start; wp_go; repeat case_match;
  (apply fine_frame;
   [done|env_le_solve|done|done|done|done|first [done|by eexists]|done]).

Create HintDb gentle discriminated.

Section pieces.
Context {R : Type} `{!RemoteLedger R}.
Implicit Types (w : World R) (c : Closure) (u i : string).
Implicit Types (us : list string) (l : list Transaction).

Lemma gentle_ret {A} (a : A) : gentle (R:=R) (ret a).
Proof. intros us w Hs. by apply fine_refl. Qed.

Lemma gentle_gets {A} (f : World R → A) : gentle (gets f).
Proof. intros us w Hs. by apply fine_refl. Qed.

Lemma gentle_Toast_show t : gentle (R:=R) (Toast_show t).
Proof. frame_run. Qed.

Lemma gentle_NetInfo_fetch : gentle (R:=R) NetInfo_fetch.
Proof. frame_run. Qed.

Lemma gentle_sleep ms : gentle (R:=R) (sleep ms).
Proof. frame_run. Qed.

Lemma gentle_Date_now : gentle (R:=R) Date_now.
Proof. frame_run. Qed.

Lemma gentle_setIsSyncing b : gentle (R:=R) (setIsSyncing b).
Proof. frame_run. Qed.

Lemma gentle_setLoading_false : gentle (R:=R) (setLoading false).
Proof. frame_run. Qed.

Lemma gentle_getItem {A} key (item : AsyncStorage → option A) :
  gentle (R:=R) (AsyncStorage_getItem key item).
Proof. frame_run. Qed.

Lemma gentle_setItem_lastSyncTime t :
  gentle (R:=R) (AsyncStorage_setItem "lastSyncTime" setItem_lastSyncTime t).
Proof. frame_run. Qed.

Lemma gentle_getDocs t : gentle (R:=R) (Firestore_getDocs t).
Proof. frame_run. Qed.

(** The world after a call was logged. *)
Lemma fine_logged us set script ev w :
  (∀ v e, uuid (set v e) = uuid e ∧ uuid_next (set v e) = uuid_next e
          ∧ sampleTransactions (set v e) = sampleTransactions e) →
  sound us w → fine us w (logged set script ev w).
Proof.
  intros Hset Hs. apply fine_frame; [done| |done..|by eexists|done].
  apply (ext_env _ _ (extends_logged set script ev w Hset)).
Qed.

(** [AsyncStorage.setItem('transactions', l)], resolved or rejected. *)
Lemma fine_saved us l w : sound us w → clean us l w → fine us w (saved l w).
Proof.
  intros Hs Hl. unfold saved.
  apply (fine_trans _ _ (logged set_writes writes (ESetItem "transactions") w));
    [by apply fine_logged|]. intros Hs'.
  case_match; [|by apply fine_refl].
  apply (fine_store us l (logged set_writes writes (ESetItem "transactions") w));
    [done|].
  by eapply clean_mono; [|done]; env_le_solve.
Qed.

Lemma exec_setItem_transactions l w :
  exec (AsyncStorage_setItem "transactions" setItem_transactions l) w = saved l w.
Proof. wp_start. wp_go. unfold saved. by case_match. Qed.

(** [setDoc] of a transaction whose identifier is listed, resolved or
    rejected. *)
Lemma fine_setDoc us tx w :
  sound us w → listed (id tx) w → fine us w (exec (Firestore_setDoc tx) w).
Proof.
  intros Hs [Hused Hnew]%(listed_used us). 2: done.
  wp_start. wp_go. case_match; [|by apply fine_logged].
  apply (fine_trans _ _ (logged set_uploads uploads (ESetDoc tx) w));
    [by apply fine_logged|]. intros Hs'.
  apply (fine_upload us tx (logged set_uploads uploads (ESetDoc tx) w));
    [done| |done].
  eapply used_mono; [|done]. env_le_solve.
Qed.

(** [mergeTransactions] of a clean list. *)
Lemma fine_merged us c server w :
  sound us w → clean us server w → fine us w (merged_into c server w).
Proof.
  intros Hs Hl. apply fine_write; [done| |].
  - by apply clean_merge; [apply clean_array|].
  - apply ledger_le_ids, merge_le.
Qed.

(** [markTransactionAsSynced] needs nothing: it maps over the list of the
    hook and writes the result to the store and to the hook. *)
Lemma gentle_markTransactionAsSynced i : gentle (R:=R) (markTransactionAsSynced i).
Proof.
  intros us w Hs.
  assert (clean us (mark_synced i (ledger w)) w) as Hl
    by by apply clean_mark_synced, clean_array.
  wp_start. rewrite wp_markTransactionAsSynced. unfold marked.
  eapply fine_trans; [by apply fine_saved|]. intros Hs'.
  apply fine_install; [done|]. eapply clean_mono; [|done].
  unfold saved. env_le_solve.
Qed.
End pieces.

#[export] Hint Resolve gentle_ret gentle_gets gentle_Toast_show
  gentle_NetInfo_fetch gentle_sleep gentle_Date_now gentle_setIsSyncing
  gentle_setLoading_false gentle_getItem gentle_setItem_lastSyncTime
  gentle_getDocs gentle_markTransactionAsSynced listed_stable True_stable
  : gentle.
