(* ===== verification/EngineTurns.v ===== *)
(** * EngineTurns: the functions of the provider keep the protocol

    Every function of [Module Async], in the logic of [Rely] with the
    protocol of [EngineRely]: in whatever state the other functions leave
    the world between two of its turns, a function of the provider keeps
    the world [sound] and every turn it takes is [allowed].

    The functions that only call gentle pieces keep the assertion [mid us P]
    of their caller for any tokens [us] and any stable claim [P]
    ([keeps_walk]).  The others make a claim of their own:
    - an upload claims that the identifier it uploads is [listed];
    - [syncAllTransactions] claims it of the entries it read from the array
      of its closure;
    - [addTransaction] holds the identifier it drew as a token until the
      entry is in the list of the hook, and claims that the array it read
      keeps its identifiers;
    - [loadTransactions] claims the sample data it read.

    [callable_*]: the entry points can be called at any time. *)

From S2P Require Import Prelude Effects Types Ledger Storage Remote.
From S2P Require Import Engine EngineRules EngineOrder EngineInv EngineSpec.
From S2P Require Import Await Rely EngineAsync EngineRely.

(** The pieces that need nothing. *)
Ltac gentle_leaf :=
  first [ apply gentle_sync; solve [auto with gentle]
        | apply gentle_await; solve [auto with gentle]
        | match goal with H : _ |- _ => apply H end ].

Section kept.
Context {R : Type} `{!RemoteLedger R}.
Context (us : list string) (P : World R → Prop) (HP : stable P).
Implicit Types (w : World R) (c : Closure) (tx : Transaction).

#[local] Abbreviation here := (mid us P).

Lemma turns_getLastSyncTime : keeps here Async.getLastSyncTime.
Proof. unfold Async.getLastSyncTime. keeps_walk gentle_leaf. Qed.

Lemma turns_updateLastSyncTime t : keeps here (Async.updateLastSyncTime t).
Proof. unfold Async.updateLastSyncTime. keeps_walk gentle_leaf. Qed.

Lemma turns_markTransactionAsSynced i : keeps here (Async.markTransactionAsSynced i).
Proof. unfold Async.markTransactionAsSynced. gentle_leaf. Qed.

(** What [fetchServerTransactions] answers is clean in the turn that
    receives it. *)
Lemma triple_fetchServerTransactions t :
  triple here (Async.fetchServerTransactions t)
    (λ o others w0 w,
       here others w0 w ∧ ∀ server, o = Ok server → clean (us ++ others) server w).
Proof.
  unfold Async.fetchServerTransactions.
  apply (triple_try_catch _ _ _ (λ _, here)).
  - apply (triple_await us P); [done..|]. intros others w Hs Hp.
    assert (here others w w) as Hw by by split_and!.
    wp_start. rewrite wp_getDocs.
    assert (here others w (logged set_queries queries (EGetDocs t) w)) as Hw'.
    { eapply mid_fine; [done..|]. intros _. by apply fine_logged. }
    case_match; [|done]. split; [done|]. intros server [= <-].
    eapply clean_mono; [|by apply clean_query]. env_le_solve.
  - intros e. apply triple_pthrow. intros others w0 w Hw. by split.
Qed.

Lemma turns_mergeTransactions c server :
  triple (λ others w0 w, here others w0 w ∧ clean (us ++ others) server w)
    (Async.mergeTransactions c server) (λ _, here).
Proof.
  apply triple_sync. intros others w0 w [Hw Hl].
  wp_start. rewrite wp_mergeTransactions.
  eapply mid_fine; [done..|]. intros Hs. by apply fine_merged.
Qed.

Lemma turns_fetchAndMergeServerTransactions c :
  keeps here (Async.fetchAndMergeServerTransactions c).
Proof.
  unfold Async.fetchAndMergeServerTransactions.
  apply keeps_try_catch; [|intros ?; gentle_leaf].
  apply keeps_bind; [apply turns_getLastSyncTime|intros t].
  eapply triple_bind; [|intros server; apply triple_if; intros Hlen].
  - eapply triple_conseq; [apply triple_fetchServerTransactions|done|].
    intros [server|e] others w0 w [Hw Hl]; [|done].
    exact (conj Hw (Hl server eq_refl)).
  - apply (triple_bind _ _ _ (λ _, here)); [|intros ?].
    + eapply triple_conseq; [apply turns_mergeTransactions|done|].
      by intros [l|e].
    + pose proof turns_updateLastSyncTime.
      keeps_walk gentle_leaf.
  - apply triple_pret. by intros others w0 w [Hw _].
Qed.

(** An upload, of a transaction the function claims is listed. *)
Section upload.
Context (tx : Transaction) (Hlisted : ∀ w, P w → listed (id tx) w).

Lemma turns_setDoc : keeps here (await (Firestore_setDoc tx)).
Proof.
  apply (triple_await us P); [done..|]. intros others w Hs Hp.
  apply (mid_fine us P others w w); [done|by split_and!|].
  intros _. by apply fine_setDoc, Hlisted.
Qed.

Lemma turns_uploadTransaction : keeps here (Async.uploadTransaction tx).
Proof.
  unfold Async.uploadTransaction. pose proof turns_setDoc.
  keeps_walk gentle_leaf.
Qed.

Lemma turns_attempt_once attempt delay :
  keeps here (Async.attempt_once tx attempt delay).
Proof.
  unfold Async.attempt_once.
  pose proof turns_uploadTransaction. pose proof turns_markTransactionAsSynced.
  keeps_walk gentle_leaf.
Qed.

Lemma turns_attempt_loop fuel attempt success delay :
  keeps here (Async.attempt_loop fuel tx attempt success delay).
Proof.
  revert attempt success delay.
  induction fuel as [|fuel IH]; intros attempt success delay;
    cbn [Async.attempt_loop]; (apply keeps_if; [|apply keeps_pret]).
  - apply keeps_pthrow.
  - apply keeps_bind; [apply turns_attempt_once|]. intros [[? ?] ?]. apply IH.
Qed.

Lemma turns_attemptSyncTransaction :
  keeps here (Async.attemptSyncTransaction tx).
Proof. apply turns_attempt_loop. Qed.

Lemma turns_syncSingleTransaction c :
  keeps here (Async.syncSingleTransaction c tx).
Proof.
  unfold Async.syncSingleTransaction. pose proof turns_attemptSyncTransaction.
  keeps_walk gentle_leaf.
Qed.
End upload.
End kept.

(** ** The entry points *)

Section entries.
Context {R : Type} `{!RemoteLedger R}.
Implicit Types (w : World R) (c : Closure) (tx : Transaction) (u : string).
Implicit Types (us : list string) (P : World R → Prop).

(** A function that was called holds no token and claims nothing. *)
#[local] Abbreviation bare := (mid (R:=R) [] (λ _, True)).

Lemma stable_and P Q : stable P → stable Q → stable (λ w, P w ∧ Q w).
Proof. intros HP HQ w w' Hw [? ?]. split; [by eapply HP|by eapply HQ]. Qed.

Lemma mid_weaken us us' P P' others w0 w :
  us' ⊆+ us → (∀ w, P w → P' w) → mid us P others w0 w → mid us' P' others w0 w.
Proof.
  intros Hsub HPP (Ha & Hs & Hp). split_and!; [done| |by apply HPP].
  eapply sound_sub; [|done]. by apply submseteq_app.
Qed.

Lemma callable_keeps (p : Prog (World R) Error unit) : keeps bare p → callable p.
Proof.
  intros Hp others w Hs. eapply wpp_mono; [|apply Hp; by split_and!].
  by intros o others' w0 w' (Ha & Hs' & _).
Qed.

(** [syncAllTransactions] claims that the entries it read are listed. *)
Lemma turns_syncAllTransactions us P c :
  stable P → keeps (mid us P) (Async.syncAllTransactions c).
Proof.
  intros HP. unfold Async.syncAllTransactions.
  apply keeps_if; [apply keeps_pret|]. apply keeps_bind; [gentle_leaf|intros _].
  apply keeps_try_finally; [|gentle_leaf].
  apply keeps_try_catch; [|intros ?; gentle_leaf].
  apply keeps_bind; [gentle_leaf|intros isConnected]. apply keeps_if; [gentle_leaf|].
  apply (triple_bind _ _ _
    (λ unsynced, mid us (λ w, P w ∧ ∀ tx, tx ∈ unsynced → listed (id tx) w))).
  - apply triple_sync. intros others w0 w (Ha & Hs & Hp).
    split_and!; [done..|]. intros tx [Htx _]%elem_of_getUnsyncedTransactions.
    exists (transactions c). apply elem_of_ids. by exists tx.
  - intros unsynced.
    assert (stable (λ w, P w ∧ ∀ tx, tx ∈ unsynced → listed (id tx) w)) as HP'.
    { apply stable_and; [done|]. intros w w' Hw Hl tx Htx.
      by eapply listed_stable, Hl. }
    eapply keeps_triple; [|done|intros _ ????; by eapply mid_weaken; [| |done]; [done|intros ? [? _]]].
    pose proof (turns_fetchAndMergeServerTransactions us _ HP' c).
    keeps_walk gentle_leaf.
    apply turns_attemptSyncTransaction; [done|]. intros w [_ Hl]. by apply Hl.
Qed.

Lemma turns_onNetInfo us P c b : stable P → keeps (mid us P) (Async.onNetInfo c b).
Proof.
  intros HP. unfold Async.onNetInfo.
  apply keeps_if; [by apply turns_syncAllTransactions|apply keeps_pret].
Qed.

(** [loadTransactions]: what the store answers is clean in the turn that
    receives it, and the sample data stays what it is. *)
Lemma turns_loadTransactions : keeps bare (Async.loadTransactions (R:=R)).
Proof.
  unfold Async.loadTransactions. apply keeps_try_catch; [|intros ?; gentle_leaf].
  apply (triple_bind _ _ _
    (λ o others w0 w, bare others w0 w ∧ ∀ l, o = Some l → clean others l w)).
  - apply (triple_await [] (λ _, True)); [done..|]. intros others w Hs _.
    assert (bare others w (logged set_reads reads (EGetItem "transactions") w)).
    { apply (mid_fine _ _ _ w w); [done|by split_and!|]. intros _. by apply fine_logged. }
    wp_start. rewrite wp_getItem. case_match; [|done]. split; [done|].
    intros l Hl. assert (stored (storage w) = l) as <- by (unfold stored; by rewrite Hl).
    eapply clean_mono; [|apply (clean_stored others w Hs)]. env_le_solve.
  - intros [l|].
    + apply triple_sync. intros others w0 w [Hw Hl].
      eapply mid_fine; [done..|]. intros Hs. apply fine_install; [done|by apply Hl].
    + set (P3 := λ sample (w : World R), sample = sampleTransactions (env w)).
      assert (∀ sample, stable (P3 sample)) as HP3.
      { intros sample w w' Hw ->. apply (allowed_env _ _ Hw). }
      apply (triple_bind _ _ _ (λ sample, mid [] (P3 sample))).
      { apply triple_sync. by intros others w0 w [(Ha & Hs & _) _]; split_and!. }
      intros sample. cbv zeta. apply (triple_bind _ _ _ (λ _, mid [] (P3 sample))).
      * apply triple_sync. intros others w0 w Hw.
        eapply mid_fine; [done..|]. intros Hs. apply fine_install; [done|].
        destruct Hw as (_ & _ & ->). by apply clean_initialized, clean_sample.
      * intros _. apply (triple_await [] (P3 sample)); [done..|].
        intros others w Hs ->. rewrite exec_setItem_transactions.
        apply (mid_fine _ _ _ w w); [done|by split_and!|]. intros _.
        by apply fine_saved, clean_initialized, clean_sample.
Qed.

Lemma turns_initialize : keeps bare (Async.initialize (R:=R)).
Proof.
  unfold Async.initialize. apply keeps_bind; [apply turns_loadTransactions|].
  intros _. by gentle_leaf.
Qed.

(** [addTransaction], once the write to the store has resolved: the
    identifier is in use, it is no token of another function, and it is in
    no array yet. *)
Definition saved_first u : Assn (S:=World R) (K:=string) :=
  λ others w0 w,
    allowed w0 w ∧ sound others w ∧ used (env w) u ∧ (u ∉ others)
    ∧ ∀ ref, u ∉ ids (array ref w).

(** The array the function read keeps its identifiers. *)
Definition read_from c (local : list Transaction) w : Prop :=
  known (env w) local ∧ ids local ⊆ ids (array (transactions c) w).

Lemma read_from_stable c local : stable (read_from c local).
Proof.
  intros w w' Hw [Hk Hsub]. split.
  - eapply known_mono; [apply (allowed_env _ _ Hw)|done].
  - etrans; [done|apply (allowed_ids _ _ Hw)].
Qed.

Lemma add_save c n u local :
  triple (mid [u] (read_from c local))
    (await (AsyncStorage_setItem "transactions" setItem_transactions
              (updatedTransactions local (transactionWithId n u))))
    (λ o, match o with Ok _ => saved_first u | Throw _ => bare end).
Proof.
  apply (triple_await [u] (read_from c local)); [apply read_from_stable|done|].
  intros others w Hs [Hk Hsub].
  assert (sound others w) as Hso by (eapply sound_sub; [apply submseteq_cons|done]; done).
  destruct (sound_nowhere _ _ Hs u) as [Hheap _ _ _]; [by left|].
  assert (used (env w) u) as Hused by (apply (sound_used _ _ Hs); by left).
  assert (u ∉ others) as Hno by by apply NoDup_cons_1_1, (sound_nodup _ _ Hs).
  assert (clean others (updatedTransactions local (transactionWithId n u)) w) as Hl.
  { apply clean_push; [split; [done|]|done| |done].
    - intros o Ho Hin%Hsub.
      exact (nw_heap _ _ (sound_nowhere _ _ Hso o Ho) (transactions c) Hin).
    - intros Hin%Hsub. exact (Hheap (transactions c) Hin). }
  destruct (fine_saved others _ w Hso Hl) as [Ha Hs']. revert Ha Hs'.
  wp_start. rewrite wp_setItem. unfold saved. case_match; intros Ha Hs'.
  - split_and!; [done..| |done|done].
    eapply used_mono; [apply (allowed_env _ _ Ha)|done].
  - by split_and!.
Qed.

Lemma add_install c n u :
  triple (saved_first u)
    (prevTransactions <- sync (gets ledger) ;;
     sync (setTransactions
             (updatedTransactions prevTransactions (transactionWithId n u))) ;;
     Async.syncSingleTransaction c (transactionWithId n u))%prog
    (λ _, bare).
Proof.
  apply (triple_bind _ _ _
    (λ prev others w0 w, saved_first u others w0 w ∧ prev = ledger w)).
  { apply triple_sync. by intros others w0 w Hw. }
  intros prev. apply (triple_bind _ _ _ (λ _, mid [] (listed u))).
  - apply triple_sync. intros others w0 w [(Ha & Hs & Hu & Hno & Hnew) ->].
    destruct (fine_install others
      (updatedTransactions (ledger w) (transactionWithId n u)) w) as [Ha' Hs'];
      [done|apply clean_push; [by apply clean_array|done|apply Hnew|done]|].
    split_and!; [by etrans|done|]. exists (length (heap w)).
    change (array (length (heap w)) (exec _ w)) with (ledger (installed
      (updatedTransactions (ledger w) (transactionWithId n u)) w)).
    unfold installed. rewrite ledger_setTransactions, updatedTransactions_ids.
    apply elem_of_app. right. by left.
  - intros _. eapply keeps_triple.
    + by apply (turns_syncSingleTransaction [] (listed u) (listed_stable u)).
    + done.
    + intros _ ????. by eapply mid_weaken.
Qed.

(** [addTransaction] holds the identifier it drew until the entry is in
    the list of the hook. *)
Lemma turns_addTransaction c n : keeps bare (Async.addTransaction c n).
Proof.
  unfold Async.addTransaction. apply keeps_try_catch; [|intros ?; gentle_leaf].
  apply (triple_bind _ _ _ (λ u, mid [u] (λ _, True))).
  - apply triple_sync. intros others w0 w (Ha & Hs & _).
    wp_start. rewrite wp_uuidv4. destruct (fine_draw _ w Hs) as [Ha' Hs'].
    split_and!; [by etrans|done..].
  - intros u. cbv zeta.
    apply (triple_bind _ _ _ (λ local, mid [u] (read_from c local))).
    + apply triple_sync. intros others w0 w (Ha & Hs & _).
      split_and!; [done..|]. split; [apply inv_array, Hs|done].
    + intros local. apply (triple_bind _ _ _ (λ _, saved_first u));
        [apply add_save|intros _; apply add_install].
Qed.

Theorem callable_initialize : callable (Async.initialize (R:=R)).
Proof. apply callable_keeps, turns_initialize. Qed.

Theorem callable_onNetInfo c b : callable (Async.onNetInfo (R:=R) c b).
Proof. by apply callable_keeps, turns_onNetInfo. Qed.

Theorem callable_addTransaction c n : callable (Async.addTransaction (R:=R) c n).
Proof. apply callable_keeps, turns_addTransaction. Qed.
End entries.
