(* ===== verification/Schedule.v ===== *)
(** * Schedule: the provider with several functions under way

    [Lifecycle] runs every task to its end before the next one starts.  The
    event loop does not wait: while a function of the provider is suspended
    at an [await], NetInfo may call the listener, the form may call
    [addTransaction], React may run the effect.  [Sys] is the provider with
    the pool of its suspended functions, and a [Move] is what the event loop
    does next: it calls into the provider ([Call]), or the operation that a
    suspended function awaits settles ([Settle]).

    - [run_is_schedule]: every run of [Lifecycle] is the schedule in which
      each function is resumed until it has settled before the next call.
    - [listener_never_guarded], [events_pile_up]: the listener starts a
      sync cycle at every change of connectivity, also while cycles are
      under way, because the [isSyncing] of its closure stays [false].
    - [every_schedule_wellformed]: the states of every schedule satisfy
      [sys_ok], the protocol of [EngineRely] for the functions that are
      suspended; the world of the provider stays well formed.
    - [guard_never_holds], [cycles_overlap]: in every state of every
      schedule the guard of the listener lets a new cycle start; two
      cycles that overlap upload every entry twice. *)

From S2P Require Import Prelude Effects Types Ledger Sample Storage Remote.
From S2P Require Import Engine EngineRules EngineOrder EngineInv EngineSpec.
From S2P Require Import EngineFrame SyncProps Views Lifecycle Await EngineAsync.
From S2P Require Import Rely EngineRely EngineTurns.

Section schedule.
Context {R : Type} `{!RemoteLedger R}.
Implicit Types (w : World R) (c : Closure) (a : App (R:=R)).

#[local] Abbreviation Job := (Prog (World R) Error).

(** The provider and its suspended functions. *)
Record Sys : Type := mkSys {
  app : App (R:=R);
  pool : list (Job unit);
}.

(** The provider with nothing under way. *)
Definition idle a : Sys := mkSys a [].

Inductive Move : Set :=
  | Call (t : Task)    (** the event loop calls into the provider *)
  | Settle (i : nat).  (** what the function at index [i] awaits settles *)

(** The function a task calls, when the task is enabled. *)
Definition program (t : Task) a : option (Job unit) :=
  match t with
  | RunEffect => if decide (effect_due a) then Some Async.initialize else None
  | NetInfoEvent b => c ← listener a; Some (Async.onNetInfo c b)
  | Submit n => Some (Async.addTransaction (render (world a)) n)
  | ShowHome => Some (sync (HomeScreen (render (world a))) ;; pret ())%prog
  end.

(** What a call leaves in the provider besides the function it started:
    the effect registers its listener, for the closure of its render. *)
Definition registered (t : Task) a : App :=
  match t with
  | RunEffect =>
      let c := render (world a) in mkApp (world a) (Some c) (Some (loading c))
  | _ => a
  end.

Definition put a (st : World R * list (Job unit)) : Sys :=
  mkSys (set_world st.1 a) st.2.

Definition move (mv : Move) (s : Sys) : option Sys :=
  match mv with
  | Call t =>
      p ← program t (app s);
      Some (put (registered t (app s)) (spawn p (world (app s), pool s)))
  | Settle i => put (app s) <$> wake i (world (app s), pool s)
  end.

Fixpoint play (ms : list Move) (s : Sys) : option Sys :=
  match ms with
  | [] => Some s
  | mv :: ms => s' ← move mv s; play ms s'
  end.

(** The schedule of [Lifecycle]: the function is called and resumed until
    it has settled. *)
Definition alone (t : Task) a : list Move :=
  Call t :: match program t a with
            | Some p => replicate (awaits p (world a)) (Settle 0)
            | None => []
            end.

Fixpoint in_turn (ts : list Task) a : list Move :=
  match ts with
  | [] => []
  | t :: ts => alone t a ++ in_turn ts (default a (run_task t a))
  end.

(** ** Moves *)

Lemma play_app ms1 ms2 s :
  play (ms1 ++ ms2) s = play ms1 s ≫= play ms2.
Proof.
  revert s. induction ms1 as [|mv ms1 IH]; intros s; simpl; [done|].
  destruct (move mv s) as [s'|]; simpl; [apply IH|done].
Qed.

Lemma play_settles ixs a st :
  play (Settle <$> ixs) (put a st) = put a <$> wakes ixs st.
Proof.
  revert st. induction ixs as [|i ixs IH]; intros [w pl]; [done|].
  cbn [fmap list_fmap play move wakes].
  change (wake i _) with (wake i (w, pl)).
  destruct (wake i (w, pl)) as [st'|]; [apply (IH st')|done].
Qed.

(** What a function run in one piece leaves of the provider. *)
Lemma program_run_task t a p :
  program t a = Some p →
  run_task t a = Some (set_world (exec (interp p) (world a)) (registered t a)).
Proof.
  destruct t as [|b|n|]; simpl.
  - case_decide; [|done]. intros [= <-].
    by rewrite (exec_proper _ _ refines_initialize _ _ eq_refl).
  - destruct (listener a) as [c|]; [|done]. simpl. intros [= <-].
    by rewrite (exec_proper _ _ (refines_onNetInfo c b) _ _ eq_refl).
  - intros [= <-].
    by rewrite (exec_proper _ _ (refines_addTransaction _ n) _ _ eq_refl).
  - by intros [= <-].
Qed.

Lemma program_enabled t a : is_Some (program t a) ↔ is_Some (run_task t a).
Proof.
  destruct t as [|b|n|]; simpl; [case_decide|destruct (listener a)|..];
    split; intros [? ?]; by eauto.
Qed.

Lemma play_alone t a a' :
  run_task t a = Some a' → play (alone t a) (idle a) = Some (idle a').
Proof.
  intros Hrun. destruct (proj2 (program_enabled t a)) as [p Hp]; [by eexists|].
  rewrite (program_run_task _ _ _ Hp) in Hrun. injection Hrun as <-.
  unfold alone. rewrite Hp. cbn [play move idle app pool]. rewrite Hp. simpl.
  rewrite <- (fmap_replicate Settle), play_settles.
  replace (world (registered t a)) with (world a) by by destruct t.
  by rewrite spawn_alone.
Qed.


(** The guard of the listener never holds a cycle back: once the
    listener has the closure of a render in which nothing was syncing and
    loading had ended, a change of connectivity starts a sync cycle that
    sets [isSyncing] and is suspended at [NetInfo.fetch], whatever the hook
    says and whatever is under way. *)
Theorem listener_never_guarded c s :
  listener (app s) = Some c → isSyncing c = false → loading c = false →
  ∃ k, move (Call (NetInfoEvent true)) s
       = Some (mkSys (set_world (set_hook_isSyncing true (world (app s))) (app s))
                 (pool s ++ [Node true NetInfo_fetch k])).
Proof.
  intros Hl Hs Hc. eexists. cbn [move program]. rewrite Hl. cbn [mbind option_bind].
  unfold Async.onNetInfo, Async.syncAllTransactions. rewrite Hs, Hc.
  reflexivity.
Qed.

(** Changes of connectivity pile cycles up: after [n] events in a row
    there are [n] more sync cycles under way at once. *)
Theorem events_pile_up c n s :
  listener (app s) = Some c → isSyncing c = false → loading c = false →
  ∃ s', play (replicate n (Call (NetInfoEvent true))) s = Some s'
        ∧ length (pool s') = (length (pool s) + n)%nat
        ∧ listener (app s') = Some c.
Proof.
  intros Hl Hs Hc. revert s Hl.
  induction n as [|n IH]; intros s Hl; [exists s; split_and!; [done|lia|done]|].
  destruct (listener_never_guarded c s Hl Hs Hc) as [k Hk].
  cbn [replicate play]. rewrite Hk. cbn [mbind option_bind].
  match goal with
  | |- context [play _ ?s1] => destruct (IH s1 Hl) as (s' & Hplay & Hlen & Hl')
  end. exists s'.
  split_and!; [done| |done]. rewrite Hlen. cbn [pool]. rewrite length_app. simpl. lia.
Qed.

(** ** Every schedule *)

(** The invariant of the states of every schedule: the protocol of
    [EngineRely] holds of the world for the tokens of the suspended
    functions, and each of them is parked with a claim that holds. *)
Definition sys_ok (s : Sys) : Prop := pool_ok (world (app s)) (pool s).

(** A render of the dashboard sorts the array of its closure in place. *)
Lemma callable_HomeScreen c : callable (sync (HomeScreen (R:=R) c) ;; pret ())%prog.
Proof.
  apply callable_keeps, keeps_bind; [|intros ?; apply keeps_pret].
  apply triple_sync. intros others w0 w Hw.
  eapply mid_fine; [done..|]. intros Hs.
  apply (fine_write _ (transactions c)); [done| |by rewrite sort_by_date_ids].
  eapply clean_perm; [apply sort_by_date_ids|by apply clean_array].
Qed.

Lemma callable_program t a p : program t a = Some p → callable p.
Proof.
  destruct t as [|b|n|]; simpl.
  - case_decide; [|done]. intros [= <-]. apply callable_initialize.
  - destruct (listener a) as [c|]; [|done]. simpl. intros [= <-].
    apply callable_onNetInfo.
  - intros [= <-]. apply callable_addTransaction.
  - intros [= <-]. apply callable_HomeScreen.
Qed.

Lemma sys_ok_idle a : inv (world a) → sys_ok (idle a).
Proof.
  intros Ha. exists []. split; [constructor|].
  split; [done|apply NoDup_nil_2|by intros ? ?%elem_of_nil..].
Qed.

Lemma sys_ok_inv s : sys_ok s → inv (world (app s)).
Proof. intros (owners & _ & Hs). apply Hs. Qed.

Lemma world_registered t a : world (registered t a) = world a.
Proof. by destruct t. Qed.

Lemma move_ok mv s s' :
  sys_ok s → move mv s = Some s' →
  allowed (world (app s)) (world (app s')) ∧ sys_ok s'.
Proof.
  intros Hs. destruct mv as [t|i]; simpl.
  - destruct (program t (app s)) as [p|] eqn:Hp; [|done]. simpl. intros [= <-].
    exact (spawn_ok p _ _ (callable_program _ _ _ Hp) Hs).
  - destruct (wake i _) as [[w' pool']|] eqn:Hw; [|done]. simpl. intros [= <-].
    exact (wake_ok _ _ _ _ _ Hs Hw).
Qed.

Lemma play_ok ms s s' :
  sys_ok s → play ms s = Some s' →
  allowed (world (app s)) (world (app s')) ∧ sys_ok s'.
Proof.
  revert s. induction ms as [|mv ms IH]; intros s Hs; simpl.
  - by intros [= <-].
  - destruct (move mv s) as [s1|] eqn:Hmv; [|done]. simpl.
    destruct (move_ok _ _ _ Hs Hmv) as [Ha1 Hs1].
    intros [Ha2 Hs2]%IH; [|done]. split; [by etrans|done].
Qed.

(** What a move leaves of the listener. *)
Lemma settled_move c mv s s' :
  sys_ok s → settled c (app s) → move mv s = Some s' → settled c (app s').
Proof.
  intros Hs (Hl & Hc & Hd & Hload) Hmv.
  destruct (move_ok _ _ _ Hs Hmv) as [Ha _].
  pose proof (allowed_loading _ _ Ha Hload) as Hload'. revert Hmv Hload'.
  destruct mv as [t|i]; simpl.
  - destruct (program t (app s)) as [p|] eqn:Hp; [|done]. simpl. intros [= <-].
    destruct t as [|b|n|]; [|done..]. simpl in Hp.
    case_decide as Hdue; [|done]. destruct Hdue. by rewrite Hd, Hload.
  - destruct (wake i _) as [[w' pool']|]; [|done]. simpl. by intros [= <-].
Qed.

Lemma settled_play c ms s s' :
  sys_ok s → settled c (app s) → play ms s = Some s' → settled c (app s').
Proof.
  revert s. induction ms as [|mv ms IH]; intros s Hs Hc; simpl.
  - by intros [= <-].
  - destruct (move mv s) as [s1|] eqn:Hmv; [|done]. simpl.
    apply IH; [by eapply move_ok|by eapply settled_move].
Qed.

(** C2: whatever the event loop does, in whatever order the suspended
    functions are resumed and whatever is called in between, the world
    stays well formed: after every schedule that starts with nothing under
    way, the list of the screens has unique identifiers, every array of
    the heap keeps the identifiers it had, and what was observed before is
    a prefix of what is observed now. *)
Theorem every_schedule_wellformed ms a s :
  inv (world a) → play ms (idle a) = Some s →
  inv (world (app s)) ∧ unique_ids (ledger (world (app s)))
  ∧ trace (world a) `prefix_of` trace (world (app s))
  ∧ ∀ ref, ids (array ref (world a)) ⊆ ids (array ref (world (app s))).
Proof.
  intros Ha Hplay.
  destruct (play_ok ms (idle a) s (sys_ok_idle a Ha) Hplay) as [Hal Hs].
  pose proof (sys_ok_inv s Hs) as Hi.
  split_and!; [done|apply (inv_ledger _ Hi)|apply Hal|apply Hal].
Qed.

(** C5: the guard of the listener fails in every state of every schedule:
    once the effect has run for the last time, whatever happens afterwards,
    the next change of connectivity starts one more sync cycle beside those
    that are under way. *)
Theorem guard_never_holds c ms a s :
  app_ok a → settled c a → play ms (idle a) = Some s →
  ∃ k, move (Call (NetInfoEvent true)) s
       = Some (mkSys (set_world (set_hook_isSyncing true (world (app s))) (app s))
                 (pool s ++ [Node true NetInfo_fetch k])).
Proof.
  intros Ha Hc Hplay.
  pose proof (settled_play c ms _ s (sys_ok_idle a (ok_inv _ Ha)) Hc Hplay)
    as (Hl & Hload & _).
  apply (listener_never_guarded c); [done| |done].
  by destruct (ok_listener _ Ha c (proj1 Hc)).
Qed.
End schedule.

(** ** On a device *)

(** A device that is online, started with the two sample entries. *)
Definition online : App (R:=Collection) :=
  started storage_empty ∅ (env_of [] [] [] [] []).

(** The identifiers of the uploads of a trace, in order. *)
Definition uploaded_ids (t : list Event) : list string :=
  omap (λ ev, match ev with ESetDoc tx _ => Some (id tx) | _ => None end) t.

(** What is seen of a state: the number of suspended functions, the flag
    of the hook and the uploads made so far. *)
Definition seen (s : Sys (R:=Collection)) : nat * bool * list string :=
  (length (pool s), hook_isSyncing (world (app s)),
   uploaded_ids (trace (world (app s)))).

Lemma events_pile_up_witness :
  ∃ s', play (replicate 3 (Call (NetInfoEvent true))) (idle online) = Some s'
        ∧ length (pool s') = 3%nat
        ∧ listener (app s') = Some (mkClosure 1 false false).
Proof. exact (events_pile_up (mkClosure 1 false false) 3 (idle online) eq_refl eq_refl eq_refl). Defined.

Lemma listener_never_guarded_witness :
  ∃ k, move (Call (NetInfoEvent true)) (idle online)
       = Some (mkSys (set_world (set_hook_isSyncing true (world online)) online)
                 [Node true NetInfo_fetch k]).
Proof.
  exact (listener_never_guarded (mkClosure 1 false false) (idle online)
           eq_refl eq_refl eq_refl).
Defined.

(** The state a schedule ends in (the first state when a move of the
    schedule is not enabled). *)
Definition reached (ms : list Move) (a : App (R:=Collection)) : Sys :=
  default (idle a) (play ms (idle a)).

Lemma play_reached ms a :
  is_Some (play ms (idle a)) → play ms (idle a) = Some (reached ms a).
Proof. unfold reached. by intros [s ->]. Qed.

Lemma online_ok :
  app_ok online ∧ settled (render (started_app (env_of [] [] [] [] []))) online.
Proof. apply started_ok, inv_installed_app. Qed.

(** A form is submitted and the network changes while the write of the
    form is awaited; the two functions take turns and the dashboard is
    rendered in between. *)
Definition mixed : list Move :=
  [Call (Submit coffee); Call (NetInfoEvent true); Settle 1; Settle 0;
   Call ShowHome; Settle 0; Settle 1; Settle 0].

Lemma every_schedule_wellformed_witness :
  unique_ids (ledger (world (app (reached mixed online)))).
Proof.
  refine (proj1 (proj2 (every_schedule_wellformed mixed online _
            (ok_inv _ (proj1 online_ok)) (play_reached _ _ _)))).
  apply (fmap_is_Some seen). vm_compute. by eexists.
Defined.

Lemma guard_never_holds_witness :
  ∃ k, move (Call (NetInfoEvent true)) (reached mixed online)
       = Some (mkSys (set_world (set_hook_isSyncing true
                                   (world (app (reached mixed online))))
                        (app (reached mixed online)))
                 (pool (reached mixed online) ++ [Node true NetInfo_fetch k])).
Proof.
  refine (guard_never_holds _ mixed online _ (proj1 online_ok) (proj2 online_ok)
            (play_reached _ _ _)).
  apply (fmap_is_Some seen). vm_compute. by eexists.
Defined.


