(* ===== verification/Elements.v ===== *)
(** * Elements: what a component returns

    A screen of [src/app] is a function that returns a tree of React
    elements.  [JSX Msg] is the type of the values that occur in such a
    tree: strings, numbers ([Num] for an integer, [Ratio num den] for the
    number [num / den]), booleans, names of the scope ([styles.title],
    [theme.colors.primary]), object and array literals, functions, event
    handlers and elements.  An element [<C p1={v1} ...>children</C>] is
    [El "C" [("p1", v1); ...] children].

    A handler is what it does when it is called: a message of type [Msg]
    to the state machine of the screen ([handler] for [() => ...],
    [text_handler] for a handler that takes the text of an input).  Any
    other function is a [func] of its argument as it is printed.

    [toFixed] is [Number.prototype.toFixed(2)] on an amount, which the
    model keeps in hundredths. *)

From stdpp Require Import pretty.
From S2P Require Import Prelude.

#[local] Set Warnings "-register-all".

Inductive JSX (Msg : Type) : Type :=
  | Str (s : string)
  | Num (n : Z)
  | Ratio (num den : Z)
  | Bool (b : bool)
  | Ref (name : string)
  | Obj (fields : list (string * JSX Msg))
  | Arr (items : list (JSX Msg))
  | handler (h : Msg)
  | text_handler (h : string → Msg)
  | func (f : string → JSX Msg)
  | El (component : string) (props : list (string * JSX Msg))
       (children : list (JSX Msg)).
Arguments Str {Msg} s.
Arguments Num {Msg} n.
Arguments Ratio {Msg} num den.
Arguments Bool {Msg} b.
Arguments Ref {Msg} name.
Arguments Obj {Msg} fields.
Arguments Arr {Msg} items.
Arguments handler {Msg} h.
Arguments text_handler {Msg} h.
Arguments func {Msg} f.
Arguments El {Msg} component props children.

(** A [StyleSheet.create] block: the styles by name. *)
Definition StyleSheet : Type := list (string * list (string * JSX Empty_set)).

Section jsx.
Context {Msg : Type}.
Implicit Types (e : JSX Msg) (l : list (JSX Msg)).

(** [o[name]] for the fields of an object: the last one written wins. *)
Definition field (name : string) (fields : list (string * JSX Msg)) :
    option (JSX Msg) :=
  snd <$> last (filter (λ p, p.1 = name) fields).

(** [e.props[name]] *)
Definition prop (name : string) e : option (JSX Msg) :=
  match e with El _ props _ => field name props | _ => None end.

Definition children e : list (JSX Msg) :=
  match e with El _ _ children => children | _ => [] end.

Definition component e : option string :=
  match e with El c _ _ => Some c | _ => None end.

(** The [key] of an element of a list. *)
Definition key e : option string :=
  match prop "key" e with Some (Str s) => Some s | _ => None end.

(** The strings a tree shows: the text children, in the order of the
    tree, those of the elements handed over as props first. *)
Fixpoint texts e : list string :=
  match e with
  | Str s => [s]
  | El _ props children =>
      flat_map (λ p, match p.2 with El _ _ _ => texts p.2 | _ => [] end) props
      ++ flat_map texts children
  | _ => []
  end.

(** The elements of a tree that are instances of component [c], outermost
    first. *)
Fixpoint instances (c : string) e : list (JSX Msg) :=
  match e with
  | El c' props children =>
      (if decide (c' = c) then [e] else [])
      ++ flat_map (λ p, instances c p.2) props
      ++ flat_map (instances c) children
  | Arr items => flat_map (instances c) items
  | _ => []
  end.

(** The values of the buttons of [<SegmentedButtons buttons={[...]} />]. *)
Definition button_values (buttons : option (JSX Msg)) : list string :=
  match buttons with
  | Some (Arr items) =>
      omap (λ b, match b with
                 | Obj fields =>
                     match field "value" fields with
                     | Some (Str v) => Some v
                     | _ => None
                     end
                 | _ => None
                 end) items
  | _ => []
  end.

(** [<SegmentedButtons onValueChange={h} buttons={[...]} />] calls [h]
    with the value of the button that is pressed. *)
Definition segments (c : string) (props : list (string * JSX Msg)) : list Msg :=
  match field "onValueChange" props with
  | Some (text_handler h) =>
      if decide (c = "SegmentedButtons")
      then h <$> button_values (field "buttons" props) else []
  | _ => []
  end.

(** What the user can send by pressing something of a tree. *)
Fixpoint handlers e : list Msg :=
  match e with
  | handler h => [h]
  | El c props children =>
      segments c props
      ++ flat_map (λ p, handlers p.2) props ++ flat_map handlers children
  | Arr items => flat_map handlers items
  | _ => []
  end.

(** The handlers of the text inputs of a tree: each is called with the
    text of its input after every change. *)
Fixpoint inputs e : list (string → Msg) :=
  match e with
  | El c props children =>
      match field "onChangeText" props with
      | Some (text_handler h) => [h]
      | _ => []
      end
      ++ flat_map (λ p, inputs p.2) props ++ flat_map inputs children
  | Arr items => flat_map inputs items
  | _ => []
  end.

(** [sends e m]: the user can make the tree [e] send [m]. *)
Definition sends e (m : Msg) : Prop :=
  m ∈ handlers e ∨ ∃ h s, h ∈ inputs e ∧ m = h s.
End jsx.

(** The states a screen reaches from [init] by what its tree sends. *)
Inductive reachable {State Msg : Type} (view : State → JSX Msg)
    (update : Msg → State → State) (init : State) : State → Prop :=
  | reachable_init : reachable view update init init
  | reachable_send st m :
      reachable view update init st → sends (view st) m →
      reachable view update init (update m st).

(** [FadeInUp.delay(delay).duration(duration)], the animation with which
    an [Animated.View] enters. *)
Definition FadeInUp {Msg} (delay duration : Z) : JSX Msg :=
  Obj [("FadeInUp", Obj [("delay", Num delay); ("duration", Num duration)])].

(** An element of a component of the repository is the tree the component
    returns; [with_key k e] is that element with [key={k}]. *)
Definition with_key {Msg} (k : string) (e : JSX Msg) : JSX Msg :=
  match e with
  | El c props children => El c (props ++ [("key", Str k)]) children
  | _ => e
  end.

(** [<FlatList data={data} renderItem={renderItem}
    keyExtractor={keyExtractor} />]: every item of the data, rendered with
    its index under its key.  The window of the list (which rows are
    mounted) is not modelled. *)
Definition FlatList {A Msg} (data : list A) (renderItem : A → nat → JSX Msg)
    (keyExtractor : A → string) : JSX Msg :=
  El "FlatList" []
    (imap (λ index item, with_key (keyExtractor item) (renderItem item index))
       data).

(** [router.push(href)] and [router.replace(href)] of expo-router. *)
Inductive Router : Set :=
  | router_push (href : string)
  | router_replace (href : string).

(** The path shown after a call of the router. *)
Definition navigate (r : Router) : string :=
  match r with router_push href | router_replace href => href end.

(** ** [Number.prototype.toFixed] *)

(** Two decimal digits. *)
Definition digits2 (n : Z) : string :=
  if decide (n < 10) then "0" +:+ pretty n else pretty n.

(** [x.toFixed(2)] for the amount of [x] hundredths. *)
Definition toFixed (x : Z) : string :=
  (if decide (x < 0) then "-" else "")
  +:+ pretty (Z.abs x `div` 100) +:+ "." +:+ digits2 (Z.abs x `mod` 100).

(** ** Lemmas *)

Section jsx_facts.
Context {Msg : Type}.
Implicit Types (e : JSX Msg) (l : list (JSX Msg)).

Lemma texts_fmap {A} (f : A → JSX Msg) (xs : list A) :
  (f <$> xs) ≫= texts = xs ≫= (texts ∘ f).
Proof. induction xs as [|x xs IH]; csimpl; [done|]. by rewrite IH. Qed.

Lemma field_snoc name (v : JSX Msg) fields :
  field name (fields ++ [(name, v)]) = Some v.
Proof.
  unfold field. rewrite filter_app, filter_cons_True, filter_nil by done.
  by rewrite last_snoc.
Qed.

Lemma key_with_key k c props l : key (with_key k (El c props l)) = Some k.
Proof. unfold key. simpl. by rewrite field_snoc. Qed.

Lemma texts_with_key k e : texts (with_key k e) = texts e.
Proof.
  destruct e; simpl; try done. by rewrite flat_map_app; simpl; rewrite app_nil_r.
Qed.

(** The keys of a list of elements built from a list of data. *)
Lemma keys_fmap {A} (f : A → JSX Msg) (k : A → string) (xs : list A) :
  (∀ x, key (f x) = Some (k x)) → omap key (f <$> xs) = k <$> xs.
Proof.
  intros Hk. induction xs as [|x xs IH]; csimpl; [done|]. by rewrite Hk, IH.
Qed.

Lemma keys_imap {A} (f : nat → A → JSX Msg) (k : A → string) (xs : list A) :
  (∀ i x, key (f i x) = Some (k x)) → omap key (imap f xs) = k <$> xs.
Proof.
  intros Hk. revert f Hk. induction xs as [|x xs IH]; intros f Hk; csimpl; [done|].
  rewrite Hk. f_equal. apply IH. intros i y. apply Hk.
Qed.

(** The rows of a [FlatList] have the keys of the data, in order. *)
Lemma FlatList_keys {A} (data : list A) renderItem keyExtractor :
  (∀ x i, ∃ c props l, renderItem x i = El c props l) →
  omap key (children (FlatList (Msg:=Msg) data renderItem keyExtractor))
  = keyExtractor <$> data.
Proof.
  intros Hel. apply keys_imap. intros i x.
  destruct (Hel x i) as (c & props & l & ->). apply key_with_key.
Qed.

Lemma FlatList_lookup {A} (data : list A) renderItem keyExtractor i x :
  data !! i = Some x →
  children (FlatList (Msg:=Msg) data renderItem keyExtractor) !! i
  = Some (with_key (keyExtractor x) (renderItem x i)).
Proof. intros Hx. simpl. by rewrite list_lookup_imap, Hx. Qed.
End jsx_facts.

