(* ===== verification/Items.v ===== *)
(** * Items: the two list items

    [src/components/TransactionItem.tsx] (an entry of the dashboard's
    recent transactions) and [src/components/HistoryItem.tsx] (an entry of
    the history list), as the trees they return, with their style sheets.

    [toLocaleDateString] depends on the locale of the device and is a
    parameter.  The functions [left] and [right] that [HistoryItem] hands
    to [List.Item] are modelled by the trees they return. *)

From S2P Require Import Prelude Types Elements Views.

(** [theme.colors.primary], [theme.colors.error] *)
Definition theme_colors (c : ThemeColor) : string :=
  match c with
  | primary => "theme.colors.primary"
  | error => "theme.colors.error"
  end.

Module TransactionItem.
Section item.
Context {Msg : Type} (toLocaleDateString : Z → string).

Definition TransactionItem (transaction : Transaction) : JSX Msg :=
  El "View"
    [("key", Str (id transaction)); ("style", Ref "styles.transactionItem")]
    [El "Ionicons"
       [("name", Str (itemIcon transaction));
        ("size", Num 24);
        ("color", Ref (theme_colors (itemColor transaction)))]
       [];
     El "View" [("style", Ref "styles.transactionDetails")]
       [El "Text" [("style", Ref "styles.transactionCategory")]
          [Str (category transaction)];
        El "Text" [("style", Ref "styles.transactionDate")]
          [Str (toLocaleDateString (date transaction))]];
     El "Text"
       [("style", Arr [Ref "styles.transactionAmount";
                       Obj [("color", Ref (theme_colors (itemColor transaction)))]])]
       [Str "$"; Str (toFixed (amount transaction))]].
End item.

Definition styles : StyleSheet :=
  [("transactionItem",
    [("flexDirection", Str "row"); ("alignItems", Str "center");
     ("marginBottom", Num 12)]);
   ("transactionDetails", [("flex", Num 1); ("marginLeft", Num 12)]);
   ("transactionCategory", [("fontSize", Num 16); ("fontWeight", Str "500")]);
   ("transactionDate", [("fontSize", Num 12); ("color", Str "#666")]);
   ("transactionAmount", [("fontSize", Num 16); ("fontWeight", Str "500")])].
End TransactionItem.

Module HistoryItem.
Section item.
Context {Msg : Type} (toLocaleDateString : Z → string).

(** The text of the sync status, byte for byte as the source file has it:
    seven bytes for a synced entry, ten for an unsynced one. *)
Definition syncStatus (item : Transaction) : string :=
  if synced item then "âœ…" else "ðŸ”„".

Definition HistoryItem (item : Transaction) (index : nat) : JSX Msg :=
  El "List.Item"
    [("title", Str (category item));
     ("description", Str (notes item));
     ("left",
      El "List.Icon"
        [("...", Ref "props");
         ("icon", Str (itemIcon item));
         ("color", Ref (theme_colors (itemColor item)))]
        []);
     ("right",
      El "View" [("style", Ref "styles.rowContainer")]
        [El "View" [("style", Ref "styles.amountContainer")]
           [El "Text"
              [("style", Arr [Ref "styles.amount";
                              Obj [("color", Ref (theme_colors (itemColor item)))]])]
              [Str "$"; Str (toFixed (amount item))];
            El "Text" [("style", Ref "styles.date")]
              [Str (toLocaleDateString (date item))]];
         El "Text" [("style", Ref "styles.syncStatus")]
           [Str (syncStatus item)]])]
    [].
End item.

Definition styles : StyleSheet :=
  [("transactionItem",
    [("flexDirection", Str "row"); ("alignItems", Str "center");
     ("marginBottom", Num 12)]);
   ("rowContainer",
    [("flexDirection", Str "row"); ("justifyContent", Str "space-between");
     ("gap", Num 2)]);
   ("amountContainer", [("alignItems", Str "flex-end")]);
   ("amount", [("fontSize", Num 16); ("fontWeight", Str "bold")]);
   ("date", [("fontSize", Num 12); ("color", Str "#666")]);
   ("syncStatus", [("fontSize", Num 18); ("marginLeft", Num 8)])].
End HistoryItem.

(** ** What the items show *)

Section shown.
Context {Msg : Type} (toLocaleDateString : Z → string).

Lemma TransactionItem_key tx :
  key (TransactionItem.TransactionItem (Msg:=Msg) toLocaleDateString tx)
  = Some (id tx).
Proof. done. Qed.

(** An entry of the dashboard shows the category, the date and the amount
    with two decimals, and nothing of the sync state. *)
Lemma TransactionItem_texts tx :
  texts (TransactionItem.TransactionItem (Msg:=Msg) toLocaleDateString tx)
  = [category tx; toLocaleDateString (date tx); "$"; toFixed (amount tx)].
Proof. done. Qed.

(** An entry of the history shows the amount, the date and the sync
    status; the category and the notes are the title and the description
    of the item. *)
Lemma HistoryItem_texts item index :
  texts (HistoryItem.HistoryItem (Msg:=Msg) toLocaleDateString item index)
  = ["$"; toFixed (amount item); toLocaleDateString (date item);
     HistoryItem.syncStatus item].
Proof. done. Qed.
End shown.
