(* ===== verification/ScreenHome.v ===== *)
(** * ScreenHome: the dashboard, [src/app/index.tsx]

    [Views.HomeScreen] is the first half of the component: the totals, the
    balance and the five recent transactions, computed from the array of
    the provider (which it sorts in place).  [Home.view] is the second
    half, the tree the component returns for these values, and
    [Home.HomeScreen] is the component.  The only handler of the screen is
    the button that opens the history. *)

From S2P Require Import Prelude Effects Types Ledger Storage Remote.
From S2P Require Import Engine EngineRules EngineInv EngineSpec SyncProps.
From S2P Require Import Views Elements Items.

Module Home.
Section screen.
Context (toLocaleDateString : Z → string).

(** A card of the summary: lines 45-66 and 67-88. *)
Definition summaryCard (delay : Z) (icon : string) (color : ThemeColor)
    (label : string) (total : Z) : JSX Router :=
  El "Animated.View"
    [("style", Ref "styles.summaryCard"); ("entering", FadeInUp delay 1000)]
    [El "Card" []
       [El "Card.Content" []
          [El "View" [("style", Ref "styles.summaryIconContainer")]
             [El "Ionicons"
                [("name", Str icon); ("size", Num 24);
                 ("color", Ref (theme_colors color))]
                []];
           El "Text" [("style", Ref "styles.summaryLabel")] [Str label];
           El "Text"
             [("style", Arr [Ref "styles.summaryAmount";
                             Obj [("color", Ref (theme_colors color))]])]
             [Str "$"; Str (toFixed total)]]]].

(** [recentTransactions.map((transaction) => <TransactionItem ... />)] *)
Definition recentItems (recentTransactions : list Transaction) :
    list (JSX Router) :=
  (λ transaction,
     with_key (id transaction)
       (TransactionItem.TransactionItem toLocaleDateString transaction))
  <$> recentTransactions.

(** The tree [HomeScreen] returns. *)
Definition view (d : Dashboard) : JSX Router :=
  El "ScrollView" [("style", Ref "styles.container")]
    [El "Animated.View" [("entering", FadeInUp 200 1000)]
       [El "Card" [("style", Ref "styles.balanceCard")]
          [El "Card.Content" []
             [El "Text" [("style", Ref "styles.balanceLabel")]
                [Str "Current Balance"];
              El "Text"
                [("style", Arr [Ref "styles.balanceAmount";
                                Obj [("color", Ref "theme.colors.primary")]])]
                [Str "$"; Str (toFixed (shown_balance d))]]]];
     El "View" [("style", Ref "styles.summaryContainer")]
       [summaryCard 400 "arrow-up-circle" primary "Income" (shown_income d);
        summaryCard 600 "arrow-down-circle" error "Expenses" (shown_expenses d)];
     El "Animated.View" [("entering", FadeInUp 800 1000)]
       [El "Card" [("style", Ref "styles.recentTransactionsCard")]
          [El "Card.Title" [("title", Str "Recent Transactions")] [];
           El "Card.Content" [] (recentItems (shown_recent d));
           El "Card.Actions" []
             [El "Button" [("onPress", handler (router_push "/history"))]
                [Str "View All"]]]]].

(** The component: one render. *)
Definition HomeScreen {R : Type} `{!RemoteLedger R} (c : Closure) :
    M (World R) Error (JSX Router) :=
  d <- Views.HomeScreen c ;;
  ret (view d).
End screen.

Definition styles : StyleSheet :=
  [("container",
    [("flex", Num 1); ("padding", Num 16); ("backgroundColor", Str "#f5f5f5")]);
   ("balanceCard", [("marginBottom", Num 16); ("elevation", Num 4)]);
   ("balanceLabel", [("fontSize", Num 16); ("color", Str "#666")]);
   ("balanceAmount", [("fontSize", Num 36); ("fontWeight", Str "bold")]);
   ("summaryContainer",
    [("flexDirection", Str "row"); ("justifyContent", Str "space-between");
     ("marginBottom", Num 16)]);
   ("summaryCard", [("flex", Num 1); ("marginHorizontal", Num 4)]);
   ("summaryIconContainer", [("marginBottom", Num 8)]);
   ("summaryLabel", [("fontSize", Num 14); ("color", Str "#666")]);
   ("summaryAmount", [("fontSize", Num 20); ("fontWeight", Str "bold")]);
   ("recentTransactionsCard", [("marginBottom", Num 16); ("elevation", Num 4)])].
End Home.

(** ** What the dashboard shows *)

Section shown.
Context (toLocaleDateString : Z → string).

#[local] Abbreviation item :=
  (TransactionItem.TransactionItem (Msg:=Router) toLocaleDateString).

Lemma recentItems_keys l :
  omap key (Home.recentItems toLocaleDateString l) = ids l.
Proof. apply keys_fmap. intros tx. apply key_with_key. Qed.

Lemma recentItems_texts l :
  Home.recentItems toLocaleDateString l ≫= texts
  = l ≫= λ tx, [category tx; toLocaleDateString (date tx); "$"; toFixed (amount tx)].
Proof.
  unfold Home.recentItems. rewrite texts_fmap. apply list_bind_ext; [|done].
  intros tx. unfold compose. by rewrite texts_with_key.
Qed.

(** The strings of the dashboard, in reading order. *)
Lemma dashboard_texts d :
  texts (Home.view toLocaleDateString d)
  = ["Current Balance"; "$"; toFixed (shown_balance d);
     "Income"; "$"; toFixed (shown_income d);
     "Expenses"; "$"; toFixed (shown_expenses d)]
    ++ (shown_recent d ≫= λ tx,
          [category tx; toLocaleDateString (date tx); "$"; toFixed (amount tx)])
    ++ ["View All"].
Proof.
  cbn -[Home.recentItems toFixed]. rewrite !app_nil_r.
  change (flat_map texts ?l) with (l ≫= texts). by rewrite recentItems_texts.
Qed.

(** The dashboard can do one thing: open the history. *)
Lemma dashboard_handlers d :
  handlers (Home.view toLocaleDateString d) = [router_push "/history"].
Proof.
  cbn -[Home.recentItems toFixed]. rewrite !app_nil_r.
  induction (shown_recent d) as [|tx l IH]; [done|]. exact IH.
Qed.
End shown.

(** ** The dashboard on the ledger *)

Section dashboard.
Context {R : Type} `{!RemoteLedger R}.
Context (toLocaleDateString : Z → string).
Implicit Types (w : World R) (c : Closure).

(** One render of the dashboard answers the tree of the values of
    [Views.HomeScreen], and leaves the world [Views.HomeScreen] leaves. *)
Lemma HomeScreen_run c w :
  outcome (Home.HomeScreen toLocaleDateString c) w
  = match outcome (Views.HomeScreen c) w with
    | Ok d => Ok (Home.view toLocaleDateString d)
    | Throw e => Throw e
    end
  ∧ exec (Home.HomeScreen toLocaleDateString c) w = exec (Views.HomeScreen c) w.
Proof.
  unfold Home.HomeScreen, outcome, exec, bind.
  destruct (Views.HomeScreen c w) as [[d|e] w']; by simpl.
Qed.

Lemma HomeScreen_outcome c w :
  outcome (Views.HomeScreen c) w
  = Ok (mkDashboard (totalIncome (array (transactions c) w))
          (totalExpenses (array (transactions c) w))
          (balance (array (transactions c) w))
          (recentTransactions (array (transactions c) w))).
Proof. wp_start. unfold Views.HomeScreen. by wp_go. Qed.

Lemma recent_unique l : unique_ids l → NoDup (ids (recentTransactions l)).
Proof.
  intros Hl. unfold recentTransactions, js_slice0.
  eapply sublist_NoDup; [apply sort_by_date_unique, Hl|].
  unfold ids. apply fmap_sublist, sublist_take.
Qed.

(** C29: in a well-formed world, a render of the dashboard for the current
    closure shows at most five entries, the most recent ones, each under
    its identifier as key, and no two keys are the same; the balance shown
    is the income shown minus the expenses shown. *)
Theorem dashboard_keys_unique c w :
  inv w → transactions c = hook_transactions w →
  ∃ d, outcome (Home.HomeScreen toLocaleDateString c) w
       = Ok (Home.view toLocaleDateString d)
     ∧ shown_recent d = recentTransactions (ledger w)
     ∧ omap key (Home.recentItems toLocaleDateString (shown_recent d))
       = ids (recentTransactions (ledger w))
     ∧ NoDup (ids (recentTransactions (ledger w)))
     ∧ (length (shown_recent d) ≤ 5)%nat
     ∧ shown_balance d = shown_income d - shown_expenses d.
Proof.
  intros Hw Hc. destruct (HomeScreen_run c w) as [-> _].
  rewrite HomeScreen_outcome. eexists. split; [done|].
  cbn [shown_recent shown_balance shown_income shown_expenses].
  unfold ledger. rewrite <- Hc, recentItems_keys.
  split_and!; [done|done|apply recent_unique, (inv_array w _ Hw)| |done].
  unfold recentTransactions, js_slice0. rewrite length_take. lia.
Qed.
End dashboard.

Lemma dashboard_keys_unique_witness :
  ∃ d, outcome (Home.HomeScreen (λ _, "") (mkClosure 1 false false))
         (started_app (env_of [] [] [] [] []))
       = Ok (Home.view (λ _, "") d)
     ∧ shown_recent d
       = recentTransactions (ledger (started_app (env_of [] [] [] [] [])))
     ∧ omap key (Home.recentItems (λ _, "") (shown_recent d))
       = ids (recentTransactions (ledger (started_app (env_of [] [] [] [] []))))
     ∧ NoDup (ids (recentTransactions
                     (ledger (started_app (env_of [] [] [] [] [])))))
     ∧ (length (shown_recent d) ≤ 5)%nat
     ∧ shown_balance d = shown_income d - shown_expenses d.
Proof.
  exact (dashboard_keys_unique (λ _, "") (mkClosure 1 false false)
           (started_app (env_of [] [] [] [] []))
           (inv_started_app [] [] [] [] []) eq_refl).
Defined.
