(* ===== verification/ScreenHistory.v ===== *)
(** * ScreenHistory: the history, [src/app/history.tsx]

    The screen has two state variables, the search string and the selected
    type; the search bar and the three chips set them.  [Views] holds the
    filter and the sort; [History.view] is the tree the component returns
    and [History.TransactionHistoryScreen] the component.  The filter
    builds a new array, so that the sort of this screen, unlike the one of
    the dashboard, leaves the array of the provider as it is. *)

From stdpp Require Import sorting.
From S2P Require Import Prelude Effects Types Ledger Storage Remote.
From S2P Require Import Engine EngineRules EngineInv EngineSpec SyncProps.
From S2P Require Import Views Elements Items.

#[global] Instance SelectedType_eq_dec : EqDecision SelectedType.
Proof. solve_decision. Defined.

Module History.

(** The two [useState] hooks. *)
Record State : Set := mkState {
  searchQuery : string;
  selectedType : SelectedType;
}.

Definition init : State := mkState "" all.

Inductive Msg : Set :=
  | setSearchQuery (q : string)
  | setSelectedType (t : SelectedType).

Definition update (m : Msg) (st : State) : State :=
  match m with
  | setSearchQuery q => mkState q (selectedType st)
  | setSelectedType t => mkState (searchQuery st) t
  end.

Section screen.
Context (toLocaleDateString : Z → string).

Definition renderItem (item : Transaction) (index : nat) : JSX Msg :=
  El "Animated.View" [("entering", FadeInUp (Z.of_nat index * 100) 500)]
    [HistoryItem.HistoryItem toLocaleDateString item index].

Definition keyExtractor (item : Transaction) : string := id item.

(** One of the three chips: lines 44-50, 51-57 and 58-64. *)
Definition chip (st : State) (t : SelectedType) (label : string) : JSX Msg :=
  El "Chip"
    [("selected", Bool (bool_decide (selectedType st = t)));
     ("onPress", handler (setSelectedType t));
     ("style", Ref "styles.filterChip")]
    [Str label].

(** The tree [TransactionHistoryScreen] returns. *)
Definition view (transactions : list Transaction) (st : State) : JSX Msg :=
  El "View" [("style", Ref "styles.container")]
    [El "Searchbar"
       [("placeholder", Str "Search transactions");
        ("onChangeText", text_handler setSearchQuery);
        ("value", Str (searchQuery st));
        ("style", Ref "styles.searchBar")]
       [];
     El "View" [("style", Ref "styles.filterContainer")]
       [chip st all "All";
        chip st (only income) "Income";
        chip st (only expense) "Expense"];
     FlatList (historyData (searchQuery st) (selectedType st) transactions)
       renderItem keyExtractor].

(** The component: one render, for the list of the context value. *)
Definition TransactionHistoryScreen {R : Type} `{!RemoteLedger R}
    (c : Closure) (st : State) : M (World R) Error (JSX Msg) :=
  transactions <- gets (array (transactions c)) ;;
  ret (view transactions st).
End screen.

Definition styles : StyleSheet :=
  [("container", [("flex", Num 1); ("backgroundColor", Str "#f5f5f5")]);
   ("searchBar", [("margin", Num 16); ("elevation", Num 4)]);
   ("filterContainer",
    [("flexDirection", Str "row"); ("justifyContent", Str "space-around");
     ("marginBottom", Num 16)]);
   ("filterChip", [("marginHorizontal", Num 4)]);
   ("amountContainer", [("alignItems", Str "flex-end")]);
   ("amount", [("fontSize", Num 16); ("fontWeight", Str "bold")]);
   ("date", [("fontSize", Num 12); ("color", Str "#666")]);
   ("syncStatus", [("fontSize", Num 18); ("marginLeft", Num 8)]);
   ("rowContainer", [("flexDirection", Str "row"); ("gap", Num 2)])].
End History.

(** ** The rows of the list *)

Section rows.
Context (toLocaleDateString : Z → string).

(** The rows of the list: the third child of the screen. *)
Definition rows (l : list Transaction) (st : History.State) :
    list (JSX History.Msg) :=
  children (FlatList
              (historyData (History.searchQuery st) (History.selectedType st) l)
              (History.renderItem toLocaleDateString) History.keyExtractor).

Lemma history_rows l st :
  children (History.view toLocaleDateString l st) !! 2%nat
  = Some (El "FlatList" [] (rows l st)).
Proof. done. Qed.

Lemma rows_keys l st :
  omap key (rows l st)
  = ids (historyData (History.searchQuery st) (History.selectedType st) l).
Proof. apply FlatList_keys. intros x i. by eexists _, _, _. Qed.

Lemma historyData_unique q sel l : unique_ids l → unique_ids (historyData q sel l).
Proof.
  intros Hl. apply sort_by_date_unique. unfold filteredTransactions.
  eapply sublist_NoDup; [exact Hl|]. apply fmap_sublist, sublist_filter.
Qed.

(** An identifier is the key of a row exactly when its transaction
    matches the search and the selected type. *)
Lemma rows_match l st tx :
  unique_ids l → tx ∈ l →
  id tx ∈ omap key (rows l st)
  ↔ matches (History.searchQuery st) (History.selectedType st) tx = true.
Proof.
  intros Hl Htx. rewrite rows_keys. unfold historyData, ids, sort_by_date.
  rewrite list_elem_of_fmap. setoid_rewrite elem_of_js_sort.
  setoid_rewrite elem_of_filteredTransactions. split; [|by eauto].
  intros (tx' & Hid & Hin & Hm).
  by rewrite (unique_ids_inj l tx tx' Hl Htx Hin Hid).
Qed.

(** The [index]-th row enters [index * 100] ms after the screen. *)
Lemma rows_delay l st i tx :
  historyData (History.searchQuery st) (History.selectedType st) l !! i = Some tx →
  ∃ row body, rows l st !! i = Some row
    ∧ row = El "Animated.View"
              [("entering", FadeInUp (Z.of_nat i * 100) 500); ("key", Str (id tx))]
              body.
Proof.
  intros Hi. unfold rows. rewrite (FlatList_lookup _ _ _ _ _ Hi). by eexists _, _.
Qed.
End rows.

(** ** The history on the ledger *)

Section history.
Context {R : Type} `{!RemoteLedger R}.
Context (toLocaleDateString : Z → string).
Implicit Types (w : World R) (c : Closure) (st : History.State).

Lemma TransactionHistoryScreen_run c st w :
  History.TransactionHistoryScreen toLocaleDateString c st w
  = (Ok (History.view toLocaleDateString (array (transactions c) w) st), w).
Proof. done. Qed.

(** C28: in a well-formed world the history shows, for the closure of the
    current render, one row for each transaction of the list that matches
    the search and the selected type and no other row, the latest first,
    each under its identifier as key, no two keys the same; the render
    changes nothing, the order of the list of the provider included. *)
Theorem history_rows_spec c st w :
  inv w → transactions c = hook_transactions w →
  History.TransactionHistoryScreen toLocaleDateString c st w
  = (Ok (History.view toLocaleDateString (ledger w) st), w)
  ∧ NoDup (omap key (rows toLocaleDateString (ledger w) st))
  ∧ (∀ tx, tx ∈ ledger w →
       id tx ∈ omap key (rows toLocaleDateString (ledger w) st)
       ↔ matches (History.searchQuery st) (History.selectedType st) tx = true)
  ∧ StronglySorted (λ a b, date b ≤ date a)
      (historyData (History.searchQuery st) (History.selectedType st) (ledger w)).
Proof.
  intros Hw Hc. pose proof (inv_ledger w Hw) as [Hl _].
  rewrite TransactionHistoryScreen_run, Hc. split_and!; [done| | |].
  - rewrite rows_keys. by apply historyData_unique.
  - intros tx Htx. by apply rows_match.
  - apply sort_by_date_sorted.
Qed.
End history.

Lemma history_rows_spec_witness :
  NoDup (omap key (rows (λ _, "")
                     (ledger (started_app (env_of [] [] [] [] [])))
                     (History.mkState "gro" (only expense)))).
Proof.
  exact (proj1 (proj2 (history_rows_spec (λ _, "") (mkClosure 1 false false)
                         (History.mkState "gro" (only expense))
                         (started_app (env_of [] [] [] [] []))
                         (inv_started_app [] [] [] [] []) eq_refl))).
Defined.
