(* ===== verification/ScreenCharts.v ===== *)
(** * ScreenCharts: the analytics, [src/app/charts.tsx]

    The screen has one state variable, the chart type.  At run time it is
    a string: [setChartType(value as ChartType)] stores whatever the
    segmented buttons hand over, and the [switch] of [renderChart] has no
    default.  [Views] holds the expenses by category and the entries of the
    pie chart; this file adds the data of the bar chart and of the line
    chart, [renderChart], the tree the component returns, and the
    component.

    The data of the line chart are six calls of [Math.random]: the
    component draws them from the [Source] of [Sample] at every render,
    whatever chart is shown.  A number that is not an integer is a
    [Ratio]: an amount of [a] hundredths is [Ratio a 100], a draw [r]
    times one hundred is [Ratio (r * 100) RES]. *)

From stdpp Require Import pretty.
From S2P Require Import Prelude Effects Types Ledger Sample Views Elements.

Module Charts.

Definition init : string := "pie".

Inductive Msg : Set := setChartType (value : string).

Definition update (m : Msg) (chartType : string) : string :=
  match m with setChartType value => value end.

Section screen.
Context (screenWidth : Z).

(** An entry of [pieChartData], lines 33-39. *)
Definition entry (d : ChartData) : JSX Msg :=
  Obj [("name", Str (name d));
       ("amount", Ratio (chart_amount d) 100);
       ("color", Str ("hsl(" +:+ pretty (hue d) +:+ ", 70%, 50%)"));
       ("legendFontColor", Str "#7F7F7F");
       ("legendFontSize", Num 12)].

Definition barChartData (expensesByCategory : list (string * Z)) : JSX Msg :=
  Obj [("labels", Arr (Str <$> expensesByCategory.*1));
       ("datasets",
        Arr [Obj [("data",
                   Arr ((λ amount, Ratio amount 100) <$> expensesByCategory.*2))]])].

(** The labels of the line chart. *)
Definition months : list string := ["Jan"; "Feb"; "Mar"; "Apr"; "May"; "Jun"].

Definition lineChartData : Gen (JSX Msg) :=
  r1 <- Math_random ;;
  r2 <- Math_random ;;
  r3 <- Math_random ;;
  r4 <- Math_random ;;
  r5 <- Math_random ;;
  r6 <- Math_random ;;
  ret (Obj [("labels", Arr (Str <$> months));
            ("datasets",
             Arr [Obj [("data",
                        Arr ((λ r, Ratio (r * 100) RES)
                             <$> [r1; r2; r3; r4; r5; r6]))]])]).

(** The [chartConfig] of the bar chart and of the line chart. *)
Definition chartConfig : JSX Msg :=
  Obj [("backgroundGradientFrom", Ref "theme.colors.background");
       ("backgroundGradientTo", Ref "theme.colors.background");
       ("color", func (λ opacity, Ref "theme.colors.primary"));
       ("labelColor", func (λ opacity, Ref "theme.colors.text"))].

(** [renderChart]: [None] is the [undefined] a [switch] without default
    answers when no case matches. *)
Definition renderChart (chartType : string) (pieChartData : list ChartData)
    (barChartData lineChartData : JSX Msg) : option (JSX Msg) :=
  if decide (chartType = "pie") then
    Some (El "PieChart"
            [("data", Arr (entry <$> pieChartData));
             ("width", Num (screenWidth - 32));
             ("height", Num 220);
             ("chartConfig",
              Obj [("color",
                    func (λ opacity, Str ("rgba(0, 0, 0, " +:+ opacity +:+ ")")))]);
             ("accessor", Str "amount");
             ("backgroundColor", Str "transparent");
             ("paddingLeft", Str "15");
             ("absolute", Bool true)]
            [])
  else if decide (chartType = "bar") then
    Some (El "BarChart"
            [("data", barChartData);
             ("width", Num (screenWidth - 32));
             ("height", Num 220);
             ("yAxisLabel", Str "$");
             ("chartConfig", chartConfig);
             ("verticalLabelRotation", Num 30)]
            [])
  else if decide (chartType = "line") then
    Some (El "LineChart"
            [("data", lineChartData);
             ("width", Num (screenWidth - 32));
             ("height", Num 220);
             ("yAxisLabel", Str "$");
             ("chartConfig", chartConfig);
             ("bezier", Bool true)]
            [])
  else None.

(** The tree [ChartsScreen] returns; an [undefined] child is no child. *)
Definition view (chartType : string) (chart : option (JSX Msg)) : JSX Msg :=
  El "ScrollView" [("style", Ref "styles.container")]
    [El "Animated.View" [("entering", FadeInUp 200 1000)]
       ([El "Text" [("style", Ref "styles.title")] [Str "Expense Analytics"];
         El "SegmentedButtons"
           [("value", Str chartType);
            ("onValueChange", text_handler setChartType);
            ("buttons",
             Arr [Obj [("value", Str "pie"); ("label", Str "Pie Chart")];
                  Obj [("value", Str "bar"); ("label", Str "Bar Chart")];
                  Obj [("value", Str "line"); ("label", Str "Line Chart")]]);
            ("style", Ref "styles.segmentedButtons")]
           []]
        ++ option_list chart)].

(** The component: one render, for the list of the context value. *)
Definition ChartsScreen (transactions : list Transaction) (chartType : string) :
    Gen (JSX Msg) :=
  let expensesByCategory := expensesByCategory transactions in
  let pieChartData := pieChartData transactions in
  let barChartData := barChartData expensesByCategory in
  lineChartData <- lineChartData ;;
  ret (view chartType
         (renderChart chartType pieChartData barChartData lineChartData)).
End screen.

Definition styles : StyleSheet :=
  [("container",
    [("flex", Num 1); ("padding", Num 16); ("backgroundColor", Str "#f5f5f5")]);
   ("title",
    [("fontSize", Num 24); ("fontWeight", Str "bold"); ("marginBottom", Num 16);
     ("textAlign", Str "center")]);
   ("segmentedButtons", [("marginBottom", Num 16)])].
End Charts.

(** ** The chart type *)

(** Whatever chart is drawn, the screen can send the three chart types
    and nothing else. *)
Lemma charts_handlers chartType chart :
  (∀ e, chart = Some e → handlers e = [] ∧ inputs e = []) →
  ∀ m, sends (Charts.view chartType chart) m
       ↔ m ∈ Charts.setChartType <$> ["pie"; "bar"; "line"].
Proof.
  intros Hchart m. unfold sends.
  assert (handlers (Charts.view chartType chart)
          = Charts.setChartType <$> ["pie"; "bar"; "line"]
          ∧ inputs (Charts.view chartType chart) = []) as [-> ->].
  { destruct chart as [e|]; [|done]. destruct (Hchart e eq_refl) as [He Hi].
    cbn. by rewrite He, Hi. }
  split; [intros [?|(? & ? & []%elem_of_nil & _)]|]; by eauto.
Qed.

Lemma renderChart_inert w chartType pd bd ld e :
  Charts.renderChart w chartType pd bd ld = Some e →
  handlers bd = [] → inputs bd = [] → handlers ld = [] → inputs ld = [] →
  handlers e = [] ∧ inputs e = [].
Proof.
  unfold Charts.renderChart. intros He Hb1 Hb2 Hl1 Hl2.
  repeat case_decide; simplify_eq; cbn; rewrite ?Hb1, ?Hb2, ?Hl1, ?Hl2; [|done..].
  induction pd as [|d pd [IH1 IH2]]; [done|]. by cbn in *.
Qed.

(** ** The data of the charts *)

(** The six draws of a render. *)
Definition points (s : Source) : list Z := (λ k, draw s k * 100) <$> seq 0 6.

Lemma lineChartData_run s :
  Charts.lineChartData s
  = (Ok (Obj [("labels", Arr (Str <$> Charts.months));
              ("datasets",
               Arr [Obj [("data", Arr ((λ n, Ratio n RES) <$> points s))]])]),
     advance 6 s).
Proof.
  unfold Charts.lineChartData, Math_random, bind, ret, points. cbn.
  by rewrite !draw_advance, !advance_advance.
Qed.

Lemma points_range s n : n ∈ points s → 0 ≤ n < 100 * RES.
Proof.
  unfold points. intros (k & -> & _)%list_elem_of_fmap.
  pose proof (draw_range s k). lia.
Qed.

Lemma pieChartData_names l : name <$> pieChartData l = (expensesByCategory l).*1.
Proof.
  unfold pieChartData. rewrite fmap_imap.
  rewrite (imap_ext _ (const fst)); [apply imap_const|]. by intros i [k v] _.
Qed.

Lemma pieChartData_amounts l :
  chart_amount <$> pieChartData l = (expensesByCategory l).*2.
Proof.
  unfold pieChartData. rewrite fmap_imap.
  rewrite (imap_ext _ (const snd)); [apply imap_const|]. by intros i [k v] _.
Qed.

Lemma barChartData_fields l :
  Charts.barChartData (expensesByCategory l)
  = Obj [("labels", Arr (Str <$> (name <$> pieChartData l)));
         ("datasets",
          Arr [Obj [("data",
                     Arr ((λ a, Ratio a 100) <$> (chart_amount <$> pieChartData l)))]])].
Proof. by rewrite pieChartData_names, pieChartData_amounts. Qed.

(** ** The screen as a state machine *)

Section machine.
Context (screenWidth : Z) (transactions : list Transaction).

(** The state of the screen: the chart type and the random source. *)
Definition rendered (st : string * Source) : JSX Charts.Msg :=
  match outcome (Charts.ChartsScreen screenWidth transactions st.1) st.2 with
  | Ok e => e
  | Throw _ => Str ""
  end.

Definition pressed (m : Charts.Msg) (st : string * Source) : string * Source :=
  (Charts.update m st.1,
   exec (Charts.ChartsScreen screenWidth transactions st.1) st.2).

(** The chart of a render. *)
Definition chart (st : string * Source) : option (JSX Charts.Msg) :=
  Charts.renderChart screenWidth st.1 (pieChartData transactions)
    (Charts.barChartData (expensesByCategory transactions))
    (Obj [("labels", Arr (Str <$> Charts.months));
          ("datasets",
           Arr [Obj [("data", Arr ((λ n, Ratio n RES) <$> points st.2))]])]).

Lemma ChartsScreen_run chartType s :
  Charts.ChartsScreen screenWidth transactions chartType s
  = (Ok (Charts.view chartType (chart (chartType, s))), advance 6 s).
Proof.
  unfold Charts.ChartsScreen. cbv zeta. unfold bind. by rewrite lineChartData_run.
Qed.

Lemma rendered_sends st m :
  sends (rendered st) m ↔ m ∈ Charts.setChartType <$> ["pie"; "bar"; "line"].
Proof.
  unfold rendered, outcome. rewrite ChartsScreen_run. cbn [fst].
  apply charts_handlers. intros e He.
  by apply (renderChart_inert _ _ _ _ _ _ He).
Qed.

(** C38: the cast [value as ChartType] never fails: in every state the
    screen reaches by its segmented buttons the chart type is ['pie'],
    ['bar'] or ['line'], and [renderChart] answers a chart, although its
    [switch] has no default. *)
Theorem chartType_safe s0 st :
  reachable rendered pressed (Charts.init, s0) st →
  st.1 ∈ ["pie"; "bar"; "line"] ∧ is_Some (chart st).
Proof.
  intros Hst. assert (st.1 ∈ ["pie"; "bar"; "line"]) as Hin.
  { induction Hst as [|st m _ _ Hm]; [set_solver|].
    apply rendered_sends in Hm. destruct m as [value]. set_solver. }
  split; [done|]. destruct st as [ct s]. unfold chart, Charts.renderChart.
  cbn [fst] in *. repeat case_decide; try done. set_solver.
Qed.
End machine.

Lemma chartType_safe_witness :
  (pressed 400 [] (Charts.setChartType "bar")
     (Charts.init, mkSource (λ _, 0) 0 0)).1 ∈ ["pie"; "bar"; "line"].
Proof.
  refine (proj1 (chartType_safe 400 [] (mkSource (λ _, 0) 0 0) _ _)).
  apply reachable_send; [apply reachable_init|].
  apply rendered_sends. set_solver.
Defined.

(** ** The numbers of the charts *)

Lemma sum_with_fmap {A B} (g : A → B) (f : B → Z) l :
  sum_with f (g <$> l) = sum_with (f ∘ g) l.
Proof.
  induction l as [|x l IH]; csimpl; [done|]. by rewrite !sum_with_cons, IH.
Qed.

Lemma expenses_sum l : sum_with snd (expensesByCategory l) = totalExpenses l.
Proof.
  unfold expensesByCategory, totalExpenses.
  rewrite foldl_bump_total, sum_with_nil. lia.
Qed.

(** C39: the line chart is six random numbers under the names of six
    months: every point is a draw of [Math.random] times one hundred, at
    least 0 and less than 100, the transactions play no part in it, and
    every render draws six new numbers, whatever chart is shown. *)
Theorem lineChart_random screenWidth transactions chartType s :
  Charts.lineChartData s
  = (Ok (Obj [("labels", Arr (Str <$> Charts.months));
              ("datasets",
               Arr [Obj [("data", Arr ((λ n, Ratio n RES) <$> points s))]])]),
     advance 6 s)
  ∧ exec (Charts.ChartsScreen screenWidth transactions chartType) s = advance 6 s
  ∧ length (points s) = 6%nat
  ∧ ∀ n, n ∈ points s → 0 ≤ n < 100 * RES.
Proof.
  split_and!; [apply lineChartData_run| |done|apply points_range].
  unfold exec. by rewrite ChartsScreen_run.
Qed.

(** The bar chart and the pie chart show the same numbers: the
    labels of the bars are the names of the slices and the heights of the
    bars their amounts, in the same order; no category has two bars, and
    the bars add up to the total of the expenses. *)
Theorem barChart_matches_pie l :
  Charts.barChartData (expensesByCategory l)
  = Obj [("labels", Arr (Str <$> (name <$> pieChartData l)));
         ("datasets",
          Arr [Obj [("data",
                     Arr ((λ a, Ratio a 100) <$> (chart_amount <$> pieChartData l)))]])]
  ∧ NoDup (name <$> pieChartData l)
  ∧ sum_with chart_amount (pieChartData l) = totalExpenses l.
Proof.
  split_and!; [apply barChartData_fields| |].
  - rewrite pieChartData_names. apply foldl_bump_NoDup, NoDup_nil_2.
  - transitivity (sum_with (λ a, a) (chart_amount <$> pieChartData l));
      [by rewrite sum_with_fmap|].
    rewrite pieChartData_amounts, sum_with_fmap. apply expenses_sum.
Qed.
