(* ===== verification/ScreenAdd.v ===== *)
(** * ScreenAdd: the form, [src/app/add.tsx]

    The screen keeps the form of react-hook-form ([useForm]) and one state
    variable of its own, the visibility of the menu of categories.

    What is modelled of react-hook-form (version 7, with its default
    modes) is what the screen uses: the values of the four fields, the
    errors of the two fields that have a [required] rule, [handleSubmit],
    which validates the rules and calls [onSubmit] only when none is
    violated, the validation of a field at each change once the form was
    submitted, and [reset].  A [required] rule rejects the empty string
    and nothing else.

    [Add.send] is what a message of the tree does, as a function of the
    provider: all messages but the press of the button change the form
    alone.  [handleSubmit] runs in one piece: what happens when the form is
    changed while [addTransaction] is suspended is not modelled.
    [parseFloat] is a parameter, as in [Views]. *)

From S2P Require Import Prelude Effects Types Ledger Sample Storage Remote.
From S2P Require Import Engine EngineRules EngineInv EngineSpec EngineFrame.
From S2P Require Import SyncProps Views Elements.

Module Add.

(** [formState.errors]: the message of the rule a field violates. *)
Record Errors : Set := mkErrors {
  amount_error : option string;
  category_error : option string;
}.

#[global] Instance Errors_eq_dec : EqDecision Errors.
Proof. solve_decision. Defined.

Definition no_errors : Errors := mkErrors None None.

Record State : Set := mkState {
  values : FormData;
  errors : Errors;
  isSubmitted : bool;
  menuVisible : bool;
}.

(** [defaultValues] of [useForm]. *)
Definition defaultValues : FormData := mkFormData "" "" "" expense.

(** The first render. *)
Definition init : State := mkState defaultValues no_errors false false.

Inductive Msg : Set :=
  | changeType (val : string)
  | changeAmount (text : string)
  | changeNotes (text : string)
  | setMenuVisible (visible : bool)
  | pickCategory (cat : string)
  | pressSubmit
  | pathnameChanged (pathname : string).

#[global] Instance Msg_eq_dec : EqDecision Msg.
Proof. solve_decision. Defined.

(** The rules of the two [Controller]s that have one. *)
Definition validate (data : FormData) : Errors :=
  mkErrors
    (if decide (data_amount data = "") then Some "Amount is required" else None)
    (if decide (data_category data = "") then Some "Category is required"
     else None).

(** A change of a field: the value is stored, and the rules are checked
    again once the form was submitted. *)
Definition changed (data : FormData) (st : State) : State :=
  mkState data (if isSubmitted st then validate data else errors st)
    (isSubmitted st) (menuVisible st).

(** [reset()] *)
Definition reset (st : State) : State :=
  mkState defaultValues no_errors false (menuVisible st).

(** The value of a segmented button as a type; the buttons have the two
    values ['expense'] and ['income']. *)
Definition type_of (val : string) : option TransactionType :=
  if decide (val = "expense") then Some expense
  else if decide (val = "income") then Some income
  else None.

(** What a message other than the press of the button does. *)
Definition update (m : Msg) (st : State) : State :=
  let data := values st in
  match m with
  | changeType val =>
      match type_of val with
      | Some type =>
          changed (mkFormData (data_amount data) (data_category data)
                     (data_notes data) type) st
      | None => st
      end
  | changeAmount text =>
      changed (mkFormData text (data_category data) (data_notes data)
                 (data_type data)) st
  | changeNotes text =>
      changed (mkFormData (data_amount data) (data_category data) text
                 (data_type data)) st
  | setMenuVisible visible =>
      mkState data (errors st) (isSubmitted st) visible
  | pickCategory cat =>
      let st := changed (mkFormData (data_amount data) cat (data_notes data)
                           (data_type data)) st in
      mkState (values st) (errors st) (isSubmitted st) false
  | pathnameChanged pathname =>
      if decide (pathname = "/add") then reset st else st
  | pressSubmit => st
  end.

Section screen.
Context {R : Type} `{!RemoteLedger R}.
Context (parseFloat : string → Z).

#[local] Abbreviation Eff := (M (World R) Error).

(** [onSubmit]: the new state of the form and where the router goes. *)
Definition onSubmit (c : Closure) (st : State) : Eff (State * option Router) :=
  let data := values st in
  if bool_decide (data_amount data ≠ "") && bool_decide (data_category data ≠ "")
  then
    date <- Date_now ;;
    let newTransaction :=
      mkNewTransaction (parseFloat (data_amount data)) (data_category data)
        (data_type data) date (data_notes data) in
    addTransaction c newTransaction ;;
    ret (reset st, Some (router_replace "/"))
  else ret (st, None).

(** [handleSubmit(onSubmit)]: the rules are checked; [onSubmit] is called
    when none is violated; the form counts as submitted afterwards. *)
Definition handleSubmit (c : Closure) (st : State) :
    Eff (State * option Router) :=
  let errors := validate (values st) in
  if decide (errors = no_errors) then
    r <- onSubmit c (mkState (values st) no_errors (isSubmitted st)
                       (menuVisible st)) ;;
    let '(st', route) := r in
    ret (mkState (values st') (Add.errors st') true (menuVisible st'), route)
  else ret (mkState (values st) errors true (menuVisible st), None).

(** What a message does. *)
Definition send (c : Closure) (m : Msg) (st : State) :
    Eff (State * option Router) :=
  match m with
  | pressSubmit => handleSubmit c st
  | _ => ret (update m st, None)
  end.
End screen.

(** The text under a field whose rule is violated. *)
Definition errorText (error : option string) : list (JSX Msg) :=
  match error with
  | Some message => [El "Text" [("style", Ref "styles.errorText")] [Str message]]
  | None => []
  end.

(** The tree [AddTransactionScreen] returns. *)
Definition view (st : State) : JSX Msg :=
  let data := values st in
  El "ScrollView" [("style", Ref "styles.container")]
    [El "Animated.View" [("entering", FadeInUp 200 1000)]
       ([El "Text" [("style", Ref "styles.title")] [Str "Add New Transaction"];
         El "Controller"
           [("control", Ref "control"); ("name", Str "type");
            ("render",
             El "SegmentedButtons"
               [("value", Str (type_name (data_type data)));
                ("onValueChange", text_handler changeType);
                ("buttons",
                 Arr [Obj [("value", Str "expense"); ("label", Str "Expense")];
                      Obj [("value", Str "income"); ("label", Str "Income")]]);
                ("style", Ref "styles.segmentedButtons")]
               [])]
           [];
         El "Controller"
           [("control", Ref "control"); ("name", Str "amount");
            ("rules", Obj [("required", Str "Amount is required")]);
            ("render",
             El "TextInput"
               [("label", Str "Amount");
                ("value", Str (data_amount data));
                ("onChangeText", text_handler changeAmount);
                ("keyboardType", Str "numeric");
                ("style", Ref "styles.input");
                ("mode", Str "outlined");
                ("error", Bool (bool_decide (is_Some (amount_error (errors st)))))]
               [])]
           []]
        ++ errorText (amount_error (errors st))
        ++ [El "Controller"
              [("control", Ref "control"); ("name", Str "category");
               ("rules", Obj [("required", Str "Category is required")]);
               ("render",
                El "" []
                  (El "Menu"
                     [("visible", Bool (menuVisible st));
                      ("onDismiss", handler (setMenuVisible false));
                      ("anchor",
                       El "TextInput"
                         [("label", Str "Category");
                          ("value", Str (data_category data));
                          ("onFocus", handler (setMenuVisible true));
                          ("style", Ref "styles.input");
                          ("mode", Str "outlined");
                          ("error",
                           Bool (bool_decide
                                   (is_Some (category_error (errors st)))));
                          ("right",
                           El "TextInput.Icon"
                             [("icon", Str "menu-down");
                              ("onPress", handler (setMenuVisible true))]
                             [])]
                         [])]
                     ((λ cat,
                         El "Menu.Item"
                           [("key", Str cat);
                            ("onPress", handler (pickCategory cat));
                            ("title", Str cat)]
                           [])
                      <$> categories)
                   :: errorText (category_error (errors st))))]
              [];
            El "Controller"
              [("control", Ref "control"); ("name", Str "notes");
               ("render",
                El "TextInput"
                  [("label", Str "Notes");
                   ("value", Str (data_notes data));
                   ("onChangeText", text_handler changeNotes);
                   ("multiline", Bool true);
                   ("style", Ref "styles.input");
                   ("mode", Str "outlined")]
                  [])]
              [];
            El "Button"
              [("mode", Str "contained");
               ("onPress", handler pressSubmit);
               ("style", Ref "styles.button");
               ("labelStyle", Ref "styles.buttonLabel")]
              [Str "Add Transaction"]])].

Definition styles : StyleSheet :=
  [("container",
    [("flex", Num 1); ("padding", Num 16); ("backgroundColor", Str "#f5f5f5")]);
   ("title",
    [("fontSize", Num 24); ("fontWeight", Str "bold"); ("marginBottom", Num 16);
     ("textAlign", Str "center")]);
   ("segmentedButtons", [("marginBottom", Num 16)]);
   ("input", [("marginBottom", Num 16)]);
   ("button", [("marginTop", Num 16); ("paddingVertical", Num 8)]);
   ("buttonLabel", [("fontSize", Num 16)]);
   ("errorText",
    [("color", Str "red"); ("fontSize", Num 12); ("marginBottom", Num 8)])].
End Add.

(** ** What the form can send *)

(** The presses of the form: the two types, the menu, its items and the
    button. *)
Definition presses : list Add.Msg :=
  [Add.changeType "expense"; Add.changeType "income";
   Add.setMenuVisible false; Add.setMenuVisible true; Add.setMenuVisible true]
  ++ (Add.pickCategory <$> categories) ++ [Add.pressSubmit].

Lemma form_handlers st : handlers (Add.view st) = presses.
Proof.
  destruct st as [data [[a|] [c|]] s v]; cbn -[categories]; by vm_compute.
Qed.

Lemma form_inputs st : inputs (Add.view st) = [Add.changeAmount; Add.changeNotes].
Proof. destruct st as [data [[a|] [c|]] s v]; by vm_compute. Qed.

(** The form sends what its presses and its two text inputs send. *)
Lemma form_sends st m :
  sends (Add.view st) m
  ↔ m ∈ presses ∨ (∃ text, m = Add.changeAmount text)
    ∨ (∃ text, m = Add.changeNotes text).
Proof.
  unfold sends. rewrite form_handlers, form_inputs. split.
  - intros [?|(h & text & Hh & ->)]; [by left|right].
    apply elem_of_cons in Hh as [->|Hh]; [by eauto|].
    apply list_elem_of_singleton in Hh as ->. by eauto.
  - intros [?|[[text ->]|[text ->]]]; [by left|right..]; eexists _, text;
      (split; [|done]); set_solver.
Qed.

(** ** The rules and the guard *)

(** The rules hold exactly when the guard of [onSubmit] does. *)
Lemma validate_guard data :
  Add.validate data = Add.no_errors
  ↔ bool_decide (data_amount data ≠ "") && bool_decide (data_category data ≠ "")
    = true.
Proof.
  unfold Add.validate, Add.no_errors.
  rewrite andb_true_iff, !bool_decide_eq_true.
  repeat case_decide; split; (intros [??] || intros [=]); done.
Qed.

(** The category of the form is empty or one of the menu. *)
Definition form_ok (st : Add.State) : Prop :=
  data_category (Add.values st) ∈ "" :: categories.

Lemma form_ok_update m st :
  m ∈ presses ∨ (∃ text, m = Add.changeAmount text)
    ∨ (∃ text, m = Add.changeNotes text) ∨ (∃ p, m = Add.pathnameChanged p) →
  form_ok st → form_ok (Add.update m st).
Proof.
  unfold form_ok. intros Hm Hst.
  destruct Hm as [Hm|[[? ->]|[[? ->]|[p ->]]]]; [|done|done|].
  - unfold presses in Hm. rewrite !elem_of_app, !elem_of_cons in Hm.
    destruct Hm as [Hm|[Hm|Hm]].
    + destruct Hm as [->|[->|[->|[->|[->|[]%elem_of_nil]]]]]; done.
    + apply list_elem_of_fmap in Hm as (cat & -> & Hcat). simpl. by right.
    + by destruct Hm as [->|[]%elem_of_nil].
  - simpl. case_decide; [|done]. by left.
Qed.

(** ** The press of the button *)

Section submit.
Context {R : Type} `{!RemoteLedger R}.
Context (parseFloat : string → Z).
Implicit Types (w : World R) (c : Closure) (st : Add.State).

(** The transaction the form describes at the instant [date]. *)
Definition described (data : FormData) (date : Z) : NewTransaction :=
  mkNewTransaction (parseFloat (data_amount data)) (data_category data)
    (data_type data) date (data_notes data).

(** The form after a press of the button that the rules refuse. *)
Definition refused st : Add.State :=
  Add.mkState (Add.values st) (Add.validate (Add.values st)) true
    (Add.menuVisible st).

(** The form after a press of the button that went through. *)
Definition submitted st : Add.State :=
  Add.mkState Add.defaultValues Add.no_errors true (Add.menuVisible st).

Lemma wp_handleSubmit c st Q w :
  wp (Add.handleSubmit parseFloat c st) Q w
  = if decide (Add.validate (Add.values st) = Add.no_errors)
    then Q (Ok (submitted st, Some (router_replace "/")))
           (added c (described (Add.values st) (now (env w))) w)
    else Q (Ok (refused st, None)) w.
Proof.
  unfold Add.handleSubmit. cbv zeta. case_decide as Hv; [|by rewrite wp_ret].
  unfold Add.onSubmit. cbv zeta. cbn [Add.values].
  rewrite (proj1 (validate_guard _) Hv).
  rewrite !wp_bind, wp_Date_now. unfold wp_then.
  rewrite wp_bind, wp_addTransaction. unfold wp_then. by rewrite !wp_ret.
Qed.

(** The state and the world after a message. *)
Definition next (c : Closure) (m : Add.Msg) (x : Add.State * World R) :
    Add.State * World R :=
  (match outcome (Add.send parseFloat c m x.1) x.2 with
   | Ok (st, _) => st
   | Throw _ => x.1
   end,
   exec (Add.send parseFloat c m x.1) x.2).

(** The runs of the form: it is sent what its tree can send, or the path
    of the router changes, each time under the closure of some render. *)
Inductive runs : Add.State * World R → Add.State * World R → Prop :=
  | runs_refl x : runs x x
  | runs_step c m x y :
      sends (Add.view x.1) m ∨ (∃ p, m = Add.pathnameChanged p) →
      runs (next c m x) y → runs x y.

Lemma next_ok c m x :
  sends (Add.view x.1) m ∨ (∃ p, m = Add.pathnameChanged p) →
  form_ok x.1 → inv x.2 → form_ok (next c m x).1 ∧ inv (next c m x).2.
Proof.
  destruct x as [st w]. cbn [fst snd]. rewrite form_sends. intros Hm Hst Hw.
  destruct (decide (m = Add.pressSubmit)) as [->|Hne].
  - unfold next. cbn [fst snd Add.send]. wp_start. rewrite wp_handleSubmit.
    case_decide; [|done]. split; [by left|].
    rewrite <- exec_addTransaction. apply (inv_for_inv []).
    by apply keeps_addTransaction, inv_for_nil.
  - assert (Add.send (R:=R) parseFloat c m st = ret (Add.update m st, None))
      as Hs by by destruct m.
    unfold next. cbn [fst snd]. rewrite Hs. split; [|done].
    apply form_ok_update; [|done]. tauto.
Qed.

Lemma runs_ok x y : runs x y → form_ok x.1 → inv x.2 → form_ok y.1 ∧ inv y.2.
Proof.
  induction 1 as [|c m x y Hm _ IH]; [done|]. intros Hst Hw.
  destruct (next_ok c m x Hm Hst Hw). by apply IH.
Qed.

(** C23: a press of the button adds a transaction exactly when the amount
    and the category are filled in.  When one of them is empty, nothing
    but the form changes: it shows the message of each empty field and
    keeps its values.  Otherwise [addTransaction] is called once, with the
    amount parsed, the fields of the form and the instant of the clock as
    the date; the form is emptied and the router goes to the dashboard. *)
Theorem pressSubmit_spec c st w :
  let data := Add.values st in
  let m := Add.send parseFloat c Add.pressSubmit st in
  (data_amount data = "" ∨ data_category data = "" →
   m w = (Ok (refused st, None), w)
   ∧ (data_amount data = ""
      ↔ Add.amount_error (Add.errors (refused st)) = Some "Amount is required")
   ∧ (data_category data = ""
      ↔ Add.category_error (Add.errors (refused st))
        = Some "Category is required"))
  ∧ (data_amount data ≠ "" → data_category data ≠ "" →
     outcome m w = Ok (submitted st, Some (router_replace "/"))
     ∧ exec m w
       = exec (addTransaction c (described data (now (env w)))) w).
Proof.
  cbv zeta. cbn [Add.send]. split.
  - intros Hempty.
    assert (Add.validate (Add.values st) ≠ Add.no_errors) as Hv.
    { rewrite validate_guard, andb_true_iff, !bool_decide_eq_true. tauto. }
    split; [|unfold refused, Add.validate; cbn; split; by case_decide].
    apply injective_projections; cbn [fst snd];
      [change (outcome (Add.handleSubmit parseFloat c st) w = Ok (refused st, None))
      |change (exec (Add.handleSubmit parseFloat c st) w = w)];
      wp_start; by rewrite wp_handleSubmit, decide_False.
  - intros Ha Hc.
    assert (Add.validate (Add.values st) = Add.no_errors) as Hv.
    { by rewrite validate_guard, andb_true_iff, !bool_decide_eq_true. }
    wp_start. rewrite wp_handleSubmit, decide_True by done.
    by rewrite exec_addTransaction.
Qed.

(** C40: in every state the form reaches from its first render, by what
    its tree can send and by changes of the path, the category is empty or
    one of the categories of the menu, and the world of the provider stays
    well formed. *)
Theorem add_form_invariant w y :
  inv w → runs (Add.init, w) y →
  data_category (Add.values y.1) ∈ "" :: categories ∧ inv y.2.
Proof.
  intros Hw Hruns. apply (runs_ok _ _ Hruns); [by left|done].
Qed.
End submit.

Lemma pressSubmit_spec_witness :
  Add.send (λ _, 350) (mkClosure 1 false false) Add.pressSubmit Add.init
    (started_app (env_of [] [] [] [] []))
  = (Ok (refused Add.init, None), started_app (env_of [] [] [] [] [])).
Proof.
  exact (proj1 (proj1 (pressSubmit_spec (λ _, 350) (mkClosure 1 false false)
                         Add.init (started_app (env_of [] [] [] [] [])))
                  (or_introl eq_refl))).
Defined.

Lemma add_form_invariant_witness :
  let w := started_app (env_of [] [] [] [] []) in
  let c := mkClosure 1 false false in
  let x := next (λ _, 350) c Add.pressSubmit
             (next (λ _, 350) c (Add.changeAmount "3.50")
                (next (λ _, 350) c (Add.pickCategory "Food") (Add.init, w))) in
  data_category (Add.values x.1) ∈ "" :: categories.
Proof.
  intros w c x.
  refine (proj1 (add_form_invariant (λ _, 350) w x
                   (inv_started_app [] [] [] [] []) _)).
  apply (runs_step _ c (Add.pickCategory "Food"));
    [left; apply form_sends; left; apply (bool_decide_unpack _); by vm_compute|].
  apply (runs_step _ c (Add.changeAmount "3.50"));
    [left; apply form_sends; right; left; by eexists|].
  apply (runs_step _ c Add.pressSubmit);
    [left; apply form_sends; left; apply (bool_decide_unpack _); by vm_compute|].
  apply runs_refl.
Defined.
