(* ===== verification/Layout.v ===== *)
(** * Layout: the tabs, [src/app/_layout.tsx]

    The layout provides the theme and the transactions to four tabs.
    [Views] holds the icons of the tab bar; this file adds the theme, the
    options of the tabs and the tree [AppLayout] returns.

    The theme is [MD3LightTheme] of react-native-paper with three colours
    replaced; the base theme is a parameter.  The function [tabBarIcon] of
    the options is [Layout.tabBarIcon], named [Ref "tabBarIcon"] in the
    object of the options.  expo-router serves the screen of the file
    [index.tsx] at the path [/] and the screen of [name.tsx] at [/name]. *)

From S2P Require Import Prelude Effects Types Ledger Storage Remote Engine.
From S2P Require Import Views Elements Items ScreenHome ScreenAdd.

(** ** The context of the provider, [src/context/TransactionContext.tsx] *)

Module Provider.
Section provider.
Context {R : Type} `{!RemoteLedger R}.

(** [TransactionContextType] *)
Record TransactionContextType : Type := mkContext {
  transactions : list Transaction;
  addTransaction : NewTransaction → M (World R) Error unit;
}.

(** [createContext<TransactionContextType | undefined>(undefined)]: what
    [useContext] answers where no provider is above. *)
Definition TransactionContext : option TransactionContextType := None.

(** [useTransactions]: the value of the context, or the error thrown. *)
Definition useTransactions (context : option TransactionContextType) :
    TransactionContextType + string :=
  match context with
  | None => inr "useTransactions must be used within a TransactionProvider"
  | Some context => inl context
  end.

(** The [value] of the provider at a render. *)
Definition value (w : World R) : TransactionContextType :=
  mkContext (ledger w) (Engine.addTransaction (render w)).
End provider.

(** The tree [TransactionProvider] returns. *)
Definition TransactionProvider {Msg} (children : list (JSX Msg)) : JSX Msg :=
  El "TransactionContext.Provider"
    [("value",
      Obj [("transactions", Ref "transactions");
           ("addTransaction", Ref "addTransaction")])]
    children.

(** [useContext] in a tree: every element of component [c] lies below an
    element of component [provider]. *)
Fixpoint provided {Msg} (provider c : string) (below : bool) (e : JSX Msg) :
    bool :=
  match e with
  | El c' props children =>
      let below' := below || bool_decide (c' = provider) in
      (if decide (c' = c) then below else true)
      && forallb (λ p, provided provider c below' p.2) props
      && forallb (provided provider c below') children
  | Arr items => forallb (provided provider c below) items
  | _ => true
  end.
End Provider.

Module Layout.
Section theme.
Context {Msg : Type} (MD3LightTheme : list (string * JSX Msg)).

(** [MD3LightTheme.colors] *)
Definition base_colors : list (string * JSX Msg) :=
  match field "colors" MD3LightTheme with Some (Obj colors) => colors | _ => [] end.

Definition theme : list (string * JSX Msg) :=
  MD3LightTheme
  ++ [("colors",
       Obj (base_colors
            ++ [("primary", Str "#6200ee");
                ("secondary", Str "#03dac6");
                ("background", Str "#f5f5f5")]))].

(** [theme.colors[name]] *)
Definition color (name : string) : option (JSX Msg) :=
  match field "colors" theme with
  | Some (Obj colors) => field name colors
  | _ => None
  end.

(** The [tabBarIcon] of the options of a route. *)
Definition tabBarIcon (route_name : string) (focused : bool) (color : string)
    (size : Z) : JSX Msg :=
  El "Ionicons"
    [("name", Str (Views.tabBarIcon route_name focused));
     ("size", Num size);
     ("color", Str color)]
    [].

(** [screenOptions]: the options of the tab of a route. *)
Definition screenOptions (route_name : string) : JSX Msg :=
  Obj [("tabBarIcon", Ref "tabBarIcon");
       ("tabBarActiveTintColor", Ref "theme.colors.primary");
       ("tabBarInactiveTintColor", Str "gray");
       ("tabBarStyle", Obj [("backgroundColor", Str "white")]);
       ("headerStyle", Obj [("backgroundColor", Ref "theme.colors.primary")]);
       ("headerTintColor", Str "white")].

(** The four screens, with their titles. *)
Definition screens : list (string * string) :=
  [("index", "Dashboard"); ("add", "Add Transaction");
   ("history", "Transaction History"); ("charts", "Analytics")].

(** The tree [AppLayout] returns. *)
Definition AppLayout : JSX Msg :=
  El "PaperProvider" [("theme", Obj theme)]
    [Provider.TransactionProvider
       [El "Tabs" [("screenOptions", func screenOptions)]
          ((λ '(name, title),
              El "Tabs.Screen"
                [("name", Str name); ("options", Obj [("title", Str title)])]
                [])
           <$> screens);
        El "Toast" [] []]].
End theme.

(** The path at which expo-router serves the screen of a file. *)
Definition path_of (name : string) : string :=
  if decide (name = "index") then "/" else "/" +:+ name.

(** The screen a path leads to. *)
Definition route_of (pathname : string) : option RouteName :=
  (λ r, r.2.2)
  <$> list_find (λ r, path_of r.1 = pathname)
        [("index", route_index); ("add", route_add);
         ("history", route_history); ("charts", route_charts)].
End Layout.

(** ** The theme *)

Section theme_facts.
Context {Msg : Type} (MD3LightTheme : list (string * JSX Msg)).

Lemma field_app_r name (fs gs : list (string * JSX Msg)) v :
  field name gs = Some v → field name (fs ++ gs) = Some v.
Proof.
  unfold field. rewrite filter_app.
  destruct (filter _ gs) as [|g gs'] eqn:Hgs using rev_ind; [done|].
  intros Hv. by rewrite app_assoc, last_snoc, <- Hv, last_snoc.
Qed.

Lemma field_app_l name (fs gs : list (string * JSX Msg)) :
  name ∉ gs.*1 → field name (fs ++ gs) = field name fs.
Proof.
  intros Hn. unfold field. rewrite filter_app.
  replace (filter _ gs) with (@nil (string * JSX Msg)); [by rewrite app_nil_r|].
  symmetry. apply filter_none, Forall_forall. intros [k v] Hin Hk.
  apply Hn, list_elem_of_fmap. by exists (k, v).
Qed.

(** The three colours of the layout replace those of the base theme;
    every other colour is the one of the base theme. *)
Lemma theme_colors_spec name :
  Layout.color MD3LightTheme name
  = if decide (name = "primary") then Some (Str "#6200ee")
    else if decide (name = "secondary") then Some (Str "#03dac6")
    else if decide (name = "background") then Some (Str "#f5f5f5")
    else field name (Layout.base_colors MD3LightTheme).
Proof.
  unfold Layout.color, Layout.theme. rewrite field_snoc.
  repeat case_decide; subst; try (by apply field_app_r).
  apply field_app_l. set_solver.
Qed.
End theme_facts.

(** ** Navigation *)

(** The titles of the tabs are those of four different screens, one for
    each route, and every route has its two icons. *)
Lemma screens_routes :
  routeName <$> (Layout.screens).*1
  = Some <$> [route_index; route_add; route_history; route_charts].
Proof. done. Qed.

(** Every call of the router leads to a screen of the layout: the
    button of the dashboard opens the history, and a submission of the
    form returns to the dashboard. *)
Theorem router_calls_resolve toLocaleDateString d :
  Layout.route_of <$> (navigate <$> handlers (Home.view toLocaleDateString d))
  = [Some route_history]
  ∧ Layout.route_of (navigate (router_replace "/")) = Some route_index
  ∧ ∀ r, r ∈ [route_index; route_add; route_history; route_charts] →
         ∃ name title, (name, title) ∈ Layout.screens ∧ routeName name = Some r
                       ∧ Layout.route_of (Layout.path_of name) = Some r.
Proof.
  rewrite dashboard_handlers. split_and!; [done..|].
  intros r Hr. repeat (apply elem_of_cons in Hr as [->|Hr]);
    [by exists "index", "Dashboard"; split_and!; [set_solver|..]
    |by exists "add", "Add Transaction"; split_and!; [set_solver|..]
    |by exists "history", "Transaction History"; split_and!; [set_solver|..]
    |by exists "charts", "Analytics"; split_and!; [set_solver|..]
    |by apply elem_of_nil in Hr].
Qed.

(** ** The context *)

(** C50: [useTransactions] throws outside a provider and nowhere in the
    application: the four screens and the tabs of the layout lie below the
    provider, whatever the base theme, and below the provider the hook
    answers the list of the current state and the [addTransaction] of the
    current render. *)
Theorem useTransactions_provided {R : Type} `{!RemoteLedger R} {Msg}
    (MD3LightTheme : list (string * JSX Msg)) (w : World R) :
  Provider.useTransactions (R:=R) Provider.TransactionContext
  = inr "useTransactions must be used within a TransactionProvider"
  ∧ Provider.useTransactions (Some (Provider.value w))
    = inl (Provider.mkContext (ledger w) (Engine.addTransaction (render w)))
  ∧ Provider.provided "TransactionContext.Provider" "Tabs.Screen" false
      (Layout.AppLayout MD3LightTheme) = true
  ∧ Provider.provided "TransactionContext.Provider" "Tabs" false
      (Layout.AppLayout MD3LightTheme) = true.
Proof. split_and!; [done..|by vm_compute|by vm_compute]. Qed.
