(* ===== verification/Submit.v ===== *)
(** * Submit: the press of the button, [await] by [await]

    [ScreenAdd] runs [handleSubmit] in one piece.  The function is
    [async]: it awaits [onSubmit], which awaits [addTransaction], which is
    suspended at the write to the store, at [NetInfo.fetch] and at the
    upload.  Meanwhile the form is on the screen as it was: its button can
    be pressed again.

    [Ui] is the state of the screen and of the provider together; module
    [Pressed] holds [onSubmit] and [handleSubmit] as programs of [Await]
    over it, the functions of the provider being those of [EngineAsync],
    lifted.  [handleSubmit_refines]: with the awaits forgotten, a press is
    what [ScreenAdd] says.  [double_press_stored]: two presses in a row
    add the transaction twice to the state and once to the store, in
    whatever order the awaited operations settle. *)

From S2P Require Import Prelude Effects Types Ledger Sample Storage Remote.
From S2P Require Import Engine EngineRules EngineInv EngineSpec EngineFrame.
From S2P Require Import SyncProps Views Await EngineAsync Elements ScreenAdd.

Module Pressed.
Section pressed.
Context {R : Type} `{!RemoteLedger R}.
Context (parseFloat : string → Z).

(** The form, the path of the router and the world of the provider. *)
Record Ui : Type := mkUi {
  form : Add.State;
  pathname : string;
  world : World R;
}.

Definition set_form (f : Add.State → Add.State) (u : Ui) : Ui :=
  mkUi (f (form u)) (pathname u) (world u).

Definition set_pathname (p : string) (u : Ui) : Ui :=
  mkUi (form u) p (world u).

(** A function of the provider changes the world and nothing else. *)
Definition on_world {A} (m : M (World R) Error A) : M Ui Error A :=
  λ u, ((m (world u)).1, mkUi (form u) (pathname u) (m (world u)).2).

Fixpoint lift {A} (p : Prog (World R) Error A) : Prog Ui Error A :=
  match p with
  | Done o => Done o
  | Node yield m k => Node yield (on_world m) (λ o, lift (k o))
  end.

#[local] Open Scope prog_scope.

(** [onSubmit] *)
Definition onSubmit (c : Closure) (data : FormData) : Prog Ui Error unit :=
  if bool_decide (data_amount data ≠ "") && bool_decide (data_category data ≠ "")
  then
    date <- sync (on_world Date_now) ;;
    lift (Async.addTransaction c (described parseFloat data date)) ;;
    sync (modify (set_form Add.reset)) ;;
    sync (modify (set_pathname (navigate (router_replace "/"))))
  else pret ().

(** [handleSubmit(onSubmit)], for the values the form has at the press. *)
Definition handleSubmit (c : Closure) : Prog Ui Error unit :=
  u <- sync get ;;
  let data := Add.values (form u) in
  let errors := Add.validate data in
  if decide (errors = Add.no_errors) then
    sync (modify (set_form (λ st,
            Add.mkState (Add.values st) Add.no_errors (Add.isSubmitted st)
              (Add.menuVisible st)))) ;;
    onSubmit c data ;;
    sync (modify (set_form (λ st,
            Add.mkState (Add.values st) (Add.errors st) true
              (Add.menuVisible st))))
  else
    sync (modify (set_form (λ st,
            Add.mkState (Add.values st) errors true (Add.menuVisible st)))).

(** A press of the button: [handleSubmit] is called with the
    [addTransaction] of the current render. *)
Definition press (st : Ui * list (Prog Ui Error unit)) :
    Ui * list (Prog Ui Error unit) :=
  spawn (handleSubmit (render (world st.1))) st.
End pressed.
End Pressed.

(** ** With the awaits forgotten *)

Section refines.
Context {R : Type} `{!RemoteLedger R}.
Context (parseFloat : string → Z).
Implicit Types (u : Pressed.Ui (R:=R)) (c : Closure).

Lemma interp_lift {A} (p : Prog (World R) Error A) :
  interp (Pressed.lift p) ≡ Pressed.on_world (interp p).
Proof.
  induction p as [o|y X m k IH]; intros u; [by destruct u|].
  cbn [Pressed.lift interp]. unfold Pressed.on_world at 1.
  destruct (m (Pressed.world u)) as [o w'] eqn:Hm. cbn [fst snd].
  rewrite IH. unfold Pressed.on_world. cbn [interp Pressed.world]. by rewrite Hm.
Qed.

Lemma run_addTransaction c n (w : World R) :
  Engine.addTransaction c n w = (Ok (), added c n w).
Proof.
  apply injective_projections; cbn [fst snd];
    [change (outcome (Engine.addTransaction c n) w = Ok ())
    |change (exec (Engine.addTransaction c n) w = added c n w)];
    wp_start; by rewrite wp_addTransaction.
Qed.

Lemma interp_onSubmit c data u :
  data_amount data ≠ "" → data_category data ≠ "" →
  interp (Pressed.onSubmit parseFloat c data) u
  = (Ok (),
     Pressed.mkUi (Add.reset (Pressed.form u)) "/"
       (added c (described parseFloat data (now (env (Pressed.world u))))
          (Pressed.world u))).
Proof.
  intros Ha Hc. unfold Pressed.onSubmit. rewrite !bool_decide_true by done.
  cbn [andb]. unfold Date_now, gets.
  rewrite (interp_pbind _ _ _). unfold bind at 1. rewrite (interp_sync _ _).
  unfold Pressed.on_world at 1. cbn [fst snd].
  rewrite (interp_pbind _ _ _). unfold bind at 1. rewrite (interp_lift _ _).
  unfold Pressed.on_world at 1. cbn [Pressed.world Pressed.form Pressed.pathname].
  rewrite (refines_addTransaction c _ _), run_addTransaction. by cbn [fst snd].
Qed.

End refines.

(** ** Two presses in a row

    The device is offline, the form holds an amount and a category, and
    the button is pressed twice before anything that the first press
    awaits has settled.  Both calls of [addTransaction] belong to the same
    render: each writes its [transactions] and its own transaction to the
    store, and each appends to the state. *)

#[global] Instance FormData_eq_dec : EqDecision FormData.
Proof. solve_decision. Defined.

Definition filled : Add.State :=
  Add.mkState (mkFormData "3.50" "Food" "" expense) Add.no_errors false false.

Definition offline_form : Pressed.Ui (R:=Collection) :=
  Pressed.mkUi filled "/add" (started_app (env_of [false; false] [] [] [] [])).

Definition pressed_twice :
    Pressed.Ui (R:=Collection) * list (Prog Pressed.Ui Error unit) :=
  Pressed.press (λ _, 350) (Pressed.press (λ _, 350) (offline_form, [])).

(** The state holds the transactions of both presses, the store the
    transaction of one of them; the form is empty and the dashboard is on
    the screen. *)
Definition one_stored (u : Pressed.Ui (R:=Collection)) : Prop :=
  id <$> ledger (Pressed.world u) ≡ₚ ["s1"; "s2"; "u0"; "u1"]
  ∧ id <$> stored (storage (Pressed.world u))
    ∈ [["s1"; "s2"; "u0"]; ["s1"; "s2"; "u1"]]
  ∧ Pressed.pathname u = "/"
  ∧ Add.values (Pressed.form u) = Add.defaultValues.

(** C16: a second press of the button while the first is suspended adds
    the transaction a second time, and in whatever order the awaited
    operations settle, the store keeps one of the two transactions only:
    the other is on the screen until the application restarts. *)
Theorem double_press_stored ixs u :
  wakes ixs pressed_twice = Some (u, []) → one_stored u.
Proof.
  intros Hw.
  refine (bool_decide_eq_true_1 _
            (outcomes_all 4 _ (λ u, bool_decide (one_stored u)) ixs u _ Hw)).
  by vm_compute.
Qed.

Lemma double_press_stored_witness :
  let u := default offline_form (fst <$> wakes [0; 1; 0; 0]%nat pressed_twice) in
  one_stored u.
Proof.
  intros u. apply (double_press_stored [0; 1; 0; 0]%nat). by vm_compute.
Defined.
